(* ===== verification/_CoqProject ===== *)
-Q . S2P
Prelude.v
GameTree.v
TicTacToe.v
Othello.v
AccountManager.v
Forex.v
PyString.v
KeyGuess.v
AccountEditor.v
GameDraw.v
Weather.v
WeatherReport.v
SqlManager.v
SqlSession.v
QMatrix.v
Portfolio.v
PortfolioApp.v
ForexIndicators.v
Image.v
SaintSaens.v
