(* ===== verification/Prelude.v ===== *)
(** * A verification of [scleung-astro/python-apps]: game engines and apps

    The repository is a bundle of small Python desktop utilities.  The part
    with algorithmic content is the pair of board games [src/tictactoe.py]
    and [src/othello.py]: each has a backend class ([Tictactoe],
    [Othello]) owning the grid and the rules, a [Tree] class and the
    methods [extend_tree] / [decision_tree] implementing a minimax search
    (the same code, duplicated), and a pygame frontend ([TicTacToeApp],
    [OthelloApp]) whose main loop handles the mouse events of a frame and
    then lets the AI (player 1) move by [player_step].

    ** Files
    - [Prelude] (this file): the Python semantics the models share.
      [py_range a b] is [range(a, b)]; [py_norm] is list-index
      normalisation (negative indices wrap, an index outside [-n, n) is
      [IndexError]); [gget] / [gset] read and write [grid[i][j]]
      (notation [g⟨i, j⟩]; an index outside [-n, n) reads 0 and writes
      nothing where Python raises [IndexError], a branch the games never
      take, since their loops stay within nine cells of the playing
      area of a 10 by 10 grid); [choice r xs] is [random.choice(xs)] with the
      random draw made explicit as the number [r] ([None] is the
      [IndexError] on an empty list); [all_some] runs fallible steps in
      order.  Also the lemmas on grids ([gget_gset_in], [grid_ext],
      [fold_gset_cell]), on transformers that write a single value
      ([writes_only]), on counting ([countb_strict]), the hint database
      [pyapp], and the tactics [py_case] and [solve_square].
    - [GameTree]: the search engine, once for both games.  The interface
      between a game and the engine is the class [GameRules] (moves,
      the child grid of a move, its score, whether a child is extended,
      the number of empty cells, well-formed boards); [GameLaws] is what a
      game must prove for the engine's theorems (moves keep the board
      well formed and fill one empty cell).  [tree] is [Tree];
      [add_child], [pass_score] (with [minmax_step]) and
      [select_best_child] are its methods; [extend_tree] and
      [decision_tree] are the two methods of the game classes.
    - [TicTacToe], [Module Tictactoe]: the state record is the attributes
      of [Tictactoe]; every method is a function on it ([init] is
      [__init__]); [ttt_rules] instantiates the engine.  [Module App]
      models [TicTacToeApp.handle_mouse_click] and one iteration of the
      main loop ([frame]: the events of a frame in order, then the AI's
      step), with [reachable] the states reachable from [Tictactoe()].
    - [Othello], [Module Othello]: likewise for [Othello], with
      [is_valid_action], [get_valid_actions] and [update_grid] written
      direction by direction as in the code ([flip_dir] is one of the
      eight blocks, [flip_blocks] their directions and loop bounds in the
      code's order), and [othello_rules] for the engine; [Module App]
      models [OthelloApp].
    - [AccountManager], [Module Ledger]: the bookkeeping backend
      [AccountManager] of [src/account_manager.py] over its pandas table
      (index labels and rows; [loc_set], [drop] and label membership are
      pandas' [df.loc[k] = row], [df.drop(k)] and [k in df["ID"]]), with
      [get_records] (selection, cumulative totals, sort) and [Module App]
      for the handlers of [AccountManagerApps] that change the table or
      the view ([populate_tree], [create_entry], [update_entry],
      [remove_entry], [load_database]).
    - [Forex], [Module Forex]: the plot state machine of
      [src/forex_hist.py] ([get_data], [plot_data], the three indicator
      callbacks, button states) as a [step] function with [reachable]
      states, which returns the exception a callback raised with the
      state Tk keeps; a download is identified by its number and by
      whether its frame has rows (yfinance returns an empty frame when
      it fails).
    - [ForexIndicators], [Module ForexIndicators]: the columns
      [ForexHist.get_data] adds: [ewm(span).mean()] as pandas documents
      it ([ewm_mean]; pandas' own one-pass loop [ewm_pandas] is a model
      of the library, proved equal to it), the
      rolling mean and standard deviation and the Bollinger lines, with
      NaN as [None] and [np.sqrt] a variable.
    - [PyString]: Python's [str] of an int ([str_N], [str_Z]), the
      regular-expression class [[0-9]] ([is_digit]) and the builtin
      [int()] of a [str] in base 10 ([py_int]: [strip], the sign, digits
      with single underscores between them), with the lemmas on digit
      strings that [Weather], [WeatherReport], [SqlManager],
      [AccountEditor] and [SaintSaens] share.
    - [KeyGuess], [Module KeyGuess]: what PySimpleGUI does with
      [window[key]] for a key the layout lacks: after a popup it takes
      the closest key by [difflib.get_close_matches(key, keys, 1)]
      (cutoff 0.6).  [matched] is the number of characters of
      [SequenceMatcher]'s matching blocks (longest block first, then
      both sides), [ratio] the score [2M / T] as the pair [(2M, T)], and
      [get_close_match] keeps the best score, a tie going to the greater
      string; [get_close_match_spec] states what it returns.
    - [AccountEditor], [Module Editor]: the transaction editor of
      [AccountManagerApps]: the seven text fields, [clear_entry],
      [edit_entry] (the selected Treeview row read back through ttk's
      int conversion [cell_text]) and [create_entry], [update_entry],
      [remove_entry] as they read the fields or the selection; the
      library parsers [strptime] and [float] are the class [LedgerText]
      with their round-trip laws; [round(x, 2)] of [update_entry] is
      [round2], the nearest multiple of 1/100, ties to even.
    - [GameDraw]: what the two pygame frontends draw.  [Module Screen]
      holds the display list: a frame is the list of [blit]s
      ([display_surf.blit(image, pygame.Rect(...))]) in the order the
      code issues them, [make_text] is [App.make_text] with the font's
      text size a section variable.  [Module TicTacToeDraw] and
      [Module OthelloDraw] translate [App.draw_game_board] of
      [src/tictactoe.py] and [src/othello.py] on the state records of
      [TicTacToe] and [Othello], and relate the drawn buttons to the
      regions [App.handle_mouse_click] tests.
    - [Weather], [Module Weather]: the city selection of
      [src/weatherapp.py]: [fill_candidate_city_listbox] rendering the
      candidate rows (with [str_N], Python's [str] of an int) into the
      listbox, and [get_weather] reading the city ID back with the regular
      expression [[0-9]+] ([first_number]), [set_city_id] and the URL;
      the city frame by its column names and rows ([city_frame]; the CSV
      file is not in the repository, so no column order is assumed),
      [get_candidates] selecting by the column named ["name"], and
      [get_cityid].
    - [WeatherReport], [Module WeatherReport]: the rest of [get_weather]:
      the API's JSON answer as a record of the fields read, the test of
      ["cod"], the labels (Celsius temperatures, humidity, [%H:%M] times)
      and the weather picture; the request is the class
      [WeatherService], and [get_weather_report] composes the city
      selection with the report.
    - [SqlManager], [Module SqlManager]: the event loop of
      [src/sqlmanager/sqlmanager.py]: the handlers ["Show"] ([show], with
      [update_title]) and ["Extract"] ([extract]) as functions into
      [error + state], Python's exceptions being values of [error]; the
      state holds the globals [viewing_table] and [headers], the rows
      and headings of the table widget, and the keyed labels and inputs
      as a [gmap] from key to value, and the key-error popups shown.
      [update_element] is [window[key].update(value=v)]: on a key the
      layout lacks it shows a popup and writes to the closest key of
      [window_keys] ([guess_key], with [KeyGuess]).  The database is the class
      [SqlConnection] (the answer to [SELECT * FROM t] and the law that
      rows are as wide as the columns); [db_connection] builds one from
      a list of tables.
    - [SqlSession], [Module SqlSession]: the script around that loop:
      the path dialog [get_database_path], the connection through the
      class [SqliteFiles], the table list from [sqlite_master], and the
      loop run on a sequence of events ([run_loop], [session]).
    - [QMatrix]: arrays of exact rationals ([Q]) for the numerical apps:
      [np.sum] and Python's [sum], [a[i][j]] and its assignment, the
      double loop [fill_loop] and array shapes.
    - [Portfolio], [Module Portfolio]: the covariance loop of
      [src/portfolio_management.py] ([fillna], [np.hstack], [np.cov] of
      one array, the matrix [covars]).
    - [PortfolioApp], [Module PortfolioApp]: the rest of the numerical
      page: [load_data] (log returns, NaN-skipping mean and variance,
      scaled prices), the fraction sliders ([frac_sliders]), the
      cumulative return with numpy's in-place broadcasting, the user's
      return and volatility, and the Monte-Carlo frontier over given
      draws with [np.argmax]; [np.log] and [np.sqrt] are the variables
      [ln] and [sqrt] of [Section Page].
    - [Image], [Module Image]: [ImageConverter] of
      [src/image_converter.py] (the filters, channels, grey image and
      [filter_image] with its zero padding), and [Module App] for the
      callbacks of [ImageConverterApp]; a Tk callback that raises keeps
      what it changed before, so it returns its state with its
      exception.
    - [SaintSaens], [Module SaintSaens]: the Streamlit page
      [src/saint_saens.py]: [load_data] (empty [R] cells filled with 0),
      [df["Genre"].unique()] and one run of [main] as a function of the
      sidebar widgets ([widgets]), returning the tables written and the
      [ValueError] of [int(opus_no)].  Streamlit runs the script again at
      every interaction and keeps no other state, so one run is the
      whole behaviour.

    ** Theorems
    - Engine ([GameTree]): for any game satisfying [GameLaws],
      [decision_tree] terminates with enough fuel, fails exactly when the
      player has no move or the depth is 0 ([decision_tree_correct]), and
      returns the action of a child with the root's backed-up score unless
      no child has it ([decision_tree_optimal]).
    - Tic-Tac-Toe: [check_score] characterised by the lines on the board;
      refinement of the whole search by the 2-ply rule [two_ply_move]
      ([decision_tree_two_ply]), hence the AI wins when it can, blocks
      when it must, and every depth beyond 2 plays as depth 2; the app's
      invariant over [reachable] states and the absence of crashes.
    - Othello: [update_grid] never empties a cell and adds discs,
      [check_score] is the difference of the disc counts, the AI plays
      valid actions, the app keeps a well-formed board; and the
      behaviours where the code departs from the rules: flips through
      empty cells, writes through Python's negative-index wrap-around,
      valid captures rejected, a crash when the AI has no move, and a
      stuck game when the human has none.
    - Ledger: the operations keep every row labelled by its ID
      ([ledger_ops_keep_ok]); the exact effect of [create_entry],
      [remove_entry], [update_entry] (which appends an unknown ID) and
      [get_records]; and three departures from a bookkeeping ledger: a
      self-transfer counts as an outflow, the Total column is not a
      running balance once sorted, a new account cannot be viewed before
      a reload.
    - Editor: every handler keeps the table well formed and the view
      showing its entries ([editor_ops_keep_inv]); Update after Edit
      writes the row back with its texts through [int()], so ["007"]
      becomes ["7"], and its amount rounded to cents ([edit_then_update]);
      Create after Edit appends a copy under the next ID with its amount
      not rounded ([edit_then_create]).
    - Forex viewer: the invariant of reachable states, exceptions
      included (every drawn line shows the current download when the
      frame has rows); the only exception is the [ValueError] of [min()]
      on an empty download after a first chart, which leaves an old
      indicator line drawn ([forex_errors]); a download with rows hides
      the indicator lines ([get_data_hides_indicators]).  Indicators:
      the frame's columns have one cell per date with NaN exactly in the
      first 19 cells of the rolling columns ([get_data_columns]); the
      lemmas [ewm_equiv] and [ewm_bounds] relate pandas' loop to the
      documented average.
    - Weather lookup: rendering a row and reading its ID back is a round
      trip when the names hold no digit, and never fails on a rendered
      row; a search ([get_cityid]) then a selection requests a city of
      the frame whose ["name"] cell is the name searched; a digit in a name yields a wrong ID, and the rows of earlier
      searches stay selectable because the listbox is never cleared.
      The report (lemmas of [WeatherReport]): the picture chain covers
      every code, times are an hour below 24 and a minute below 60, a
      complete answer fills every label, and an error answer whose
      ["cod"] is an int raises [KeyError].
    - SQL browser: the invariant of reachable states (the keyed elements
      of the layout, headings and labels showing the loaded headers),
      the exact effect of ["Show"] ([show_spec]) and of ["Extract"] for
      any width ([extract_spec]: with more than ten columns each extra
      column shows a popup and goes to the input of the closest key,
      [guess_key_ip] proving that key is an input, so column 10
      overwrites input 1), and the crash of ["Extract"] before the first
      ["Show"] ([headers] is undefined, [extract_before_show]).  A
      session: closing the path dialog raises [UnboundLocalError]; a
      session that ends opened the browsed path, lists its tables and
      keeps the loop invariant.
    - Portfolio: every entry of the app's covariance matrix is the
      variance of the two return series pooled, never negative; the
      sliders give fractions of total at most 1 or raise; on series of
      one length the cumulative return is the weighted sum of scaled
      prices (series of different lengths raise [ValueError]); the
      frontier reports the first draw of largest Sharpe ratio.
    - Image filters: [filter_image] is the correlation with a zero
      border; after an RGB picture is opened no filter raises; before,
      the buttons raise, and Save always raises.
    - Query page: the opus query writes the rows whose filled [R] is the
      number typed (so 0 lists the works without a number) or raises
      [ValueError]; the title query writes every row with the title
      picked, of any genre.
    - Drawing ([GameDraw]): on the rectangle of each cell both frontends
      draw exactly the piece the grid holds there, so the screen reads
      back as the grid ([ttt_screen_shows_board],
      [othello_screen_shows_board]); a click inside a drawn Tic-Tac-Toe
      button runs the branch of the region [x / 100], because the
      buttons are drawn 10 px right of and below the regions the
      handler tests ([button_click_regions]); the last button of each
      game extends past the window.
    - [PyString] (lemmas the files share): [int(str(n)) == n] for every
      int ([py_int_str_Z]), and the loop of [str_N] never runs out of
      fuel ([str_N_complete]).

    ** Fuel, draws and bounds
    [extend_tree] is given fuel [S (empties grid)]: every recursive call
    is on a child whose grid has one empty cell fewer ([play_empties] of
    [GameLaws]), so the recursion of the Python code, bounded by the
    depth and by the board filling up, never needs more;
    [extend_tree_total] proves the fuel sufficient, so [None] from the
    engine always means a Python exception.  The two [random.choice]
    calls of a search are the draws [r1] (the fallback of
    [select_best_child]) and [r2] (the final choice); theorems hold for all
    draws.  Integers are Python's unbounded ints ([Z]); grids are lists of
    lists with Python's indexing.  [str_N] is given fuel
    [S (N.size_nat n)], more than the number of decimal digits of [n]
    ([str_N_complete] proves it enough).  Floats of the numerical apps
    are exact rationals: their theorems hold of the real-number
    computation the code approximates.  [matched] of [KeyGuess] is given
    fuel [S (length a)], more than the blocks it can find
    ([matched_fuel] proves more fuel changes nothing).

    ** Not modelled
    The pixels of a frame (images, fonts, the background fill: the games'
    drawing is modelled only as the list of blits), the drawing of the
    tkinter and matplotlib apps, file and network input/output
    (CSV files, yfinance, the OpenWeather request), the timers, the
    binary rounding of floats (amounts and prices are exact rationals,
    and [round(x, 2)] rounds that exact value), the ledger editor's
    [strptime] and [float] (the class [LedgerText]), SQLite itself (reached
    through [SqlConnection] and [SqliteFiles]) and the text of the SQL
    browser's help window, the portfolio app's downloads and charts (its logarithm and
    square root are variables, its random draws an input), the image
    file formats and
    colour maps, and the download, portrait and text of the Wikipedia
    page [src/saint_saens.py], which are thin wrappers around libraries.
    [py_int] reads ASCII text: the non-ASCII digits and spaces Python's
    [int()] also accepts are not modelled. *)

From stdpp Require Import base list sets.
From Stdlib Require Import ZArith Lia.

(** Notations of the development live in [pyapp_scope]. *)
Declare Scope pyapp_scope.
Delimit Scope pyapp_scope with py.
Local Open Scope Z_scope.
#[local] Set Warnings "-clear-no-such-hyp".

(** ** Python ranges *)

Definition py_range (a b : Z) : list Z :=
  map (fun k => a + Z.of_nat k) (seq 0 (Z.to_nat (b - a))).

(** The cells visited by [for i in range(a, b): for j in range(a, b)]. *)
Definition range2 (a b : Z) : list (Z * Z) :=
  flat_map (fun i => map (fun j => (i, j)) (py_range a b)) (py_range a b).

(** ** Python list indexing *)

Definition py_norm (n : nat) (i : Z) : option nat :=
  if i <? 0 then
    if Z.of_nat n + i <? 0 then None else Some (Z.to_nat (Z.of_nat n + i))
  else if i <? Z.of_nat n then Some (Z.to_nat i) else None.

(** A board: [grid[i][j]] is [gget grid i j]. *)
Abbreviation Grid := (list (list Z)).

Definition cell (g : Grid) (a b : nat) : option Z := g !! a ≫= fun row => row !! b.

(** The normalised position of [grid[i][j]] on an [n] by [n] grid. *)
Definition pos (n : nat) (i j : Z) : option (nat * nat) :=
  match py_norm n i, py_norm n j with
  | Some a, Some b => Some (a, b)
  | _, _ => None
  end.

Definition gget (g : Grid) (i j : Z) : Z :=
  match py_norm (length g) i with
  | Some a =>
      match g !! a with
      | Some row =>
          match py_norm (length row) j with
          | Some b => default 0 (row !! b)
          | None => 0
          end
      | None => 0
      end
  | None => 0
  end.

Definition gset (g : Grid) (i j v : Z) : Grid :=
  match py_norm (length g) i with
  | Some a =>
      match g !! a with
      | Some row =>
          match py_norm (length row) j with
          | Some b => <[a := <[b := v]> row]> g
          | None => g
          end
      | None => g
      end
  | None => g
  end.

Notation "g ⟨ i , j ⟩" := (gget g i j)
  (at level 1, i at level 200, j at level 200, format "g ⟨ i ,  j ⟩") : pyapp_scope.

(** An [n] by [n] grid, as both games allocate with
    [[[0 for i in range(n)] for j in range(n)]]. *)
Definition square (n : nat) (g : Grid) : Prop :=
  length g = n /\ Forall (fun row => length row = n) g.

Definition empty_grid (n : nat) : Grid := replicate n (replicate n 0).

(** Every cell holds one of the three values [-1], [0], [1]. *)
Definition cell_ok (v : Z) : bool := (v =? -1) || (v =? 0) || (v =? 1).

(** ** [random.choice] and fallible sequences *)

Definition choice {A} (r : nat) (xs : list A) : option A :=
  match xs with
  | [] => None
  | _ => xs !! (r mod length xs)%nat
  end.

Fixpoint all_some {A} (os : list (option A)) : option (list A) :=
  match os with
  | [] => Some []
  | o :: rest => x ← o; xs ← all_some rest; Some (x :: xs)
  end.

(** Number of elements of a list satisfying a boolean test. *)
Definition countb {A} (p : A -> bool) (l : list A) : nat := length (List.filter p l).

(** Every cell of the grid holds -1, 0 or 1. *)
Definition grid_ok (g : Grid) : Prop := forall a b, cell_ok (gget g a b) = true.

(** A grid transformer that keeps an [n] by [n] grid and changes cells
    only to [v]. *)
Definition writes_only (n : nat) (v : Z) (f : Grid -> Grid) : Prop :=
  forall g, square n g -> square n (f g) /\
    forall a b, gget (f g) a b = v \/ gget (f g) a b = gget g a b.

(** ** Python exceptions

    A computation that may raise has type [E + A]: [inl e] is the
    exception [e] raised, [inr a] the value returned. *)

#[export] Instance sum_ret {E} : MRet (sum E) := fun A a => inr a.
#[export] Instance sum_bind {E} : MBind (sum E) := fun A B f m =>
  match m with inl e => inl e | inr a => f a end.
#[export] Instance sum_fmap {E} : FMap (sum E) := fun A B f m =>
  match m with inl e => inl e | inr a => inr (f a) end.

(** [for x in xs: a = f(a, x)], stopping at the first exception. *)
Fixpoint fold_res {E A B} (f : A -> B -> E + A) (a : A) (xs : list B) : E + A :=
  match xs with
  | [] => inr a
  | x :: xs => a' ← f a x; fold_res f a' xs
  end.

(** ** Lemmas on ranges *)

Lemma py_range_spec (a b k : Z) : k ∈ py_range a b <-> a <= k < b.
Proof.
  unfold py_range. rewrite list_elem_of_fmap. split.
  - intros (n & -> & Hn). apply elem_of_seq in Hn. lia.
  - intros Hk. exists (Z.to_nat (k - a)). split; [lia|].
    apply elem_of_seq. lia.
Qed.

Lemma range2_spec (a b i j : Z) : (i, j) ∈ range2 a b <-> (a <= i < b /\ a <= j < b).
Proof.
  unfold range2. rewrite list_elem_of_In, in_flat_map. split.
  - intros (i' & Hi' & Hin). apply in_map_iff in Hin as (j' & [= <- <-] & Hj').
    apply list_elem_of_In, py_range_spec in Hi', Hj'. lia.
  - intros [Hi Hj]. exists i. split; [by apply list_elem_of_In, py_range_spec|].
    apply in_map_iff. exists j. split; [done|]. by apply list_elem_of_In, py_range_spec.
Qed.

Lemma length_py_range (a b : Z) : length (py_range a b) = Z.to_nat (b - a).
Proof. unfold py_range. by rewrite length_map, length_seq. Qed.

Lemma py_range_NoDup (a b : Z) : NoDup (py_range a b).
Proof.
  unfold py_range. apply NoDup_fmap_2; [intros x y ?; lia|]. apply NoDup_seq.
Qed.

(** ** Lemmas on indexing *)

Lemma py_norm_lt (n : nat) (i : Z) (a : nat) : py_norm n i = Some a -> (a < n)%nat.
Proof.
  unfold py_norm. intros H.
  destruct (Z.ltb_spec i 0), (Z.ltb_spec (Z.of_nat n + i) 0), (Z.ltb_spec i (Z.of_nat n));
    simplify_eq; lia.
Qed.

Lemma py_norm_in_range (n : nat) (i : Z) :
  - Z.of_nat n <= i < Z.of_nat n -> is_Some (py_norm n i).
Proof.
  intros H. unfold py_norm.
  destruct (Z.ltb_spec i 0), (Z.ltb_spec (Z.of_nat n + i) 0), (Z.ltb_spec i (Z.of_nat n));
    try lia; eauto.
Qed.

Lemma py_norm_nonneg (n : nat) (i : Z) :
  0 <= i < Z.of_nat n -> py_norm n i = Some (Z.to_nat i).
Proof.
  intros H. unfold py_norm.
  destruct (Z.ltb_spec i 0), (Z.ltb_spec i (Z.of_nat n)); try lia; done.
Qed.

Lemma square_row (n : nat) (g : Grid) (a : nat) (row : list Z) :
  square n g -> g !! a = Some row -> length row = n.
Proof.
  intros [_ Hrows] Ha. by eapply (Forall_lookup_1 _ _ _ _ Hrows).
Qed.

Lemma gget_pos (n : nat) (g : Grid) (i j : Z) :
  square n g ->
  gget g i j = match pos n i j with Some (a, b) => default 0 (cell g a b) | None => 0 end.
Proof.
  intros Hsq. pose proof Hsq as [Hlen _]. unfold gget, pos, cell. rewrite Hlen.
  destruct (py_norm n i) as [a|] eqn:Ha; [|done].
  destruct (g !! a) as [row|] eqn:Hrow; simpl.
  - rewrite (square_row n g a row Hsq Hrow). destruct (py_norm n j); simpl; rewrite ?Hrow; done.
  - apply py_norm_lt in Ha. apply lookup_ge_None in Hrow. lia.
Qed.

Lemma gset_pos (n : nat) (g : Grid) (i j v : Z) :
  square n g ->
  gset g i j v = match pos n i j with
                 | Some (a, b) => match g !! a with
                                  | Some row => <[a := <[b := v]> row]> g
                                  | None => g end
                 | None => g end.
Proof.
  intros Hsq. pose proof Hsq as [Hlen _]. unfold gset, pos. rewrite Hlen.
  destruct (py_norm n i) as [a|] eqn:Ha; [|done].
  destruct (g !! a) as [row|] eqn:Hrow.
  - rewrite (square_row n g a row Hsq Hrow). destruct (py_norm n j); simpl; rewrite ?Hrow; done.
  - destruct (py_norm n j); simpl; rewrite ?Hrow; done.
Qed.

Lemma gset_square (n : nat) (g : Grid) (i j v : Z) :
  square n g -> square n (gset g i j v).
Proof.
  intros Hsq. rewrite (gset_pos n g i j v Hsq).
  destruct (pos n i j) as [[a b]|]; [|done].
  destruct (g !! a) as [row|] eqn:Hrow; [|done].
  destruct Hsq as [Hlen Hrows]. split.
  - by rewrite length_insert.
  - apply Forall_insert; [done|]. rewrite length_insert.
    by eapply (Forall_lookup_1 _ _ _ _ Hrows).
Qed.

Lemma cell_gset (n : nat) (g : Grid) (i j v : Z) (a b : nat) :
  square n g -> pos n i j = Some (a, b) ->
  forall a' b', cell (gset g i j v) a' b' =
                if decide ((a', b') = (a, b)) then Some v else cell g a' b'.
Proof.
  intros Hsq Hp a' b'. rewrite (gset_pos n g i j v Hsq), Hp.
  unfold pos in Hp.
  destruct (py_norm n i) as [a0|] eqn:Ha, (py_norm n j) as [b0|] eqn:Hb; simplify_eq.
  pose proof (py_norm_lt _ _ _ Ha) as Hla. pose proof (py_norm_lt _ _ _ Hb) as Hlb.
  destruct Hsq as [Hlen Hrows].
  destruct (lookup_lt_is_Some_2 g a ltac:(lia)) as [row Hrow]. rewrite Hrow.
  assert (Hrl : length row = n) by (eapply (Forall_lookup_1 _ _ _ _ Hrows); done).
  unfold cell. destruct (decide (a' = a)) as [->|Hne].
  - rewrite list_lookup_insert_eq by lia. simpl. rewrite Hrow. simpl.
    destruct (decide (b' = b)) as [->|Hneb].
    + rewrite decide_True by done. rewrite list_lookup_insert_eq; [done|lia].
    + rewrite decide_False by congruence. by rewrite list_lookup_insert_ne by done.
  - rewrite decide_False by congruence. by rewrite list_lookup_insert_ne by done.
Qed.

Lemma gget_gset (n : nat) (g : Grid) (i j v i' j' : Z) :
  square n g ->
  gget (gset g i j v) i' j' =
  match pos n i j with
  | Some p => if decide (pos n i' j' = Some p) then v else gget g i' j'
  | None => gget g i' j'
  end.
Proof.
  intros Hsq. pose proof (gset_square n g i j v Hsq) as Hsq'.
  destruct (pos n i j) as [[a b]|] eqn:Hp.
  - rewrite (gget_pos n _ _ _ Hsq'), (gget_pos n _ _ _ Hsq).
    destruct (pos n i' j') as [[a' b']|]; [|done].
    rewrite (cell_gset n g i j v a b Hsq Hp).
    destruct (decide ((a', b') = (a, b))) as [Heq|Hne].
    + by rewrite decide_True by congruence.
    + by rewrite decide_False by congruence.
  - rewrite (gset_pos n g i j v Hsq), Hp. done.
Qed.

Lemma gget_gset_same (n : nat) (g : Grid) (i j v : Z) :
  square n g -> is_Some (pos n i j) -> gget (gset g i j v) i j = v.
Proof.
  intros Hsq [p Hp]. rewrite (gget_gset n g i j v i j Hsq), Hp. by rewrite decide_True.
Qed.

Lemma pos_in_range (n : nat) (i j : Z) :
  0 <= i < Z.of_nat n -> 0 <= j < Z.of_nat n -> is_Some (pos n i j).
Proof.
  intros Hi Hj. unfold pos. rewrite (py_norm_nonneg n i Hi), (py_norm_nonneg n j Hj). eauto.
Qed.

(** A write never changes a cell to a value other than the written one. *)
Lemma gget_gset_cases (n : nat) (g : Grid) (i j v i' j' : Z) :
  square n g -> gget (gset g i j v) i' j' = v \/ gget (gset g i j v) i' j' = gget g i' j'.
Proof.
  intros Hsq. rewrite (gget_gset n g i j v i' j' Hsq).
  destruct (pos n i j); [case_decide|]; auto.
Qed.

(** A cell that reads [w] after a write of [v <> w] read [w] before. *)
Lemma gget_gset_other_value (n : nat) (g : Grid) (i j v a b w : Z) :
  square n g -> gget (gset g i j v) a b = w -> w <> v -> gget g a b = w.
Proof.
  intros Hsq Hw Hne. destruct (gget_gset_cases n g i j v a b Hsq) as [E|E]; congruence.
Qed.

Lemma pos_nonneg (n : nat) (i j : Z) :
  0 <= i < Z.of_nat n -> 0 <= j < Z.of_nat n -> pos n i j = Some (Z.to_nat i, Z.to_nat j).
Proof.
  intros Hi Hj. unfold pos. by rewrite (py_norm_nonneg n i Hi), (py_norm_nonneg n j Hj).
Qed.

(** Inside the board, a write changes exactly its own cell. *)
Lemma gget_gset_in (n : nat) (g : Grid) (i j v a b : Z) :
  square n g -> 0 <= i < Z.of_nat n -> 0 <= j < Z.of_nat n ->
  0 <= a < Z.of_nat n -> 0 <= b < Z.of_nat n ->
  gget (gset g i j v) a b = if decide ((a, b) = (i, j)) then v else gget g a b.
Proof.
  intros Hsq Hi Hj Ha Hb. rewrite (gget_gset n g i j v a b Hsq), !pos_nonneg by lia.
  case_decide as E; case_decide as E'; simplify_eq; try done.
  exfalso. apply E'. f_equal; lia.
Qed.

Lemma gset_ok (n : nat) (g : Grid) (i j v : Z) :
  square n g -> grid_ok g -> cell_ok v = true -> grid_ok (gset g i j v).
Proof. intros Hsq Hok Hv a b. by destruct (gget_gset_cases n g i j v a b Hsq) as [-> | ->]. Qed.

Lemma gset_square_ok (n : nat) (g : Grid) (i j v : Z) :
  square n g /\ grid_ok g -> cell_ok v = true -> square n (gset g i j v) /\ grid_ok (gset g i j v).
Proof. intros [Hsq Hok] Hv. split; [by apply gset_square|by apply (gset_ok n)]. Qed.

(** A loop [for (i, j) in l: grid[i][j] = f(i, j)] over cells of the board. *)
Lemma fold_gset_cell (n : nat) (f : Z -> Z -> Z) (l : list (Z * Z)) (h : Grid) (a b : Z) :
  square n h -> Forall (fun '(i, j) => 0 <= i < Z.of_nat n /\ 0 <= j < Z.of_nat n) l ->
  0 <= a < Z.of_nat n -> 0 <= b < Z.of_nat n ->
  gget (fold_left (fun h '(i, j) => gset h i j (f i j)) l h) a b =
  if decide ((a, b) ∈ l) then f a b else gget h a b.
Proof.
  revert h. induction l as [|[i j] l IH]; intros h Hsq Hl Ha Hb; simpl;
    [first [done | case_decide; [set_solver|done]]|].
  apply Forall_cons in Hl as [[Hi Hj] Hl].
  rewrite IH by (auto using gset_square). rewrite (gget_gset_in n) by done.
  destruct (decide ((a, b) ∈ (i, j) :: l)), (decide ((a, b) ∈ l)),
    (decide ((a, b) = (i, j))); set_solver.
Qed.

Lemma fold_gset_square (n : nat) (f : Z -> Z -> Z) (l : list (Z * Z)) (h : Grid) :
  square n h -> square n (fold_left (fun h '(i, j) => gset h i j (f i j)) l h).
Proof.
  revert h. induction l as [|[i j] l IH]; intros h Hsq; simpl; [done|]. auto using gset_square.
Qed.

(** Two [n] by [n] boards with the same cells are equal. *)
Lemma grid_ext (n : nat) (g h : Grid) :
  square n g -> square n h ->
  (forall a b, 0 <= a < Z.of_nat n -> 0 <= b < Z.of_nat n -> gget g a b = gget h a b) -> g = h.
Proof.
  intros Hg Hh Hc. apply list_eq. intros a.
  destruct (decide (a < n)%nat) as [Ha|Ha].
  - pose proof Hg as [Hgl Hgr]. pose proof Hh as [Hhl Hhr].
    destruct (lookup_lt_is_Some_2 g a ltac:(lia)) as [r1 H1].
    destruct (lookup_lt_is_Some_2 h a ltac:(lia)) as [r2 H2].
    rewrite H1, H2. f_equal. apply list_eq. intros b.
    pose proof (Forall_lookup_1 _ _ _ _ Hgr H1) as L1. pose proof (Forall_lookup_1 _ _ _ _ Hhr H2) as L2.
    simpl in L1, L2. destruct (decide (b < n)%nat) as [Hb|Hb].
    + specialize (Hc (Z.of_nat a) (Z.of_nat b) ltac:(lia) ltac:(lia)).
      rewrite (gget_pos n g), (gget_pos n h), pos_nonneg in Hc by (done || lia).
      rewrite !Nat2Z.id in Hc. unfold cell in Hc. rewrite H1, H2 in Hc. simpl in Hc.
      destruct (lookup_lt_is_Some_2 r1 b ltac:(lia)) as [x Hx].
      destruct (lookup_lt_is_Some_2 r2 b ltac:(lia)) as [y Hy].
      rewrite Hx, Hy in *. simpl in Hc. by subst.
    + rewrite !lookup_ge_None_2; [done|lia|lia].
  - destruct Hg as [Hgl _], Hh as [Hhl _]. rewrite !lookup_ge_None_2; [done|lia|lia].
Qed.

Lemma empty_grid_square (n : nat) : square n (empty_grid n).
Proof.
  unfold empty_grid. split; [by rewrite length_replicate|].
  apply Forall_replicate. by rewrite length_replicate.
Qed.

Lemma gget_empty_grid (n : nat) (a b : Z) : gget (empty_grid n) a b = 0.
Proof.
  rewrite (gget_pos n) by apply empty_grid_square.
  destruct (pos n a b) as [[x y]|] eqn:E; [|done]. unfold pos in E.
  destruct (py_norm n a) eqn:Ea, (py_norm n b) eqn:Eb; simplify_eq.
  apply py_norm_lt in Ea, Eb. unfold cell, empty_grid.
  rewrite lookup_replicate_2 by done. simpl. by rewrite lookup_replicate_2.
Qed.

Lemma empty_grid_ok (n : nat) : grid_ok (empty_grid n).
Proof. intros a b. by rewrite gget_empty_grid. Qed.

Lemma writes_only_gset (n : nat) (i j v : Z) : writes_only n v (fun g => gset g i j v).
Proof. intros g Hsq. split; [by apply gset_square|]. intros a b. by apply (gget_gset_cases n). Qed.

Lemma writes_only_compose (n : nat) (v : Z) (f h : Grid -> Grid) :
  writes_only n v f -> writes_only n v h -> writes_only n v (fun g => h (f g)).
Proof.
  intros Hf Hh g Hsq. destruct (Hf g Hsq) as [Hsq1 H1]. destruct (Hh (f g) Hsq1) as [Hsq2 H2].
  split; [done|]. intros a b. destruct (H2 a b) as [E|E]; [by left|]. rewrite E. apply H1.
Qed.

Lemma writes_only_fold {B} (n : nat) (v : Z) (step : B -> Grid -> Grid) (l : list B) :
  (forall x, x ∈ l -> writes_only n v (step x)) ->
  writes_only n v (fun g => fold_left (fun g x => step x g) l g).
Proof.
  induction l as [|x l IH]; intros Hs g Hsq; simpl; [split; auto|].
  apply (writes_only_compose n v (step x) (fun g => fold_left (fun g x => step x g) l g));
    [apply Hs; set_solver|apply IH; intros; apply Hs; set_solver|done].
Qed.

(** A cell holding [v] keeps it through such a transformer. *)
Lemma writes_only_keep (n : nat) (v : Z) (f : Grid -> Grid) (g : Grid) (a b : Z) :
  writes_only n v f -> square n g -> gget g a b = v -> gget (f g) a b = v.
Proof. intros Hf Hsq Hv. destruct (proj2 (Hf g Hsq) a b) as [E|E]; congruence. Qed.

(** ** Lemmas on [choice] and [all_some] *)

Lemma choice_elem {A} (r : nat) (xs : list A) (x : A) : choice r xs = Some x -> x ∈ xs.
Proof.
  destruct xs as [|y ys]; [done|]. intros H. by eapply list_elem_of_lookup_2.
Qed.

Lemma choice_None {A} (r : nat) (xs : list A) : choice r xs = None <-> xs = [].
Proof.
  split; [|by intros ->]. destruct xs as [|y ys]; [done|]. intros H.
  exfalso. apply lookup_ge_None in H. pose proof (Nat.mod_upper_bound r (length (y :: ys))).
  simpl in *. lia.
Qed.

Lemma choice_is_Some {A} (r : nat) (xs : list A) : xs <> [] -> is_Some (choice r xs).
Proof. intros Hne. destruct (choice r xs) eqn:E; [eauto|]. by apply choice_None in E. Qed.

(** Every element can be drawn: the seed abstraction excludes no outcome. *)
Lemma choice_surj {A} (xs : list A) (x : A) : x ∈ xs -> exists r, choice r xs = Some x.
Proof.
  intros Hx. apply list_elem_of_lookup_1 in Hx as [k Hk].
  exists k. destruct xs as [|y ys]; [done|]. unfold choice.
  rewrite Nat.mod_small; [done|]. by apply lookup_lt_Some in Hk.
Qed.

(** A choice among equal candidates is determined. *)
Lemma choice_singleton {A} (r : nat) (x : A) : choice r [x] = Some x.
Proof. reflexivity. Qed.

Lemma choice_map {A B} (f : A -> B) (r : nat) (xs : list A) :
  choice r (map f xs) = f <$> choice r xs.
Proof.
  destruct xs as [|x xs]; [done|]. unfold choice. cbn [map].
  rewrite <- list_lookup_fmap. f_equal; simpl; by rewrite ?length_map.
Qed.

Lemma Forall2_map_eq {A B C} (h1 : A -> C) (h2 : B -> C) (l : list A) (k : list B) :
  Forall2 (fun a b => h2 b = h1 a) l k -> map h2 k = map h1 l.
Proof. induction 1; simpl; congruence. Qed.

Lemma Forall2_existsb {A B} (f : A -> bool) (h : B -> bool) (l : list A) (k : list B) :
  Forall2 (fun a b => h b = f a) l k -> existsb h k = existsb f l.
Proof. induction 1; simpl; congruence. Qed.

Lemma all_some_Forall2 {A} (os : list (option A)) (xs : list A) :
  all_some os = Some xs <-> Forall2 (fun o x => o = Some x) os xs.
Proof.
  revert xs. induction os as [|o os IH]; intros xs; simpl.
  - split; [intros [= <-]; constructor|]. by inversion 1.
  - split.
    + destruct o as [x|]; simpl; [|done].
      destruct (all_some os) as [ys|] eqn:E; simpl; [|done]. intros [= <-].
      constructor; [done|]. by apply IH.
    + inversion 1 as [|? x ? ys Ho Hrest]; subst. simpl.
      apply IH in Hrest. by rewrite Hrest.
Qed.

Lemma all_some_map_is_Some {A B} (f : A -> option B) (l : list A) :
  (forall x, x ∈ l -> is_Some (f x)) -> is_Some (all_some (map f l)).
Proof.
  induction l as [|x l IH]; intros Hf; simpl; [eauto|].
  destruct (Hf x ltac:(set_solver)) as [y ->]. simpl.
  destruct IH as [ys ->]; [intros; apply Hf; set_solver|]. simpl. eauto.
Qed.

Lemma all_some_length {A} (os : list (option A)) (xs : list A) :
  all_some os = Some xs -> length xs = length os.
Proof. intros H%all_some_Forall2. symmetry. by eapply Forall2_length. Qed.

Lemma all_some_map_impl {A B} (f g : A -> option B) (l : list A) (xs : list B) :
  (forall a b, a ∈ l -> f a = Some b -> g a = Some b) ->
  all_some (map f l) = Some xs -> all_some (map g l) = Some xs.
Proof.
  intros Hfg. revert xs. induction l as [|a l IH]; intros xs; simpl; [done|].
  destruct (f a) as [b|] eqn:Hf; simpl; [|done].
  rewrite (Hfg a b ltac:(set_solver) Hf). simpl.
  destruct (all_some (map f l)) as [ys|] eqn:E; simpl; [|done].
  rewrite (IH ltac:(intros; apply Hfg; set_solver) ys eq_refl). done.
Qed.

Lemma Forall2_elem_r {A B} (R : A -> B -> Prop) (l : list A) (k : list B) (y : B) :
  Forall2 R l k -> y ∈ k -> exists x, x ∈ l /\ R x y.
Proof.
  induction 1 as [|x y' l k Hxy _ IH]; intros Hy; [set_solver|].
  apply elem_of_cons in Hy as [->|Hy]; [exists x; set_solver|].
  destruct (IH Hy) as (x' & ? & ?). exists x'. set_solver.
Qed.

Lemma Forall2_elem_l {A B} (R : A -> B -> Prop) (l : list A) (k : list B) (x : A) :
  Forall2 R l k -> x ∈ l -> exists y, y ∈ k /\ R x y.
Proof.
  induction 1 as [|x' y l k Hxy _ IH]; intros Hx; [set_solver|].
  apply elem_of_cons in Hx as [->|Hx]; [exists y; set_solver|].
  destruct (IH Hx) as (y' & ? & ?). exists y'. set_solver.
Qed.

(** ** Folds computing an extremum *)

Lemma fold_left_ext_pw {A B} (f g : A -> B -> A) (l : list B) (s : A) :
  (forall a b, f a b = g a b) -> fold_left f l s = fold_left g l s.
Proof. intros H. revert s. induction l as [|x l IH]; intros s; simpl; [done|]. by rewrite H, IH. Qed.

Lemma fold_min_spec (l : list Z) (s : Z) :
  let v := fold_left Z.min l s in
  (v = s \/ v ∈ l) /\ v <= s /\ Forall (fun x => v <= x) l.
Proof.
  revert s. induction l as [|x l IH]; intros s; simpl; [split_and!; [by left|lia|constructor]|].
  destruct (IH (Z.min s x)) as (Hv & Hs & Hl). split_and!.
  - destruct Hv as [Hv|Hv]; [|right; by apply list_elem_of_further].
    destruct (Z.min_spec s x) as [[_ E]|[_ E]]; rewrite Hv, E; [by left|right; apply list_elem_of_here].
  - lia.
  - constructor; [lia|done].
Qed.

Lemma fold_max_spec (l : list Z) (s : Z) :
  let v := fold_left Z.max l s in
  (v = s \/ v ∈ l) /\ s <= v /\ Forall (fun x => x <= v) l.
Proof.
  revert s. induction l as [|x l IH]; intros s; simpl; [split_and!; [by left|lia|constructor]|].
  destruct (IH (Z.max s x)) as (Hv & Hs & Hl). split_and!.
  - destruct Hv as [Hv|Hv]; [|right; by apply list_elem_of_further].
    destruct (Z.max_spec s x) as [[_ E]|[_ E]]; rewrite Hv, E; [right; apply list_elem_of_here|by left].
  - lia.
  - constructor; [lia|done].
Qed.

Lemma forallb_false_exists {A} (f : A -> bool) (l : list A) :
  forallb f l = false -> exists x, x ∈ l /\ f x = false.
Proof.
  induction l as [|x l IH]; simpl; [done|]. destruct (f x) eqn:E; simpl.
  - intros (y & ? & ?)%IH. exists y. split; [by apply list_elem_of_further|done].
  - intros _. exists x. split; [apply list_elem_of_here|done].
Qed.

(** ** Counting lemmas *)

(** A test that only gets harder to pass counts no more elements. *)
Lemma countb_mono {A} (p q : A -> bool) (l : list A) :
  (forall x, x ∈ l -> q x = true -> p x = true) -> (countb q l <= countb p l)%nat.
Proof.
  unfold countb. induction l as [|x l IH]; intros H; simpl; [lia|].
  specialize (IH ltac:(intros; apply H; set_solver)).
  destruct (q x) eqn:Hq; simpl.
  - rewrite (H x ltac:(set_solver) Hq). simpl. lia.
  - destruct (p x); simpl; lia.
Qed.

(** ... and strictly fewer when one element stops passing it. *)
Lemma countb_strict {A} (p q : A -> bool) (l : list A) (y : A) :
  (forall x, x ∈ l -> q x = true -> p x = true) ->
  y ∈ l -> p y = true -> q y = false -> (countb q l < countb p l)%nat.
Proof.
  unfold countb. induction l as [|x l IH]; intros H Hy Hp Hq; [set_solver|].
  simpl. apply elem_of_cons in Hy as [->|Hy].
  - rewrite Hp, Hq. simpl.
    pose proof (countb_mono p q l ltac:(intros; apply H; set_solver)) as Hm.
    unfold countb in Hm. lia.
  - specialize (IH ltac:(intros; apply H; set_solver) Hy Hp Hq).
    destruct (q x) eqn:Hqx; simpl.
    + rewrite (H x ltac:(set_solver) Hqx). simpl. lia.
    + destruct (p x); simpl; lia.
Qed.

Lemma countb_cons {A} (p : A -> bool) (x : A) (l : list A) :
  countb p (x :: l) = ((if p x then 1 else 0) + countb p l)%nat.
Proof. unfold countb. simpl. by destruct (p x). Qed.

Lemma cell_ok_cases (v : Z) : cell_ok v = true -> v = -1 \/ v = 0 \/ v = 1.
Proof. unfold cell_ok. rewrite !orb_true_iff, !Z.eqb_eq. tauto. Qed.

Lemma countb_ext {A} (p q : A -> bool) (l : list A) :
  (forall x, x ∈ l -> p x = q x) -> countb p l = countb q l.
Proof.
  unfold countb. induction l as [|x l IH]; intros H; simpl; [done|].
  rewrite (H x ltac:(set_solver)). destruct (q x); simpl; rewrite IH; auto; set_solver.
Qed.

(** ** Automation *)

Create HintDb pyapp.
Create Rewrite HintDb pyapp_rw.
(** ** Loops that may raise *)

Lemma fold_res_app {E A B} (f : A -> B -> E + A) a xs ys :
  fold_res f a (xs ++ ys) = (a' ← fold_res f a xs; fold_res f a' ys).
Proof. revert a. induction xs as [|x xs IH]; intros a; [done|]. simpl. destruct (f a x); [done|]. apply IH. Qed.

Lemma fold_res_ext {E A B} (f g : A -> B -> E + A) a xs :
  (forall a x, x ∈ xs -> f a x = g a x) -> fold_res f a xs = fold_res g a xs.
Proof.
  revert a. induction xs as [|x xs IH]; intros a Hfg; [done|]. simpl.
  rewrite Hfg by set_solver. destruct (g a x); [done|]. apply IH. set_solver.
Qed.

Lemma fold_res_bind_ext {E A B C} (f g : A -> B -> E + A) (k1 k2 : A -> E + C) a xs :
  (forall a x, x ∈ xs -> f a x = g a x) -> (forall a, k1 a = k2 a) ->
  (fold_res f a xs ≫= k1) = (fold_res g a xs ≫= k2).
Proof. intros Hfg Hk. rewrite (fold_res_ext f g) by done. destruct (fold_res g a xs); [done|]. apply Hk. Qed.

(** A loop whose every step succeeds while [P] holds is the pure loop. *)
Lemma fold_res_inr {E A B} (P : A -> Prop) (f : A -> B -> E + A) (g : A -> B -> A) a xs :
  (forall a x, x ∈ xs -> P a -> f a x = inr (g a x) /\ P (g a x)) -> P a ->
  fold_res f a xs = inr (foldl g a xs).
Proof.
  revert a. induction xs as [|x xs IH]; intros a Hf Ha; [done|]. simpl.
  destruct (Hf a x) as [-> HP]; [set_solver|done|]. apply IH; [|done]. intros. apply Hf; set_solver.
Qed.

(** An invariant of every step that succeeds holds after a loop that
    succeeds. *)
Lemma fold_res_inv {E A B} (P : A -> Prop) (f : A -> B -> E + A) a xs b :
  (forall a x a', x ∈ xs -> P a -> f a x = inr a' -> P a') -> P a -> fold_res f a xs = inr b -> P b.
Proof.
  revert a. induction xs as [|x xs IH]; intros a Hf Ha; simpl; [by intros [= <-]|].
  destruct (f a x) as [e|a'] eqn:Hx; [done|]. apply IH; [|apply (Hf a x a'); [set_solver|done|done]].
  intros a0 y a1 Hy. apply Hf. set_solver.
Qed.

(** [mapM] in the exception monad succeeds with the results of every
    call. *)
Lemma mapM_inr {E A B} (f : A -> E + B) (l : list A) (l' : list B) :
  mapM f l = inr l' -> Forall2 (fun x y => f x = inr y) l l'.
Proof.
  revert l'. induction l as [|x l IH]; intros l'; simpl; [by intros [= <-]|].
  destruct (f x) as [e|y] eqn:Hx; [done|]. simpl.
  destruct (mapM f l) as [e|k] eqn:Hl; [done|]. intros [= <-]. constructor; [done|]. by apply IH.
Qed.

(** A loop stops at the first step that raises. *)
Lemma fold_res_inl {E A B} (f : A -> B -> E + A) a xs x ys a' (e : E) :
  fold_res f a xs = inr a' -> f a' x = inl e -> fold_res f a (xs ++ x :: ys) = inl e.
Proof. intros Hxs Hx. rewrite fold_res_app, Hxs. simpl. by rewrite Hx. Qed.

#[export] Hint Resolve gset_square empty_grid_square fold_gset_square choice_elem py_range_NoDup : pyapp.
#[export] Hint Rewrite length_py_range : pyapp_rw.

(** Case analysis on the boolean tests of the modelled code. *)
Ltac py_case :=
  repeat match goal with
  | |- context [if ?b then _ else _] =>
      lazymatch b with
      | Z.eqb ?x ?y => destruct (Z.eqb_spec x y)
      | Z.ltb ?x ?y => destruct (Z.ltb_spec x y)
      | Z.leb ?x ?y => destruct (Z.leb_spec x y)
      | Z.gtb ?x ?y => rewrite (Z.gtb_ltb x y)
      | Z.geb ?x ?y => rewrite (Z.geb_leb x y)
      | _ => destruct b eqn:?
      end
  end.

(** Closes [square n g] for a board built by [gset]s or written out. *)
Ltac solve_square :=
  repeat lazymatch goal with
  | |- square _ (gset _ _ _ _) => apply gset_square
  | |- square _ (empty_grid _) => apply empty_grid_square
  | |- square _ _ => split; [reflexivity | repeat constructor]
  end.
