(* ===== verification/GameTree.v ===== *)
(** * GameTree: the minimax decision tree shared by both games

    [src/tictactoe.py] and [src/othello.py] each define a class [Tree]
    (a node holds [grid], [player], [action], [score], [children]) with
    the same methods [add_child], [pass_score] and [select_best_child],
    and each game class has a method [extend_tree] that grows the tree
    depth first and a method [decision_tree] that builds, scores and
    reads it.  The two [extend_tree] differ only in which moves they
    expand, how a child grid is produced and whether a child whose score
    is non-zero is expanded further; this file states those differences
    as the interface [GameRules] and models the engine once against it.

    - [tree] is the Python node, with the children as a list;
    - [pass_score] is [Tree.pass_score]: it returns the node with its
      score and its children's scores replaced by the backed-up values
      (the Python method updates them in place and returns the score);
    - [select_best_child] is [Tree.select_best_child] with its
      [choice] fallback seeded by [r];
    - [extend_tree] is [extend_tree] with a fuel argument; the fuel
      [S (empties grid)] given by [decision_tree] is always enough
      ([extend_tree_total]);
    - [decision_tree] is the game classes' [decision_tree].
    The laws [GameLaws] are what the engine needs from a game: a move
    keeps the board well formed and fills at least one empty cell. *)

From stdpp Require Import base list sets.
From Stdlib Require Import ZArith Lia.
From S2P Require Import Prelude.
Local Open Scope Z_scope.
#[local] Set Warnings "-clear-no-such-hyp".

(** What a game supplies to the engine. *)
Class GameRules (G A : Type) := {
  moves : G -> Z -> list A;        (** the moves [extend_tree] expands *)
  play : G -> Z -> A -> G;         (** the child grid of a move *)
  evaluate : G -> Z;               (** [check_score] *)
  keep_expanding : Z -> bool;      (** is a child with this score extended? *)
  empties : G -> nat;              (** empty playable cells *)
  board_ok : G -> Prop             (** well-formed board *)
}.

Class GameLaws (G A : Type) `{!GameRules G A} := {
  play_ok : forall g p a, board_ok g -> a ∈ moves g p -> board_ok (play g p a);
  play_empties : forall g p a, board_ok g -> a ∈ moves g p -> (empties (play g p a) < empties g)%nat
}.

Section Tree.
Context {G A : Type}.

Local Unset Elimination Schemes.

(** [Tree(grid, player, action, score)] with its [children] list. *)
Inductive tree : Type :=
| Node (grid : G) (player : Z) (action : option A) (score : Z) (children : list tree).

Definition tgrid (t : tree) : G := let 'Node g _ _ _ _ := t in g.
Definition tplayer (t : tree) : Z := let 'Node _ p _ _ _ := t in p.
Definition taction (t : tree) : option A := let 'Node _ _ a _ _ := t in a.
Definition tscore (t : tree) : Z := let 'Node _ _ _ s _ := t in s.
Definition tchildren (t : tree) : list tree := let 'Node _ _ _ _ cs := t in cs.

(** Induction over a node and all of its children. *)
Section tree_ind.
Variable P : tree -> Prop.
Hypothesis HNode : forall g p a s cs, Forall P cs -> P (Node g p a s cs).
Fixpoint tree_ind (t : tree) : P t :=
  match t with
  | Node g p a s cs =>
      HNode g p a s cs
        ((fix go (l : list tree) : Forall P l :=
            match l with
            | [] => @List.Forall_nil _ P
            | c :: l' => @List.Forall_cons _ P c l' (tree_ind c) (go l')
            end) cs)
  end.
End tree_ind.

(** [Tree.add_child]: [self.children.append(child)]. *)
Definition add_child (t c : tree) : tree :=
  let 'Node g p a s cs := t in Node g p a s (cs ++ [c]).

(** One comparison of the loops of [pass_score]: [player == 1] keeps the
    smaller score, any other player the larger. *)
Definition minmax_step (player acc s : Z) : Z :=
  if player =? 1 then (if s <? acc then s else acc)
  else (if s >? acc then s else acc).

(** [Tree.pass_score(player)]: the children are scored for the other
    player first, then folded into the node's own score. *)
Fixpoint pass_score (player : Z) (t : tree) : tree :=
  match t with
  | Node g p a s cs =>
      let cs' := map (pass_score ((player + 1) mod 2)) cs in
      Node g p a (fold_left (minmax_step player) (map tscore cs') s) cs'
  end.

(** [Tree.select_best_child]: the actions of the children whose score
    equals the node's; if there is none, the action of a child drawn by
    [choice], which raises [IndexError] when there are no children. *)
Definition select_best_child (r : nat) (t : tree) : option (list (option A)) :=
  match map taction (List.filter (fun c => tscore c =? tscore t) (tchildren t)) with
  | [] => c ← choice r (tchildren t); Some [taction c]
  | acts => Some acts
  end.

(** [select_best_child] seen through the children's actions and scores. *)
Definition select_best_pairs (r : nat) (score : Z) (kids : list (option A * Z))
  : option (list (option A)) :=
  match map fst (List.filter (fun k => k.2 =? score) kids) with
  | [] => k ← choice r kids; Some [k.1]
  | acts => Some acts
  end.

Section Engine.
Context `{!GameRules G A}.

(** The body of the loop of [extend_tree] before the recursive call:
    the grid after the move, and
    [Tree(new_grid, (player+1)%2, action, check_score(new_grid))]. *)
Definition new_child (t : tree) (player : Z) (action : A) : tree :=
  let new_grid := play (tgrid t) player action in
  Node new_grid ((player + 1) mod 2) (Some action) (evaluate new_grid) [].

(** [extend_tree(tree, curr_player, level)]: stop at [decision_level];
    otherwise build one child per move of [curr_player], extend it when
    [keep_expanding] its score, and append it to the node. *)
Fixpoint extend_tree (fuel : nat) (decision_level : Z) (t : tree) (curr_player level : Z)
  : option tree :=
  match fuel with
  | O => None
  | S fuel' =>
      if level =? decision_level then Some t else
      let level := level + 1 in
      let build (action : A) : option tree :=
        let player := curr_player in
        let child := new_child t player action in
        if keep_expanding (tscore child)
        then extend_tree fuel' decision_level child ((player + 1) mod 2) level
        else Some child in
      children ← all_some (map build (moves (tgrid t) curr_player));
      Some (fold_left add_child children t)
  end.

(** [decision_tree()]: a root with score 0, extended, scored for the
    player to move, and one of the best actions drawn with [choice]. *)
Definition decision_tree (decision_level : Z) (grid : G) (player : Z) (r1 r2 : nat)
  : option (option A) :=
  tree ← extend_tree (S (empties grid)) decision_level (Node grid player None 0 []) player 0;
  let tree := pass_score player tree in
  actions ← select_best_child r1 tree;
  choice r2 actions.

(** How a move's child is produced: a leaf, or the leaf extended with
    the remaining fuel one level deeper. *)
Definition child_of (fuel : nat) (dl : Z) (t : tree) (p l : Z) (a : A) (c : tree) : Prop :=
  (keep_expanding (tscore (new_child t p a)) = false /\ c = new_child t p a) \/
  (keep_expanding (tscore (new_child t p a)) = true /\
   extend_tree fuel dl (new_child t p a) ((p + 1) mod 2) (l + 1) = Some c).

(** A child of a node of grid [g] after scoring: the scored form of the
    node produced by move [a] at level [l]. *)
Definition scored_child (fuel : nat) (dl : Z) (g : G) (p l : Z) (a : A) (c : tree) : Prop :=
  exists c0, c = pass_score ((p + 1) mod 2) c0 /\ child_of fuel dl (Node g p None 0 []) p l a c0.

End Engine.
End Tree.

Arguments tree : clear implicits.

(** ** Lemmas on the tree and [pass_score] *)

Section TreeLemmas.
Context {G A : Type}.
Implicit Types (t c : tree G A).

Lemma add_children_eq (t : tree G A) (cs : list (tree G A)) :
  fold_left add_child cs t = Node (tgrid t) (tplayer t) (taction t) (tscore t) (tchildren t ++ cs).
Proof.
  revert t. induction cs as [|c cs IH]; intros [g p a s cs0]; simpl.
  - by rewrite app_nil_r.
  - rewrite IH. simpl. by rewrite <- app_assoc.
Qed.

(** The fold of [pass_score] for the minimising player [1]: the result is
    the node's own score or one of the children's, and it is below all of
    them.  For any other player it is above all of them. *)
Lemma minmax_step_min (acc x : Z) : minmax_step 1 acc x = Z.min acc x.
Proof. unfold minmax_step. rewrite Z.eqb_refl. py_case; lia. Qed.

Lemma minmax_step_max (p acc x : Z) : p <> 1 -> minmax_step p acc x = Z.max acc x.
Proof. intros Hp. unfold minmax_step. apply Z.eqb_neq in Hp. rewrite Hp. py_case; lia. Qed.

Lemma fold_minmax_spec (p s : Z) (l : list Z) :
  let v := fold_left (minmax_step p) l s in
  (v = s \/ v ∈ l) /\
  (if p =? 1 then v <= s /\ Forall (fun x => v <= x) l
   else s <= v /\ Forall (fun x => x <= v) l).
Proof.
  destruct (Z.eqb_spec p 1) as [->|Hp]; simpl.
  - rewrite (fold_left_ext_pw _ _ _ _ minmax_step_min). apply fold_min_spec.
  - rewrite (fold_left_ext_pw _ _ _ _ (fun a b => minmax_step_max p a b Hp)).
    destruct (fold_max_spec l s) as (? & ? & ?). auto.
Qed.

Lemma pass_score_children (p : Z) (t : tree G A) :
  tchildren (pass_score p t) = map (pass_score ((p + 1) mod 2)) (tchildren t).
Proof. by destruct t. Qed.

Lemma pass_score_action (p : Z) (t : tree G A) : taction (pass_score p t) = taction t.
Proof. by destruct t. Qed.

Lemma pass_score_leaf (p : Z) (t : tree G A) :
  tchildren t = [] -> tscore (pass_score p t) = tscore t.
Proof. destruct t as [g q a s cs]. simpl. by intros ->. Qed.

(** The backed-up score at a node of the minimising player [1] is at most
    its own score; at a node of any other player it is at least that. *)
Lemma pass_score_min_le (t : tree G A) : tscore (pass_score 1 t) <= tscore t.
Proof.
  destruct t as [g q a s cs]. cbn [tscore pass_score].
  destruct (fold_minmax_spec 1 s (map tscore (map (pass_score ((1 + 1) mod 2)) cs))) as [_ Hb].
  rewrite Z.eqb_refl in Hb. lia.
Qed.

Lemma pass_score_max_ge (p : Z) (t : tree G A) : p <> 1 -> tscore t <= tscore (pass_score p t).
Proof.
  intros Hp. destruct t as [g q a s cs]. cbn [tscore pass_score].
  destruct (fold_minmax_spec p s (map tscore (map (pass_score ((p + 1) mod 2)) cs))) as [_ Hb].
  rewrite (proj2 (Z.eqb_neq p 1) Hp) in Hb. lia.
Qed.

(** The backed-up score of a node of player [p] bounds each child's
    backed-up score. *)
Lemma pass_score_bound_child (p : Z) (t c : tree G A) :
  c ∈ tchildren (pass_score p t) ->
  if p =? 1 then tscore (pass_score p t) <= tscore c else tscore c <= tscore (pass_score p t).
Proof.
  destruct t as [g q a s cs]. cbn [tscore tchildren pass_score]. intros Hc.
  destruct (fold_minmax_spec p s (map tscore (map (pass_score ((p + 1) mod 2)) cs))) as [_ Hb].
  assert (Hsc : tscore c ∈ map tscore (map (pass_score ((p + 1) mod 2)) cs))
    by (apply list_elem_of_fmap; eauto).
  destruct (p =? 1); destruct Hb as [_ Hall]; rewrite Forall_forall in Hall; by apply Hall.
Qed.

(** ... and is attained by the node itself or one of the children. *)
Lemma pass_score_attained (p : Z) (t : tree G A) :
  tscore (pass_score p t) = tscore t \/
  exists c, c ∈ tchildren (pass_score p t) /\ tscore c = tscore (pass_score p t).
Proof.
  destruct t as [g q a s cs]. cbn [tscore tchildren pass_score].
  destruct (fold_minmax_spec p s (map tscore (map (pass_score ((p + 1) mod 2)) cs))) as [[Hs|Hin] _].
  - by left.
  - right. apply list_elem_of_fmap in Hin as (c & Hc & Hin). eauto.
Qed.

(** ** [select_best_child] *)

Lemma select_best_child_None (r : nat) (t : tree G A) :
  select_best_child r t = None <-> tchildren t = [].
Proof.
  unfold select_best_child. split.
  - destruct (map taction _) eqn:E; [|done].
    destruct (choice r (tchildren t)) eqn:Ec; simpl; [done|]. by apply choice_None in Ec.
  - intros Hc. rewrite Hc. reflexivity.
Qed.

(** The selection is a non-empty list of actions of children. *)
Lemma select_best_child_sub (r : nat) (t : tree G A) (acts : list (option A)) :
  select_best_child r t = Some acts ->
  acts <> [] /\ forall x, x ∈ acts -> exists c, c ∈ tchildren t /\ taction c = x.
Proof.
  unfold select_best_child. destruct (map taction _) as [|y ys] eqn:E.
  - destruct (choice r (tchildren t)) as [c|] eqn:Ec; simpl; [|done].
    intros [= <-]. split; [done|]. intros x Hx%list_elem_of_singleton. subst.
    exists c. split; [by eapply choice_elem|done].
  - intros [= <-]. split; [done|]. intros x Hx. rewrite <- E in Hx.
    apply list_elem_of_fmap in Hx as (c & -> & Hc).
    apply list_elem_of_In, filter_In in Hc as [Hc _]. exists c. split; [by apply list_elem_of_In|done].
Qed.

(** When some child has the node's score, only such children are chosen. *)
Lemma select_best_child_best (r : nat) (t : tree G A) (acts : list (option A)) :
  (exists c, c ∈ tchildren t /\ tscore c = tscore t) ->
  select_best_child r t = Some acts ->
  forall x, x ∈ acts -> exists c, c ∈ tchildren t /\ tscore c = tscore t /\ taction c = x.
Proof.
  intros (c0 & Hc0 & Hs0). unfold select_best_child.
  destruct (map taction _) as [|y ys] eqn:E.
  - exfalso. apply map_eq_nil in E. assert (Hin : In c0 (List.filter (fun c => tscore c =? tscore t) (tchildren t)))
      by (apply filter_In; split; [by apply list_elem_of_In|by apply Z.eqb_eq]).
    by rewrite E in Hin.
  - intros [= <-] x Hx. rewrite <- E in Hx.
    apply list_elem_of_fmap in Hx as (c & -> & Hc).
    apply list_elem_of_In, filter_In in Hc as [Hc Heq].
    exists c. split_and!; [by apply list_elem_of_In|by apply Z.eqb_eq|done].
Qed.

Lemma select_best_child_pairs (r : nat) (t : tree G A) :
  select_best_child r t =
  select_best_pairs r (tscore t) (map (fun c => (taction c, tscore c)) (tchildren t)).
Proof.
  unfold select_best_child, select_best_pairs.
  assert (Hf : map fst (List.filter (fun k => k.2 =? tscore t)
                          (map (fun c => (taction c, tscore c)) (tchildren t))) =
               map taction (List.filter (fun c => tscore c =? tscore t) (tchildren t))).
  { induction (tchildren t) as [|c cs IH]; simpl; [done|].
    destruct (tscore c =? tscore t); simpl; by rewrite IH. }
  rewrite Hf. destruct (map taction _); [|done].
  rewrite choice_map. by destruct (choice r (tchildren t)).
Qed.

(** The backed-up score of a node whose children either reach the
    extreme [W] or are no better for the mover than the node's own score:
    [W] when some child reaches it, the own score otherwise. *)
Lemma pass_score_value_cases (p W : Z) (t : tree G A) :
  (if p =? 1 then W <= tscore t else tscore t <= W) ->
  (forall c, c ∈ tchildren (pass_score p t) ->
     tscore c = W \/ (if p =? 1 then tscore t <= tscore c else tscore c <= tscore t)) ->
  tscore (pass_score p t) =
  if existsb (fun c => tscore c =? W) (tchildren (pass_score p t)) then W else tscore t.
Proof.
  intros HW Hc.
  destruct (existsb _ _) eqn:E.
  - apply existsb_exists in E as (c & Hin & Hw%Z.eqb_eq). apply list_elem_of_In in Hin.
    pose proof (pass_score_bound_child p t c Hin) as Hb.
    destruct (pass_score_attained p t) as [Hs|(c' & Hc' & Hs)];
      destruct (Hc c Hin) as [Hcw|Hcw]; try destruct (Hc c' Hc') as [Hcw'|Hcw'];
      destruct (p =? 1); lia.
  - destruct (pass_score_attained p t) as [Hs|(c' & Hc' & Hs)]; [done|].
    destruct (Hc c' Hc') as [Hcw|Hcw].
    + exfalso.
      assert (Ht : existsb (fun c => tscore c =? W) (tchildren (pass_score p t)) = true).
      { apply existsb_exists. exists c'. split; [by apply list_elem_of_In|by apply Z.eqb_eq]. }
      congruence.
    + pose proof (pass_score_min_le t). pose proof (pass_score_max_ge p t).
      destruct (Z.eqb_spec p 1) as [->|Hp]; [|specialize (H0 Hp)]; lia.
Qed.

(** When some child reaches the node's score, only such children are
    selected. *)
Lemma select_best_pairs_hit (r : nat) (V : Z) (kids : list (option A * Z))
  (acts : list (option A)) (x : option A) :
  (exists k, k ∈ kids /\ k.2 = V) -> select_best_pairs r V kids = Some acts -> x ∈ acts ->
  exists k, k ∈ kids /\ k.2 = V /\ k.1 = x.
Proof.
  intros (k & Hk & HV). unfold select_best_pairs.
  destruct (map fst (List.filter _ kids)) as [|y ys] eqn:E.
  - exfalso. apply map_eq_nil in E.
    assert (Hin : In k (List.filter (fun k => k.2 =? V) kids))
      by (apply filter_In; split; [by apply list_elem_of_In|by apply Z.eqb_eq]).
    by rewrite E in Hin.
  - intros [= <-] Hx. rewrite <- E in Hx. apply list_elem_of_fmap in Hx as (k' & -> & Hk').
    apply list_elem_of_In, filter_In in Hk' as [Hk' Hv]. exists k'.
    split_and!; [by apply list_elem_of_In|by apply Z.eqb_eq|done].
Qed.

End TreeLemmas.

(** ** Lemmas on [extend_tree] and [decision_tree] *)

Section EngineLemmas.
Context {G A : Type} `{!GameRules G A}.
Implicit Types (t c : tree G A).

Lemma extend_tree_unfold (fuel : nat) (dl : Z) (t : tree G A) (p l : Z) :
  extend_tree (S fuel) dl t p l =
  if l =? dl then Some t else
  cs ← all_some (map (fun a => if keep_expanding (tscore (new_child t p a))
                               then extend_tree fuel dl (new_child t p a) ((p + 1) mod 2) (l + 1)
                               else Some (new_child t p a)) (moves (tgrid t) p));
  Some (fold_left add_child cs t).
Proof. reflexivity. Qed.

(** More fuel never changes a result. *)
Lemma extend_tree_mono (f f' : nat) (dl : Z) (t t' : tree G A) (p l : Z) :
  extend_tree f dl t p l = Some t' -> (f <= f')%nat -> extend_tree f' dl t p l = Some t'.
Proof.
  revert f' t p l t'. induction f as [|f IH]; intros f' t p l t' He Hle; [done|].
  destruct f' as [|f']; [lia|]. rewrite extend_tree_unfold in *.
  destruct (l =? dl); [done|].
  destruct (all_some _) as [cs|] eqn:Ecs; simpl in He; [|done].
  erewrite (all_some_map_impl _ _ _ cs); [exact He| |exact Ecs].
  intros a c _ Hc. cbv beta in Hc. revert Hc.
  destruct (keep_expanding _); intros Hc; [apply IH; [done|lia]|done].
Qed.

(** The node is returned with its fields unchanged and children appended. *)
Lemma extend_tree_root (f : nat) (dl : Z) (t t' : tree G A) (p l : Z) :
  extend_tree f dl t p l = Some t' ->
  exists cs, t' = Node (tgrid t) (tplayer t) (taction t) (tscore t) (tchildren t ++ cs).
Proof.
  destruct f as [|f]; [done|]. rewrite extend_tree_unfold.
  destruct (l =? dl).
  - intros [= <-]. exists []. destruct t. simpl. by rewrite app_nil_r.
  - destruct (all_some _) as [cs|]; simpl; [|done]. intros [= <-].
    exists cs. apply add_children_eq.
Qed.

(** Below the depth limit, one child per move, in the order of [moves]. *)
Lemma extend_tree_children (f : nat) (dl : Z) (t t' : tree G A) (p l : Z) :
  l <> dl -> extend_tree (S f) dl t p l = Some t' ->
  exists cs, t' = Node (tgrid t) (tplayer t) (taction t) (tscore t) (tchildren t ++ cs) /\
             Forall2 (child_of f dl t p l) (moves (tgrid t) p) cs.
Proof.
  intros Hl. rewrite extend_tree_unfold. apply Z.eqb_neq in Hl. rewrite Hl.
  destruct (all_some _) as [cs|] eqn:Ecs; simpl; [|done]. intros [= <-].
  exists cs. split; [apply add_children_eq|].
  apply all_some_Forall2 in Ecs. apply Forall2_fmap_l in Ecs.
  eapply Forall2_impl; [exact Ecs|]. intros a c. unfold compose, child_of. cbv beta.
  destruct (keep_expanding _); intros Hc; [by right|left; split; congruence].
Qed.

(** Each child of an extended leaf carries the move that produced it. *)
Lemma extend_tree_child_action (f : nat) (dl : Z) (g : G) (p l : Z) (t : tree G A) (c : tree G A) :
  extend_tree f dl (Node g p None 0 []) p l = Some t -> c ∈ tchildren t ->
  exists a, a ∈ moves g p /\ taction c = Some a.
Proof.
  intros He Hc. destruct f as [|f]; [done|].
  destruct (decide (l = dl)) as [->|Hl].
  - rewrite extend_tree_unfold, Z.eqb_refl in He. injection He as <-. set_solver.
  - destruct (extend_tree_children f dl _ t p l Hl He) as (cs & -> & Hcs).
    simpl in Hc. destruct (Forall2_elem_r _ _ _ c Hcs Hc) as (a & Ha & [[_ ->]|[_ Hrec]]).
    + by exists a.
    + exists a. split; [done|]. destruct (extend_tree_root _ _ _ _ _ _ Hrec) as [cs' ->]. done.
Qed.

(** With fuel above the number of empty cells the tree is always built:
    [extend_tree] terminates whatever [decision_level] is. *)
Lemma extend_tree_total `{!GameLaws G A} (f : nat) (dl : Z) (t : tree G A) (p l : Z) :
  board_ok (tgrid t) -> (empties (tgrid t) < f)%nat -> is_Some (extend_tree f dl t p l).
Proof.
  revert t p l. induction f as [|f IH]; intros t p l Hok Hf; [lia|].
  rewrite extend_tree_unfold. destruct (l =? dl); [eauto|].
  destruct (all_some_map_is_Some (fun a => if keep_expanding (tscore (new_child t p a))
           then extend_tree f dl (new_child t p a) ((p + 1) mod 2) (l + 1)
           else Some (new_child t p a)) (moves (tgrid t) p)) as [cs ->].
  - intros a Ha. destruct (keep_expanding _); [|eauto].
    apply IH; simpl; [by apply play_ok|].
    pose proof (play_empties (tgrid t) p a Hok Ha). lia.
  - simpl. eauto.
Qed.

Lemma decision_tree_unfold (dl : Z) (g : G) (p : Z) (r1 r2 : nat) (x : option A) :
  decision_tree dl g p r1 r2 = Some x <->
  exists t acts, extend_tree (S (empties g)) dl (Node g p None 0 []) p 0 = Some t /\
                 select_best_child r1 (pass_score p t) = Some acts /\ choice r2 acts = Some x.
Proof.
  unfold decision_tree. split.
  - destruct (extend_tree _ _ _ _ _) as [t|]; simpl; [|done].
    destruct (select_best_child r1 _) as [acts|] eqn:Es; simpl; [|done].
    intros Hc. by exists t, acts.
  - intros (t & acts & -> & Hs & Hc). simpl. by rewrite Hs.
Qed.

(** [choose_move] returns a move of the player to move. *)
Lemma decision_tree_in_moves (dl : Z) (g : G) (p : Z) (r1 r2 : nat) (a : A) :
  decision_tree dl g p r1 r2 = Some (Some a) -> a ∈ moves g p.
Proof.
  intros (t & acts & He & Hs & Hc)%decision_tree_unfold.
  apply choice_elem in Hc. destruct (select_best_child_sub _ _ _ Hs) as [_ Hsub].
  destruct (Hsub _ Hc) as (c & Hc' & Ha). rewrite pass_score_children in Hc'.
  apply list_elem_of_fmap in Hc' as (c0 & -> & Hc0). rewrite pass_score_action in Ha.
  destruct (extend_tree_child_action _ _ _ _ _ _ c0 He Hc0) as (a' & Ha' & Hact). congruence.
Qed.

(** The children of the root are the moves of the player to move. *)
Lemma decision_tree_root (dl : Z) (g : G) (p : Z) (t : tree G A) :
  dl <> 0 -> extend_tree (S (empties g)) dl (Node g p None 0 []) p 0 = Some t ->
  exists cs, t = Node g p None 0 cs /\ Forall2 (child_of (empties g) dl (Node g p None 0 []) p 0) (moves g p) cs.
Proof.
  intros Hdl He. destruct (extend_tree_children _ _ _ _ _ _ (not_eq_sym Hdl) He) as (cs & -> & Hcs).
  by exists cs.
Qed.

(** The children of a node extended below the depth limit are the
    scored children of its moves, in the order of [moves]. *)
Lemma extend_fresh_children (f : nat) (dl : Z) (g : G) (q : Z) (act : option A) (s0 p l : Z)
  (t : tree G A) :
  l <> dl -> extend_tree (S f) dl (Node g q act s0 []) p l = Some t ->
  Forall2 (scored_child f dl g p l) (moves g p) (tchildren (pass_score p t)).
Proof.
  intros Hl He. destruct (extend_tree_children _ _ _ _ _ _ Hl He) as (cs & -> & Hcs).
  simpl. apply Forall2_fmap_r. eapply Forall2_impl; [exact Hcs|].
  intros a c Hc. by exists c.
Qed.

(** What a scored child records: its move, the score of the grid after
    the move, and no children when it was not extended. *)
Lemma scored_child_fields (f : nat) (dl : Z) (g : G) (p l : Z) (a : A) (c : tree G A) :
  scored_child f dl g p l a c ->
  exists c0, c = pass_score ((p + 1) mod 2) c0 /\ taction c0 = Some a /\
             tscore c0 = evaluate (play g p a) /\
             (keep_expanding (evaluate (play g p a)) = false -> tchildren c0 = []).
Proof.
  intros (c0 & -> & [[Hk ->]|[Hk Hrec]]).
  - eexists. by split_and!.
  - destruct (extend_tree_root _ _ _ _ _ _ Hrec) as [cs' ->]. eexists. split; [reflexivity|].
    simpl in *. split_and!; try done. congruence.
Qed.

(** The engine fails with [IndexError] exactly when the player has no
    move or the depth is 0; otherwise it returns a move. *)
Lemma decision_tree_None_iff `{!GameLaws G A} (dl : Z) (g : G) (p : Z) (r1 r2 : nat) :
  board_ok g ->
  (decision_tree dl g p r1 r2 = None <-> moves g p = [] \/ dl = 0).
Proof.
  intros Hok. split.
  - intros Hnone. destruct (decide (moves g p = [])) as [|Hm]; [by left|right].
    destruct (decide (dl = 0)) as [|Hdl]; [done|exfalso].
    destruct (extend_tree_total (S (empties g)) dl (Node g p None 0 []) p 0 Hok ltac:(simpl; lia))
      as [t He].
    destruct (decision_tree_root dl g p t Hdl He) as (cs & -> & Hcs).
    assert (Hcs' : cs <> []) by (intros ->; by apply Forall2_nil_inv_r in Hcs).
    unfold decision_tree in Hnone. rewrite He in Hnone. simpl in Hnone.
    destruct (select_best_child r1 _) as [acts|] eqn:Es.
    + simpl in Hnone. apply choice_None in Hnone as ->.
      by destruct (select_best_child_sub _ _ _ Es).
    + apply select_best_child_None in Es. simpl in Es. by apply map_eq_nil in Es.
  - unfold decision_tree. rewrite extend_tree_unfold. simpl tgrid.
    intros [->| ->]; [by destruct (0 =? dl)|done].
Qed.

(** When there is a move and the depth is not 0, the engine returns some
    move of the player. *)
Lemma decision_tree_Some `{!GameLaws G A} (dl : Z) (g : G) (p : Z) (r1 r2 : nat) :
  board_ok g -> moves g p <> [] -> dl <> 0 ->
  exists a, decision_tree dl g p r1 r2 = Some (Some a) /\ a ∈ moves g p.
Proof.
  intros Hok Hm Hdl. destruct (decision_tree dl g p r1 r2) as [[a|]|] eqn:E.
  - exists a. split; [done|]. by eapply decision_tree_in_moves.
  - exfalso. apply decision_tree_unfold in E as (t & acts & He & Hs & Hc).
    apply choice_elem in Hc. destruct (select_best_child_sub _ _ _ Hs) as [_ Hsub].
    destruct (Hsub _ Hc) as (c & Hc' & Ha). rewrite pass_score_children in Hc'.
    apply list_elem_of_fmap in Hc' as (c0 & -> & Hc0). rewrite pass_score_action in Ha.
    destruct (extend_tree_child_action _ _ _ _ _ _ c0 He Hc0) as (a' & _ & Hact). congruence.
  - exfalso. apply (decision_tree_None_iff dl g p r1 r2 Hok) in E. tauto.
Qed.

(** ** Properties of the engine *)

(** C1: The engine's outcome: [decision_tree] fails ([random.choice] on an
    empty list) exactly when the player has no move or the depth is 0;
    otherwise it returns one of the player's moves, for every pair of
    random draws. *)
Theorem decision_tree_correct `{!GameLaws G A} (dl : Z) (g : G) (p : Z) (r1 r2 : nat) :
  board_ok g ->
  (decision_tree dl g p r1 r2 = None <-> moves g p = [] \/ dl = 0) /\
  (forall x, decision_tree dl g p r1 r2 = Some x -> exists a, x = Some a /\ a ∈ moves g p).
Proof.
  intros Hok. split; [by apply decision_tree_None_iff|].
  intros x Hx.
  assert (Hm : ~ (moves g p = [] \/ dl = 0)).
  { intros Hc. apply (decision_tree_None_iff dl g p r1 r2 Hok) in Hc. congruence. }
  destruct (decision_tree_Some dl g p r1 r2 Hok ltac:(tauto) ltac:(tauto)) as (a & Ha & Hin).
  exists a. split; [congruence|done].
Qed.

(** C3: The choice: the action returned is that of a child of the scored root
    whose backed-up score equals the root's; only when no child has the
    root's score (the root's own initial score 0 won the fold) is it the
    action of a child drawn at random. *)
Theorem decision_tree_optimal (dl : Z) (g : G) (p : Z) (r1 r2 : nat) (a : A) :
  decision_tree dl g p r1 r2 = Some (Some a) ->
  exists t c, extend_tree (S (empties g)) dl (Node g p None 0 []) p 0 = Some t /\
    c ∈ tchildren (pass_score p t) /\ taction c = Some a /\
    (tscore c = tscore (pass_score p t) \/
     forall c', c' ∈ tchildren (pass_score p t) -> tscore c' <> tscore (pass_score p t)).
Proof.
  intros (t & acts & He & Hs & Hc%choice_elem)%decision_tree_unfold. exists t.
  destruct (existsb (fun c => tscore c =? tscore (pass_score p t)) (tchildren (pass_score p t)))
    eqn:E.
  - apply existsb_exists in E as (c0 & Hc0 & Hs0%Z.eqb_eq).
    destruct (select_best_child_best r1 _ acts ltac:(exists c0; split; [by apply list_elem_of_In|done])
                Hs _ Hc) as (c & Hin & Hsc & Ha).
    exists c. auto.
  - destruct (select_best_child_sub _ _ _ Hs) as [_ Hsub]. destruct (Hsub _ Hc) as (c & Hin & Ha).
    exists c. split_and!; try done. right. intros c' Hc' Heq.
    apply not_true_iff_false in E. apply E, existsb_exists. exists c'.
    split; [by apply list_elem_of_In|by apply Z.eqb_eq].
Qed.

End EngineLemmas.
