(* ===== verification/TicTacToe.v ===== *)
(** * TicTacToe: [src/tictactoe.py]

    [Module Tictactoe] is the backend class [Tictactoe]: its fields are
    the record [state], each method is a function on it, and the game
    rules are given to the engine of [GameTree] as the instance
    [ttt_rules] ([extend_tree] expands every empty cell and stops at a
    child whose score is non-zero).  Its submodule [App] is the part of the
    class [TicTacToeApp] that changes the game: [handle_mouse_click] and one
    iteration of the [while True] loop of [__init__] ([frame]), with the
    pygame events as a list.  Drawing is not modelled. *)

From stdpp Require Import base list sets.
From Stdlib Require Import ZArith Lia.
From S2P Require Import Prelude GameTree.
Local Open Scope Z_scope.
Local Open Scope pyapp_scope.
#[local] Set Warnings "-clear-no-such-hyp".

Module Tictactoe.

(** [self.result]: wins, losses and draws. *)
Record tally := Tally { wins : Z; losses : Z; draws : Z }.

Record state := State {
  grid : Grid;
  player : Z;              (** 0 for the human, 1 for the AI *)
  decision_level : Z;
  end_game : bool;
  winner : option Z;
  result : tally
}.

Definition with_grid (s : state) (g : Grid) : state :=
  State g (player s) (decision_level s) (end_game s) (winner s) (result s).
Definition with_player (s : state) (p : Z) : state :=
  State (grid s) p (decision_level s) (end_game s) (winner s) (result s).
Definition with_level (s : state) (v : Z) : state :=
  State (grid s) (player s) v (end_game s) (winner s) (result s).
Definition with_end_game (s : state) (b : bool) : state :=
  State (grid s) (player s) (decision_level s) b (winner s) (result s).
Definition with_winner (s : state) (w : option Z) (r : tally) : state :=
  State (grid s) (player s) (decision_level s) (end_game s) w r.

(** [__init__] *)
Definition init : state :=
  State (empty_grid 3) 0 3 false None (Tally 0 0 0).

(** [switch_player] *)
Definition switch_player (s : state) : state := with_player s ((player s + 1) mod 2).

(** [set_decision_level] *)
Definition set_decision_level (s : state) (value : Z) : state := with_level s value.

(** The cells in the order of the loops [for i in range(3): for j in range(3)]. *)
Definition cells : list (Z * Z) := range2 0 3.

(** [clean_grid] *)
Definition clean_grid (s : state) : state :=
  with_grid s (fold_left (fun g '(i, j) => gset g i j 0) cells (grid s)).

(** [reset_game] *)
Definition reset_game (s : state) : state := with_end_game (clean_grid s) false.

(** [add_move(action)]: the new state and [added_move]. *)
Definition add_move (s : state) (action : Z * Z) : state * bool :=
  let '(i, j) := action in
  if player s =? 0 then
    if (grid s)⟨i, j⟩ =? 0 then (with_grid s (gset (grid s) i j 1), true) else (s, false)
  else
    if (grid s)⟨i, j⟩ =? 0 then (with_grid s (gset (grid s) i j (-1)), true) else (s, false).

(** One [if ... elif ...] test of [check_score] on three cells. *)
Definition line_step (a b c score : Z) : Z :=
  if (a =? 1) && (b =? 1) && (c =? 1) then 1
  else if (a =? -1) && (b =? -1) && (c =? -1) then -1
  else score.

(** [check_score(grid)]: rows, columns, then the two diagonals; a later
    completed line overwrites the score of an earlier one. *)
Definition check_score (g : Grid) : Z :=
  let score := 0 in
  let score := fold_left (fun sc i => line_step g⟨i, 0⟩ g⟨i, 1⟩ g⟨i, 2⟩ sc) (py_range 0 3) score in
  let score := fold_left (fun sc i => line_step g⟨0, i⟩ g⟨1, i⟩ g⟨2, i⟩ sc) (py_range 0 3) score in
  let score := line_step g⟨0, 0⟩ g⟨1, 1⟩ g⟨2, 2⟩ score in
  line_step g⟨2, 0⟩ g⟨1, 1⟩ g⟨0, 2⟩ score.

(** [check_full_grid(grid)]: the [break] leaves only the inner loop, so
    the flag is [False] exactly when some cell is 0. *)
Definition check_full_grid (g : Grid) : bool :=
  forallb (fun i => forallb (fun j => negb (g⟨i, j⟩ =? 0)) (py_range 0 3)) (py_range 0 3).

(** [check_end_game] *)
Definition check_end_game (s : state) : state :=
  let score := check_score (grid s) in
  let s :=
    if negb (score =? 0) then
      let s := with_end_game s true in
      let r := result s in
      if score =? 1 then with_winner s (Some 0) (Tally (wins r + 1) (losses r) (draws r))
      else if score =? -1 then with_winner s (Some 1) (Tally (wins r) (losses r + 1) (draws r))
      else s
    else s in
  if (score =? 0) && check_full_grid (grid s) then
    let s := with_end_game s true in
    let r := result s in
    with_winner s (winner s) (Tally (wins r) (losses r) (draws r + 1))
  else s.

(** The grid of a candidate move in [extend_tree]: a copy with the
    mover's mark, 1 for player 0 and -1 otherwise. *)
Definition play_move (g : Grid) (p : Z) (action : Z * Z) : Grid :=
  let '(i, j) := action in
  if p =? 0 then gset g i j 1 else gset g i j (-1).

(** The empty cells, in loop order: the moves [extend_tree] expands. *)
Definition empty_cells (g : Grid) (p : Z) : list (Z * Z) :=
  List.filter (fun '(i, j) => g⟨i, j⟩ =? 0) cells.

(** The rules [extend_tree] gives the engine: a child is extended only
    while its score is 0. *)
#[export] Instance ttt_rules : GameRules Grid (Z * Z) := {|
  moves := empty_cells;
  play := play_move;
  evaluate := check_score;
  keep_expanding := fun score => score =? 0;
  empties := fun g => countb (fun '(i, j) => g⟨i, j⟩ =? 0) cells;
  board_ok := square 3
|}.

(** [player_step]: the AI's move; unpacking a missing action fails. *)
Definition player_step (s : state) (r1 r2 : nat) : option state :=
  action ← decision_tree (decision_level s) (grid s) (player s) r1 r2;
  match action with
  | None => None
  | Some a =>
      let '(s, _) := add_move s a in
      Some (switch_player (check_end_game s))
  end.

(** The eight lines, in the order [check_score] tests them. *)
Definition lines : list ((Z * Z) * (Z * Z) * (Z * Z)) :=
  map (fun i => ((i, 0), (i, 1), (i, 2))) (py_range 0 3) ++
  map (fun i => ((0, i), (1, i), (2, i))) (py_range 0 3) ++
  [((0, 0), (1, 1), (2, 2)); ((2, 0), (1, 1), (0, 2))].

(** Player [v]'s mark fills line [l]. *)
Definition line_owned (g : Grid) (v : Z) (l : (Z * Z) * (Z * Z) * (Z * Z)) : bool :=
  let '((a1, a2), (b1, b2), (c1, c2)) := l in
  (g⟨a1, a2⟩ =? v) && (g⟨b1, b2⟩ =? v) && (g⟨c1, c2⟩ =? v).

Definition has_line (g : Grid) (v : Z) : bool := existsb (line_owned g v) lines.

(** One [if ... elif ...] test of [check_score] on line [l]. *)
Definition line_score (g : Grid) (l : (Z * Z) * (Z * Z) * (Z * Z)) (score : Z) : Z :=
  let '((a1, a2), (b1, b2), (c1, c2)) := l in line_step g⟨a1, a2⟩ g⟨b1, b2⟩ g⟨c1, c2⟩ score.

(** ** What the search computes

    The score of a line of player [p]'s marks, whether [p] can complete a
    line in one move, and the 2-ply rule that [decision_tree] turns out to
    implement ([two_ply_refinement]). *)
Definition win_value (p : Z) : Z := if p =? 0 then 1 else -1.

Definition can_win (g : Grid) (p : Z) : bool :=
  existsb (fun a => check_score (play_move g p a) =? win_value p) (empty_cells g p).

(** The backed-up score of the root's child for move [a]: the score of
    the board when the move ends the game, otherwise the opponent's
    immediate win when that child is expanded (depth other than 1). *)
Definition child_value (dl : Z) (g : Grid) (p : Z) (a : Z * Z) : Z :=
  let g' := play_move g p a in
  let q := (p + 1) mod 2 in
  if check_score g' =? 0 then (if negb (1 =? dl) && can_win g' q then win_value q else 0)
  else check_score g'.

Definition root_value (g : Grid) (p : Z) : Z := if can_win g p then win_value p else 0.

Definition two_ply_move (dl : Z) (g : Grid) (p : Z) (r1 r2 : nat) : option (option (Z * Z)) :=
  acts ← select_best_pairs r1 (root_value g p)
           (map (fun a => (Some a, child_value dl g p a)) (empty_cells g p));
  choice r2 acts.

(** ** The frontend [TicTacToeApp] *)
Module App.

(** [handle_mouse_click(mousex, mousey)]: [int(x / 100)] truncates. *)
Definition handle_mouse_click (s : state) (mousex mousey : Z) : state :=
  if mousey <? 300 then
    if mousex <? 300 then
      let clicked_grid_i := Z.quot mousex 100 in
      let clicked_grid_j := Z.quot mousey 100 in
      if negb (end_game s) && ((grid s)⟨clicked_grid_j, clicked_grid_i⟩ =? 0) then
        let '(s, _) := add_move s (clicked_grid_j, clicked_grid_i) in
        switch_player (check_end_game s)
      else s
    else s
  else if (300 <? mousey) && (mousey <? 300 + 50) then
    if mousex <? 100 then set_decision_level s 1
    else if (100 <? mousex) && (mousex <? 2 * 100) then set_decision_level s 3
    else if (2 * 100 <? mousex) && (mousex <? 3 * 100) then reset_game s
    else s
  else s.

(** The pygame events the loop distinguishes. *)
Inductive event :=
| QuitEvent
| EscapeKeyUp
| MouseDown (x y : Z)
| OtherEvent.

(** [for event in pygame.event.get()]: [None] once the app exits. *)
Fixpoint handle_events (s : state) (evs : list event) : option state :=
  match evs with
  | [] => Some s
  | QuitEvent :: _ | EscapeKeyUp :: _ => None
  | MouseDown x y :: rest => handle_events (handle_mouse_click s x y) rest
  | OtherEvent :: rest => handle_events s rest
  end.

Inductive outcome :=
| Exited
| Crashed
| Running (s : state).

(** One iteration of the main loop: the events, then the AI's move when
    the game is on and it is player 1's turn. *)
Definition frame (s : state) (evs : list event) (r1 r2 : nat) : outcome :=
  match handle_events s evs with
  | None => Exited
  | Some s =>
      if negb (end_game s) && (player s =? 1) then
        match player_step s r1 r2 with
        | Some s' => Running s'
        | None => Crashed
        end
      else Running s
  end.

(** The invariant of the running app: a 3x3 board, a preset depth, a
    player 0 or 1, an unfinished game has no complete line and an empty
    cell, and the two players never both own a complete line. *)
Definition app_inv (s : state) : Prop :=
  square 3 (grid s) /\ (decision_level s = 1 \/ decision_level s = 3) /\
  (player s = 0 \/ player s = 1) /\
  (end_game s = false -> check_score (grid s) = 0 /\ check_full_grid (grid s) = false) /\
  ~ (has_line (grid s) 1 = true /\ has_line (grid s) (-1) = true).

(** The states the app can reach from [Tictactoe()] frame by frame. *)
Inductive reachable : state -> Prop :=
| reach_init : reachable init
| reach_frame (s s' : state) (evs : list event) (r1 r2 : nat) :
    reachable s -> frame s evs r1 r2 = Running s' -> reachable s'.

End App.

(** ** Scoring *)

Lemma check_score_lines (g : Grid) :
  check_score g = fold_left (fun sc l => line_score g l sc) lines 0.
Proof. reflexivity. Qed.

Lemma line_score_cases (g : Grid) (l : (Z * Z) * (Z * Z) * (Z * Z)) (sc : Z) :
  (line_owned g 1 l = true /\ line_score g l sc = 1) \/
  (line_owned g 1 l = false /\ line_owned g (-1) l = true /\ line_score g l sc = -1) \/
  (line_owned g 1 l = false /\ line_owned g (-1) l = false /\ line_score g l sc = sc).
Proof.
  destruct l as [[[a1 a2] [b1 b2]] [c1 c2]]. unfold line_owned, line_score, line_step.
  destruct (g⟨a1, a2⟩ =? 1), (g⟨b1, b2⟩ =? 1), (g⟨c1, c2⟩ =? 1),
    (g⟨a1, a2⟩ =? -1), (g⟨b1, b2⟩ =? -1), (g⟨c1, c2⟩ =? -1); simpl; tauto.
Qed.

(** The score after a sequence of line tests: unchanged when no line is
    complete, otherwise the owner's sign of the last complete line. *)
Lemma fold_lines_spec (g : Grid) (L : list ((Z * Z) * (Z * Z) * (Z * Z))) (acc : Z) :
  let v := fold_left (fun sc l => line_score g l sc) L acc in
  (existsb (line_owned g 1) L = false /\ existsb (line_owned g (-1)) L = false /\ v = acc) \/
  (v = 1 /\ existsb (line_owned g 1) L = true) \/
  (v = -1 /\ existsb (line_owned g (-1)) L = true).
Proof.
  revert acc. induction L as [|l L IH]; intros acc; simpl; [by left|].
  destruct (IH (line_score g l acc)) as [(H1 & H2 & ->)|[(-> & H)|(-> & H)]].
  - rewrite H1, H2.
    destruct (line_score_cases g l acc) as [(-> & ->)|[(-> & -> & ->)|(-> & -> & ->)]]; simpl; auto.
  - right; left. rewrite H, orb_true_r. done.
  - right; right. rewrite H, orb_true_r. done.
Qed.

Lemma cells_spec (i j : Z) : (i, j) ∈ cells <-> 0 <= i < 3 /\ 0 <= j < 3.
Proof. apply range2_spec. Qed.

(** [check_score] is always -1, 0 or 1. *)
Lemma check_score_range (g : Grid) : check_score g = -1 \/ check_score g = 0 \/ check_score g = 1.
Proof.
  rewrite check_score_lines.
  destruct (fold_lines_spec g lines 0) as [(_ & _ & ->)|[(-> & _)|(-> & _)]]; auto.
Qed.

(** The score is 0 exactly when no line is complete, and otherwise has the
    sign of the player owning a complete line when only one player does. *)
Lemma check_score_line_owner (g : Grid) :
  (check_score g = 0 <-> has_line g 1 = false /\ has_line g (-1) = false) /\
  (has_line g (-1) = false -> (check_score g = 1 <-> has_line g 1 = true)) /\
  (has_line g 1 = false -> (check_score g = -1 <-> has_line g (-1) = true)).
Proof.
  rewrite check_score_lines. unfold has_line.
  destruct (fold_lines_spec g lines 0) as [(H1 & H2 & ->)|[(-> & H)|(-> & H)]];
    rewrite ?H1, ?H2, ?H; split_and!; intros; split; intros; try congruence; try lia; tauto.
Qed.

(** A completed line of [w] after writing [v <> w] was already there. *)
Lemma has_line_gset (g : Grid) (i j v w : Z) :
  square 3 g -> w <> v -> has_line (gset g i j v) w = true -> has_line g w = true.
Proof.
  intros Hsq Hw. unfold has_line. rewrite !existsb_exists. intros (l & Hl & Hown).
  exists l. split; [done|]. destruct l as [[[a1 a2] [b1 b2]] [c1 c2]]. unfold line_owned in *.
  rewrite !andb_true_iff, !Z.eqb_eq in *. destruct Hown as [[Ha Hb] Hc].
  split_and!; eapply gget_gset_other_value; eauto.
Qed.

Lemma empty_cells_spec (g : Grid) (p i j : Z) :
  (i, j) ∈ empty_cells g p <-> (0 <= i < 3 /\ 0 <= j < 3) /\ g⟨i, j⟩ = 0.
Proof.
  unfold empty_cells. rewrite list_elem_of_In, filter_In, <- list_elem_of_In, cells_spec, Z.eqb_eq.
  done.
Qed.

Lemma square3_shape (g : Grid) :
  square 3 g -> exists a b c d e f h i j, g = [[a; b; c]; [d; e; f]; [h; i; j]].
Proof.
  intros [Hl Hr]. destruct g as [|r0 [|r1 [|r2 [|]]]]; try discriminate.
  inversion Hr as [|? ? Hl0 Hr1]; inversion Hr1 as [|? ? Hl1 Hr2]; inversion Hr2 as [|? ? Hl2 _].
  destruct r0 as [|a [|b [|c [|]]]]; try discriminate;
  destruct r1 as [|d [|e [|f [|]]]]; try discriminate;
  destruct r2 as [|h [|i [|j [|]]]]; try discriminate.
  by exists a, b, c, d, e, f, h, i, j.
Qed.

(** [clean_grid] empties a 3x3 board. *)
Lemma clean_grid_empty (s : state) :
  square 3 (grid s) -> grid (clean_grid s) = empty_grid 3.
Proof.
  intros Hsq. destruct (square3_shape _ Hsq) as (a & b & c & d & e & f & h & i & j & E).
  unfold clean_grid. simpl. rewrite E. reflexivity.
Qed.


(** A board that is not full has an empty cell to play. *)
Lemma full_grid_move (g : Grid) (p : Z) : check_full_grid g = false -> exists a, a ∈ empty_cells g p.
Proof.
  unfold check_full_grid. intros (i & Hi & Hrow)%forallb_false_exists.
  apply forallb_false_exists in Hrow as (j & Hj & Hc). apply negb_false_iff, Z.eqb_eq in Hc.
  apply py_range_spec in Hi, Hj. exists (i, j). by apply empty_cells_spec.
Qed.

(** The laws the engine needs: moves keep the 3x3 board and fill a cell. *)
Lemma ttt_laws : GameLaws Grid (Z * Z).
Proof.
  split.
  - intros g p [i j] Hok _. simpl. unfold play_move. destruct (p =? 0); auto with pyapp.
  - intros g p [i j] Hok Hmv. cbn [empties play moves board_ok ttt_rules] in *.
    apply empty_cells_spec in Hmv as [Hr Hz].
    assert (Hv : exists v, v <> 0 /\ play_move g p (i, j) = gset g i j v).
    { unfold play_move. destruct (p =? 0); eexists; split; [|reflexivity| |reflexivity]; lia. }
    destruct Hv as (v & Hv & ->).
    apply (countb_strict _ _ _ (i, j)).
    + intros [a b] _ Hq. apply Z.eqb_eq in Hq. apply Z.eqb_eq.
      eapply gget_gset_other_value; [done|exact Hq|lia].
    + by apply cells_spec.
    + by apply Z.eqb_eq.
    + apply Z.eqb_neq. rewrite (gget_gset_same 3 g i j v Hok); [done|]. apply pos_in_range; lia.
Qed.
#[local] Existing Instance ttt_laws.

(** ** The search computes a 2-ply rule *)

Lemma check_score_has_line (g : Grid) :
  (check_score g = 1 -> has_line g 1 = true) /\ (check_score g = -1 -> has_line g (-1) = true).
Proof.
  rewrite check_score_lines. unfold has_line.
  destruct (fold_lines_spec g lines 0) as [(_ & _ & ->)|[(-> & H)|(-> & H)]]; split; intros; first [lia|done].
Qed.

Lemma play_move_win (g : Grid) (p i j : Z) : play_move g p (i, j) = gset g i j (win_value p).
Proof. unfold play_move, win_value. by destruct (p =? 0). Qed.

(** A move on a board with no complete line scores 0 or the mover's win. *)
Lemma move_score (g : Grid) (p : Z) (a : Z * Z) :
  square 3 g -> check_score g = 0 -> (p = 0 \/ p = 1) ->
  check_score (play_move g p a) = 0 \/ check_score (play_move g p a) = win_value p.
Proof.
  intros Hsq H0 Hp. destruct a as [i j]. rewrite play_move_win.
  destruct (proj1 (proj1 (check_score_line_owner g)) H0) as [N1 N2].
  destruct (check_score_range (gset g i j (win_value p))) as [E|[E|E]]; [| by left |];
    destruct Hp as [-> | ->]; unfold win_value in *; simpl in *; auto; exfalso;
    [apply (proj2 (check_score_has_line _)) in E|apply (proj1 (check_score_has_line _)) in E];
    apply has_line_gset in E; first [congruence | done | lia].
Qed.

(** The backed-up score of a child: the mover's win when the move wins,
    and otherwise no better for the mover than 0. *)
Lemma scored_child_value (f : nat) (dl : Z) (g : Grid) (p l : Z) (a : Z * Z)
  (c : tree Grid (Z * Z)) :
  square 3 g -> check_score g = 0 -> (p = 0 \/ p = 1) -> scored_child f dl g p l a c ->
  (check_score (play_move g p a) = win_value p /\ tscore c = win_value p) \/
  (check_score (play_move g p a) = 0 /\ (if p =? 1 then 0 <= tscore c else tscore c <= 0)).
Proof.
  intros Hsq H0 Hp Hc. destruct (scored_child_fields _ _ _ _ _ _ _ Hc) as (c0 & -> & _ & Hs & Hleaf).
  cbn [evaluate keep_expanding ttt_rules play] in Hs, Hleaf.
  destruct (move_score g p a Hsq H0 Hp) as [E|E]; rewrite E in Hs, Hleaf.
  - right. split; [done|]. destruct Hp as [-> | ->]; simpl.
    + replace ((0 + 1) mod 2) with 1 by reflexivity. pose proof (pass_score_min_le c0). lia.
    + replace ((1 + 1) mod 2) with 0 by reflexivity.
      pose proof (pass_score_max_ge 0 c0 ltac:(lia)). lia.
  - left. split; [done|]. rewrite pass_score_leaf; [done|]. apply Hleaf.
    destruct Hp as [-> | ->]; reflexivity.
Qed.

(** The backed-up score of any node of the search whose board has no
    complete line: the mover's win if the node is expanded and the mover
    can complete a line, 0 otherwise.  Nothing deeper than one move of the
    mover matters. *)
Lemma node_value (f : nat) (dl : Z) (g : Grid) (q : Z) (act : option (Z * Z)) (p l : Z)
  (t : tree Grid (Z * Z)) :
  square 3 g -> check_score g = 0 -> (p = 0 \/ p = 1) ->
  extend_tree (S f) dl (Node g q act 0 []) p l = Some t ->
  tscore (pass_score p t) = if negb (l =? dl) && can_win g p then win_value p else 0.
Proof.
  intros Hsq H0 Hp He. destruct (Z.eqb_spec l dl) as [->|Hl]; simpl.
  - rewrite extend_tree_unfold, Z.eqb_refl in He. by injection He as <-.
  - pose proof (extend_fresh_children _ _ _ _ _ _ _ _ _ Hl He) as Hcs.
    destruct (extend_tree_root _ _ _ _ _ _ He) as [cs ->].
    rewrite (pass_score_value_cases p (win_value p)).
    + simpl tscore.
      match goal with |- (if ?b then _ else _) = _ => replace b with (can_win g p); [done|] end.
      symmetry. unfold can_win. apply Forall2_existsb. eapply Forall2_impl; [exact Hcs|].
      intros a c Hc.
      destruct (scored_child_value _ _ _ _ _ _ _ Hsq H0 Hp Hc) as [[-> ->]|[-> Hb]];
        [by rewrite !Z.eqb_refl|].
      destruct Hp as [-> | ->]; unfold win_value; simpl in *; py_case; lia.
    + destruct Hp as [-> | ->]; unfold win_value; simpl; lia.
    + intros c Hc. destruct (Forall2_elem_r _ _ _ c Hcs Hc) as (a & _ & Hsc).
      destruct (scored_child_value _ _ _ _ _ _ _ Hsq H0 Hp Hsc) as [[_ ->]|[_ Hb]];
        [by left|right; simpl; exact Hb].
Qed.

(** Each child of the root carries its move and the score [child_value]. *)
Lemma scored_root_child (f : nat) (dl : Z) (g : Grid) (p : Z) (a : Z * Z)
  (c : tree Grid (Z * Z)) :
  square 3 g -> check_score g = 0 -> (p = 0 \/ p = 1) -> scored_child f dl g p 0 a c ->
  taction c = Some a /\ tscore c = child_value dl g p a.
Proof.
  intros Hsq H0 Hp (c0 & -> & [[Hk ->]|[Hk Hrec]]); rewrite pass_score_action; unfold child_value.
  - cbn [new_child tgrid evaluate keep_expanding play ttt_rules tscore] in Hk |- *.
    rewrite Hk. split; [done|]. by rewrite pass_score_leaf.
  - cbn [new_child tgrid evaluate keep_expanding play ttt_rules tscore] in Hk |- *.
    unfold new_child in Hrec. cbn [tgrid evaluate play ttt_rules] in Hrec.
    replace (0 + 1) with 1 in Hrec by reflexivity.
    rewrite Hk. apply Z.eqb_eq in Hk. rewrite Hk in Hrec.
    destruct f as [|f]; [done|].
    destruct (extend_tree_root _ _ _ _ _ _ Hrec) as [cs' Ec0]. split; [by rewrite Ec0|].
    assert (Hq : (p + 1) mod 2 = 0 \/ (p + 1) mod 2 = 1) by (destruct Hp as [-> | ->]; simpl; auto).
    destruct a as [i j].
    assert (Hsq' : square 3 (play_move g p (i, j))) by (rewrite play_move_win; auto with pyapp).
    by rewrite (node_value _ _ _ _ _ _ _ _ Hsq' Hk Hq Hrec).
Qed.

(** Refinement: on a board with no complete line, for either player and
    any depth other than 0, [decision_tree] returns exactly what the 2-ply
    rule [two_ply_move] returns, for the same random draws. *)
Lemma two_ply_refinement (dl : Z) (g : Grid) (p : Z) (r1 r2 : nat) :
  square 3 g -> check_score g = 0 -> (p = 0 \/ p = 1) -> dl <> 0 ->
  decision_tree dl g p r1 r2 = two_ply_move dl g p r1 r2.
Proof.
  intros Hsq H0 Hp Hdl.
  destruct (@extend_tree_total _ _ ttt_rules ttt_laws (S (empties g)) dl (Node g p None 0 []) p 0 Hsq
               (Nat.lt_succ_diag_r _))
    as [t He].
  pose proof (extend_fresh_children _ _ _ _ _ _ _ _ _ (not_eq_sym Hdl) He) as Hcs.
  unfold decision_tree, two_ply_move. rewrite He. cbn [mbind option_bind].
  rewrite select_best_child_pairs, (node_value _ _ _ _ _ _ _ t Hsq H0 Hp He).
  rewrite (Forall2_map_eq (fun a => (Some a, child_value dl g p a)) (fun c => (taction c, tscore c))
             (empty_cells g p) (tchildren (pass_score p t))).
  - unfold root_value. apply Z.eqb_neq in Hdl. rewrite (Z.eqb_sym 0), Hdl. reflexivity.
  - eapply Forall2_impl; [exact Hcs|]. intros a c Hc.
    destruct (scored_root_child _ _ _ _ _ _ Hsq H0 Hp Hc) as [-> ->]. done.
Qed.

(** The root child of a move reaches the mover's win exactly when the
    move completes a line. *)
Lemma child_value_win (dl : Z) (g : Grid) (p : Z) (a : Z * Z) :
  square 3 g -> check_score g = 0 -> (p = 0 \/ p = 1) ->
  (child_value dl g p a = win_value p <-> check_score (play_move g p a) = win_value p).
Proof.
  intros Hsq H0 Hp. unfold child_value.
  destruct (move_score g p a Hsq H0 Hp) as [E|E]; rewrite E.
  - simpl. destruct (negb _ && _); destruct Hp as [-> | ->]; unfold win_value; simpl; lia.
  - destruct Hp as [-> | ->]; unfold win_value; simpl; lia.
Qed.

(** With no winning move, the root child of a move scores 0 exactly when
    the opponent cannot then complete a line (at depth other than 1). *)
Lemma child_value_block (dl : Z) (g : Grid) (p : Z) (a : Z * Z) :
  square 3 g -> check_score g = 0 -> (p = 0 \/ p = 1) -> dl <> 1 -> can_win g p = false ->
  a ∈ empty_cells g p ->
  (child_value dl g p a = 0 <-> can_win (play_move g p a) ((p + 1) mod 2) = false).
Proof.
  intros Hsq H0 Hp Hdl Hw Ha. unfold child_value.
  assert (E : check_score (play_move g p a) = 0).
  { destruct (move_score g p a Hsq H0 Hp) as [E|E]; [done|exfalso].
    assert (Hc : can_win g p = true)
      by (apply existsb_exists; exists a; split; [by apply list_elem_of_In|by apply Z.eqb_eq]).
    congruence. }
  rewrite E. apply Z.eqb_neq in Hdl. rewrite (Z.eqb_sym 1 dl), Hdl. simpl.
  destruct (can_win (play_move g p a) ((p + 1) mod 2)); destruct Hp as [-> | ->];
    unfold win_value; simpl; split; congruence.
Qed.

Lemma moves_nonempty (g : Grid) (p : Z) (b : Z * Z) :
  b ∈ empty_cells g p -> @moves _ _ ttt_rules g p <> [].
Proof. intros Hb E. change (empty_cells g p = []) in E. rewrite E in Hb. set_solver. Qed.

(** The move chosen is a move of the player. *)
Lemma two_ply_choice (dl : Z) (g : Grid) (p : Z) (r1 r2 : nat) (a : Z * Z) :
  (exists b, b ∈ empty_cells g p /\ child_value dl g p b = root_value g p) ->
  two_ply_move dl g p r1 r2 = Some (Some a) ->
  a ∈ empty_cells g p /\ child_value dl g p a = root_value g p.
Proof.
  intros (b & Hb & Hv) Hm. unfold two_ply_move in Hm.
  destruct (select_best_pairs _ _ _) as [acts|] eqn:Es; simpl in Hm; [|done].
  apply choice_elem in Hm.
  destruct (select_best_pairs_hit r1 (root_value g p)
              (map (fun a => (Some a, child_value dl g p a)) (empty_cells g p)) acts (Some a))
    as (k & Hk & Hkv & Hka); [|done|done|].
  - exists (Some b, child_value dl g p b). split; [|done]. apply list_elem_of_fmap. eauto.
  - apply list_elem_of_fmap in Hk as (a' & -> & Ha'). simpl in *. by injection Hka as ->.
Qed.

(** C4: Win in one: when the player to move can complete a line, the AI
    completes one, whatever the random draws and the depth (other than
    0). *)
Theorem ai_takes_win (dl : Z) (g : Grid) (p : Z) (r1 r2 : nat) :
  square 3 g -> check_score g = 0 -> (p = 0 \/ p = 1) -> dl <> 0 -> can_win g p = true ->
  exists a, decision_tree dl g p r1 r2 = Some (Some a) /\ check_score (play_move g p a) = win_value p.
Proof.
  intros Hsq H0 Hp Hdl Hw. pose proof Hw as Hw'.
  apply existsb_exists in Hw' as (b & Hb & Hbw%Z.eqb_eq). apply list_elem_of_In in Hb.
  destruct (@decision_tree_Some _ _ ttt_rules ttt_laws dl g p r1 r2 Hsq
              (moves_nonempty g p b Hb) Hdl) as (a & Ha & _).
  exists a. split; [done|]. rewrite two_ply_refinement in Ha by done.
  apply two_ply_choice in Ha as [_ Hv].
  - unfold root_value in Hv. rewrite Hw in Hv. by apply child_value_win in Hv.
  - exists b. split; [done|]. unfold root_value. rewrite Hw. by apply child_value_win.
Qed.

(** Blocking: at depth other than 0 and 1, when the player to move cannot
    win at once but has a move after which the opponent cannot complete a
    line either, the AI plays such a move. *)
Theorem ai_blocks (dl : Z) (g : Grid) (p : Z) (r1 r2 : nat) (b : Z * Z) :
  square 3 g -> check_score g = 0 -> (p = 0 \/ p = 1) -> dl <> 0 -> dl <> 1 ->
  can_win g p = false -> b ∈ empty_cells g p -> can_win (play_move g p b) ((p + 1) mod 2) = false ->
  exists a, decision_tree dl g p r1 r2 = Some (Some a) /\ a ∈ empty_cells g p /\
            can_win (play_move g p a) ((p + 1) mod 2) = false.
Proof.
  intros Hsq H0 Hp Hdl Hdl1 Hw Hb Hbq.
  destruct (@decision_tree_Some _ _ ttt_rules ttt_laws dl g p r1 r2 Hsq
              (moves_nonempty g p b Hb) Hdl) as (a & Ha & _).
  exists a. split; [done|]. rewrite two_ply_refinement in Ha by done.
  apply two_ply_choice in Ha as [Ha Hv].
  - unfold root_value in Hv. rewrite Hw in Hv. split; [done|]. by apply child_value_block in Hv.
  - exists b. split; [done|]. unfold root_value. rewrite Hw. by apply child_value_block.
Qed.

(** The search looks no further than two plies: every depth other than 0
    and 1 (the "hard" level 3 included) chooses exactly as depth 2. *)
Theorem decision_level_beyond_two (dl : Z) (g : Grid) (p : Z) (r1 r2 : nat) :
  square 3 g -> check_score g = 0 -> (p = 0 \/ p = 1) -> dl <> 0 -> dl <> 1 ->
  decision_tree dl g p r1 r2 = decision_tree 2 g p r1 r2.
Proof.
  intros Hsq H0 Hp Hdl Hdl1. rewrite !two_ply_refinement by (done || lia).
  unfold two_ply_move. f_equal. f_equal. apply map_ext. intros a. f_equal.
  unfold child_value. apply Z.eqb_neq in Hdl1. by rewrite (Z.eqb_sym 1 dl), Hdl1.
Qed.

(** ** The running app *)

Lemma add_move_empty (s : state) (i j : Z) :
  (grid s)⟨i, j⟩ = 0 -> (add_move s (i, j)).1 = with_grid s (gset (grid s) i j (win_value (player s))).
Proof. intros Hz. unfold add_move, win_value. rewrite Hz. by destruct (player s =? 0). Qed.

Lemma check_end_game_fields (s : state) :
  grid (check_end_game s) = grid s /\ player (check_end_game s) = player s /\
  decision_level (check_end_game s) = decision_level s.
Proof. unfold check_end_game. by repeat (case_match; simpl). Qed.

(** A game left open by [check_end_game] has no complete line and is not
    full. *)
Lemma check_end_game_open (s : state) :
  end_game (check_end_game s) = false ->
  check_score (grid s) = 0 /\ check_full_grid (grid s) = false.
Proof.
  unfold check_end_game. destruct (Z.eqb_spec (check_score (grid s)) 0) as [E|E]; simpl.
  - rewrite E. destruct (check_full_grid (grid s)); simpl; [done|]. auto.
  - destruct (check_score (grid s) =? 1), (check_score (grid s) =? -1); simpl; try done;
      destruct (check_full_grid _); done.
Qed.

(** A mark on an empty cell of an open game keeps the invariant. *)
Lemma move_keeps_inv (s : state) (i j : Z) :
  App.app_inv s -> end_game s = false -> (grid s)⟨i, j⟩ = 0 ->
  App.app_inv (switch_player (check_end_game (add_move s (i, j)).1)).
Proof.
  intros (Hsq & Hdl & Hp & Hopen & _) He Hz. rewrite (add_move_empty s i j Hz).
  set (s1 := with_grid s (gset (grid s) i j (win_value (player s)))).
  destruct (check_end_game_fields s1) as (Eg & Ep & El).
  destruct (Hopen He) as [H0 _]. destruct (proj1 (proj1 (check_score_line_owner _)) H0) as [N1 N2].
  unfold App.app_inv, switch_player, with_player; cbn [grid player decision_level end_game].
  rewrite Eg, Ep, El. cbn [s1 with_grid grid player decision_level]. split_and!.
  - auto with pyapp.
  - done.
  - destruct Hp as [-> | ->]; simpl; auto.
  - intros Hend. exact (check_end_game_open s1 Hend).
  - intros [H1 Hm1]. destruct Hp as [E | E]; rewrite E in H1, Hm1; unfold win_value in *; simpl in *.
    + apply has_line_gset in Hm1; [congruence|done|lia].
    + apply has_line_gset in H1; [congruence|done|lia].
Qed.

Lemma empty_board_facts :
  check_score (empty_grid 3) = 0 /\ check_full_grid (empty_grid 3) = false /\
  has_line (empty_grid 3) 1 = false /\ has_line (empty_grid 3) (-1) = false.
Proof. vm_compute. auto. Qed.

Lemma handle_mouse_click_inv (s : state) (x y : Z) :
  App.app_inv s -> App.app_inv (App.handle_mouse_click s x y).
Proof.
  intros Hinv. pose proof Hinv as (Hsq & Hdl & Hp & Hopen & Hboth).
  unfold App.handle_mouse_click.
  destruct (y <? 300); [destruct (x <? 300)|]; try done.
  - destruct (negb (end_game s) && _) eqn:E; [|done].
    apply andb_true_iff in E as [He%negb_true_iff Hz%Z.eqb_eq].
    destruct (add_move s _) as [s1 b] eqn:Ea.
    replace s1 with (add_move s (Z.quot y 100, Z.quot x 100)).1 by by rewrite Ea.
    by apply move_keeps_inv.
  - destruct (_ && _); [|done].
    destruct (x <? 100); [unfold App.app_inv; simpl; by split_and!; auto|].
    destruct (_ && _); [unfold App.app_inv; simpl; by split_and!; auto|].
    destruct (_ && _); [|done].
    assert (Hg : grid (reset_game s) = empty_grid 3) by exact (clean_grid_empty s Hsq).
    unfold App.app_inv. rewrite Hg. destruct empty_board_facts as (E0 & Ef & E1 & E2).
    split_and!; try done.
    + split; [done|]. repeat constructor.
    + intros [? ?]. congruence.
Qed.

Lemma handle_events_inv (s s' : state) (evs : list App.event) :
  App.app_inv s -> App.handle_events s evs = Some s' -> App.app_inv s'.
Proof.
  revert s. induction evs as [|[| |x y|] evs IH]; intros s Hinv He; simpl in He; try done.
  - by injection He as <-.
  - by apply (IH (App.handle_mouse_click s x y)); [apply handle_mouse_click_inv|].
  - by apply (IH s).
Qed.

(** On the AI's turn of an open game, [player_step] always moves and
    keeps the invariant. *)
Lemma player_step_inv (s : state) (r1 r2 : nat) :
  App.app_inv s -> end_game s = false ->
  exists s', player_step s r1 r2 = Some s' /\ App.app_inv s'.
Proof.
  intros Hinv He. pose proof Hinv as (Hsq & Hdl & Hp & Hopen & _).
  destruct (full_grid_move (grid s) (player s) (proj2 (Hopen He))) as [b Hb].
  destruct (@decision_tree_Some _ _ ttt_rules ttt_laws (decision_level s) (grid s) (player s) r1 r2
              Hsq (moves_nonempty _ _ b Hb) ltac:(lia)) as ([i j] & Ha & Hmv).
  unfold player_step. rewrite Ha. cbn -[add_move check_end_game switch_player].
  destruct (add_move s (i, j)) as [s1 b1] eqn:Ea. eexists. split; [reflexivity|].
  replace s1 with (add_move s (i, j)).1 by by rewrite Ea.
  apply move_keeps_inv; [done|done|]. by apply empty_cells_spec in Hmv as [_ Hz].
Qed.

(** Invariant: every state the app reaches satisfies [app_inv]; in
    particular the two players never both own a complete line. *)
Lemma reachable_app_inv (s : state) : App.reachable s -> App.app_inv s.
Proof.
  induction 1 as [|s s' evs r1 r2 _ IH Hf].
  - unfold App.app_inv, init. simpl. destruct empty_board_facts as (E0 & Ef & E1 & E2).
    split_and!; auto.
    + split; [done|]. repeat constructor.
    + intros [? ?]. congruence.
  - unfold App.frame in Hf. destruct (App.handle_events s evs) as [s1|] eqn:Ee; [|done].
    pose proof (handle_events_inv s s1 evs IH Ee) as Hinv1.
    destruct (negb (end_game s1) && (player s1 =? 1)) eqn:Eai.
    + apply andb_true_iff in Eai as [He%negb_true_iff _].
      destruct (player_step_inv s1 r1 r2 Hinv1 He) as (s2 & Hs2 & Hinv2).
      rewrite Hs2 in Hf. by injection Hf as <-.
    + by injection Hf as <-.
Qed.

(** C10: Safety: from a reachable state no frame crashes; the AI always finds
    a move when it is its turn ([choice] is never applied to an empty
    list). *)
Theorem frame_never_crashes (s : state) (evs : list App.event) (r1 r2 : nat) :
  App.reachable s -> App.frame s evs r1 r2 <> App.Crashed.
Proof.
  intros Hr. pose proof (reachable_app_inv s Hr) as Hinv. unfold App.frame.
  destruct (App.handle_events s evs) as [s1|] eqn:Ee; [|done].
  pose proof (handle_events_inv s s1 evs Hinv Ee) as Hinv1.
  destruct (negb (end_game s1) && (player s1 =? 1)) eqn:Eai; [|done].
  apply andb_true_iff in Eai as [He%negb_true_iff _].
  destruct (player_step_inv s1 r1 r2 Hinv1 He) as (s2 & -> & _). done.
Qed.

Lemma quot_cell (x : Z) : 0 <= x < 300 -> 0 <= Z.quot x 100 < 3.
Proof. intros Hx. rewrite Z.quot_div_nonneg by lia. Z.div_mod_to_equations. lia. Qed.

(** A click on an empty cell of an open game is the move of the player
    to move, then [check_end_game] and [switch_player]. *)
Lemma click_move (s : state) (x y : Z) :
  end_game s = false -> 0 <= x < 300 -> 0 <= y < 300 ->
  (grid s)⟨Z.quot y 100, Z.quot x 100⟩ = 0 ->
  App.handle_mouse_click s x y =
  switch_player (check_end_game
    (with_grid s (gset (grid s) (Z.quot y 100) (Z.quot x 100) (win_value (player s))))).
Proof.
  intros He Hx Hy Hz. unfold App.handle_mouse_click.
  rewrite (proj2 (Z.ltb_lt y 300)), (proj2 (Z.ltb_lt x 300)) by lia. rewrite He, Hz.
  cbn -[add_move check_end_game switch_player].
  destruct (add_move s (Z.quot y 100, Z.quot x 100)) as [s1 b] eqn:Ea.
  pose proof (add_move_empty s _ _ Hz) as E. rewrite Ea in E. simpl in E. by subst.
Qed.

(** Ordering of events: when the human clicks two empty cells within
    one frame of an open game, both clicks are handled as moves before the
    AI's turn: the second click places the AI's mark (-1) for the human,
    and the turn is the human's again, so the AI does not move. *)
Theorem two_clicks_one_frame (s : state) (x1 y1 x2 y2 : Z) (r1 r2 : nat) :
  square 3 (grid s) -> end_game s = false -> player s = 0 ->
  0 <= x1 < 300 -> 0 <= y1 < 300 -> 0 <= x2 < 300 -> 0 <= y2 < 300 ->
  (grid s)⟨Z.quot y1 100, Z.quot x1 100⟩ = 0 -> (grid s)⟨Z.quot y2 100, Z.quot x2 100⟩ = 0 ->
  (Z.quot y1 100, Z.quot x1 100) <> (Z.quot y2 100, Z.quot x2 100) ->
  end_game (check_end_game (with_grid s (gset (grid s) (Z.quot y1 100) (Z.quot x1 100) 1))) = false ->
  exists s', App.frame s [App.MouseDown x1 y1; App.MouseDown x2 y2] r1 r2 = App.Running s' /\
    player s' = 0 /\ (grid s')⟨Z.quot y2 100, Z.quot x2 100⟩ = -1.
Proof.
  intros Hsq He Hp Hx1 Hy1 Hx2 Hy2 Hz1 Hz2 Hne Hopen.
  pose proof (quot_cell _ Hx1). pose proof (quot_cell _ Hy1).
  pose proof (quot_cell _ Hx2). pose proof (quot_cell _ Hy2).
  set (s1 := check_end_game (with_grid s (gset (grid s) (Z.quot y1 100) (Z.quot x1 100) 1))).
  destruct (check_end_game_fields (with_grid s (gset (grid s) (Z.quot y1 100) (Z.quot x1 100) 1)))
    as (Eg1 & Ep1 & _). fold s1 in Eg1, Ep1. cbn [grid player with_grid] in Eg1, Ep1.
  assert (Hz2' : (grid (switch_player s1))⟨Z.quot y2 100, Z.quot x2 100⟩ = 0).
  { cbn [switch_player with_player grid]. rewrite Eg1, (gget_gset_in 3) by (done || lia).
    rewrite decide_False by done. done. }
  set (s2 := check_end_game (with_grid (switch_player s1)
               (gset (grid (switch_player s1)) (Z.quot y2 100) (Z.quot x2 100) (-1)))).
  destruct (check_end_game_fields (with_grid (switch_player s1)
              (gset (grid (switch_player s1)) (Z.quot y2 100) (Z.quot x2 100) (-1))))
    as (Eg2 & Ep2 & _). fold s2 in Eg2, Ep2.
  cbn [switch_player with_player grid player with_grid] in Eg2, Ep2. rewrite Ep1, Hp in Ep2.
  exists (switch_player s2). unfold App.frame. cbn [App.handle_events].
  rewrite (click_move s x1 y1), Hp by done. change (win_value 0) with 1. fold s1.
  rewrite (click_move (switch_player s1) x2 y2) by (done || exact Hopen).
  replace (win_value (player (switch_player s1))) with (-1)
    by (cbn [switch_player with_player player]; by rewrite Ep1, Hp).
  fold s2. cbn [switch_player with_player player grid]. rewrite Ep2.
  change ((1 + 1) mod 2) with 0. rewrite andb_false_r. split_and!; [done|done|].
  rewrite Eg2, (gget_gset_same 3); [done| |apply pos_in_range; lia].
  cbn [switch_player with_player grid]. rewrite Eg1. auto with pyapp.
Qed.

(** ** The search and the scores, as stated for the app *)

(** C2: Refinement: on a board with no complete line, for either player and
    any depth other than 0, [decision_tree] returns exactly what the 2-ply
    rule [two_ply_move] returns, for the same random draws. *)
Theorem decision_tree_two_ply (dl : Z) (g : Grid) (p : Z) (r1 r2 : nat) :
  square 3 g -> check_score g = 0 -> (p = 0 \/ p = 1) -> dl <> 0 ->
  decision_tree dl g p r1 r2 = two_ply_move dl g p r1 r2.
Proof. apply two_ply_refinement. Qed.

(** C9: Invariant: every state the app reaches has a 3x3 board, a level of 1
    or 3, a player 0 or 1, an open game only on a board with no line that
    is not full, and never a line of both players. *)
Theorem reachable_inv (s : state) : App.reachable s -> App.app_inv s.
Proof. apply reachable_app_inv. Qed.

(** [check_score] is 0 exactly when no line is complete, and otherwise has
    the sign of the player owning a complete line when only one does. *)
Theorem check_score_owner (g : Grid) :
  (check_score g = 0 <-> has_line g 1 = false /\ has_line g (-1) = false) /\
  (has_line g (-1) = false -> (check_score g = 1 <-> has_line g 1 = true)) /\
  (has_line g 1 = false -> (check_score g = -1 <-> has_line g (-1) = true)).
Proof. apply check_score_line_owner. Qed.

(** ** Witnesses *)

Lemma decision_tree_correct_witness :
  square 3 (empty_grid 3) /\ @decision_tree _ _ ttt_rules 3 (empty_grid 3) 1 0 0 <> None.
Proof.
  split; [solve_square|]. intros H.
  destruct (@decision_tree_correct _ _ ttt_rules ttt_laws 3 (empty_grid 3) 1 0 0
              (empty_grid_square 3)) as [Hiff _].
  apply Hiff in H. destruct H as [H|H]; [vm_compute in H; discriminate|discriminate].
Defined.

Lemma decision_tree_optimal_witness :
  @decision_tree _ _ ttt_rules 2 [[-1; -1; 0]; [1; 1; 0]; [0; 0; 0]] 1 0 0 = Some (Some (0, 2)) /\
  exists (t c : tree Grid (Z * Z)), c ∈ tchildren (pass_score 1 t) /\ taction c = Some (0, 2).
Proof.
  split; [vm_compute; reflexivity|].
  destruct (@decision_tree_optimal _ _ ttt_rules 2 [[-1; -1; 0]; [1; 1; 0]; [0; 0; 0]] 1 0 0 (0, 2)
              ltac:(vm_compute; reflexivity)) as (t & c & _ & Hc & Ha & _).
  exists t, c. split; [exact Hc|exact Ha].
Defined.

Lemma decision_tree_two_ply_witness :
  decision_tree 3 (empty_grid 3) 1 0 0 = two_ply_move 3 (empty_grid 3) 1 0 0.
Proof.
  apply (decision_tree_two_ply 3 (empty_grid 3) 1 0 0);
    [solve_square|reflexivity|right; reflexivity|lia].
Defined.

Lemma ai_takes_win_witness :
  exists a, decision_tree 2 [[-1; -1; 0]; [1; 1; 0]; [0; 0; 0]] 1 0 0 = Some (Some a) /\
            check_score (play_move [[-1; -1; 0]; [1; 1; 0]; [0; 0; 0]] 1 a) = win_value 1.
Proof.
  apply (ai_takes_win 2 [[-1; -1; 0]; [1; 1; 0]; [0; 0; 0]] 1 0 0);
    [solve_square|reflexivity|right; reflexivity|lia|reflexivity].
Defined.

Lemma ai_blocks_witness :
  exists a, decision_tree 3 [[1; 1; 0]; [0; -1; 0]; [0; 0; 0]] 1 0 0 = Some (Some a) /\
            a ∈ empty_cells [[1; 1; 0]; [0; -1; 0]; [0; 0; 0]] 1 /\
            can_win (play_move [[1; 1; 0]; [0; -1; 0]; [0; 0; 0]] 1 a) ((1 + 1) mod 2) = false.
Proof.
  apply (ai_blocks 3 [[1; 1; 0]; [0; -1; 0]; [0; 0; 0]] 1 0 0 (0, 2));
    [solve_square|reflexivity|right; reflexivity|lia|lia|reflexivity| |reflexivity].
  apply empty_cells_spec. split; [lia|reflexivity].
Defined.

Lemma decision_level_beyond_two_witness :
  decision_tree 3 (empty_grid 3) 1 0 0 = decision_tree 2 (empty_grid 3) 1 0 0.
Proof.
  apply (decision_level_beyond_two 3 (empty_grid 3) 1 0 0);
    [solve_square|reflexivity|right; reflexivity|lia|lia].
Defined.

Lemma reachable_inv_witness : App.app_inv init.
Proof. apply (reachable_inv init). constructor. Defined.

Lemma frame_never_crashes_witness : App.frame init [] 0 0 <> App.Crashed.
Proof. apply (frame_never_crashes init [] 0 0). constructor. Defined.

Lemma two_clicks_one_frame_witness :
  exists s', App.frame init [App.MouseDown 150 150; App.MouseDown 50 50] 0 0 = App.Running s' /\
    player s' = 0 /\ (grid s')⟨Z.quot 50 100, Z.quot 50 100⟩ = -1.
Proof.
  apply (two_clicks_one_frame init 150 150 50 50 0 0);
    [apply empty_grid_square|reflexivity|reflexivity|lia|lia|lia|lia
    |vm_compute; reflexivity|vm_compute; reflexivity|vm_compute; intros [=]|vm_compute; reflexivity].
Defined.

End Tictactoe.
