(* ===== verification/Othello.v ===== *)
(** * Othello: [src/othello.py]

    [Module Othello] is the backend class [Othello].  The board is the
    10x10 list of lists of the code: the playable 8x8 area is rows and
    columns 1..8, row and column 0 and 9 are a border of zeros.  Every
    method is a function on the record [state]; the scans of
    [is_valid_action] and the eight flipping loops of [update_grid] are
    written direction by direction as in the source, [update_grid] threading
    the grid through the eight blocks in their order.  The engine of
    [GameTree] is instantiated by [othello_rules]: the moves are
    [get_valid_actions], a child grid is the copy with the mover's disc
    passed through [update_grid], and every child is extended.  Its
    submodule [App] models [OthelloApp.handle_mouse_click] and one
    iteration of the main loop.  Drawing and the one-second wait are not
    modelled. *)

From stdpp Require Import base list sets.
From Stdlib Require Import ZArith Lia.
From S2P Require Import Prelude GameTree.
Local Open Scope Z_scope.
Local Open Scope pyapp_scope.
#[local] Set Warnings "-clear-no-such-hyp".

Module Othello.

(** [self.result]: wins, losses and draws. *)
Record tally := Tally { wins : Z; losses : Z; draws : Z }.

Record state := State {
  grid : Grid;
  player : Z;              (** 0 for the human, 1 for the AI *)
  decision_level : Z;
  end_game : bool;
  winner : option Z;
  result : tally;
  score : Z
}.

Definition with_grid (s : state) (g : Grid) : state :=
  State g (player s) (decision_level s) (end_game s) (winner s) (result s) (score s).
Definition with_player (s : state) (p : Z) : state :=
  State (grid s) p (decision_level s) (end_game s) (winner s) (result s) (score s).
Definition with_level (s : state) (v : Z) : state :=
  State (grid s) (player s) v (end_game s) (winner s) (result s) (score s).
Definition with_end_game (s : state) (b : bool) : state :=
  State (grid s) (player s) (decision_level s) b (winner s) (result s) (score s).
Definition with_result (s : state) (w : option Z) (r : tally) : state :=
  State (grid s) (player s) (decision_level s) (end_game s) w r (score s).
Definition with_score (s : state) (v : Z) : state :=
  State (grid s) (player s) (decision_level s) (end_game s) (winner s) (result s) v.

(** The four discs of the standard opening. *)
Definition opening (g : Grid) : Grid :=
  gset (gset (gset (gset g 4 4 1) 4 5 (-1)) 5 4 (-1)) 5 5 1.

(** All cells of the 10x10 grid, in loop order. *)
Definition all_cells : list (Z * Z) := range2 0 10.

(** The playable cells, [for i in range(1,9,1): for j in range(1,9,1)]. *)
Definition interior : list (Z * Z) := range2 1 9.

(** [__init__] *)
Definition init : state :=
  State (opening (empty_grid 10)) 0 1 false None (Tally 0 0 0) 0.

(** [switch_player] *)
Definition switch_player (s : state) : state := with_player s ((player s + 1) mod 2).

(** [set_decision_level] *)
Definition set_decision_level (s : state) (value : Z) : state := with_level s value.

(** [clean_grid]: zero the whole grid, then the opening. *)
Definition clean_grid (s : state) : state :=
  with_grid s (opening (fold_left (fun g '(i, j) => gset g i j 0) all_cells (grid s))).

(** [reset_game] *)
Definition reset_game (s : state) : state := with_end_game (clean_grid s) false.

(** [add_move(action)] (not called by the app) *)
Definition add_move (s : state) (action : Z * Z) : state * bool :=
  let '(i, j) := action in
  if player s =? 0 then
    if (grid s)⟨i, j⟩ =? 0 then (with_grid s (gset (grid s) i j 1), true) else (s, false)
  else
    if (grid s)⟨i, j⟩ =? 0 then (with_grid s (gset (grid s) i j (-1)), true) else (s, false).

(** [check_score(grid)]: the sum of all 100 cells, border included. *)
Definition check_score (g : Grid) : Z :=
  fold_left (fun score '(i, j) => score + g⟨i, j⟩) all_cells 0.

(** [check_full_grid(grid)]: no 0 in the playable area. *)
Definition check_full_grid (g : Grid) : bool :=
  forallb (fun i => forallb (fun j => negb (g⟨i, j⟩ =? 0)) (py_range 1 9)) (py_range 1 9).

(** [check_end_game]: the score is stored; a full board ends the game. *)
Definition check_end_game (s : state) : state :=
  let sc := check_score (grid s) in
  let s := with_score s sc in
  if check_full_grid (grid s) then
    let s := with_end_game s true in
    let r := result s in
    if sc >? 0 then with_result s (Some 0) (Tally (wins r + 1) (losses r) (draws r))
    else if sc <? 0 then with_result s (Some 1) (Tally (wins r) (losses r + 1) (draws r))
    else with_result s (winner s) (Tally (wins r) (losses r) (draws r + 1))
  else s.

(** [host] and [opp]: the discs of [player] and of the other player. *)
Definition host_opp (player : Z) : Z * Z := if player =? 0 then (1, -1) else (-1, 1).

(** [is_valid_action(grid, player, action)]: an empty cell with, in some
    direction, an adjacent opposing disc and a disc of the player
    somewhere in the scanned range of that direction.  The ranges are the
    code's: the scans do not stop at an empty cell, and the up-left,
    up-right and down-left ranges stop one cell early. *)
Definition is_valid_action (g : Grid) (player : Z) (action : Z * Z) : bool :=
  let '(i, j) := action in
  let '(host, opp) := host_opp player in
  if g⟨i, j⟩ =? 0 then
    ((g⟨i + 1, j⟩ =? opp) && existsb (fun i2 => g⟨i2, j⟩ =? host) (py_range (i + 1) 10)) ||
    ((g⟨i - 1, j⟩ =? opp) && existsb (fun i2 => g⟨i2, j⟩ =? host) (py_range 0 (i - 1))) ||
    ((g⟨i, j + 1⟩ =? opp) && existsb (fun i2 => g⟨i, j + i2⟩ =? host) (py_range 0 (10 - j))) ||
    ((g⟨i, j - 1⟩ =? opp) && existsb (fun i2 => g⟨i, j - i2⟩ =? host) (py_range 0 j)) ||
    ((g⟨i - 1, j - 1⟩ =? opp) &&
       existsb (fun i2 => g⟨i - i2, j - i2⟩ =? host) (py_range 0 (Z.min (i - 1) (j - 1)))) ||
    ((g⟨i - 1, j + 1⟩ =? opp) &&
       existsb (fun i2 => g⟨i - i2, j + i2⟩ =? host) (py_range 0 (Z.min (i - 1) (10 - j)))) ||
    ((g⟨i + 1, j + 1⟩ =? opp) &&
       existsb (fun i2 => g⟨i + i2, j + i2⟩ =? host) (py_range 0 (Z.min (10 - i) (10 - j)))) ||
    ((g⟨i + 1, j - 1⟩ =? opp) &&
       existsb (fun i2 => g⟨i + i2, j - i2⟩ =? host) (py_range 0 (Z.min (10 - i) (j - 1))))
  else false.

(** [get_valid_actions(grid, player)] *)
Definition get_valid_actions (g : Grid) (player : Z) : list (Z * Z) :=
  List.filter (is_valid_action g player) interior.

(** One direction block of [update_grid]: when the neighbour in direction
    [(di, dj)] is an opposing disc, find the first [i2] in
    [range(1, i2min)] whose cell holds a disc of the player, set the cells
    [0 .. i2-1] of the ray to the player's disc, and stop. *)
Definition flip_dir (g : Grid) (host opp i j di dj i2min : Z) : Grid :=
  if g⟨i + di, j + dj⟩ =? opp then
    match List.find (fun i2 => g⟨i + di * i2, j + dj * i2⟩ =? host) (py_range 1 i2min) with
    | Some i2 => fold_left (fun g j2 => gset g (i + di * j2) (j + dj * j2) host) (py_range 0 i2) g
    | None => g
    end
  else g.

(** The eight direction blocks of [update_grid], in the code's order:
    direction [(di, dj)] and loop bound [i2min].  The up-left block uses
    the bound [min(10-i, 10-j)] of the down-right one. *)
Definition flip_blocks (i j : Z) : list (Z * Z * Z) :=
  [(1, 0, 10 - i); (-1, 0, i); (0, 1, 10 - j); (0, -1, j);
   (1, 1, Z.min (10 - i) (10 - j)); (1, -1, Z.min (10 - i) j);
   (-1, 1, Z.min i (10 - j)); (-1, -1, Z.min (10 - i) (10 - j))].

(** [update_grid(grid, player, action)]: place the disc, then run the
    eight blocks one after the other on the updated grid. *)
Definition update_grid (g : Grid) (player : Z) (action : Z * Z) : Grid :=
  let '(host, opp) := host_opp player in
  let '(i, j) := action in
  fold_left (fun g '(di, dj, i2min) => flip_dir g host opp i j di dj i2min)
    (flip_blocks i j) (gset g i j host).

(** The child grid of [extend_tree]: a copy with the mover's disc, then
    [update_grid]. *)
Definition play_move (g : Grid) (p : Z) (action : Z * Z) : Grid :=
  let '(i, j) := action in
  update_grid (if p =? 0 then gset g i j 1 else gset g i j (-1)) p action.

(** The rules [extend_tree] gives the engine: every child is extended. *)
#[export] Instance othello_rules : GameRules Grid (Z * Z) := {|
  moves := get_valid_actions;
  play := play_move;
  evaluate := check_score;
  keep_expanding := fun _ => true;
  empties := fun g => countb (fun '(i, j) => g⟨i, j⟩ =? 0) interior;
  board_ok := square 10
|}.

(** [overwrite_grid(grid)]: copy every cell into [self.grid]. *)
Definition overwrite_grid (s : state) (g : Grid) : state :=
  with_grid s (fold_left (fun g' '(i, j) => gset g' i j g⟨i, j⟩) all_cells (grid s)).

(** [player_step]: the AI's move; [choice] on no move raises. *)
Definition player_step (s : state) (r1 r2 : nat) : option state :=
  action ← decision_tree (decision_level s) (grid s) (player s) r1 r2;
  match action with
  | None => None
  | Some a =>
      let new_grid := update_grid (grid s) (player s) a in
      let s := overwrite_grid s new_grid in
      Some (switch_player (check_end_game s))
  end.

(** Number of cells holding a disc. *)
Definition discs (g : Grid) : nat := countb (fun '(i, j) => negb (g⟨i, j⟩ =? 0)) all_cells.

(** ** The frontend [OthelloApp] *)
Module App.

(** [handle_mouse_click(mousex, mousey)]: a board click is a move when
    [is_valid_action] accepts it. *)
Definition handle_mouse_click (s : state) (mousex mousey : Z) : state :=
  if mousey <? 400 then
    if mousex <? 400 then
      let clicked_grid_i := Z.quot mousex 50 + 1 in
      let clicked_grid_j := Z.quot mousey 50 + 1 in
      if negb (end_game s) &&
         is_valid_action (grid s) (player s) (clicked_grid_j, clicked_grid_i) then
        let g := update_grid (grid s) (player s) (clicked_grid_j, clicked_grid_i) in
        switch_player (check_end_game (with_grid s g))
      else s
    else s
  else if (400 <? mousey) && (mousey <? 400 + 50) then
    if mousex <? 100 then set_decision_level s 1
    else if (100 <? mousex) && (mousex <? 2 * 100) then set_decision_level s 3
    else if (2 * 100 <? mousex) && (mousex <? 3 * 100) then set_decision_level s 5
    else if (3 * 100 <? mousex) && (mousex <? 4 * 100) then reset_game s
    else s
  else s.

Inductive event :=
| QuitEvent
| EscapeKeyUp
| MouseDown (x y : Z)
| OtherEvent.

Fixpoint handle_events (s : state) (evs : list event) : option state :=
  match evs with
  | [] => Some s
  | QuitEvent :: _ | EscapeKeyUp :: _ => None
  | MouseDown x y :: rest => handle_events (handle_mouse_click s x y) rest
  | OtherEvent :: rest => handle_events s rest
  end.

Inductive outcome :=
| Exited
| Crashed
| Running (s : state).

(** One iteration of the main loop. *)
Definition frame (s : state) (evs : list event) (r1 r2 : nat) : outcome :=
  match handle_events s evs with
  | None => Exited
  | Some s =>
      if negb (end_game s) && (player s =? 1) then
        match player_step s r1 r2 with
        | Some s' => Running s'
        | None => Crashed
        end
      else Running s
  end.

(** The invariant of the app's state. *)
Definition app_inv (s : state) : Prop :=
  square 10 (grid s) /\ grid_ok (grid s) /\ (player s = 0 \/ player s = 1).

(** The states the app can reach from [Othello()] frame by frame. *)
Inductive reachable : state -> Prop :=
| reach_init : reachable init
| reach_frame (s s' : state) (evs : list event) (r1 r2 : nat) :
    reachable s -> frame s evs r1 r2 = Running s' -> reachable s'.

End App.

(** ** Lemmas on the flipping code *)

Lemma host_opp_cases (p : Z) :
  host_opp p = (1, -1) \/ host_opp p = (-1, 1).
Proof. unfold host_opp. destruct (p =? 0); auto. Qed.

Lemma host_cell_ok (p : Z) : cell_ok (fst (host_opp p)) = true.
Proof. by destruct (host_opp_cases p) as [-> | ->]. Qed.

Lemma host_nonzero (p : Z) : fst (host_opp p) <> 0.
Proof. by destruct (host_opp_cases p) as [-> | ->]. Qed.

(** One direction block writes only the player's disc. *)
Lemma flip_dir_writes (host opp i j di dj m : Z) :
  writes_only 10 host (fun g => flip_dir g host opp i j di dj m).
Proof.
  intros g Hsq. unfold flip_dir.
  destruct (_ =? opp); [|split; auto].
  destruct (List.find _ _) as [i2|]; [|split; auto].
  refine (writes_only_fold 10 host
            (fun j2 g => gset g (i + di * j2) (j + dj * j2) host) _ _ g Hsq).
  intros; apply writes_only_gset.
Qed.

(** The eight blocks together write only the player's disc. *)
Lemma flip_blocks_writes (host opp i j : Z) :
  writes_only 10 host
    (fun g => fold_left (fun g '(di, dj, i2min) => flip_dir g host opp i j di dj i2min)
                (flip_blocks i j) g).
Proof.
  intros g Hsq.
  refine (writes_only_fold 10 host
            (fun '(di, dj, i2min) g => flip_dir g host opp i j di dj i2min)
            (flip_blocks i j) _ g Hsq).
  intros [[di dj] m] _. apply flip_dir_writes.
Qed.

(** [update_grid] writes only the player's disc. *)
Lemma update_grid_writes (p i j : Z) :
  writes_only 10 (fst (host_opp p)) (fun g => update_grid g p (i, j)).
Proof.
  unfold update_grid. destruct (host_opp p) as [host opp]. simpl.
  exact (writes_only_compose 10 host _ _ (writes_only_gset 10 i j host)
           (flip_blocks_writes host opp i j)).
Qed.

(** The clicked cell ends with the player's disc. *)
Lemma update_grid_placed (g : Grid) (p i j : Z) :
  square 10 g -> 0 <= i < 10 -> 0 <= j < 10 ->
  (update_grid g p (i, j))⟨i, j⟩ = fst (host_opp p).
Proof.
  intros Hsq Hi Hj. unfold update_grid. destruct (host_opp p) as [host opp]. simpl.
  apply (writes_only_keep 10 host _ _ _ _ (flip_blocks_writes host opp i j));
    [auto with pyapp|].
  apply (gget_gset_same 10); [done|]. apply pos_in_range; lia.
Qed.

Lemma update_grid_square (g : Grid) (p i j : Z) :
  square 10 g -> square 10 (update_grid g p (i, j)).
Proof. intros Hsq. by apply update_grid_writes. Qed.

#[local] Hint Resolve update_grid_square : pyapp.

Lemma update_grid_cell (g : Grid) (p i j a b : Z) :
  square 10 g ->
  (update_grid g p (i, j))⟨a, b⟩ = fst (host_opp p) \/
  (update_grid g p (i, j))⟨a, b⟩ = g⟨a, b⟩.
Proof. intros Hsq. by apply update_grid_writes. Qed.

Lemma update_grid_ok (g : Grid) (p i j : Z) :
  square 10 g -> grid_ok g -> grid_ok (update_grid g p (i, j)).
Proof.
  intros Hsq Hok a b. destruct (update_grid_cell g p i j a b Hsq) as [-> | ->];
    [apply host_cell_ok|apply Hok].
Qed.

Lemma check_score_fold (g : Grid) (l : list (Z * Z)) (acc : Z) :
  grid_ok g ->
  fold_left (fun score '(i, j) => score + g⟨i, j⟩) l acc =
  acc + Z.of_nat (countb (fun '(i, j) => g⟨i, j⟩ =? 1) l)
      - Z.of_nat (countb (fun '(i, j) => g⟨i, j⟩ =? -1) l).
Proof.
  intros Hok. revert acc. induction l as [|[a b] l IH]; intros acc; simpl; [unfold countb; simpl; lia|].
  rewrite IH, !countb_cons.
  destruct (cell_ok_cases _ (Hok a b)) as [E|[E|E]]; rewrite E; simpl; lia.
Qed.

Lemma get_valid_actions_spec (g : Grid) (p i j : Z) :
  (i, j) ∈ get_valid_actions g p <->
  (1 <= i < 9 /\ 1 <= j < 9) /\ is_valid_action g p (i, j) = true.
Proof.
  unfold get_valid_actions. rewrite list_elem_of_In, filter_In, <- list_elem_of_In.
  unfold interior. by rewrite range2_spec.
Qed.

Lemma is_valid_action_empty (g : Grid) (p i j : Z) :
  is_valid_action g p (i, j) = true -> g⟨i, j⟩ = 0.
Proof.
  unfold is_valid_action. destruct (host_opp p) as [host opp].
  destruct (Z.eqb_spec g⟨i, j⟩ 0); congruence.
Qed.

Lemma is_valid_action_interior (g : Grid) (p : Z) (a : Z * Z) :
  a ∈ interior -> get_valid_actions g p = [] -> is_valid_action g p a = false.
Proof.
  intros Ha Hnil. destruct (is_valid_action g p a) eqn:E; [|done].
  assert (Hin : a ∈ get_valid_actions g p).
  { unfold get_valid_actions. apply list_elem_of_In, filter_In. split; [|done].
    by apply list_elem_of_In. }
  rewrite Hnil in Hin. set_solver.
Qed.

(** A cell that [update_grid] leaves empty was empty. *)
Lemma update_grid_zero (g : Grid) (p i j a b : Z) :
  square 10 g -> (update_grid g p (i, j))⟨a, b⟩ = 0 -> g⟨a, b⟩ = 0.
Proof.
  intros Hsq Hz. destruct (update_grid_cell g p i j a b Hsq) as [E|E]; [|congruence].
  exfalso. apply (host_nonzero p). congruence.
Qed.

(** The engine's child grid is [update_grid] on the grid with the disc placed. *)
Lemma play_move_eq (g : Grid) (p i j : Z) :
  play_move g p (i, j) = update_grid (gset g i j (fst (host_opp p))) p (i, j).
Proof. unfold play_move, host_opp. by destruct (p =? 0). Qed.

Lemma play_move_zero (g : Grid) (p i j a b : Z) :
  square 10 g -> (play_move g p (i, j))⟨a, b⟩ = 0 -> g⟨a, b⟩ = 0.
Proof.
  intros Hsq Hz. rewrite play_move_eq in Hz.
  apply update_grid_zero in Hz; [|auto with pyapp].
  eapply gget_gset_other_value; [done|exact Hz|]. intros E. by apply (host_nonzero p).
Qed.

(** The laws the engine needs: moves keep the 10x10 board and fill an
    empty playable cell. *)
Lemma othello_laws : GameLaws Grid (Z * Z).
Proof.
  split.
  - intros g p [i j] Hok _. cbn [play board_ok othello_rules] in *.
    rewrite play_move_eq. auto with pyapp.
  - intros g p [i j] Hok Hmv. cbn [empties play moves board_ok othello_rules] in *.
    apply get_valid_actions_spec in Hmv as [Hr Hv]. apply is_valid_action_empty in Hv.
    apply (countb_strict _ _ _ (i, j)).
    + intros [a b] _ Hq. apply Z.eqb_eq in Hq. apply Z.eqb_eq. by eapply play_move_zero.
    + by apply range2_spec.
    + by apply Z.eqb_eq.
    + apply Z.eqb_neq. rewrite play_move_eq, update_grid_placed; [apply host_nonzero| |lia|lia].
      auto with pyapp.
Qed.
#[local] Existing Instance othello_laws.

(** ** The app keeps a well-formed board *)

Lemma all_cells_range :
  Forall (fun '(i, j) => 0 <= i < Z.of_nat 10 /\ 0 <= j < Z.of_nat 10) all_cells.
Proof.
  apply Forall_forall. intros [i j] H. apply range2_spec in H. lia.
Qed.

(** The copy loop of [overwrite_grid] stores the new grid. *)
Lemma overwrite_grid_eq (s : state) (g : Grid) :
  square 10 (grid s) -> square 10 g -> overwrite_grid s g = with_grid s g.
Proof.
  intros Hs Hg. unfold overwrite_grid. f_equal.
  apply (grid_ext 10); [by apply (fold_gset_square 10 (fun i j => g⟨i, j⟩))|done|].
  intros a b Ha Hb.
  pose proof (fold_gset_cell 10 (fun i j => g⟨i, j⟩) all_cells (grid s) a b Hs all_cells_range Ha Hb)
    as E.
  cbv beta in E. rewrite E, decide_True; [done|]. apply range2_spec. lia.
Qed.

(** [clean_grid] gives back the opening board. *)
Lemma clean_grid_grid (s : state) : square 10 (grid s) -> grid (clean_grid s) = grid init.
Proof.
  intros Hs. unfold clean_grid, init, with_grid. cbn [grid]. f_equal.
  apply (grid_ext 10); [by apply (fold_gset_square 10 (fun _ _ => 0))|apply empty_grid_square|].
  intros a b Ha Hb.
  pose proof (fold_gset_cell 10 (fun _ _ => 0) all_cells (grid s) a b Hs all_cells_range Ha Hb)
    as E.
  cbv beta in E. rewrite E, gget_empty_grid, decide_True; [done|]. apply range2_spec. lia.
Qed.

Lemma init_grid_facts : square 10 (grid init) /\ grid_ok (grid init).
Proof.
  unfold init, opening. cbn [grid].
  do 4 (apply gset_square_ok; [|done]). split; [apply empty_grid_square|apply empty_grid_ok].
Qed.

Lemma check_end_game_keeps_board (s : state) :
  grid (check_end_game s) = grid s /\ player (check_end_game s) = player s.
Proof.
  unfold check_end_game. destruct (check_full_grid _); [|done].
  destruct (_ >? 0); [done|]. by destruct (_ <? 0).
Qed.

Lemma switch_player_range (s : state) : player (switch_player s) = 0 \/ player (switch_player s) = 1.
Proof. unfold switch_player. simpl. pose proof (Z.mod_pos_bound (player s + 1) 2). lia. Qed.

(** A move of [update_grid] followed by the end-of-move bookkeeping keeps
    the invariant; both the click and the AI's step end this way. *)
Lemma move_keeps_board_ok (s : state) (p i j : Z) :
  App.app_inv s ->
  App.app_inv (switch_player (check_end_game (with_grid s (update_grid (grid s) p (i, j))))).
Proof.
  intros (Hsq & Hok & _).
  destruct (check_end_game_keeps_board (with_grid s (update_grid (grid s) p (i, j)))) as [Eg _].
  split_and!; [..|apply switch_player_range]; unfold switch_player, with_player; simpl; rewrite Eg;
    simpl; [auto with pyapp|by apply update_grid_ok].
Qed.

Lemma handle_mouse_click_board_ok (s : state) (x y : Z) :
  App.app_inv s -> App.app_inv (App.handle_mouse_click s x y).
Proof.
  intros Hinv. pose proof Hinv as (Hsq & Hok & Hp). unfold App.handle_mouse_click.
  destruct (y <? 400); [destruct (x <? 400)|]; try done.
  - destruct (negb (end_game s) && _); [by apply move_keeps_board_ok|done].
  - destruct (_ && _); [|done].
    destruct (x <? 100); [done|].
    destruct (_ && _); [done|]. destruct (_ && _); [done|]. destruct (_ && _); [|done].
    unfold reset_game, App.app_inv. cbn [grid player with_end_game].
    rewrite (clean_grid_grid s Hsq). split; [apply init_grid_facts|].
    split; [apply init_grid_facts|]. unfold clean_grid. by cbn.
Qed.

Lemma handle_events_board_ok (s s' : state) (evs : list App.event) :
  App.app_inv s -> App.handle_events s evs = Some s' -> App.app_inv s'.
Proof.
  revert s. induction evs as [|[| |x y|] evs IH]; intros s Hinv He; simpl in He; try done.
  - by injection He as <-.
  - by apply (IH (App.handle_mouse_click s x y)); [apply handle_mouse_click_board_ok|].
  - by apply (IH s).
Qed.

(** The AI's step, when it returns, plays the chosen action through
    [update_grid] and stores the result with [overwrite_grid]. *)
Lemma player_step_some (s s' : state) (r1 r2 : nat) :
  square 10 (grid s) -> player_step s r1 r2 = Some s' ->
  exists a, decision_tree (decision_level s) (grid s) (player s) r1 r2 = Some (Some a) /\
    s' = switch_player (check_end_game (with_grid s (update_grid (grid s) (player s) a))).
Proof.
  intros Hsq. unfold player_step.
  destruct (decision_tree _ _ _ _ _) as [[[i j]|]|]; simpl; try done.
  intros [= <-]. exists (i, j). split; [done|].
  rewrite overwrite_grid_eq; [done|done|auto with pyapp].
Qed.

Lemma player_step_board_ok (s s' : state) (r1 r2 : nat) :
  App.app_inv s -> player_step s r1 r2 = Some s' -> App.app_inv s'.
Proof.
  intros Hinv Hs. destruct (player_step_some s s' r1 r2 (proj1 Hinv) Hs) as ([i j] & _ & ->).
  by apply move_keeps_board_ok.
Qed.

(** A click on the board when the human has no valid action changes
    nothing. *)
Lemma click_without_move (s : state) (x y : Z) :
  player s = 0 -> get_valid_actions (grid s) 0 = [] -> 0 <= x < 400 -> 0 <= y < 400 ->
  App.handle_mouse_click s x y = s.
Proof.
  intros Hp Hnil Hx Hy. unfold App.handle_mouse_click.
  rewrite (proj2 (Z.ltb_lt y 400)), (proj2 (Z.ltb_lt x 400)) by lia. rewrite Hp.
  rewrite (is_valid_action_interior (grid s) 0); [by rewrite andb_false_r| |done].
  apply range2_spec. rewrite !Z.quot_div_nonneg by lia. Z.div_mod_to_equations. lia.
Qed.

(** ** Properties of the Othello model *)

(** C5: Placing a disc: no disc is ever removed, the clicked cell gets the
    player's disc, and the number of discs strictly grows. *)
Theorem update_grid_discs (g : Grid) (p i j : Z) :
  square 10 g -> 0 <= i < 10 -> 0 <= j < 10 -> g⟨i, j⟩ = 0 ->
  (forall a b, g⟨a, b⟩ <> 0 -> (update_grid g p (i, j))⟨a, b⟩ <> 0) /\
  (update_grid g p (i, j))⟨i, j⟩ = fst (host_opp p) /\
  (discs g < discs (update_grid g p (i, j)))%nat.
Proof.
  intros Hsq Hi Hj Hz. split_and!.
  - intros a b Hab Hz'. by apply Hab, (update_grid_zero g p i j).
  - by apply update_grid_placed.
  - apply (countb_strict _ _ _ (i, j)).
    + intros [a b] _ Hq. apply negb_true_iff, Z.eqb_neq in Hq. apply negb_true_iff, Z.eqb_neq.
      intros Hz'. by apply Hq, (update_grid_zero g p i j).
    + by apply range2_spec.
    + apply negb_true_iff, Z.eqb_neq. rewrite update_grid_placed by done. apply host_nonzero.
    + by rewrite Hz.
Qed.

(** [check_score] is the number of the human's discs minus the number of
    the AI's, over the whole 10x10 grid. *)
Theorem check_score_counts (g : Grid) :
  grid_ok g ->
  check_score g = Z.of_nat (countb (fun '(i, j) => g⟨i, j⟩ =? 1) all_cells)
                - Z.of_nat (countb (fun '(i, j) => g⟨i, j⟩ =? -1) all_cells).
Proof. intros Hok. unfold check_score. rewrite check_score_fold by done. lia. Qed.

(** C6: When the player to move has a valid action and the level is not 0,
    [player_step] plays an action that [is_valid_action] accepts. *)
Theorem ai_plays_valid_action (s : state) (r1 r2 : nat) :
  square 10 (grid s) -> get_valid_actions (grid s) (player s) <> [] -> decision_level s <> 0 ->
  exists a, a ∈ interior /\ is_valid_action (grid s) (player s) a = true /\
    player_step s r1 r2 =
    Some (switch_player (check_end_game (with_grid s (update_grid (grid s) (player s) a)))).
Proof.
  intros Hsq Hm Hdl.
  destruct (@decision_tree_Some _ _ othello_rules othello_laws (decision_level s) (grid s)
              (player s) r1 r2 Hsq Hm Hdl) as ([i j] & Ha & Hin).
  exists (i, j). apply get_valid_actions_spec in Hin as [Hr Hv].
  split_and!; [by apply range2_spec|done|].
  unfold player_step. rewrite Ha. simpl. rewrite overwrite_grid_eq; [done|done|].
  auto with pyapp.
Qed.

(** C7: On the AI's turn of an open game with no valid action for the AI, the
    frame crashes: [random.choice] is applied to the empty list of
    children (the code has no pass move). *)
Theorem ai_without_move_crashes (s s1 : state) (evs : list App.event) (r1 r2 : nat) :
  App.handle_events s evs = Some s1 -> end_game s1 = false -> player s1 = 1 ->
  square 10 (grid s1) -> get_valid_actions (grid s1) 1 = [] ->
  App.frame s evs r1 r2 = App.Crashed.
Proof.
  intros He Hend Hp Hsq Hnil. unfold App.frame. rewrite He, Hend, Hp. simpl.
  unfold player_step. rewrite Hp.
  assert (decision_tree (decision_level s1) (grid s1) 1 r1 r2 = None) as ->; [|done].
  apply (@decision_tree_None_iff _ _ othello_rules othello_laws); [done|]. by left.
Qed.

(** C8: When the human is to move and has no valid action, no sequence of
    board clicks changes the state, and the AI never moves: the game is
    stuck. *)
Theorem human_without_move_stuck (s : state) (clicks : list (Z * Z)) (r1 r2 : nat) :
  player s = 0 -> get_valid_actions (grid s) 0 = [] ->
  Forall (fun '(x, y) => 0 <= x < 400 /\ 0 <= y < 400) clicks ->
  App.frame s (map (fun '(x, y) => App.MouseDown x y) clicks) r1 r2 = App.Running s.
Proof.
  intros Hp Hnil Hc. unfold App.frame.
  assert (App.handle_events s (map (fun '(x, y) => App.MouseDown x y) clicks) = Some s) as ->.
  { induction Hc as [|[x y] cs [Hx Hy] _ IH]; [done|]. simpl. by rewrite click_without_move. }
  rewrite Hp. by rewrite andb_false_r.
Qed.

(** C13: Every state the app reaches has a 10x10 board whose cells hold -1, 0
    or 1, and a player 0 or 1. *)
Theorem reachable_board_ok (s : state) : App.reachable s -> App.app_inv s.
Proof.
  induction 1 as [|s s' evs r1 r2 _ IH Hf].
  - split; [apply init_grid_facts|]. split; [apply init_grid_facts|by left].
  - unfold App.frame in Hf. destruct (App.handle_events s evs) as [s1|] eqn:Ee; [|done].
    pose proof (handle_events_board_ok s s1 evs IH Ee) as Hinv1.
    destruct (_ && _).
    + destruct (player_step s1 r1 r2) as [s2|] eqn:Hs; [|done].
      injection Hf as <-. by apply (player_step_board_ok s1 s2 r1 r2).
    + by injection Hf as <-.
Qed.

(** Every index the eight blocks of [update_grid] read or write, for a
    move on the playable area, lies in [-10, 10): Python never raises
    [IndexError] there, but negative indices wrap to the other side. *)
Theorem update_grid_indices_in_range (i j di dj m k : Z) :
  1 <= i <= 8 -> 1 <= j <= 8 -> (di, dj, m) ∈ flip_blocks i j -> 0 <= k < m ->
  -10 <= i + di * k < 10 /\ -10 <= j + dj * k < 10.
Proof.
  intros Hi Hj Hb Hk. unfold flip_blocks in Hb.
  apply list_elem_of_In in Hb. simpl in Hb.
  repeat destruct Hb as [Hb|Hb]; try done; injection Hb as <- <- <-; lia.
Qed.

(** The opening: the human's four valid actions, the AI's four, and a
    score of 0. *)
Example initial_valid_actions :
  get_valid_actions (grid init) 0 = [(3, 5); (4, 6); (5, 3); (6, 4)] /\
  get_valid_actions (grid init) 1 = [(3, 4); (4, 3); (5, 6); (6, 5)] /\
  check_score (grid init) = 0.
Proof. vm_compute. auto. Qed.

(** [update_grid] flips through an empty cell: the scan for the closing
    disc does not stop at empty cells, so an empty cell between the
    captured disc and the closing one gets the player's disc. *)
Example update_grid_fills_empty :
  let g := gset (gset (empty_grid 10) 2 2 (-1)) 4 2 1 in
  is_valid_action g 0 (1, 2) = true /\ g⟨3, 2⟩ = 0 /\ (update_grid g 0 (1, 2))⟨3, 2⟩ = 1.
Proof. vm_compute. auto. Qed.

(** The up-left block of [update_grid] uses the down-right bound, so the
    ray runs to negative indices, which Python wraps: a valid move at
    (3, 3) writes the border cells (0, 0) and (9, 9). *)
Example update_grid_wraps_border :
  let g := gset (gset (gset (gset (gset (empty_grid 10) 2 2 (-1)) 1 1 (-1)) 8 8 1) 4 3 (-1)) 5 3 1 in
  is_valid_action g 0 (3, 3) = true /\ g⟨0, 0⟩ = 0 /\ g⟨9, 9⟩ = 0 /\
  (update_grid g 0 (3, 3))⟨0, 0⟩ = 1 /\ (update_grid g 0 (3, 3))⟨9, 9⟩ = 1.
Proof. vm_compute. auto. Qed.

(** The up-left scan of [is_valid_action] stops one cell early: a capture
    closed on row 1 is not a valid action, although [update_grid] would
    flip the captured disc. *)
Example valid_action_misses_capture :
  let g := gset (gset (empty_grid 10) 2 2 (-1)) 1 1 1 in
  is_valid_action g 0 (3, 3) = false /\ (update_grid g 0 (3, 3))⟨2, 2⟩ = 1.
Proof. vm_compute. auto. Qed.

(** ** Witnesses *)

Lemma update_grid_discs_witness :
  (forall a b, (grid init)⟨a, b⟩ <> 0 -> (update_grid (grid init) 0 (3, 5))⟨a, b⟩ <> 0) /\
  (update_grid (grid init) 0 (3, 5))⟨3, 5⟩ = fst (host_opp 0) /\
  (discs (grid init) < discs (update_grid (grid init) 0%Z (3, 5)%Z))%nat.
Proof.
  apply (update_grid_discs (grid init) 0 3 5);
    [apply init_grid_facts|lia|lia|vm_compute; reflexivity].
Defined.

Lemma check_score_counts_witness :
  check_score (grid init) =
  Z.of_nat (countb (fun '(i, j) => (grid init)⟨i, j⟩ =? 1) all_cells)
  - Z.of_nat (countb (fun '(i, j) => (grid init)⟨i, j⟩ =? -1) all_cells).
Proof. apply (check_score_counts (grid init)). apply init_grid_facts. Defined.

Lemma ai_plays_valid_action_witness :
  exists a, a ∈ interior /\
    is_valid_action (grid init) 1 a = true /\
    player_step (State (grid init) 1 1 false None (Tally 0 0 0) 0) 0 0 =
    Some (switch_player (check_end_game
      (with_grid (State (grid init) 1 1 false None (Tally 0 0 0) 0)
         (update_grid (grid init) 1 a)))).
Proof.
  apply (ai_plays_valid_action (State (grid init) 1 1 false None (Tally 0 0 0) 0) 0 0);
    simpl; [apply init_grid_facts|vm_compute; discriminate|lia].
Defined.

Lemma ai_without_move_crashes_witness :
  App.frame (State (gset (gset (gset (gset (empty_grid 10) 4 4 1) 4 5 1) 5 4 1) 5 5 1)
               1 1 false None (Tally 0 0 0) 0) [] 0 0 = App.Crashed.
Proof.
  apply (ai_without_move_crashes _ (State (gset (gset (gset (gset (empty_grid 10) 4 4 1) 4 5 1) 5 4 1) 5 5 1)
                                     1 1 false None (Tally 0 0 0) 0));
    simpl; [reflexivity|reflexivity|reflexivity|solve_square|vm_compute; reflexivity].
Defined.

Lemma human_without_move_stuck_witness :
  App.frame (State (gset (gset (gset (gset (empty_grid 10) 4 4 1) 4 5 1) 5 4 1) 5 5 1)
               0 1 false None (Tally 0 0 0) 0) [App.MouseDown 75 25] 0 0 =
  App.Running (State (gset (gset (gset (gset (empty_grid 10) 4 4 1) 4 5 1) 5 4 1) 5 5 1)
                 0 1 false None (Tally 0 0 0) 0).
Proof.
  apply (human_without_move_stuck _ [(75, 25)] 0 0);
    simpl; [reflexivity|vm_compute; reflexivity|repeat constructor; lia].
Defined.

Lemma reachable_board_ok_witness : App.app_inv init.
Proof. apply reachable_board_ok. constructor. Defined.

Lemma update_grid_indices_in_range_witness :
  -10 <= 3 + -1 * 5 < 10 /\ -10 <= 3 + -1 * 5 < 10.
Proof.
  apply (update_grid_indices_in_range 3 3 (-1) (-1) 7 5); [lia|lia| |lia].
  apply list_elem_of_In. simpl. repeat (first [left; reflexivity | right]).
Defined.

End Othello.
