(* ===== verification/AccountManager.v ===== *)
(** * The bookkeeping ledger: [src/account_manager.py]

    [Module Ledger] is the backend class [AccountManager].  Its
    [database_df] is a pandas table read with [index_col=0]: a sequence of
    rows, each with an index label and the columns
    [ID, Date, Purpose, From, To, Amount, Remark].  The pandas operations
    the class uses are written out on that sequence: [df.loc[k] = row]
    ([loc_set]) overwrites every row labelled [k] in place, or appends a
    row when there is none; [df.drop(k)] removes the rows labelled [k];
    [k in df["ID"]] tests the index labels (membership in a Series is
    membership of its index), not the [ID] values.  Dates are day numbers
    and amounts (a float column) exact rationals [Q]: the binary rounding
    of Python floats is not
    modelled.  [sort_values] is a stable merge sort: pandas' default sort
    is not stable, so the theorems only state what holds for any order of
    ties.  Reading and writing CSV files is not modelled; [Module App]
    models the handlers of [AccountManagerApps] that change the ledger or
    the view. *)

From stdpp Require Import base list sets sorting strings.
From Stdlib Require Import ZArith QArith Lqa Lia.
From S2P Require Import Prelude.
Local Open Scope Z_scope.

Module Ledger.

(** One row: the columns of the CSV file. *)
Record entry := Entry {
  id : Z;
  date : Z;
  purpose : string;
  from : string;
  to : string;
  amount : Q;
  remark : string
}.

(** [database_df]: index label and row, in the table's order. *)
Definition table : Type := list (Z * entry).

Definition labels (db : table) : list Z := map fst db.

(** [df.loc[k] = e] *)
Definition loc_set (db : table) (k : Z) (e : entry) : table :=
  if existsb (Z.eqb k) (labels db)
  then map (fun '(k', e') => if k' =? k then (k', e) else (k', e')) db
  else db ++ [(k, e)].

(** [df.drop(k)] *)
Definition drop (db : table) (k : Z) : table :=
  List.filter (fun '(k', _) => negb (k' =? k)) db.

(** [max(df["ID"])]: [ValueError] on an empty table. *)
Definition max_id (db : table) : option Z :=
  match map (fun '(_, e) => id e) db with
  | [] => None
  | x :: xs => Some (fold_left Z.max xs x)
  end.

(** [get_accounts]: the accounts named in [From] or [To]; the order of
    [list(set(...))] is unspecified, only membership is used. *)
Definition get_accounts (db : table) : list string :=
  remove_dups (map (fun '(_, e) => from e) db ++ map (fun '(_, e) => to e) db).

(** [get_inflow_from(acct, acct_target, amount)] *)
Definition get_inflow_from (acct acct_target : string) (amount : Q) : Q :=
  if String.eqb acct acct_target then Qopp amount else amount.

(** [df[(df["From"] == account) | (df["To"] == account)]] *)
Definition related (db : table) (account : string) : table :=
  List.filter (fun '(_, e) => String.eqb (from e) account || String.eqb (to e) account) db.

(** [.cumsum()] *)
Fixpoint cumsum (acc : Q) (xs : list Q) : list Q :=
  match xs with
  | [] => []
  | x :: xs => (acc + x)%Q :: cumsum (acc + x)%Q xs
  end.

(** The table of [get_records] before sorting: each row with its
    ["Total"], the running sum of [get_inflow_from] in the table's order. *)
Definition with_totals (account : string) (rows : table) : list (entry * Q) :=
  combine (map snd rows)
    (cumsum 0%Q (map (fun '(_, e) => get_inflow_from (from e) account (amount e)) rows)).

(** The three columns the app sorts by. *)
Inductive sort_key := KeyID | KeyDate | KeyAmount.

Definition key_of (k : sort_key) (e : entry) : Q :=
  match k with KeyID => inject_Z (id e) | KeyDate => inject_Z (date e) | KeyAmount => amount e end.

Definition by_key (k : sort_key) (x y : entry * Q) : Prop := (key_of k x.1 <= key_of k y.1)%Q.

#[export] Instance by_key_dec (k : sort_key) : RelDecision (by_key k).
Proof.
  intros x y. unfold by_key. destruct (Qle_bool (key_of k x.1) (key_of k y.1)) eqn:E.
  - left. by apply Qle_bool_iff.
  - right. intros H%Qle_bool_iff. congruence.
Defined.

#[export] Instance by_key_total (k : sort_key) : Total (by_key k).
Proof. intros x y. unfold by_key. destruct (Qlt_le_dec (key_of k x.1) (key_of k y.1)); [left; lra|by right]. Qed.

(** [get_records(account, sort_key)]: the rows of the account with their
    totals, sorted by the key; [to_numpy] of the columns
    [ID, Date, Purpose, From, To, Amount, Total, Remark]. *)
Definition get_records (db : table) (account : string) (k : sort_key) : list (entry * Q) :=
  merge_sort (by_key k) (with_totals account (related db account)).

(** [remove_entry(entry)] with [id = entry[0]]: the table and
    [removed_entry]. *)
Definition remove_entry (db : table) (i : Z) : table * bool :=
  if existsb (Z.eqb i) (labels db) then (drop db i, true) else (db, false).

Definition with_id (e : entry) (i : Z) : entry :=
  Entry i (date e) (purpose e) (from e) (to e) (amount e) (remark e).

(** [create_entry(entry)]: the next ID is [max(df["ID"]) + 1]. *)
Definition create_entry (db : table) (e : entry) : option table :=
  m ← max_id db;
  Some (loc_set db (m + 1) (with_id e (m + 1))).

(** [update_entry(entry)] *)
Definition update_entry (db : table) (e : entry) : table := loc_set db (id e) e.

(** The sum of the inflows of an account over a table. *)
Definition balance (db : table) (account : string) : Q :=
  fold_right (fun '(_, e) acc => get_inflow_from (from e) account (amount e) + acc)%Q 0%Q
    (related db account).

(** Every row is labelled by its [ID] and no label repeats. *)
Definition ledger_ok (db : table) : Prop :=
  NoDup (labels db) /\ Forall (fun '(k, e) => k = id e) db.

(** ** The frontend [AccountManagerApps] *)
Module App.

(** The part of the app's state the handlers read and write. *)
Record app := App {
  AM : table;
  accounts : list string;          (** [self.accounts] *)
  view_account : option string;    (** [self.view_account] *)
  viewacct_field : string;         (** the account typed in the combobox *)
  tree_rows : list (entry * Q)     (** the rows shown in the Treeview *)
}.

(** [__init__] and [create_widget]: [self.accounts] is computed once. *)
Definition init (db : table) : app := App db (get_accounts db) None EmptyString [].

(** [populate_tree(sort_key)]: clear the view, then show the records of
    the account in the combobox if it is one of [self.accounts]. *)
Definition populate_tree (st : app) (k : sort_key) : app :=
  let v := viewacct_field st in
  if bool_decide (v ∈ accounts st)
  then App (AM st) (accounts st) (Some v) v (get_records (AM st) v k)
  else App (AM st) (accounts st) None v [].

(** [create_entry]: the backend's [create_entry], then [populate_tree("ID")];
    [None] is the [ValueError] of [max] on an empty table. *)
Definition create_entry (st : app) (e : entry) : option app :=
  db ← Ledger.create_entry (AM st) e;
  Some (populate_tree (App db (accounts st) (view_account st) (viewacct_field st) (tree_rows st)) KeyID).

(** [update_entry] *)
Definition update_entry (st : app) (e : entry) : app :=
  populate_tree (App (Ledger.update_entry (AM st) e) (accounts st) (view_account st)
                   (viewacct_field st) (tree_rows st)) KeyID.

(** [remove_entry]: every selected row (by its ID), then [populate_tree("ID")];
    nothing when no row is selected. *)
Definition remove_entry (st : app) (selected : list Z) : app :=
  match selected with
  | [] => st
  | _ =>
      let db := fold_left (fun db i => (Ledger.remove_entry db i).1) selected (AM st) in
      populate_tree (App db (accounts st) (view_account st) (viewacct_field st) (tree_rows st)) KeyID
  end.

(** [load_database]: the loaded table, [self.accounts] recomputed, the
    view and the combobox cleared. *)
Definition load_database (st : app) (db : table) : app :=
  App db (get_accounts db) None EmptyString [].

(** [sort_database_by_id], [sort_database_by_date], [sort_database_by_amount] *)
Definition sort_database (st : app) (k : sort_key) : app := populate_tree st k.

End App.

(** ** Lemmas *)

Lemma existsb_Zeqb (k : Z) (l : list Z) : existsb (Z.eqb k) l = true <-> k ∈ l.
Proof.
  rewrite existsb_exists. split.
  - intros (x & Hx & E%Z.eqb_eq). subst. by apply list_elem_of_In.
  - intros H. exists k. split; [by apply list_elem_of_In|apply Z.eqb_refl].
Qed.

Lemma loc_set_new (db : table) (k : Z) (e : entry) :
  k ∉ labels db -> loc_set db k e = db ++ [(k, e)].
Proof.
  intros Hk. unfold loc_set. destruct (existsb _ _) eqn:E; [|done].
  apply existsb_Zeqb in E. contradiction.
Qed.

Lemma loc_set_old (db : table) (k : Z) (e : entry) :
  k ∈ labels db -> loc_set db k e = map (fun '(k', e') => if k' =? k then (k', e) else (k', e')) db.
Proof. intros Hk. unfold loc_set. apply existsb_Zeqb in Hk. by rewrite Hk. Qed.

Lemma labels_map_set (db : table) (k : Z) (e : entry) :
  labels (map (fun '(k', e') => if k' =? k then (k', e) else (k', e')) db) = labels db.
Proof. induction db as [|[k' e'] db IH]; simpl; [done|]. by destruct (k' =? k); simpl; rewrite IH. Qed.

(** The written row is in the table after [df.loc[k] = e]. *)
Lemma loc_set_in (db : table) (k : Z) (e : entry) : (k, e) ∈ loc_set db k e.
Proof.
  destruct (decide (k ∈ labels db)) as [Hk|Hk].
  - rewrite loc_set_old by done. unfold labels in Hk.
    apply list_elem_of_fmap in Hk as ([k' e'] & -> & Hin).
    apply list_elem_of_fmap. exists (k', e'). simpl. by rewrite Z.eqb_refl.
  - rewrite loc_set_new by done. set_solver.
Qed.

Lemma loc_set_ok (db : table) (k : Z) (e : entry) :
  ledger_ok db -> k = id e -> ledger_ok (loc_set db k e).
Proof.
  intros [Hnd Hf] ->. destruct (decide (id e ∈ labels db)) as [Hk|Hk].
  - rewrite loc_set_old by done. split; [by rewrite labels_map_set|].
    apply Forall_fmap, Forall_forall. intros [k' e'] Hin. simpl.
    destruct (Z.eqb_spec k' (id e)); [done|]. by apply (proj1 (Forall_forall _ _) Hf (k', e')).
  - rewrite loc_set_new by done. split.
    + unfold labels. rewrite fmap_app. apply NoDup_app. split_and!; [done| |apply NoDup_singleton].
      intros x Hx ->%list_elem_of_singleton. by apply Hk.
    + apply Forall_app. split; [done|]. by constructor.
Qed.

Lemma labels_filter_NoDup (P : Z * entry -> bool) (db : table) :
  NoDup (labels db) -> NoDup (labels (List.filter P db)).
Proof.
  unfold labels. induction db as [|[k e] db IH]; simpl; intros Hnd; [done|].
  apply NoDup_cons in Hnd as [Hk Hnd]. destruct (P (k, e)); simpl; [|by apply IH].
  apply NoDup_cons. split; [|by apply IH].
  intros Hin. apply Hk. apply list_elem_of_fmap in Hin as ([k' e'] & -> & Hin).
  apply list_elem_of_In, filter_In in Hin as [Hin _]. apply list_elem_of_fmap.
  exists (k', e'). split; [done|]. by apply list_elem_of_In.
Qed.

Lemma filter_ok (P : Z * entry -> bool) (db : table) : ledger_ok db -> ledger_ok (List.filter P db).
Proof.
  intros [Hnd Hf]. split; [by apply labels_filter_NoDup|].
  apply Forall_forall. intros x Hx. apply list_elem_of_In, filter_In in Hx as [Hx _].
  apply (proj1 (Forall_forall _ _) Hf). by apply list_elem_of_In.
Qed.

Lemma ids_labels (db : table) :
  Forall (fun '(k, e) => k = id e) db -> map (fun '(_, e) => id e) db = labels db.
Proof.
  unfold labels. induction db as [|[k e] db IH]; intros Hf; simpl; [done|].
  apply Forall_cons in Hf as [-> Hf]. by rewrite IH.
Qed.

(** [max(df["ID"])] is an ID of the table and bounds all of them. *)
Lemma max_id_spec (db : table) :
  (max_id db = None <-> db = []) /\
  (forall m, max_id db = Some m ->
     (exists k x, (k, x) ∈ db /\ id x = m) /\ Forall (fun '(_, x) => id x <= m) db).
Proof.
  unfold max_id. destruct db as [|[k0 e0] db]; simpl; [split; [done|discriminate]|].
  split; [split; discriminate|]. intros m [= <-].
  destruct (fold_max_spec (map (fun '(_, e) => id e) db) (id e0)) as (Hv & Hs & Hl).
  split.
  - destruct Hv as [Hv|Hv]; [exists k0, e0; split; [left|done]|].
    apply list_elem_of_fmap in Hv as ([k x] & Hx & Hin).
    exists k, x. split; [by right|done].
  - constructor; [done|]. apply Forall_forall. intros [k x] Hin.
    apply (proj1 (Forall_forall _ _) Hl). apply list_elem_of_In, in_map_iff.
    exists (k, x). split; [done|]. by apply list_elem_of_In.
Qed.

(** Under [ledger_ok], [max(df["ID"]) + 1] is a fresh label. *)
Lemma max_id_fresh (db : table) (m : Z) :
  ledger_ok db -> max_id db = Some m -> m + 1 ∉ labels db.
Proof.
  intros [_ Hf] Hm Hin. destruct (proj2 (max_id_spec db) m Hm) as [_ Hle].
  unfold labels in Hin. apply list_elem_of_fmap in Hin as ([k x] & Hk & Hin). simpl in Hk. subst.
  pose proof (proj1 (Forall_forall _ _) Hf _ Hin) as Hkx.
  pose proof (proj1 (Forall_forall _ _) Hle _ Hin) as Hx. simpl in *. lia.
Qed.

Lemma drop_by_id (db : table) (i : Z) :
  Forall (fun '(k, e) => k = id e) db ->
  drop db i = List.filter (fun '(_, x) => negb (id x =? i)) db /\
  existsb (Z.eqb i) (labels db) = existsb (fun '(_, x) => id x =? i) db.
Proof.
  unfold drop, labels. induction db as [|[k e] db IH]; intros Hf; simpl; [done|].
  apply Forall_cons in Hf as [-> Hf]. destruct (IH Hf) as [E1 E2].
  rewrite E1, E2, (Z.eqb_sym i). by destruct (id e =? i).
Qed.

Lemma related_app (db1 db2 : table) (a : string) :
  related (db1 ++ db2) a = related db1 a ++ related db2 a.
Proof. unfold related. induction db1 as [|x db1 IH]; simpl; [done|]. case_match; simpl; by rewrite IH. Qed.

Lemma balance_app (db1 db2 : table) (a : string) :
  (balance (db1 ++ db2) a == balance db1 a + balance db2 a)%Q.
Proof.
  unfold balance. rewrite related_app, fold_right_app.
  induction (related db1 a) as [|[k e] l IH]; simpl; lra.
Qed.

Lemma related_idem (db : table) (a : string) : related (related db a) a = related db a.
Proof.
  unfold related. induction db as [|[k e] db IH]; simpl; [done|].
  destruct (String.eqb (from e) a || String.eqb (to e) a) eqn:E; simpl; rewrite ?E, ?IH; done.
Qed.

Lemma filter_all {X} (P : X -> bool) (l : list X) :
  (forall x, x ∈ l -> P x = true) -> List.filter P l = l.
Proof.
  induction l as [|x l IH]; intros H; simpl; [done|].
  rewrite (H x ltac:(set_solver)), IH; [done|]. intros y Hy. apply H. set_solver.
Qed.

Lemma related_take (db : table) (a : string) (n : nat) :
  related (take n (related db a)) a = take n (related db a).
Proof.
  unfold related at 1. apply filter_all. intros x Hx.
  apply elem_of_take in Hx as (i & Hi & _). apply list_elem_of_lookup_2 in Hi.
  apply list_elem_of_In, filter_In in Hi. tauto.
Qed.

Lemma cumsum_lookup (acc : Q) (xs : list Q) (n : nat) (t : Q) :
  cumsum acc xs !! n = Some t -> (t == acc + fold_right Qplus 0 (take (S n) xs))%Q.
Proof.
  revert acc n. induction xs as [|x xs IH]; intros acc [|n] Ht; simpl in *; try done.
  - injection Ht as <-. lra.
  - apply IH in Ht. lra.
Qed.

Lemma combine_lookup {X Y} (l1 : list X) (l2 : list Y) (n : nat) (x : X) (y : Y) :
  combine l1 l2 !! n = Some (x, y) -> l1 !! n = Some x /\ l2 !! n = Some y.
Proof.
  revert l2 n. induction l1 as [|a l1 IH]; intros [|b l2] [|n] H; simpl in *; try done.
  - by injection H as -> ->.
  - by apply IH.
Qed.

Lemma fold_inflows (a : string) (l : table) :
  fold_right (fun '(_, e) acc => get_inflow_from (from e) a (amount e) + acc)%Q 0%Q l =
  fold_right Qplus 0%Q (map (fun '(_, e) => get_inflow_from (from e) a (amount e)) l).
Proof. induction l as [|[k e] l IH]; simpl; [done|]. by rewrite IH. Qed.

(** Each operation of the backend keeps the table well formed. *)
Lemma update_entry_ok (db : table) (e : entry) : ledger_ok db -> ledger_ok (update_entry db e).
Proof. intros Hok. by apply loc_set_ok. Qed.

Lemma remove_entry_ok (db : table) (i : Z) : ledger_ok db -> ledger_ok (remove_entry db i).1.
Proof. intros Hok. unfold remove_entry. destruct (existsb _ _); [unfold drop; by apply filter_ok|done]. Qed.

Lemma create_entry_ok (db db' : table) (e : entry) : ledger_ok db -> create_entry db e = Some db' -> ledger_ok db'.
Proof. intros Hok. unfold create_entry. destruct (max_id db); simpl; [|done]. intros [= <-]. by apply loc_set_ok. Qed.

#[export] Hint Resolve update_entry_ok remove_entry_ok : pyapp.

(** ** Properties of the ledger *)

(** [get_records] returns the account's rows with their totals,
    sorted by the key, and the ["Total"] of a row is the sum of the
    account's inflows over the rows up to it in the table's order, not in
    the displayed order. *)
Theorem get_records_spec (db : table) (a : string) (k : sort_key) :
  get_records db a k ≡ₚ with_totals a (related db a) /\
  Sorted (by_key k) (get_records db a k) /\
  (forall n x t, with_totals a (related db a) !! n = Some (x, t) ->
     (t == balance (take (S n) (related db a)) a)%Q).
Proof.
  split_and!; [apply merge_sort_Permutation|apply Sorted_merge_sort, by_key_total|].
  intros n x t Hn. apply combine_lookup in Hn as [_ Ht%cumsum_lookup].
  unfold balance. rewrite related_take, fold_inflows. rewrite firstn_map in Ht. lra.
Qed.

(** C16: Creating an entry fails ([max] of an empty column) exactly on an
    empty table; otherwise, on a well-formed table, it appends one row
    whose label and ID are [max(ID) + 1], larger than every ID. *)
Theorem create_entry_spec (db : table) (e : entry) :
  (create_entry db e = None <-> db = []) /\
  (ledger_ok db -> forall db', create_entry db e = Some db' ->
     exists m, max_id db = Some m /\ Forall (fun '(_, x) => id x < m + 1) db /\
               db' = db ++ [(m + 1, with_id e (m + 1))]).
Proof.
  unfold create_entry. destruct (max_id_spec db) as [Hnone Hsome].
  destruct (max_id db) as [m|] eqn:Em; simpl.
  - split; [split; [done|]; intros ->; by destruct (proj2 Hnone eq_refl)|].
    intros Hok db' [= <-]. exists m. split_and!; [done| |].
    + destruct (Hsome m eq_refl) as [_ Hle]. apply Forall_forall. intros [k x] Hin.
      pose proof (proj1 (Forall_forall _ _) Hle _ Hin). simpl in *. lia.
    + apply loc_set_new. by apply max_id_fresh.
  - split; [split; [intros _; by apply Hnone|done]|]. done.
Qed.

(** C17: On a well-formed table, removing by [entry[0]] deletes exactly the
    rows with that ID and reports whether there was one. *)
Theorem remove_entry_spec (db : table) (i : Z) :
  ledger_ok db ->
  remove_entry db i = (List.filter (fun '(_, x) => negb (id x =? i)) db,
                       existsb (fun '(_, x) => id x =? i) db).
Proof.
  intros [_ Hf]. destruct (drop_by_id db i Hf) as [E1 E2]. unfold remove_entry. rewrite E2.
  destruct (existsb _ db) eqn:E; [by rewrite E1|]. f_equal. symmetry. apply filter_all.
  intros [k x] Hin. apply negb_true_iff, Z.eqb_neq. intros Heq.
  apply not_true_iff_false in E. apply E, existsb_exists. exists (k, x).
  split; [by apply list_elem_of_In|by apply Z.eqb_eq].
Qed.

(** Updating an entry whose ID is not in the table appends it as a new
    row (no error); updating an existing ID replaces that row in place. *)
Theorem update_entry_spec (db : table) (e : entry) :
  (id e ∉ labels db -> update_entry db e = db ++ [(id e, e)]) /\
  (id e ∈ labels db -> labels (update_entry db e) = labels db /\
     forall k x, (k, x) ∈ update_entry db e -> k = id e -> x = e).
Proof.
  unfold update_entry. split; [apply loc_set_new|]. intros Hin.
  rewrite loc_set_old by done. split; [apply labels_map_set|].
  intros k x Hx ->. apply list_elem_of_fmap in Hx as ([k' e'] & Heq & _).
  destruct (Z.eqb_spec k' (id e)); simplify_eq; done.
Qed.

(** The three handlers that change the table keep it well formed:
    every row labelled by its ID, no label twice. *)
Theorem ledger_ops_keep_ok (db : table) (e : entry) (i : Z) :
  ledger_ok db ->
  ledger_ok (update_entry db e) /\ ledger_ok (remove_entry db i).1 /\
  (forall db', create_entry db e = Some db' -> ledger_ok db').
Proof. intros Hok. split_and!; [by apply update_entry_ok|by apply remove_entry_ok|intros db'; by apply create_entry_ok]. Qed.

(** A transfer from an account to itself lowers the account's
    balance by its amount: [get_inflow_from] tests only [From]. *)
Theorem self_transfer_outflow (db : table) (k : Z) (e : entry) (a : string) :
  from e = a -> to e = a -> (balance (db ++ [(k, e)]) a == balance db a - amount e)%Q.
Proof.
  intros Hf Ht. rewrite balance_app. unfold balance at 2, related, get_inflow_from. simpl.
  rewrite Hf, String.eqb_refl. simpl. rewrite Hf, String.eqb_refl. lra.
Qed.

(** Sorted by amount, the ["Total"] column is not a running balance of
    the displayed rows: the first row shown carries the total of both. *)
Example sorted_totals_not_running :
  get_records [(1, Entry 1 10 "pay" "work" "bank" 50 ""); (2, Entry 2 11 "gift" "mum" "bank" 20 "")]
    "bank" KeyAmount =
  [(Entry 2 11 "gift" "mum" "bank" 20 "", 70%Q); (Entry 1 10 "pay" "work" "bank" 50 "", 50%Q)].
Proof. vm_compute. reflexivity. Qed.

(** [self.accounts] is computed when the app starts and when a file is
    loaded, not after an entry is created: an entry naming a new account
    is stored, but viewing that account shows nothing. *)
Theorem new_account_not_viewable (st st' : App.app) (e : entry) :
  App.viewacct_field st = to e -> to e ∉ App.accounts st ->
  App.create_entry st e = Some st' ->
  App.tree_rows st' = [] /\ App.view_account st' = None /\ related (App.AM st') (to e) <> [].
Proof.
  intros Hv Hn. unfold App.create_entry, Ledger.create_entry.
  destruct (max_id (App.AM st)) as [m|]; simpl; [|done]. intros [= <-].
  unfold App.populate_tree. cbn [App.viewacct_field App.accounts App.AM]. rewrite Hv.
  rewrite bool_decide_eq_false_2 by done. split_and!; [done|done|].
  intros Hnil. pose proof (loc_set_in (App.AM st) (m + 1) (with_id e (m + 1))) as Hin.
  assert (Hr : (m + 1, with_id e (m + 1)) ∈ related (loc_set (App.AM st) (m + 1) (with_id e (m + 1))) (to e)).
  { apply list_elem_of_In, filter_In. split; [by apply list_elem_of_In|].
    simpl. rewrite String.eqb_refl. apply orb_true_r. }
  cbn [App.AM] in Hnil. rewrite Hnil in Hr. set_solver.
Qed.

(** ** Witnesses *)

Lemma remove_entry_spec_witness :
  remove_entry [(1, Entry 1 10 "pay" "work" "bank" 50 "")] 1 =
  (List.filter (fun '(_, x) => negb (id x =? 1)) [(1, Entry 1 10 "pay" "work" "bank" 50 "")], existsb (fun '(_, x) => id x =? 1) [(1, Entry 1 10 "pay" "work" "bank" 50 "")]).
Proof.
  apply remove_entry_spec. split; [apply NoDup_singleton|repeat constructor].
Defined.

Lemma ledger_ops_keep_ok_witness :
  ledger_ok (update_entry [(1, Entry 1 10 "pay" "work" "bank" 50 "")] (Entry 2 11 "gift" "mum" "bank" 20 "")) /\
  ledger_ok (remove_entry [(1, Entry 1 10 "pay" "work" "bank" 50 "")] 1).1 /\
  (forall db', create_entry [(1, Entry 1 10 "pay" "work" "bank" 50 "")] (Entry 2 11 "gift" "mum" "bank" 20 "") = Some db' -> ledger_ok db').
Proof.
  apply (ledger_ops_keep_ok [(1, Entry 1 10 "pay" "work" "bank" 50 "")] (Entry 2 11 "gift" "mum" "bank" 20 "") 1).
  split; [apply NoDup_singleton|repeat constructor].
Defined.

Lemma self_transfer_outflow_witness :
  Qeq (balance ([(1, Entry 1 10 "pay" "work" "bank" 50 "")] ++ [(2, Entry 2 11 "move" "cash" "cash" 100 "")]) "cash")
      (Qminus (balance [(1, Entry 1 10 "pay" "work" "bank" 50 "")] "cash") 100).
Proof. apply (self_transfer_outflow [(1, Entry 1 10 "pay" "work" "bank" 50 "")] 2 (Entry 2 11 "move" "cash" "cash" 100 "") "cash"); reflexivity. Defined.

Lemma new_account_not_viewable_witness :
  exists st', App.create_entry (App.App [(1, Entry 1 10 "pay" "work" "bank" 50 "")] (get_accounts [(1, Entry 1 10 "pay" "work" "bank" 50 "")]) None "savings" [])
                (Entry 0 12 "move" "bank" "savings" 30 "") = Some st' /\
    App.tree_rows st' = [] /\ App.view_account st' = None /\ related (App.AM st') "savings" <> [].
Proof.
  eexists. split; [reflexivity|].
  apply (new_account_not_viewable (App.App [(1, Entry 1 10 "pay" "work" "bank" 50 "")] (get_accounts [(1, Entry 1 10 "pay" "work" "bank" 50 "")]) None "savings" [])
           _ (Entry 0 12 "move" "bank" "savings" 30 ""));
    [reflexivity| |reflexivity].
  apply (bool_decide_eq_false_1 ("savings" ∈ get_accounts [(1, Entry 1 10 "pay" "work" "bank" 50 "")])).
  vm_compute. reflexivity.
Defined.

End Ledger.
