(* ===== verification/Forex.v ===== *)
(** * The forex chart viewer: [src/forex_hist.py]

    [Module Forex] models the backend [ForexHist] (the pair and the dates
    it downloads, and the data frame it holds) and the plot logic of the
    frontend [ForexHistApp]: [get_data], [plot_data] and the three
    indicator buttons [plot_ema9], [plot_ema20], [plot_bollinger].  A
    download is not modelled by its prices: [df] records which download
    the backend holds ([None] before the first, the number of the download
    after), and a [Line2D] records the download whose series it shows and
    its line style, ["solid"] or ["None"] (hidden).  The indicator series
    themselves (pandas [ewm] and [rolling]) and the drawing are not
    modelled.  A button callback runs only while the button is enabled;
    a callback that reads [df] before any download raises
    [AttributeError] ([None]). *)

From stdpp Require Import base list strings.
From Stdlib Require Import Lia.
From S2P Require Import Prelude.

Module Forex.

(** The three choices of the read-only combobox. *)
Inductive forex_pair := USDJPY | EURJPY | AUDJPY.

(** The ticker [get_data] passes to [set_pair]. *)
Definition ticker (p : forex_pair) : string :=
  match p with
  | USDJPY => "USDJPY=X"
  | EURJPY => "EURJPY=X"
  | AUDJPY => "AUDJPY=X"
  end.

Inductive linestyle := Solid | Hidden.

(** A [matplotlib] line: the download whose series it holds, and its
    style. *)
Record line2d := Line2D { xy : nat; style : linestyle }.

Record app := App {
  pair : option string;            (** [forex_hist.pair] *)
  start_date : option string;      (** [forex_hist.start_date] *)
  end_date : option string;        (** [forex_hist.end_date] *)
  df : option nat;                 (** [forex_hist.df]: which download *)
  df_rows : bool;                  (** whether that frame has rows *)
  downloads : nat;                 (** downloads made so far *)
  price_line : option line2d;
  ema9_line : option line2d;
  ema20_line : option line2d;
  bolhi_line : option line2d;
  bollo_line : option line2d;
  indicators_enabled : bool        (** state of the three indicator buttons *)
}.

(** The exceptions a callback can raise: [AttributeError] on [df.index]
    of [None], and the [ValueError] of [min()] of an empty sequence. *)
Inductive exn := AttributeError | ValueError.

(** [__init__], [create_header] and [create_plotbox]: no data, no line,
    the indicator buttons disabled. *)
Definition init : app :=
  App None None None None false 0 None None None None None false.

(** [ForexHist.set_pair], [set_start_date], [set_end_date] *)
Definition set_pair (st : app) (p : string) : app :=
  App (Some p) (start_date st) (end_date st) (df st) (df_rows st) (downloads st) (price_line st)
      (ema9_line st) (ema20_line st) (bolhi_line st) (bollo_line st) (indicators_enabled st).
Definition set_start_date (st : app) (d : string) : app :=
  App (pair st) (Some d) (end_date st) (df st) (df_rows st) (downloads st) (price_line st)
      (ema9_line st) (ema20_line st) (bolhi_line st) (bollo_line st) (indicators_enabled st).
Definition set_end_date (st : app) (d : string) : app :=
  App (pair st) (start_date st) (Some d) (df st) (df_rows st) (downloads st) (price_line st)
      (ema9_line st) (ema20_line st) (bolhi_line st) (bollo_line st) (indicators_enabled st).

(** [ForexHist.get_data]: a new download.  [yf.download] does not raise:
    when the pair or the dates give no data it returns a frame without
    rows ([rows = false]), on which the indicator columns are empty too. *)
Definition download (st : app) (rows : bool) : app :=
  App (pair st) (start_date st) (end_date st) (Some (S (downloads st))) rows (S (downloads st))
      (price_line st) (ema9_line st) (ema20_line st) (bolhi_line st) (bollo_line st)
      (indicators_enabled st).

(** [set_linestyle("None")] *)
Definition hide (l : line2d) : line2d := Line2D (xy l) Hidden.

(** The state with the price line refilled with download [v]. *)
Definition with_price (st : app) (v : nat) : app :=
  App (pair st) (start_date st) (end_date st) (df st) (df_rows st) (downloads st)
      (Some (Line2D v Solid)) (ema9_line st) (ema20_line st) (bolhi_line st)
      (bollo_line st) (indicators_enabled st).

(** [plot_data]: the first time, the price line is plotted.  Afterwards
    its data is replaced, then [set_xlim(min(index), ...)] raises
    [ValueError] on a frame without rows, before the indicator lines are
    hidden; otherwise every indicator line on the canvas is hidden. *)
Definition plot_data (st : app) : app * option exn :=
  match df st with
  | None => (st, Some AttributeError)
  | Some v =>
      let st1 := with_price st v in
      match price_line st with
      | None => (st1, None)
      | Some _ =>
          if df_rows st then
            (App (pair st) (start_date st) (end_date st) (df st) (df_rows st) (downloads st)
                 (Some (Line2D v Solid)) (hide <$> ema9_line st) (hide <$> ema20_line st)
                 (hide <$> bolhi_line st) (hide <$> bollo_line st) (indicators_enabled st), None)
          else (st1, Some ValueError)
      end
  end.

(** [get_data]: the pair and dates to the backend, a download, the
    indicator buttons enabled, then [plot_data]. *)
Definition get_data (st : app) (p : forex_pair) (start stop : string) (rows : bool) : app * option exn :=
  let st := download (set_end_date (set_start_date (set_pair st (ticker p)) start) stop) rows in
  plot_data (App (pair st) (start_date st) (end_date st) (df st) (df_rows st) (downloads st) (price_line st)
               (ema9_line st) (ema20_line st) (bolhi_line st) (bollo_line st) true).

(** The body shared by the indicator callbacks: plot a new line, or show a
    hidden line with the current data, or hide a visible one. *)
Definition toggle (l : option line2d) (v : nat) : line2d :=
  match l with
  | None => Line2D v Solid
  | Some l => match style l with Hidden => Line2D v Solid | Solid => hide l end
  end.

(** [plot_ema9] *)
Definition plot_ema9 (st : app) : app * option exn :=
  match df st with
  | None => (st, Some AttributeError)
  | Some v =>
      (App (pair st) (start_date st) (end_date st) (df st) (df_rows st) (downloads st) (price_line st)
          (Some (toggle (ema9_line st) v)) (ema20_line st) (bolhi_line st) (bollo_line st)
          (indicators_enabled st), None)
  end.

(** [plot_ema20] *)
Definition plot_ema20 (st : app) : app * option exn :=
  match df st with
  | None => (st, Some AttributeError)
  | Some v =>
      (App (pair st) (start_date st) (end_date st) (df st) (df_rows st) (downloads st) (price_line st)
          (ema9_line st) (Some (toggle (ema20_line st) v)) (bolhi_line st) (bollo_line st)
          (indicators_enabled st), None)
  end.

(** [plot_bollinger]: the upper and the lower band, one after the other. *)
Definition plot_bollinger (st : app) : app * option exn :=
  match df st with
  | None => (st, Some AttributeError)
  | Some v =>
      (App (pair st) (start_date st) (end_date st) (df st) (df_rows st) (downloads st) (price_line st)
          (ema9_line st) (ema20_line st) (Some (toggle (bolhi_line st) v))
          (Some (toggle (bollo_line st) v)) (indicators_enabled st), None)
  end.

(** The user's actions; [GetData] carries whether the download has rows. *)
Inductive event :=
| GetData (p : forex_pair) (start stop : string) (rows : bool)
| EMA9Button
| EMA20Button
| BollingerButton.

(** One callback of the Tk main loop: the state it leaves and the
    exception it raised, which Tk reports before the loop goes on; a
    disabled button does nothing. *)
Definition step (st : app) (ev : event) : app * option exn :=
  match ev with
  | GetData p start stop rows => get_data st p start stop rows
  | EMA9Button => if indicators_enabled st then plot_ema9 st else (st, None)
  | EMA20Button => if indicators_enabled st then plot_ema20 st else (st, None)
  | BollingerButton => if indicators_enabled st then plot_bollinger st else (st, None)
  end.

(** The states of the main loop, exceptions included. *)
Inductive reachable : app -> Prop :=
| reach_init : reachable init
| reach_step (st : app) (ev : event) : reachable st -> reachable (step st ev).1.

(** A line that is shown holds the series of download [v]. *)
Definition shows (v : nat) (l : option line2d) : Prop :=
  match l with Some (Line2D x Solid) => x = v | _ => True end.

(** The invariant of the viewer: the price line always shows the current
    download; the indicator lines shown do too, unless the current frame
    has no rows (then [plot_data] raised before hiding them). *)
Definition forex_inv (st : app) : Prop :=
  (indicators_enabled st = true <-> is_Some (df st)) /\
  (price_line st = None <-> df st = None) /\
  (forall v, df st = Some v ->
     shows v (price_line st) /\
     (df_rows st = true ->
        shows v (ema9_line st) /\ shows v (ema20_line st) /\
        shows v (bolhi_line st) /\ shows v (bollo_line st))) /\
  (df st = None -> ema9_line st = None /\ ema20_line st = None /\ bolhi_line st = None) /\
  bolhi_line st = bollo_line st.

(** Whether a line is drawn on the canvas. *)
Definition visible (l : option line2d) : bool :=
  match l with Some (Line2D _ Solid) => true | _ => false end.

(** ** Lemmas *)

Lemma shows_hide (v : nat) (l : option line2d) : shows v (hide <$> l).
Proof. by destruct l. Qed.

Lemma shows_toggle (v : nat) (l : option line2d) : shows v (Some (toggle l v)).
Proof. destruct l as [[x [|]]|]; done. Qed.

Lemma visible_hide (l : option line2d) : visible (hide <$> l) = false.
Proof. by destruct l. Qed.

(** [get_data] as one state: the new download plotted, the buttons
    enabled; the indicator lines hidden when the price line existed and
    the frame has rows, untouched and [ValueError] when it has none. *)
Lemma get_data_eq (st : app) (p : forex_pair) (a b : string) (rows : bool) :
  get_data st p a b rows =
  let n := S (downloads st) in
  match price_line st with
  | None => (App (Some (ticker p)) (Some a) (Some b) (Some n) rows n (Some (Line2D n Solid))
               (ema9_line st) (ema20_line st) (bolhi_line st) (bollo_line st) true, None)
  | Some _ =>
      if rows then
        (App (Some (ticker p)) (Some a) (Some b) (Some n) rows n (Some (Line2D n Solid))
           (hide <$> ema9_line st) (hide <$> ema20_line st) (hide <$> bolhi_line st)
           (hide <$> bollo_line st) true, None)
      else
        (App (Some (ticker p)) (Some a) (Some b) (Some n) rows n (Some (Line2D n Solid))
           (ema9_line st) (ema20_line st) (bolhi_line st) (bollo_line st) true, Some ValueError)
  end.
Proof. unfold get_data, plot_data, with_price. simpl. by destruct (price_line st), rows. Qed.

(** One indicator button on a state of the invariant: a disabled button
    changes nothing; an enabled one finds the download and toggles its
    line(s). *)
Local Ltac toggle_case :=
  match goal with
  | Hen : indicators_enabled ?st = true <-> _, Hsh : forall v, df ?st = Some v -> _ |- _ =>
      destruct (indicators_enabled st) eqn:Ee; [|done];
      destruct (proj1 Hen eq_refl) as [v Hv]; rewrite Hv;
      unfold forex_inv;
      cbn [df df_rows price_line ema9_line ema20_line bolhi_line bollo_line indicators_enabled fst];
      rewrite <- Hv; split_and!; try done;
      try (intros v' Hv'; rewrite Hv in Hv'; injection Hv' as <-;
           destruct (Hsh v Hv) as (S1 & S2); split; [done|];
           intros Hrows; destruct (S2 Hrows) as (S3 & S4 & S5 & S6);
           split_and!; try done; apply shows_toggle);
      try (intros Hn; congruence)
  end.

Lemma step_inv (st : app) (ev : event) : forex_inv st -> forex_inv (step st ev).1.
Proof.
  intros Hinv. pose proof Hinv as (Hen & Hpr & Hsh & Hnone & Hbol).
  destruct ev as [p a b rows| | |]; simpl.
  - rewrite get_data_eq. cbn zeta. destruct (price_line st) eqn:Ep; [destruct rows|];
      unfold forex_inv; cbn;
      (split_and!; [split; [eauto|done]|split; discriminate| |discriminate|]);
      try (intros v [= <-]; split; [done|]); try done.
    + intros _. split_and!; apply shows_hide.
    + by rewrite Hbol.
    + intros _. destruct (Hnone (proj1 Hpr eq_refl)) as (E9 & E20 & Eh).
      rewrite E9, E20, <- Hbol, Eh. by split_and!.
  - unfold plot_ema9. toggle_case.
  - unfold plot_ema20. toggle_case.
  - unfold plot_bollinger. toggle_case. by rewrite Hbol.
Qed.

Lemma init_inv : forex_inv init.
Proof. unfold forex_inv, init; simpl. split_and!; try done; intros; by destruct H. Qed.

Lemma reachable_forex_inv (st : app) : reachable st -> forex_inv st.
Proof. induction 1; [apply init_inv|by apply step_inv]. Qed.

(** An indicator callback from a state of the invariant never raises. *)
Lemma step_button_ok (st : app) (ev : event) :
  forex_inv st -> (forall p a b rows, ev <> GetData p a b rows) -> (step st ev).2 = None.
Proof.
  intros (Hen & _) Hev. destruct ev as [p a b rows| | |]; [by destruct (Hev p a b rows)| | |]; simpl;
    destruct (indicators_enabled st) eqn:Ee; try done;
    destruct (proj1 Hen eq_refl) as [v Hv];
    [unfold plot_ema9|unfold plot_ema20|unfold plot_bollinger]; by rewrite Hv.
Qed.

(** ** Properties of the viewer *)

(** C19: In every reachable state, exceptions included, the indicator
    buttons are enabled exactly when data has been downloaded, the price
    line exists exactly then and shows the current download, the
    indicator lines drawn show it too whenever the current frame has
    rows, and the two Bollinger lines are in the same state. *)
Theorem forex_reachable_inv (st : app) : reachable st -> forex_inv st.
Proof. induction 1; [apply init_inv|by apply step_inv]. Qed.

(** C20: The only exception a callback raises from a reachable state is
    the [ValueError] of [min()] in [plot_data], and it is raised exactly
    when ["Get Data!"] downloads a frame without rows while a price line
    is already plotted; an indicator button never finds [df] unset. *)
Theorem forex_errors (st : app) (ev : event) :
  reachable st ->
  (step st ev).2 <> Some AttributeError /\
  ((step st ev).2 = Some ValueError <->
     (exists p a b, ev = GetData p a b false) /\ is_Some (price_line st)).
Proof.
  intros Hr%reachable_forex_inv. destruct ev as [p a b rows| | |].
  - simpl. rewrite get_data_eq. cbn zeta.
    destruct (price_line st), rows; simpl; split; try done; split; try done;
      try (intros [(? & ? & ? & [=]) _]; done); try (intros [_ [? [=]]]).
    intros _. split; [by exists p, a, b|eauto].
  - rewrite step_button_ok by done. split; [done|]. split; [done|by intros [(? & ? & ? & [=]) _]].
  - rewrite step_button_ok by done. split; [done|]. split; [done|by intros [(? & ? & ? & [=]) _]].
  - rewrite step_button_ok by done. split; [done|]. split; [done|by intros [(? & ? & ? & [=]) _]].
Qed.

(** C33: After a download with rows only the price line is drawn, with the
    new data: every indicator line already on the canvas is hidden, and
    the user must press the indicator buttons again. *)
Theorem get_data_hides_indicators (st : app) (p : forex_pair) (a b : string) :
  forex_inv st ->
  let st' := (get_data st p a b true).1 in
  df st' = Some (S (downloads st)) /\
  price_line st' = Some (Line2D (S (downloads st)) Solid) /\
  visible (ema9_line st') = false /\ visible (ema20_line st') = false /\
  visible (bolhi_line st') = false /\ visible (bollo_line st') = false.
Proof.
  intros (_ & Hpr & _ & Hnone & Hbol). rewrite get_data_eq. cbn zeta.
  destruct (price_line st) eqn:Ep; simpl; [by rewrite !visible_hide|].
  destruct (Hnone (proj1 Hpr eq_refl)) as (-> & -> & Eh). rewrite <- Hbol, Eh. done.
Qed.

(** A download without rows after a first chart leaves the EMA9 line of
    the previous download on the canvas: [plot_data] raised before
    hiding it. *)
Example empty_download_keeps_stale_line :
  let st1 := (step init (GetData USDJPY "2020-01-01" "2020-12-31" true)).1 in
  let st2 := (step st1 EMA9Button).1 in
  step st2 (GetData USDJPY "2021-01-01" "2020-01-01" false) =
    (App (Some "USDJPY=X") (Some "2021-01-01") (Some "2020-01-01") (Some 2) false 2
         (Some (Line2D 2 Solid)) (Some (Line2D 1 Solid)) None None None true, Some ValueError).
Proof. reflexivity. Qed.

(** ** Witnesses *)

Lemma forex_reachable_inv_witness : forex_inv init.
Proof. apply forex_reachable_inv. constructor. Defined.

Lemma forex_errors_witness :
  let st := (step init (GetData USDJPY "2020-01-01" "2020-12-31" true)).1 in
  (step st (GetData EURJPY "2021-01-01" "2020-01-01" false)).2 <> Some AttributeError /\
  ((step st (GetData EURJPY "2021-01-01" "2020-01-01" false)).2 = Some ValueError <->
     (exists p a b, GetData EURJPY "2021-01-01" "2020-01-01" false = GetData p a b false) /\
     is_Some (price_line st)).
Proof. apply forex_errors. apply (reach_step init). constructor. Defined.

Lemma get_data_hides_indicators_witness :
  let st' := (get_data init USDJPY "2020-01-01" "2020-12-31" true).1 in
  df st' = Some 1 /\ price_line st' = Some (Line2D 1 Solid) /\
  visible (ema9_line st') = false /\ visible (ema20_line st') = false /\
  visible (bolhi_line st') = false /\ visible (bollo_line st') = false.
Proof. apply (get_data_hides_indicators init USDJPY "2020-01-01" "2020-12-31"). apply init_inv. Defined.

End Forex.
