(* ===== verification/PyString.v ===== *)
(** * Python strings of digits

    Shared by the apps that print or parse integers: [str(n)] of an int
    ([str_N], [str_Z]), the character class [[0-9]] of Python's regular
    expressions ([is_digit]), [int(s)] of a string in base 10
    ([py_int]), and the two equations of string concatenation, which
    stdpp declares [simpl never]. *)

From stdpp Require Import base list strings.
From Stdlib Require Import Ascii String NArith ZArith Lia.

Local Open Scope string_scope.

(** [[0-9]] *)
Definition is_digit (c : ascii) : bool :=
  (48 <=? nat_of_ascii c)%nat && (nat_of_ascii c <=? 57)%nat.

(** Every character of [s] satisfies [p]. *)
Fixpoint forall_chars (p : ascii -> bool) (s : string) : bool :=
  match s with
  | EmptyString => true
  | String c s' => p c && forall_chars p s'
  end.

(** The decimal digit [d]. *)
Definition digit_char (d : N) : ascii := ascii_of_nat (48 + N.to_nat d).

(** [str(n)] of a non-negative int: its decimal digits, most significant
    first.  The fuel [S (N.size_nat n)], one more than the number of
    binary digits of [n], exceeds its number of decimal digits. *)
Fixpoint str_N_aux (fuel : nat) (n : N) (acc : string) : string :=
  match fuel with
  | O => acc
  | S f =>
      let acc := String (digit_char (n mod 10)) acc in
      if (n <? 10)%N then acc else str_N_aux f (n / 10) acc
  end.

Definition str_N (n : N) : string := str_N_aux (S (N.size_nat n)) n EmptyString.

(** The value of a decimal digit. *)
Definition digit_value (c : ascii) : N := N.of_nat (nat_of_ascii c - 48).

(** [int(s)] of a string of decimal digits, read from the left. *)
Definition int_of_digits (s : string) : N :=
  fold_left (fun v c => 10 * v + digit_value c)%N (list_ascii_of_string s) 0%N.

(** [str(n)] of an int. *)
Definition str_Z (n : Z) : string :=
  if (n <? 0)%Z then String "-" (str_N (Z.to_N (- n))) else str_N (Z.to_N n).

(** [str.isspace] on the ASCII characters: the space, [\t] to [\r],
    and the separators [\x1c] to [\x1f]. *)
Definition is_space (c : ascii) : bool :=
  let n := nat_of_ascii c in
  (n =? 32)%nat || ((9 <=? n) && (n <=? 13))%nat || ((28 <=? n) && (n <=? 31))%nat.

Fixpoint lstrip (l : list ascii) : list ascii :=
  match l with
  | [] => []
  | c :: l' => if is_space c then lstrip l' else l
  end.

(** [s.strip()] *)
Definition strip (l : list ascii) : list ascii := rev (lstrip (rev (lstrip l))).

(** The digits of a base-10 literal of [int()]: at least one digit, an
    underscore only between two digits ([after_digit] says the previous
    character was a digit).  [None] is [ValueError]. *)
Fixpoint digits_us (acc : N) (after_digit : bool) (l : list ascii) : option N :=
  match l with
  | [] => if after_digit then Some acc else None
  | c :: l' =>
      if is_digit c then digits_us (10 * acc + digit_value c)%N true l'
      else if after_digit && Ascii.eqb c "_" then digits_us acc false l'
      else None
  end.

(** [int(s)] of a [str] in base 10: surrounding whitespace stripped, an
    optional sign, then the digits; [None] for [ValueError]. *)
Definition py_int (s : string) : option Z :=
  match strip (list_ascii_of_string s) with
  | c :: l =>
      if Ascii.eqb c "-" then (fun n => - Z.of_N n)%Z <$> digits_us 0 false l
      else if Ascii.eqb c "+" then Z.of_N <$> digits_us 0 false l
      else Z.of_N <$> digits_us 0 false (c :: l)
  | [] => None
  end.

(** ** Lemmas *)

Lemma append_nil (t : string) : "" ++ t = t.
Proof. done. Qed.

Lemma append_cons (c : ascii) (s t : string) : String c s ++ t = String c (s ++ t).
Proof. done. Qed.

Lemma append_empty_r (s : string) : s ++ "" = s.
Proof. induction s as [|c s IH]; [done|by rewrite append_cons, IH]. Qed.

Lemma length_append (s t : string) : String.length (s ++ t) = (String.length s + String.length t)%nat.
Proof. induction s as [|c s IH]; [done|]. rewrite append_cons. simpl. by rewrite IH. Qed.

Lemma digit_char_is_digit (d : N) : (d < 10)%N -> is_digit (digit_char d) = true.
Proof.
  intros Hd. unfold is_digit, digit_char. rewrite nat_ascii_embedding by lia.
  apply andb_true_iff. split; apply Nat.leb_le; lia.
Qed.

Lemma str_N_aux_digits (f : nat) (n : N) (acc : string) :
  forall_chars is_digit acc = true ->
  exists c rest, str_N_aux (S f) n acc = String c rest /\ is_digit c = true /\
                 forall_chars is_digit rest = true.
Proof.
  revert n acc. induction f as [|f IH]; intros n acc Hacc; cbn [str_N_aux].
  - destruct (n <? 10)%N; eexists _, _;
      (split_and!; [reflexivity|apply digit_char_is_digit, N.mod_upper_bound; lia|done]).
  - destruct (n <? 10)%N.
    + eexists _, _. split_and!; [reflexivity|apply digit_char_is_digit, N.mod_upper_bound; lia|done].
    + apply IH. cbn [forall_chars]. rewrite Hacc, digit_char_is_digit; [done|].
      apply N.mod_upper_bound. lia.
Qed.

(** [str(n)] is a non-empty run of digits. *)
Lemma str_N_digits (n : N) :
  exists c rest, str_N n = String c rest /\ is_digit c = true /\ forall_chars is_digit rest = true.
Proof. apply str_N_aux_digits. done. Qed.

(** A number below 10 prints as one digit. *)
Lemma str_N_small (n : N) : (n < 10)%N -> str_N n = String (digit_char n) "".
Proof.
  intros Hn. unfold str_N. cbn [str_N_aux]. replace (n <? 10)%N with true by (symmetry; apply N.ltb_lt; lia).
  by rewrite N.mod_small by lia.
Qed.

Lemma str_N_aux_length (f : nat) (n : N) (acc : string) :
  (String.length acc < String.length (str_N_aux (S f) n acc))%nat.
Proof.
  revert n acc. induction f as [|f IH]; intros n acc; cbn [str_N_aux].
  - destruct (n <? 10)%N; simpl; lia.
  - destruct (n <? 10)%N; [simpl; lia|]. specialize (IH (n / 10)%N (String (digit_char (n mod 10)) acc)).
    simpl in IH. lia.
Qed.

(** A number of at least 10 prints with at least two digits. *)
Lemma str_N_large (n : N) : (10 <= n)%N -> (2 <= String.length (str_N n))%nat.
Proof.
  intros Hn. unfold str_N. destruct (N.size_nat n) as [|f] eqn:Hs.
  - cbn [str_N_aux]. replace (n <? 10)%N with false by (symmetry; apply N.ltb_ge; lia).
    destruct n as [|p]; [lia|]. by destruct p.
  - cbn [str_N_aux]. replace (n <? 10)%N with false by (symmetry; apply N.ltb_ge; lia).
    pose proof (str_N_aux_length f (n / 10)%N (String (digit_char (n mod 10)) "")) as H.
    simpl in H. lia.
Qed.

Lemma append_inv_l (s t1 t2 : string) : s ++ t1 = s ++ t2 -> t1 = t2.
Proof. induction s as [|c s IH]; [done|]. rewrite !append_cons. intros [= H]. by apply IH. Qed.

Lemma digit_char_inj (d e : N) : (d < 10)%N -> (e < 10)%N -> digit_char d = digit_char e -> d = e.
Proof.
  unfold digit_char. intros Hd He H. apply (f_equal nat_of_ascii) in H.
  rewrite !nat_ascii_embedding in H by lia. lia.
Qed.

(** *** Reading back [str(n)] *)

Lemma fold_digits_acc (l : list ascii) (v : N) :
  fold_left (fun v c => 10 * v + digit_value c)%N l v =
  (v * 10 ^ N.of_nat (List.length l) + fold_left (fun v c => 10 * v + digit_value c)%N l 0)%N.
Proof.
  revert v. induction l as [|c l IH]; intros v; simpl; [lia|].
  rewrite IH, (IH (10 * 0 + digit_value c)%N). rewrite Nat2N.inj_succ, N.pow_succ_r'. lia.
Qed.

Lemma int_of_digits_cons (c : ascii) (s : string) :
  int_of_digits (String c s) = (digit_value c * 10 ^ N.of_nat (String.length s) + int_of_digits s)%N.
Proof.
  unfold int_of_digits. simpl. rewrite fold_digits_acc.
  replace (List.length (list_ascii_of_string s)) with (String.length s); [lia|].
  induction s as [|c' s IH]; simpl; congruence.
Qed.

Lemma digit_value_lt (c : ascii) : is_digit c = true -> (digit_value c < 10)%N.
Proof. unfold is_digit, digit_value. intros [H1 H2]%andb_true_iff. apply Nat.leb_le in H1, H2. lia. Qed.

Lemma digit_char_value (c : ascii) : is_digit c = true -> digit_char (digit_value c) = c.
Proof.
  unfold is_digit, digit_value, digit_char. intros [H1 H2]%andb_true_iff. apply Nat.leb_le in H1, H2.
  rewrite Nat2N.id. replace (48 + (nat_of_ascii c - 48))%nat with (nat_of_ascii c) by lia.
  apply ascii_nat_embedding.
Qed.

Lemma digit_value_char (d : N) : (d < 10)%N -> digit_value (digit_char d) = d.
Proof. intros Hd. unfold digit_value, digit_char. rewrite nat_ascii_embedding by lia. lia. Qed.

Lemma str_N_aux_S (f : nat) (n : N) (acc : string) :
  str_N_aux (S f) n acc =
  if (n <? 10)%N then String (digit_char (n mod 10)) acc
  else str_N_aux f (n / 10) (String (digit_char (n mod 10)) acc).
Proof. reflexivity. Qed.

(** With fuel for [S f] digits, the loop of [str_N] writes all the
    digits of [n] in front of [acc]. *)
Lemma str_N_aux_value (f : nat) (n : N) (acc : string) :
  (n < 10 ^ N.of_nat (S f))%N ->
  int_of_digits (str_N_aux (S f) n acc) =
  (n * 10 ^ N.of_nat (String.length acc) + int_of_digits acc)%N.
Proof.
  revert n acc. induction f as [|f IH]; intros n acc Hn; rewrite str_N_aux_S.
  - replace (n <? 10)%N with true by (symmetry; apply N.ltb_lt; simpl in Hn; lia).
    rewrite int_of_digits_cons, digit_value_char by (apply N.mod_upper_bound; lia).
    rewrite N.mod_small by (simpl in Hn; lia). lia.
  - destruct (n <? 10)%N eqn:Hlt.
    + apply N.ltb_lt in Hlt. rewrite N.mod_small by lia. rewrite int_of_digits_cons, digit_value_char by lia. lia.
    + rewrite IH.
      * rewrite int_of_digits_cons, digit_value_char by (apply N.mod_upper_bound; lia). simpl String.length.
        rewrite Nat2N.inj_succ, N.pow_succ_r'.
        pose proof (N.div_mod n 10 ltac:(lia)). nia.
      * apply N.Div0.div_lt_upper_bound. rewrite Nat2N.inj_succ, N.pow_succ_r' in Hn. lia.
Qed.

Lemma size_nat_bound (n : N) : (n < 10 ^ N.of_nat (S (N.size_nat n)))%N.
Proof.
  destruct n as [|p]; [simpl; lia|].
  assert (H : (N.pos p < 2 ^ N.of_nat (Pos.size_nat p))%N).
  { induction p as [p IH|p IH|]; simpl Pos.size_nat; rewrite ?Nat2N.inj_succ, ?N.pow_succ_r'; lia. }
  simpl N.size_nat. apply (N.lt_le_trans _ _ _ H).
  transitivity (10 ^ N.of_nat (Pos.size_nat p))%N.
  - apply N.pow_le_mono_l. lia.
  - apply N.pow_le_mono_r; lia.
Qed.

(** *** Reading [str(n)] back with [int()] *)

Lemma forall_chars_Forall (p : ascii -> bool) (s : string) :
  forall_chars p s = true -> Forall (fun c => p c = true) (list_ascii_of_string s).
Proof. induction s as [|c s IH]; simpl; [done|]. intros [Hc Hs]%andb_true_iff. constructor; auto. Qed.

Lemma digit_not_space (c : ascii) : is_digit c = true -> is_space c = false.
Proof.
  unfold is_digit, is_space. cbv zeta. intros [H1 H2]%andb_true_iff. apply Nat.leb_le in H1, H2.
  apply not_true_iff_false. rewrite !orb_true_iff, !andb_true_iff, !Nat.leb_le, Nat.eqb_eq. lia.
Qed.

Lemma lstrip_id (l : list ascii) : Forall (fun c => is_space c = false) l -> lstrip l = l.
Proof. destruct 1 as [|c l Hc _]; simpl; [done|]. by rewrite Hc. Qed.

(** [strip] leaves a string without whitespace unchanged. *)
Lemma strip_id (l : list ascii) : Forall (fun c => is_space c = false) l -> strip l = l.
Proof.
  intros Hl. unfold strip. rewrite (lstrip_id l Hl), (lstrip_id (rev l)) by (by apply List.Forall_rev).
  apply rev_involutive.
Qed.

(** On a non-empty run of digits, [digits_us] is the left-to-right
    reading [int_of_digits] does. *)
Lemma digits_us_digits (l : list ascii) (acc : N) (b : bool) :
  Forall (fun c => is_digit c = true) l -> l <> [] ->
  digits_us acc b l = Some (fold_left (fun v c => 10 * v + digit_value c)%N l acc).
Proof.
  revert acc b. induction l as [|c l IH]; intros acc b Hl Hne; [done|].
  inversion Hl as [|? ? Hc Hl']; subst. simpl. rewrite Hc.
  destruct l as [|c' l]; [done|]. by apply IH.
Qed.

Lemma str_N_chars (n : N) :
  exists c l, list_ascii_of_string (str_N n) = c :: l /\ Forall (fun c => is_digit c = true) (c :: l).
Proof.
  destruct (str_N_digits n) as (c & rest & -> & Hc & Hr). exists c, (list_ascii_of_string rest).
  split; [done|]. constructor; [done|]. by apply forall_chars_Forall.
Qed.

Lemma strip_str_N (n : N) (pre : list ascii) :
  Forall (fun c => is_space c = false) pre ->
  strip (pre ++ list_ascii_of_string (str_N n))%list = (pre ++ list_ascii_of_string (str_N n))%list.
Proof.
  intros Hpre. apply strip_id, Forall_app. split; [done|].
  destruct (str_N_chars n) as (c & l & -> & Hd). eapply Forall_impl; [exact Hd|]. apply digit_not_space.
Qed.

Lemma digits_us_str_N (n : N) : digits_us 0 false (list_ascii_of_string (str_N n)) = Some n.
Proof.
  destruct (str_N_chars n) as (c & l & Hl & Hd). rewrite Hl, digits_us_digits by done. rewrite <-Hl.
  f_equal. change (int_of_digits (str_N n) = n). unfold str_N.
  rewrite str_N_aux_value by apply size_nat_bound. change (int_of_digits "") with 0%N. simpl. lia.
Qed.

Lemma lstrip_snoc (x : list ascii) (c : ascii) :
  is_space c = false -> exists y, lstrip (x ++ [c])%list = (y ++ [c])%list.
Proof.
  intros Hc. induction x as [|a x IH]; simpl.
  - rewrite Hc. by exists [].
  - destruct (is_space a); [done|]. by exists (a :: x).
Qed.

(** Stripping keeps a first character that is not a space. *)
Lemma strip_cons (c : ascii) (l : list ascii) :
  is_space c = false -> exists l', strip (c :: l) = c :: l'.
Proof.
  intros Hc. unfold strip. simpl. rewrite Hc. simpl.
  destruct (lstrip_snoc (rev l) c Hc) as [y ->]. rewrite rev_app_distr. by exists (rev y).
Qed.

(** [int()] of a text whose first character is neither a space, a sign
    nor a digit raises [ValueError]. *)
Lemma py_int_lead (c : ascii) (t : string) :
  is_space c = false -> is_digit c = false -> Ascii.eqb c "-" = false -> Ascii.eqb c "+" = false ->
  py_int (String c t) = None.
Proof.
  intros Hs Hd Hm Hp. unfold py_int. simpl.
  destruct (strip_cons c (list_ascii_of_string t) Hs) as [l' ->]. by rewrite Hm, Hp; simpl; rewrite Hd.
Qed.

(** [int()] reads back what [str] prints. *)
Lemma py_int_of_str_Z (n : Z) : py_int (str_Z n) = Some n.
Proof.
  unfold py_int, str_Z. destruct (n <? 0)%Z eqn:Hn.
  - change (list_ascii_of_string (String "-" (str_N (Z.to_N (- n)))))
      with (["-"%char] ++ list_ascii_of_string (str_N (Z.to_N (- n))))%list.
    rewrite strip_str_N by (by repeat constructor). simpl. rewrite digits_us_str_N. simpl.
    f_equal. apply Z.ltb_lt in Hn. lia.
  - rewrite <-(app_nil_l (list_ascii_of_string _)), strip_str_N by done. simpl.
    destruct (str_N_chars (Z.to_N n)) as (c & l & Hl & Hd). pose proof (digits_us_str_N (Z.to_N n)) as Hv.
    rewrite Hl in Hv |- *. inversion Hd as [|? ? Hc _]; subst.
    destruct (Ascii.eqb_spec c "-") as [->|]; [done|]. destruct (Ascii.eqb_spec c "+") as [->|]; [done|].
    simpl in Hv. rewrite Hv. simpl. f_equal. apply Z.ltb_ge in Hn. lia.
Qed.

(** ** Properties *)

(** The digit loop of [str_N] never runs out of its fuel
    [S (N.size_nat n)]: it stops on the leading digit, and reading the
    digits back with [int] gives [n] again, for every [n]. *)
Theorem str_N_complete (n : N) : int_of_digits (str_N n) = n.
Proof. unfold str_N. rewrite str_N_aux_value by apply size_nat_bound. change (int_of_digits "") with 0%N. simpl. lia. Qed.

(** [int(str(n)) == n] for every int [n]: the parser of [int()]
    (whitespace, sign, digits and underscores) reads back what [str]
    prints, negative numbers included. *)
Theorem py_int_str_Z (n : Z) : py_int (str_Z n) = Some n.
Proof. apply py_int_of_str_Z. Qed.

(** What [int()] accepts and refuses. *)
Example py_int_literals :
  py_int " 12 " = Some 12%Z /\ py_int "-7" = Some (-7)%Z /\ py_int "+1_000" = Some 1000%Z /\
  py_int "007" = Some 7%Z /\ py_int "1__0" = None /\ py_int "_1" = None /\ py_int "1_" = None /\
  py_int "" = None /\ py_int "-" = None /\ py_int "R 12" = None.
Proof. vm_compute. tauto. Qed.
