(* ===== verification/KeyGuess.v ===== *)
(** * The key PySimpleGUI guesses for a missing key: [difflib.get_close_matches]

    [window[key]] with a key the layout does not have shows an error
    popup and, by default, returns the element whose key
    [Window._find_closest_key] picks: the first of
    [difflib.get_close_matches(key, keys)], the keys whose
    [SequenceMatcher(None, x, key).ratio()] is at least [0.6], the best
    ratio first and a tie going to the greater key.  [Module KeyGuess]
    writes out the matcher on keys shorter than 200 characters (where
    [difflib] uses no junk heuristic): [find_longest_match] is the first
    longest common block in the order of its start, [matched] the
    characters of [get_matching_blocks], and a ratio [2 M / T] is kept as
    the pair [(2 M, T)].  The lemmas bound a ratio from below by one
    common block and from above by the characters the key shares with
    the word. *)

From stdpp Require Import base list sets strings.
From Stdlib Require Import Ascii String Lia.
From S2P Require Import Prelude.

Module KeyGuess.

(** ** The matcher *)

(** The length of the common run of [a] from [i] and [b] from [j] that
    stays below [ahi] and [bhi]. *)
Fixpoint run_len (fuel : nat) (a b : list ascii) (i j ahi bhi : nat) : nat :=
  match fuel with
  | O => O
  | S f => if bool_decide (i < ahi /\ j < bhi /\ a !! i = b !! j)
           then S (run_len f a b (S i) (S j) ahi bhi) else O
  end.

Definition run (a b : list ascii) (i j ahi bhi : nat) : nat := run_len (ahi - i) a b i j ahi bhi.

(** [find_longest_match(alo, ahi, blo, bhi)]: the longest common block,
    the first one in the order of its start; [(alo, blo, 0)] if none. *)
Definition flm_step (a b : list ascii) (ahi bhi : nat) (best : nat * nat * nat) (ij : nat * nat) :=
  let k := run a b ij.1 ij.2 ahi bhi in if bool_decide (best.2 < k) then (ij.1, ij.2, k) else best.

Definition find_longest_match (a b : list ascii) (alo ahi blo bhi : nat) : nat * nat * nat :=
  foldl (flm_step a b ahi bhi) (alo, blo, O) (list_prod (seq alo (ahi - alo)) (seq blo (bhi - blo))).

(** The number of characters in the blocks of [get_matching_blocks]: a
    longest block, then the same on its left and on its right. *)
Fixpoint matched (fuel : nat) (a b : list ascii) (alo ahi blo bhi : nat) : nat :=
  match fuel with
  | O => O
  | S f =>
      let '(i, j, k) := find_longest_match a b alo ahi blo bhi in
      match k with
      | O => O
      | _ => k + (if bool_decide (alo < i /\ blo < j) then matched f a b alo i blo j else O)
               + (if bool_decide (i + k < ahi /\ j + k < bhi) then matched f a b (i + k) ahi (j + k) bhi else O)
      end
  end.

(** [SequenceMatcher(None, x, word).ratio()] as [(2 M, T)]. *)
Definition ratio (x word : string) : nat * nat :=
  let a := list_ascii_of_string x in
  let b := list_ascii_of_string word in
  (2 * matched (S (List.length a)) a b 0 (List.length a) 0 (List.length b), List.length a + List.length b).

(** [ratio >= cutoff] with the default cutoff [0.6]. *)
Definition cutoff_ok (s : nat * nat) : bool := (3 * s.2 <=? 5 * s.1)%nat.

(** Python's [<] on strings of ASCII characters. *)
Fixpoint str_lt (a b : list ascii) : bool :=
  match a, b with
  | [], _ :: _ => true
  | c :: a', d :: b' =>
      if (nat_of_ascii c <? nat_of_ascii d)%nat then true
      else if (nat_of_ascii c =? nat_of_ascii d)%nat then str_lt a' b' else false
  | _, _ => false
  end.

(** [(score, x) > (score', y)] for the scores [(2 M, T)]. *)
Definition better (x y : string * (nat * nat)) : bool :=
  (y.2.1 * x.2.2 <? x.2.1 * y.2.2)%nat ||
  ((y.2.1 * x.2.2 =? x.2.1 * y.2.2)%nat && str_lt (list_ascii_of_string y.1) (list_ascii_of_string x.1)).

Definition close_step (word : string) (best : option (string * (nat * nat))) (x : string) :=
  let s := ratio x word in
  if cutoff_ok s then
    match best with
    | None => Some (x, s)
    | Some b => if better (x, s) b then Some (x, s) else best
    end
  else best.

(** [difflib.get_close_matches(word, possibilities)[0]], [None] for an
    empty list. *)
Definition get_close_match (word : string) (possibilities : list string) : option string :=
  fst <$> foldl (close_step word) None possibilities.

(** ** Lemmas *)

(** [x]'s score is below [y]'s. *)
Definition score_lt (s1 s2 : nat * nat) : Prop := (s1.1 * s2.2 < s2.1 * s1.2)%nat.

(** The characters of [a] that occur in [b]. *)
Definition count_in (a b : list ascii) : nat := List.length (filter (fun c => c ∈ b) a).

Lemma count_in_app (a1 a2 b : list ascii) : count_in (a1 ++ a2) b = (count_in a1 b + count_in a2 b)%nat.
Proof. unfold count_in. by rewrite filter_app, length_app. Qed.

Lemma count_in_le (a b : list ascii) : (count_in a b <= List.length a)%nat.
Proof. unfold count_in. induction a as [|c a IH]; simpl; [lia|]. rewrite filter_cons. case_decide; simpl; lia. Qed.

Lemma count_in_sub (a b b' : list ascii) : (forall c, c ∈ b -> c ∈ b') -> (count_in a b <= count_in a b')%nat.
Proof.
  intros Hb. unfold count_in. induction a as [|c a IH]; simpl; [lia|]. rewrite !filter_cons.
  case_decide as H1; case_decide as H2; simpl; try lia. by destruct H2; apply Hb.
Qed.

(** The slice [a[lo:hi]]. *)
Definition slice (a : list ascii) (lo hi : nat) : list ascii := take (hi - lo) (drop lo a).

Lemma slice_split (a : list ascii) (lo mid hi : nat) :
  (lo <= mid <= hi)%nat -> slice a lo hi = slice a lo mid ++ slice a mid hi.
Proof.
  intros H. unfold slice. replace (hi - lo)%nat with ((mid - lo) + (hi - mid))%nat by lia.
  rewrite <-take_take_drop, drop_drop. by replace (lo + (mid - lo))%nat with mid by lia.
Qed.

Lemma run_len_le (f : nat) (a b : list ascii) (i j ahi bhi : nat) : (run_len f a b i j ahi bhi <= ahi - i)%nat.
Proof.
  revert i j. induction f as [|f IH]; intros i j; simpl; [lia|].
  case_bool_decide as Hc; [|lia]. specialize (IH (S i) (S j)). lia.
Qed.

(** Every character of a common run of [a] occurs in [b]. *)
Lemma run_len_count (f : nat) (a b : list ascii) (i j ahi bhi : nat) :
  (ahi <= List.length a)%nat ->
  count_in (slice a i (i + run_len f a b i j ahi bhi)) b = run_len f a b i j ahi bhi.
Proof.
  intros Hahi. revert i j. induction f as [|f IH]; intros i j; simpl.
  - unfold slice. by rewrite Nat.add_0_r, Nat.sub_diag.
  - case_bool_decide as Hcond; [|unfold slice; by rewrite Nat.add_0_r, Nat.sub_diag].
    destruct Hcond as (Hi & Hj & Hc).
    rewrite (slice_split a i (S i)) by lia. rewrite count_in_app.
    replace (i + S (run_len f a b (S i) (S j) ahi bhi))%nat with (S i + run_len f a b (S i) (S j) ahi bhi)%nat by lia.
    rewrite IH. destruct (lookup_lt_is_Some_2 a i) as [c Hac]; [lia|].
    unfold slice at 1. replace (S i - i)%nat with 1%nat by lia. rewrite (drop_S a c i Hac). simpl.
    unfold count_in. rewrite filter_cons_True; [done|].
    rewrite Hac in Hc. by eapply list_elem_of_lookup_2.
Qed.

Lemma run_le (a b : list ascii) (i j ahi bhi : nat) : (run a b i j ahi bhi <= ahi - i)%nat.
Proof. apply run_len_le. Qed.

Lemma run_count (a b : list ascii) (i j ahi bhi : nat) :
  (ahi <= List.length a)%nat -> count_in (slice a i (i + run a b i j ahi bhi)) b = run a b i j ahi bhi.
Proof. apply run_len_count. Qed.

Lemma run_len_le_b (f : nat) (a b : list ascii) (i j ahi bhi : nat) : (run_len f a b i j ahi bhi <= bhi - j)%nat.
Proof.
  revert i j. induction f as [|f IH]; intros i j; simpl; [lia|].
  case_bool_decide as Hc; [|lia]. specialize (IH (S i) (S j)). lia.
Qed.

Lemma flm_fold (a b : list ascii) (ahi bhi : nat) (l : list (nat * nat)) (b0 : nat * nat * nat) :
  let r := foldl (flm_step a b ahi bhi) b0 l in
  (r = b0 \/ exists ij, ij ∈ l /\ r = (ij.1, ij.2, run a b ij.1 ij.2 ahi bhi)) /\
  (b0.2 <= r.2)%nat /\ forall ij, ij ∈ l -> (run a b ij.1 ij.2 ahi bhi <= r.2)%nat.
Proof.
  revert b0. induction l as [|ij l IH]; intros b0; simpl; [split_and!; [by left|lia|set_solver]|].
  destruct (IH (flm_step a b ahi bhi b0 ij)) as (Hr & Hle & Hall). unfold flm_step in *.
  case_bool_decide as Hlt; simpl in *; split_and!.
  - destruct Hr as [->|(ij' & ? & ->)]; right; [exists ij|exists ij']; split; [set_solver|done|set_solver|done].
  - lia.
  - intros ij' [->|Hij']%elem_of_cons; [lia|by apply Hall].
  - destruct Hr as [->|(ij' & ? & ->)]; [by left|right; exists ij'; split; [set_solver|done]].
  - lia.
  - intros ij' [->|Hij']%elem_of_cons; [lia|by apply Hall].
Qed.

(** The block [find_longest_match] returns: empty, or a common run inside
    the ranges, at least as long as every run starting in them. *)
Lemma find_longest_match_spec (a b : list ascii) (alo ahi blo bhi : nat) :
  let r := find_longest_match a b alo ahi blo bhi in
  (r.2 = O \/ ((alo <= r.1.1)%nat /\ (r.1.1 + r.2 <= ahi)%nat /\ (blo <= r.1.2)%nat /\
               (r.1.2 + r.2 <= bhi)%nat /\ r.2 = run a b r.1.1 r.1.2 ahi bhi)) /\
  forall i j, (alo <= i < ahi)%nat -> (blo <= j < bhi)%nat -> (run a b i j ahi bhi <= r.2)%nat.
Proof.
  unfold find_longest_match. destruct (flm_fold a b ahi bhi (list_prod (seq alo (ahi - alo)) (seq blo (bhi - blo))) (alo, blo, O))
    as (Hr & _ & Hall). split.
  - destruct Hr as [->|([i j] & Hij & ->)]; [by left|right]. simpl.
    apply list_elem_of_In, in_prod_iff in Hij as [Hi Hj]. apply list_elem_of_In, elem_of_seq in Hi, Hj.
    pose proof (run_le a b i j ahi bhi). pose proof (run_len_le_b (ahi - i) a b i j ahi bhi). unfold run in *. lia.
  - intros i j Hi Hj. apply (Hall (i, j)). apply list_elem_of_In, in_prod; apply list_elem_of_In, elem_of_seq; lia.
Qed.

(** Each recursive call of [matched] is on a shorter range of [a], so any
    fuel above its length gives the same count: the fuel [S (length a)]
    of [ratio] is enough. *)
Lemma matched_fuel (f1 f2 : nat) (a b : list ascii) (alo ahi blo bhi : nat) :
  (ahi - alo < f1)%nat -> (ahi - alo < f2)%nat ->
  matched f1 a b alo ahi blo bhi = matched f2 a b alo ahi blo bhi.
Proof.
  revert f2 alo ahi blo bhi. induction f1 as [|f1 IH]; intros [|f2] alo ahi blo bhi H1 H2; try lia. simpl.
  pose proof (find_longest_match_spec a b alo ahi blo bhi) as [Hb _].
  destruct (find_longest_match a b alo ahi blo bhi) as [[i j] [|k]]; simpl in *; [done|].
  destruct Hb as [|(Hi & Hik & Hj & Hjk & Hk)]; [lia|].
  repeat case_bool_decide; try done; rewrite ?(IH f2) by lia; done.
Qed.

(** [matched] counts at least the longest block. *)
Lemma matched_ge_run (f : nat) (a b : list ascii) (alo ahi blo bhi i j : nat) :
  (alo <= i < ahi)%nat -> (blo <= j < bhi)%nat -> (run a b i j ahi bhi <= matched (S f) a b alo ahi blo bhi)%nat.
Proof.
  intros Hi Hj. simpl. pose proof (find_longest_match_spec a b alo ahi blo bhi) as [_ Hall].
  specialize (Hall i j Hi Hj). destruct (find_longest_match a b alo ahi blo bhi) as [[i' j'] [|k]]; simpl in *; lia.
Qed.

(** [matched] counts at most the characters of [a[alo:ahi]] that occur
    in [b]. *)
Lemma matched_le_count (f : nat) (a b : list ascii) (alo ahi blo bhi : nat) :
  (alo <= ahi <= List.length a)%nat -> (matched f a b alo ahi blo bhi <= count_in (slice a alo ahi) b)%nat.
Proof.
  revert alo ahi blo bhi. induction f as [|f IH]; intros alo ahi blo bhi Hr; simpl; [lia|].
  pose proof (find_longest_match_spec a b alo ahi blo bhi) as [Hb _].
  destruct (find_longest_match a b alo ahi blo bhi) as [[i j] [|k]]; simpl in *; [lia|].
  destruct Hb as [|(Hi & Hik & Hj & Hjk & Hk)]; [lia|].
  rewrite (slice_split a alo i ahi), (slice_split a i (i + S k) ahi), !count_in_app by lia.
  pose proof (run_count a b i j ahi bhi) as Hc. rewrite <-Hk in Hc. rewrite Hc by lia.
  assert (matched f a b alo i blo j <= count_in (slice a alo i) b)%nat by (apply IH; lia).
  assert (matched f a b (i + S k) ahi (j + S k) bhi <= count_in (slice a (i + S k) ahi) b)%nat by (apply IH; lia).
  repeat case_bool_decide; lia.
Qed.

Lemma ratio_total_pos (x word : string) : word <> EmptyString -> (0 < (ratio x word).2)%nat.
Proof. intros Hw. destruct word; [done|]. simpl. lia. Qed.

Lemma not_score_lt_trans (s1 s2 s3 : nat * nat) :
  (0 < s2.2)%nat -> ~ score_lt s1 s2 -> ~ score_lt s2 s3 -> ~ score_lt s1 s3.
Proof. unfold score_lt. intros H2 H12 H23 H13. nia. Qed.

Lemma better_not_lt (x y : string * (nat * nat)) : better x y = false -> ~ score_lt y.2 x.2.
Proof. unfold better, score_lt. intros [H _]%orb_false_iff. apply Nat.ltb_ge in H. lia. Qed.

Lemma better_lt (x y : string * (nat * nat)) : better x y = true -> ~ score_lt x.2 y.2.
Proof.
  unfold better, score_lt. intros [H|[H _]%andb_true_iff]%orb_true_iff;
    [apply Nat.ltb_lt in H|apply Nat.eqb_eq in H]; lia.
Qed.

Lemma close_step_cases (word : string) (best : option (string * (nat * nat))) (y : string) :
  (close_step word best y = best /\
   (cutoff_ok (ratio y word) = false \/ exists b, best = Some b /\ better (y, ratio y word) b = false)) \/
  (close_step word best y = Some (y, ratio y word) /\ cutoff_ok (ratio y word) = true /\
   forall b, best = Some b -> better (y, ratio y word) b = true).
Proof.
  unfold close_step. destruct (cutoff_ok (ratio y word)) eqn:Hc; [|left; by split; [|left]].
  destruct best as [b|]; [destruct (better (y, ratio y word) b) eqn:Hbt|].
  - right. split_and!; [done|done|]. by intros b' [= <-].
  - left. split; [done|right; eauto].
  - right. split_and!; [done|done|done].
Qed.

Lemma close_fold (word : string) (l : list string) (best : option (string * (nat * nat))) :
  word <> EmptyString ->
  (forall x s, best = Some (x, s) -> s = ratio x word /\ cutoff_ok s = true) ->
  forall x s, foldl (close_step word) best l = Some (x, s) ->
    s = ratio x word /\ cutoff_ok s = true /\ (best = Some (x, s) \/ x ∈ l) /\
    (forall y s0, best = Some (y, s0) -> ~ score_lt s s0) /\
    (forall y, y ∈ l -> cutoff_ok (ratio y word) = true -> ~ score_lt s (ratio y word)).
Proof.
  intros Hw. revert best. induction l as [|y l IH]; intros best Hb x s Hr; simpl in Hr.
  - destruct (Hb x s Hr) as [-> Hc]. split_and!; [done|done|by left| |set_solver].
    intros y s0 Hy. rewrite Hr in Hy. injection Hy as -> ->. unfold score_lt. lia.
  - destruct (close_step_cases word best y) as [[Hs Hy]|(Hs & Hcy & Hbt)]; rewrite Hs in Hr.
    + destruct (IH best Hb x s Hr) as (-> & Hc & Horig & Hbest & Hall).
      split_and!; [done|done|destruct Horig; [by left|right; set_solver]|done|].
      intros z [->|Hz]%elem_of_cons Hcz; [|by apply Hall].
      destruct Hy as [Hy|([y0 s0] & Hb0 & Hbt)]; [congruence|].
      destruct (Hb y0 s0 Hb0) as [-> _].
      apply (not_score_lt_trans _ (ratio y0 word)); [by apply ratio_total_pos|by apply (Hbest y0)|].
      apply (better_not_lt (y, ratio y word) (y0, ratio y0 word) Hbt).
    + assert (Hb' : forall x s, Some (y, ratio y word) = Some (x, s) -> s = ratio x word /\ cutoff_ok s = true)
        by (intros x' s' [= <- <-]; by split).
      destruct (IH _ Hb' x s Hr) as (-> & Hc & Horig & Hbest & Hall).
      pose proof (Hbest y (ratio y word) eq_refl) as Hy.
      split_and!; [done|done|destruct Horig as [[= <-]|]; right; set_solver| |].
      * intros y0 s0 Hb0. apply (not_score_lt_trans _ (ratio y word)); [by apply ratio_total_pos|done|].
        apply (better_lt (y, ratio y word) (y0, s0)), Hbt, Hb0.
      * intros z [->|Hz]%elem_of_cons Hcz; [done|by apply Hall].
Qed.

(** What [get_close_match] returns is a possibility that passes the
    cutoff and whose score no other passing possibility beats. *)
Lemma get_close_match_spec (word x : string) (l : list string) :
  word <> EmptyString -> get_close_match word l = Some x ->
  x ∈ l /\ cutoff_ok (ratio x word) = true /\
  forall y, y ∈ l -> cutoff_ok (ratio y word) = true -> ~ score_lt (ratio x word) (ratio y word).
Proof.
  intros Hw. unfold get_close_match. destruct (foldl (close_step word) None l) as [[x' s]|] eqn:Hr; [|done].
  intros [= <-]. destruct (close_fold word l None Hw ltac:(done) x' s Hr) as (-> & Hc & [?|Hx] & _ & Hall); [done|].
  split_and!; [done|done|done].
Qed.

(** A possibility that beats one that passes the cutoff passes it too. *)
Lemma cutoff_ok_lt (s1 s2 : nat * nat) :
  (0 < s1.2)%nat -> cutoff_ok s1 = true -> score_lt s1 s2 -> cutoff_ok s2 = true.
Proof. unfold cutoff_ok, score_lt. intros H0 H1%Nat.leb_le H12. apply Nat.leb_le. nia. Qed.

Lemma run_len_prefix (p r : list ascii) (k bhi : nat) :
  (k <= List.length p <= bhi)%nat ->
  run_len k p (p ++ r) (List.length p - k) (List.length p - k) (List.length p) bhi = k.
Proof.
  induction k as [|k IH]; intros Hk; simpl; [done|].
  rewrite bool_decide_true.
  - replace (S (List.length p - S k)) with (List.length p - k)%nat by lia. rewrite IH; lia.
  - split_and!; try lia. rewrite lookup_app_l by lia. done.
Qed.

Lemma ascii_list_app (s t : string) :
  list_ascii_of_string (s ++ t) = list_ascii_of_string s ++ list_ascii_of_string t.
Proof. induction s as [|c s IH]; simpl; [done|]. by rewrite IH. Qed.

Lemma ascii_list_length (s : string) : List.length (list_ascii_of_string s) = String.length s.
Proof. induction s as [|c s IH]; simpl; [done|]. by rewrite IH. Qed.

Lemma ratio_snd (x word : string) : (ratio x word).2 = (String.length x + String.length word)%nat.
Proof. unfold ratio. cbn [snd]. by rewrite !ascii_list_length. Qed.

(** The ratio of a word to one of its prefixes counts the whole prefix. *)
Lemma ratio_prefix (x r : string) :
  x <> EmptyString -> (2 * String.length x <= (ratio x (x ++ r)).1)%nat.
Proof.
  intros Hx. unfold ratio; cbn [fst]. rewrite ascii_list_app, <-ascii_list_length.
  set (p := list_ascii_of_string x). assert (0 < List.length p)%nat by (destruct x; [done|simpl; lia]).
  pose proof (run_len_prefix p (list_ascii_of_string r) (List.length p) (List.length (p ++ list_ascii_of_string r))) as Hr.
  rewrite Nat.sub_diag, length_app in Hr. rewrite length_app.
  pose proof (matched_ge_run (List.length p) p (p ++ list_ascii_of_string r) 0 (List.length p) 0
    (List.length p + List.length (list_ascii_of_string r)) 0 0) as Hm.
  unfold run in Hm. rewrite Nat.sub_0_r, Hr in Hm by lia. lia.
Qed.

(** The ratio counts at most the characters of [x] that occur in the word. *)
Lemma ratio_le_count (x word : string) :
  ((ratio x word).1 <= 2 * count_in (list_ascii_of_string x) (list_ascii_of_string word))%nat.
Proof.
  unfold ratio; cbn [fst]. set (a := list_ascii_of_string x).
  pose proof (matched_le_count (S (List.length a)) a (list_ascii_of_string word) 0 (List.length a) 0
    (List.length (list_ascii_of_string word))) as Hm.
  unfold slice in Hm. rewrite Nat.sub_0_r, drop_0, take_ge in Hm by lia. lia.
Qed.

End KeyGuess.
