(* ===== verification/AccountEditor.v ===== *)
(** * The transaction editor of [src/account_manager.py]

    [Module Editor] models the part of [AccountManagerApps] that goes
    through the seven text fields of the frame ["Transaction Editor"]:
    [clear_entry], [edit_entry] (which copies the selected row of the
    Treeview into the fields), and [create_entry], [update_entry] and
    [remove_entry] as they read the fields or the selection before
    calling the handlers of [AccountManager.Ledger.App].

    A row reaches the fields through Tk: [tree.insert(values=entry)]
    stores [str] of each value, and [tree.item(i)["values"]] gives each
    cell back through ttk's [_convert_stringval], which turns every text
    that [int()] accepts into an int ([cell_text], with [py_int] of
    [PyString]); [StringVar.set] prints it again.  The library parsers
    the handlers call ([datetime.strptime(s, "%Y-%m-%d")] and [float])
    are the class [LedgerText], with the laws the editor relies on: they
    read back what [str] printed into the Treeview.  [round(x, 2)] of
    [update_entry] is [round2], on the exact value of [x].  A
    [ValueError] raised in a callback leaves the state as it was. *)

From stdpp Require Import base list sets sorting strings.
From Stdlib Require Import Ascii ZArith QArith Qround String Lia.
From S2P Require Import Prelude PyString AccountManager.

Local Open Scope Z_scope.

Module Editor.

Import Ledger.

(** ** Text conversions *)

(** [_convert_stringval] of [tkinter.ttk], then [StringVar.set]: a cell
    that [int()] reads comes back as [str] of that int. *)
Definition cell_text (s : string) : string :=
  match py_int s with Some n => str_Z n | None => s end.

(** The conversions between the ledger's values and the editor's text. *)
Class LedgerText := {
  str_date : Z -> string;                (** [str] of a [datetime.date] *)
  strptime_date : string -> option Z;    (** [datetime.strptime(s, "%Y-%m-%d").date()] *)
  str_amount : Q -> string;              (** [str] of an amount *)
  float_amount : string -> option Q;     (** [float(s)] *)
  strptime_str_date : forall d, strptime_date (str_date d) = Some d;
  str_date_not_int : forall d, py_int (str_date d) = None;
  float_cell_amount : forall a, float_amount (cell_text (str_amount a)) = Some a
}.

(** [round(x, 2)]: the multiple of [1/100] nearest to [x], a tie going to
    the even multiple. *)
Definition round_half_even (q : Q) : Z :=
  let f := Qfloor q in
  match Qcompare (q - inject_Z f) (1 # 2) with
  | Lt => f
  | Gt => f + 1
  | Eq => if Z.even f then f else f + 1
  end.

Definition round2 (x : Q) : Q := Qred (Qmake (round_half_even (x * 100)) 100).

(** The values of the fields [transid_field] to [transremark_field]. *)
Record entry_fields := Fields {
  transid_field : string;
  transdate_field : string;
  transpurpose_field : string;
  transfrom_field : string;
  transto_field : string;
  transamount_field : string;
  transremark_field : string
}.

Definition empty_fields : entry_fields := Fields "" "" "" "" "" "" "".

(** The app with its editor. *)
Record editor := Editor { app : App.app; fields : entry_fields }.

Section Handlers.

Context `{LedgerText}.

(** [edit_entry] on a row [(ID, Date, Purpose, From, To, Amount, Total,
    Remark)]: [item[0]] to [item[5]] and [item[7]]; the Total is not
    copied. *)
Definition row_fields (r : entry * Q) : entry_fields :=
  let e := r.1 in
  Fields (cell_text (str_Z (id e))) (cell_text (str_date (date e))) (cell_text (purpose e))
         (cell_text (from e)) (cell_text (to e)) (cell_text (str_amount (amount e))) (cell_text (remark e)).

(** [clear_entry]: [delete(0, tk.END)] on every field. *)
Definition clear_entry (st : editor) : editor := Editor (app st) empty_fields.

(** [edit_entry] with the rows of [tree.selection()]: nothing unless
    exactly one row is selected. *)
Definition edit_entry (st : editor) (selection : list (entry * Q)) : editor :=
  match selection with
  | [r] => Editor (app st) (row_fields r)
  | _ => st
  end.

(** The entry [update_entry] builds: [int(input0)], [strptime] of the
    date, [round(float(input5), 2)]; [None] is the [ValueError] of the
    first that fails. *)
Definition read_update (f : entry_fields) : option entry :=
  i ← py_int (transid_field f);
  d ← strptime_date (transdate_field f);
  a ← float_amount (transamount_field f);
  Some (Entry i d (transpurpose_field f) (transfrom_field f) (transto_field f) (round2 a) (transremark_field f)).

(** The entry [create_entry] builds: the ID field is not read
    ([entry[0]] is [None] until the backend sets it), and the amount is
    [float(input5)], not rounded. *)
Definition read_create (f : entry_fields) : option entry :=
  d ← strptime_date (transdate_field f);
  a ← float_amount (transamount_field f);
  Some (Entry 0 d (transpurpose_field f) (transfrom_field f) (transto_field f) a (transremark_field f)).

(** [AccountManagerApps.update_entry] *)
Definition update_entry (st : editor) : editor :=
  match read_update (fields st) with
  | Some e => Editor (App.update_entry (app st) e) (fields st)
  | None => st
  end.

(** [AccountManagerApps.create_entry] *)
Definition create_entry (st : editor) : editor :=
  match read_create (fields st) with
  | Some e =>
      match App.create_entry (app st) e with
      | Some a => Editor a (fields st)
      | None => st
      end
  | None => st
  end.

(** [AccountManagerApps.remove_entry]: [AM.remove_entry(item)] for every
    selected row, whose [item[0]] is the ID read back as an int. *)
Definition remove_entry (st : editor) (selection : list (entry * Q)) : editor :=
  Editor (App.remove_entry (app st) ((fun r => id r.1) <$> selection)) (fields st).

End Handlers.

(** Every row of the Treeview shows an entry of the table. *)
Definition tree_ok (a : App.app) : Prop :=
  forall r, r ∈ App.tree_rows a -> exists k, (k, r.1) ∈ App.AM a.

(** The invariant of the editor: the table well formed, the view showing
    its rows. *)
Definition editor_inv (st : editor) : Prop := ledger_ok (App.AM (app st)) /\ tree_ok (app st).

(** The entry a row's fields give back after [edit_entry]: its text
    columns through [cell_text], the amount [amt]. *)
Definition edited_entry (e : entry) (amt : Q) : entry :=
  Entry (id e) (date e) (cell_text (purpose e)) (cell_text (from e)) (cell_text (to e))
        amt (cell_text (remark e)).

(** What [update_entry] writes back for a row: the amount rounded to
    cents. *)
Definition canon_entry (e : entry) : entry := edited_entry e (round2 (amount e)).

(** ** Lemmas *)

Lemma cell_text_str_Z (n : Z) : cell_text (str_Z n) = str_Z n.
Proof. unfold cell_text. by rewrite py_int_of_str_Z. Qed.

Lemma cell_text_str_date `{LedgerText} (d : Z) : cell_text (str_date d) = str_date d.
Proof. unfold cell_text. by rewrite str_date_not_int. Qed.

#[export] Hint Rewrite cell_text_str_Z @cell_text_str_date @strptime_str_date @float_cell_amount py_int_of_str_Z : pyapp_rw.

(** The fields [edit_entry] fills are read back by [update_entry] as the
    row's entry with its text columns through [cell_text]. *)
Lemma read_update_row `{LedgerText} (r : entry * Q) : read_update (row_fields r) = Some (canon_entry r.1).
Proof. unfold read_update, row_fields. simpl. by autorewrite with pyapp_rw. Qed.

(** A row of [get_records] shows an entry of the table. *)
Lemma get_records_entries (db : table) (a : string) (k : sort_key) (r : entry * Q) :
  r ∈ get_records db a k -> exists l, (l, r.1) ∈ db.
Proof.
  unfold get_records. rewrite (merge_sort_Permutation _ _). intros Hr.
  apply list_elem_of_In in Hr. destruct r as [e t]. apply in_combine_l, list_elem_of_In in Hr.
  apply list_elem_of_fmap in Hr as ([l e'] & -> & Hin). exists l.
  apply list_elem_of_In, filter_In in Hin as [Hin _]. by apply list_elem_of_In.
Qed.

Lemma populate_tree_ok (a : App.app) (k : sort_key) : tree_ok (App.populate_tree a k).
Proof.
  unfold App.populate_tree, tree_ok. case_bool_decide; simpl; [|set_solver].
  apply get_records_entries.
Qed.

(** One row per label: two rows with the same label are the same row. *)
Lemma labels_NoDup_unique (db : table) (k : Z) (e1 e2 : entry) :
  NoDup (labels db) -> (k, e1) ∈ db -> (k, e2) ∈ db -> e1 = e2.
Proof.
  unfold labels. induction db as [|[k' e'] db IH]; simpl; [set_solver|].
  intros [Hk Hnd]%NoDup_cons H1%elem_of_cons H2%elem_of_cons.
  destruct H1 as [H1|H1], H2 as [H2|H2]; simplify_eq/=; [done| | |by apply IH];
    destruct Hk; apply list_elem_of_fmap; eexists; (split; [|eassumption]); done.
Qed.

(** [df.loc[k] = e] on the row that already holds [e] changes nothing. *)
Lemma loc_set_same (db : table) (k : Z) (e : entry) : ledger_ok db -> (k, e) ∈ db -> loc_set db k e = db.
Proof.
  intros [Hnd _] Hin. rewrite loc_set_old by (apply list_elem_of_fmap; by exists (k, e)).
  rewrite <-(list_fmap_id db) at 2. apply list_fmap_ext. intros n [k' e'] Hn. simpl.
  destruct (Z.eqb_spec k' k) as [->|]; [|done]. f_equal.
  eapply labels_NoDup_unique; [done|done|]. by eapply list_elem_of_lookup_2.
Qed.

Lemma label_is_id (db : table) (k : Z) (e : entry) : ledger_ok db -> (k, e) ∈ db -> k = id e.
Proof. intros [_ Hf] Hin. by apply (proj1 (Forall_forall _ _) Hf (k, e)). Qed.

Lemma populate_tree_AM (a : App.app) (k : sort_key) : App.AM (App.populate_tree a k) = App.AM a.
Proof. unfold App.populate_tree. by case_bool_decide. Qed.

Lemma fold_remove_ok (ids : list Z) (db : table) :
  ledger_ok db -> ledger_ok (fold_left (fun db i => (Ledger.remove_entry db i).1) ids db).
Proof. revert db. induction ids as [|i ids IH]; intros db Hok; simpl; [done|]. apply IH. by apply remove_entry_ok. Qed.

(** The handlers of the app that end with [populate_tree("ID")] keep the
    table well formed and the view showing it. *)
Lemma app_update_inv (a : App.app) (e : entry) :
  ledger_ok (App.AM a) -> ledger_ok (App.AM (App.update_entry a e)) /\ tree_ok (App.update_entry a e).
Proof. intros Hok. unfold App.update_entry. rewrite populate_tree_AM. split; [by apply update_entry_ok|apply populate_tree_ok]. Qed.

Lemma app_create_inv (a a' : App.app) (e : entry) :
  ledger_ok (App.AM a) -> App.create_entry a e = Some a' -> ledger_ok (App.AM a') /\ tree_ok a'.
Proof.
  intros Hok. unfold App.create_entry. destruct (Ledger.create_entry _ _) as [db|] eqn:Hc; simpl; [|done].
  intros [= <-]. rewrite populate_tree_AM. split; [by eapply create_entry_ok|apply populate_tree_ok].
Qed.

Lemma app_remove_inv (a : App.app) (ids : list Z) :
  ledger_ok (App.AM a) -> tree_ok a -> ledger_ok (App.AM (App.remove_entry a ids)) /\ tree_ok (App.remove_entry a ids).
Proof.
  intros Hok Ht. destruct ids as [|i ids]; [done|]. unfold App.remove_entry. rewrite populate_tree_AM.
  split; [by apply fold_remove_ok|apply populate_tree_ok].
Qed.

(** A concrete [LedgerText] for the examples: a date is ["D"] and its
    day number, an amount ["A"], its numerator, ["/"] and its
    denominator. *)
Definition demo_str_date (d : Z) : string := String "D"%char (str_Z d).

Definition demo_strptime (s : string) : option Z :=
  match s with String c r => if Ascii.eqb c "D"%char then py_int r else None | EmptyString => None end.

Definition demo_str_amount (a : Q) : string :=
  String "A"%char (str_Z (Qnum a) ++ String "/"%char (str_Z (Zpos (Qden a)))).

(** The text before the first ["/"], and the text after it. *)
Fixpoint split_slash (s : string) : string * string :=
  match s with
  | EmptyString => (EmptyString, EmptyString)
  | String c r => if Ascii.eqb c "/"%char then (EmptyString, r) else let '(x, y) := split_slash r in (String c x, y)
  end.

Definition demo_float (s : string) : option Q :=
  match s with
  | String c r =>
      if Ascii.eqb c "A"%char then
        let '(x, y) := split_slash r in
        n ← py_int x; d ← py_int y;
        match d with Zpos p => Some (Qmake n p) | _ => None end
      else None
  | EmptyString => None
  end.

Lemma demo_str_date_not_int (d : Z) : py_int (demo_str_date d) = None.
Proof. by apply py_int_lead. Qed.

Lemma forall_chars_impl (p q : ascii -> bool) (s : string) :
  (forall c, p c = true -> q c = true) -> forall_chars p s = true -> forall_chars q s = true.
Proof.
  intros Hpq. induction s as [|c s IH]; simpl; [done|].
  intros [Hc Hs]%andb_true_iff. by rewrite (Hpq c Hc), IH.
Qed.

Lemma str_Z_no_slash (n : Z) : forall_chars (fun c => negb (Ascii.eqb c "/"%char)) (str_Z n) = true.
Proof.
  assert (Hd : forall c, is_digit c = true -> negb (Ascii.eqb c "/"%char) = true)
    by (intros c; by destruct (Ascii.eqb_spec c "/"%char) as [->|]).
  unfold str_Z. destruct (str_N_digits (Z.to_N (if n <? 0 then - n else n))) as (d & r & Hs & Hd0 & Hr).
  destruct (n <? 0); simpl; rewrite Hs; simpl; rewrite (Hd d Hd0); simpl; by eapply forall_chars_impl.
Qed.

Lemma split_slash_app (s t : string) :
  forall_chars (fun c => negb (Ascii.eqb c "/"%char)) s = true -> split_slash (s ++ String "/"%char t) = (s, t).
Proof.
  induction s as [|c s IH]; simpl; [done|]. intros [Hc Hs]%andb_true_iff.
  apply negb_true_iff in Hc. by rewrite Hc, IH.
Qed.

Lemma demo_float_cell (a : Q) : demo_float (cell_text (demo_str_amount a)) = Some a.
Proof.
  unfold cell_text, demo_str_amount. rewrite py_int_lead by done. unfold demo_float. simpl.
  rewrite split_slash_app by apply str_Z_no_slash. simpl. rewrite !py_int_of_str_Z. simpl. by destruct a.
Qed.

Definition demo_text : LedgerText :=
  {| str_date := demo_str_date; strptime_date := demo_strptime;
     str_amount := demo_str_amount; float_amount := demo_float;
     strptime_str_date := py_int_of_str_Z; str_date_not_int := demo_str_date_not_int;
     float_cell_amount := demo_float_cell |}.

(** ** Properties *)

(** C15: The handlers of the editor keep the invariant [editor_inv]: the
    table stays well formed (every row labelled by its ID, once) and
    every row the Treeview shows is an entry of the table. *)
Theorem editor_ops_keep_inv `{LedgerText} (st : editor) (sel : list (entry * Q)) :
  editor_inv st ->
  editor_inv (clear_entry st) /\ editor_inv (edit_entry st sel) /\ editor_inv (update_entry st) /\
  editor_inv (create_entry st) /\ editor_inv (remove_entry st sel).
Proof.
  intros [Hok Ht]. split_and!; [done| |..].
  - destruct sel as [|r [|]]; done.
  - unfold update_entry. destruct (read_update _); [by apply app_update_inv|done].
  - unfold create_entry. destruct (read_create _) as [e|]; [|done].
    destruct (App.create_entry _ _) eqn:Hc; [by eapply app_create_inv|done].
  - by apply app_remove_inv.
Qed.

(** C18: Update after Edit writes the row back through the text fields:
    the table gets the row's entry with [cell_text] (ttk's int
    conversion) of its Purpose, From, To and Remark and its amount
    rounded to cents by [round(float(input5), 2)].  On a table the view
    shows, a row that this leaves as it is is written back unchanged. *)
Theorem edit_then_update `{LedgerText} (st : editor) (r : entry * Q) :
  App.AM (app (update_entry (edit_entry st [r]))) = Ledger.update_entry (App.AM (app st)) (canon_entry r.1) /\
  (editor_inv st -> r ∈ App.tree_rows (app st) -> canon_entry r.1 = r.1 ->
   App.AM (app (update_entry (edit_entry st [r]))) = App.AM (app st)).
Proof.
  unfold update_entry, edit_entry. simpl. rewrite read_update_row. simpl.
  unfold App.update_entry. rewrite populate_tree_AM. simpl. split; [done|].
  intros [Hok Ht] Hr Hc. rewrite Hc. destruct (Ht r Hr) as [k Hk]. unfold Ledger.update_entry.
  rewrite <-(label_is_id _ _ _ Hok Hk). by apply loc_set_same.
Qed.

(** C34: Create after Edit does not read the ID field: it appends the
    selected transaction again, under the next ID [max + 1], with its
    amount not rounded (Update rounds it to cents); on an empty table
    [max()] raises and the table is unchanged. *)
Theorem edit_then_create `{LedgerText} (st : editor) (r : entry * Q) :
  App.AM (app (create_entry (edit_entry st [r]))) =
  match max_id (App.AM (app st)) with
  | Some m => loc_set (App.AM (app st)) (m + 1) (with_id (edited_entry r.1 (amount r.1)) (m + 1))
  | None => App.AM (app st)
  end.
Proof.
  unfold create_entry, edit_entry, read_create, row_fields. simpl. autorewrite with pyapp_rw. simpl.
  unfold App.create_entry, Ledger.create_entry. destruct (max_id _); simpl; [|done].
  by rewrite populate_tree_AM.
Qed.

(** A ledger viewed on the account ["bank"], the editor empty. *)
Definition view_bank (db : table) : editor :=
  Editor (App.populate_tree (App.App db (get_accounts db) None "bank" []) KeyID) empty_fields.

(** Edit then Update on the only row turns the Purpose ["007"] into
    ["7"], the Remark ["1_000"] into ["1000"], and the amount 12.345
    into 12.34. *)
Example edit_update_rewrites_row :
  App.AM (app (@update_entry demo_text (@edit_entry demo_text
     (view_bank [(1, Entry 1 10 "007" "work" "bank" (12345 # 1000) "1_000")])
     [(Entry 1 10 "007" "work" "bank" (12345 # 1000) "1_000", 12345 # 1000)]))) =
  [(1, Entry 1 10 "7" "work" "bank" (617 # 50) "1000")].
Proof. vm_compute. reflexivity. Qed.

(** Create after Edit keeps the amount 12.345 as it is. *)
Example edit_create_keeps_amount :
  App.AM (app (@create_entry demo_text (@edit_entry demo_text
     (view_bank [(1, Entry 1 10 "pay" "work" "bank" (12345 # 1000) "")])
     [(Entry 1 10 "pay" "work" "bank" (12345 # 1000) "", 12345 # 1000)]))) =
  [(1, Entry 1 10 "pay" "work" "bank" (12345 # 1000) ""); (2, Entry 2 10 "pay" "work" "bank" (12345 # 1000) "")].
Proof. vm_compute. reflexivity. Qed.

(** ** Witnesses *)

Lemma view_bank_inv (db : table) : ledger_ok db -> editor_inv (view_bank db).
Proof. intros Hok. split; [unfold view_bank; simpl; by rewrite populate_tree_AM|apply populate_tree_ok]. Qed.

Lemma editor_ops_keep_inv_witness :
  editor_inv (clear_entry (view_bank [(1, Entry 1 10 "pay" "work" "bank" 50 "")])) /\
  editor_inv (@edit_entry demo_text (view_bank [(1, Entry 1 10 "pay" "work" "bank" 50 "")])
                [(Entry 1 10 "pay" "work" "bank" 50 "", 50%Q)]) /\
  editor_inv (@update_entry demo_text (view_bank [(1, Entry 1 10 "pay" "work" "bank" 50 "")])) /\
  editor_inv (@create_entry demo_text (view_bank [(1, Entry 1 10 "pay" "work" "bank" 50 "")])) /\
  editor_inv (remove_entry (view_bank [(1, Entry 1 10 "pay" "work" "bank" 50 "")])
                [(Entry 1 10 "pay" "work" "bank" 50 "", 50%Q)]).
Proof.
  apply (@editor_ops_keep_inv demo_text). apply view_bank_inv.
  split; [apply NoDup_singleton|repeat constructor].
Defined.

Lemma edit_then_update_witness :
  App.AM (app (@update_entry demo_text (@edit_entry demo_text (view_bank [(1, Entry 1 10 "pay" "work" "bank" 50 "")])
     [(Entry 1 10 "pay" "work" "bank" 50 "", 50%Q)]))) =
  App.AM (app (view_bank [(1, Entry 1 10 "pay" "work" "bank" 50 "")])).
Proof.
  apply (proj2 (@edit_then_update demo_text (view_bank [(1, Entry 1 10 "pay" "work" "bank" 50 "")])
                  (Entry 1 10 "pay" "work" "bank" 50 "", 50%Q))).
  - apply view_bank_inv. split; [apply NoDup_singleton|repeat constructor].
  - vm_compute. left.
  - vm_compute. reflexivity.
Defined.

End Editor.
