(* ===== verification/GameDraw.v ===== *)
(** * The screens of the two games: [draw_game_board] of
    [src/tictactoe.py] and [src/othello.py]

    A frame of either game is drawn by [draw_game_board]: the board
    image, one piece image per occupied cell, the buttons and the score
    text.  [Module Screen] models a drawing as its display list, the
    sequence of [display_surf.blit(image, rect)] calls, and
    [make_text] as a blit of the rendered text at its top-left corner
    (its size is the font's, the variable [text_size]).  [Module
    TicTacToeDraw] and [Module OthelloDraw] give the two methods; their
    theorems relate the screen to the state ([Tictactoe.grid],
    [Othello.grid]) and to the click handlers of [TicTacToe] and
    [Othello].  Colours, the fill with [BGCOLOR] and the pixels of the
    images are not modelled. *)

From stdpp Require Import base list sets strings.
From Stdlib Require Import ZArith String Lia.
From S2P Require Import Prelude PyString GameTree TicTacToe Othello.

Local Open Scope Z_scope.
Local Open Scope pyapp_scope.

Module Screen.

(** The images the games load, and the sprites of [make_text]. *)
Inductive image :=
| GRIDIMG | CIRCLEIMG | CROSSIMG | BLACKIMG | WHITEIMG | BLACKIMG2
| EASYBTN | MEDIUMBTN | HARDBTN | RESETBTN
| TextImg (text : string).

#[global] Instance image_eq_dec : EqDecision image.
Proof. solve_decision. Defined.

(** [pygame.Rect(left, top, width, height)] *)
Record rect := Rect { left : Z; top : Z; width : Z; height : Z }.

#[global] Instance rect_eq_dec : EqDecision rect.
Proof. solve_decision. Defined.

(** One [blit] call. *)
Definition blit : Type := image * rect.

(** The point [(x, y)] lies in the rectangle. *)
Definition inside (r : rect) (x y : Z) : Prop :=
  left r <= x < left r + width r /\ top r <= y < top r + height r.

(** A piece image at a rectangle, or nothing for an empty cell. *)
Definition opt_blit (o : option image) (r : rect) : list blit :=
  match o with
  | Some im => [(im, r)]
  | None => []
  end.

(** What was blitted at exactly the rectangle [r]. *)
Definition blits_at (dl : list blit) (r : rect) : list blit := filter (fun b => b.2 = r) dl.

Section Text.

(** The size of a rendered text, which depends on the font. *)
Variable text_size : string -> Z * Z.

(** [make_text(text, color, bgcolor, left, top)] and its blit. *)
Definition make_text (text : string) (l t : Z) : blit :=
  (TextImg text, Rect l t (text_size text).1 (text_size text).2).

End Text.

(** ["Win: {} Lose: {} Draw: {}".format(...)] *)
Definition score_text (w l d : Z) : string :=
  "Win: " ++ str_Z w ++ " Lose: " ++ str_Z l ++ " Draw: " ++ str_Z d.

(** ** Lemmas *)

Lemma range2_NoDup (a b : Z) : NoDup (range2 a b).
Proof.
  unfold range2. generalize (py_range_NoDup a b). generalize (py_range a b) at 1 3 as m. intros m Hm.
  induction Hm as [|i l Hi Hl IH]; simpl; [constructor|].
  apply NoDup_app. split_and!; [|intros [i' j] (j' & [= <- <-] & _)%list_elem_of_fmap| done].
  - apply NoDup_fmap_2; [intros x y [=]; done|apply py_range_NoDup].
  - rewrite list_elem_of_In, in_flat_map. intros (i'' & Hi'' & Hin). apply in_map_iff in Hin as (j'' & [= -> _] & _).
    apply Hi. by apply list_elem_of_In.
Qed.

Lemma blits_at_app (dl1 dl2 : list blit) (r : rect) : blits_at (dl1 ++ dl2) r = blits_at dl1 r ++ blits_at dl2 r.
Proof. apply filter_app. Qed.

Lemma blits_at_opt_blit (o : option image) (r' r : rect) :
  blits_at (opt_blit o r') r = if decide (r' = r) then opt_blit o r' else [].
Proof. destruct o; unfold blits_at; simpl; rewrite ?filter_cons, ?filter_nil; by repeat case_decide. Qed.

Lemma blits_at_cells_none (cells : list (Z * Z)) (pick : Z -> Z -> option image) (rect_of : Z -> Z -> rect) (r : rect) :
  (forall j i, (j, i) ∈ cells -> rect_of j i <> r) ->
  blits_at (flat_map (fun '(j, i) => opt_blit (pick j i) (rect_of j i)) cells) r = [].
Proof.
  induction cells as [|[j i] cells IH]; intros Hne; [done|]. simpl. rewrite blits_at_app, blits_at_opt_blit.
  rewrite decide_False by (apply Hne; set_solver). rewrite IH; [done|]. intros; apply Hne; set_solver.
Qed.

(** A loop over distinct cells whose pieces go to distinct rectangles
    draws, at the rectangle of a cell, that cell's piece and nothing
    else. *)
Lemma blits_at_cells (cells : list (Z * Z)) (pick : Z -> Z -> option image) (rect_of : Z -> Z -> rect) (j i : Z) :
  NoDup cells -> (j, i) ∈ cells ->
  (forall j' i', (j', i') ∈ cells -> rect_of j' i' = rect_of j i -> (j', i') = (j, i)) ->
  blits_at (flat_map (fun '(j, i) => opt_blit (pick j i) (rect_of j i)) cells) (rect_of j i) = opt_blit (pick j i) (rect_of j i).
Proof.
  induction 1 as [|[j' i'] cells Hnotin Hnd IH]; intros Hin Hinj; [set_solver|]. simpl.
  rewrite blits_at_app, blits_at_opt_blit.
  destruct (decide ((j', i') = (j, i))) as [[= -> ->]|Hne].
  - rewrite decide_True by done. rewrite blits_at_cells_none; [apply app_nil_r|].
    intros j'' i'' Hc Heq. apply Hnotin. rewrite (Hinj j'' i'') in Hc; [done|set_solver|done].
  - rewrite decide_False by (intros Heq; apply Hne, Hinj; [set_solver|done]). apply IH; [set_solver|].
    intros; apply Hinj; [set_solver|done].
Qed.

(** Case analysis on the integer tests of a click handler. *)
Ltac z_cases :=
  repeat match goal with
  | |- context [Z.ltb ?a ?b] => destruct (Z.ltb_spec a b)
  | |- context [Z.eqb ?a ?b] => destruct (Z.eqb_spec a b)
  end; cbn [andb negb].

End Screen.

Import Screen.

Module TicTacToeDraw.

Import Tictactoe.

(** [CIRCLEIMG] for the human's 1, [CROSSIMG] for the AI's -1. *)
Definition piece_at (v : Z) : option image :=
  if v =? 1 then Some CIRCLEIMG else if v =? -1 then Some CROSSIMG else None.

(** [pygame.Rect(MARGINSIZE + i*TILESIZE, MARGINSIZE + j*TILESIZE, IMGSIZE[0], IMGSIZE[1])] *)
Definition cell_rect (j i : Z) : rect := Rect (10 + i * 100) (10 + j * 100) 80 80.

(** The three buttons, from the left: EASY, HARD, RESET. *)
Definition button_rect (k : Z) : rect := Rect (10 + k * 100) (300 + 10) 100 50.

(** [draw_game_board] *)
Definition draw_game_board (text_size : string -> Z * Z) (s : state) : list blit :=
  [(GRIDIMG, Rect 0 0 300 300)] ++
  flat_map (fun '(j, i) => opt_blit (piece_at (grid s)⟨j, i⟩) (cell_rect j i)) (range2 0 3) ++
  [(EASYBTN, button_rect 0); (HARDBTN, button_rect 1); (RESETBTN, button_rect 2);
   make_text text_size (score_text (wins (result s)) (losses (result s)) (draws (result s))) 10 (300 + 60)].

(** The effect the click handler gives a click in the button row
    [300 < y < 350] whose [x] lies in [(100 k, 100 (k + 1))]. *)
Definition button_effect (k : Z) (s : state) : state :=
  if k =? 0 then set_decision_level s 1
  else if k =? 1 then set_decision_level s 3
  else if k =? 2 then reset_game s
  else s.

(** What a player reads on a cell: a circle is 1, a cross -1. *)
Definition read_cell (dl : list blit) (j i : Z) : Z :=
  match blits_at dl (cell_rect j i) with
  | [(CIRCLEIMG, _)] => 1
  | [(CROSSIMG, _)] => -1
  | _ => 0
  end.

(** ** Properties *)

(** C11: The screen shows the board: on the rectangle of cell [(j, i)]
    [draw_game_board] blits exactly the piece of that cell and nothing
    else, so reading the cell off the screen gives back the grid's
    value, whenever it is -1, 0 or 1. *)
Theorem ttt_screen_shows_board (text_size : string -> Z * Z) (s : state) (j i : Z) :
  0 <= j < 3 -> 0 <= i < 3 ->
  blits_at (draw_game_board text_size s) (cell_rect j i) = opt_blit (piece_at (grid s)⟨j, i⟩) (cell_rect j i) /\
  ((grid s)⟨j, i⟩ = -1 \/ (grid s)⟨j, i⟩ = 0 \/ (grid s)⟨j, i⟩ = 1 ->
   read_cell (draw_game_board text_size s) j i = (grid s)⟨j, i⟩).
Proof.
  intros Hj Hi.
  assert (Hb : blits_at (draw_game_board text_size s) (cell_rect j i) = opt_blit (piece_at (grid s)⟨j, i⟩) (cell_rect j i)).
  { unfold draw_game_board. rewrite !blits_at_app, blits_at_cells.
    - unfold blits_at. rewrite !filter_cons, filter_nil.
      repeat (rewrite decide_False by (unfold cell_rect, button_rect, make_text; intros [=]; lia)). by rewrite app_nil_r.
    - apply range2_NoDup.
    - by apply range2_spec.
    - intros j' i' _ [=]. f_equal; lia. }
  split; [done|]. unfold read_cell. rewrite Hb. unfold piece_at.
  intros [-> | [-> | ->]]; done.
Qed.

(** C12: A click on a drawn button does what the handler's region under
    it says, not what the image shows: the images are drawn 10 pixels
    right of and below the regions [(100 k, 100 (k + 1)) x (300, 350)]
    the handler tests, so the right strip of EASY sets level 3, the right
    strip of HARD resets the game, the bottom strip and the borders at
    multiples of 100 do nothing. *)
Theorem button_click_regions (s : state) (k x y : Z) :
  0 <= k < 3 -> inside (button_rect k) x y ->
  App.handle_mouse_click s x y =
    if (y <? 350) && negb (x mod 100 =? 0) then button_effect (x / 100) s else s.
Proof.
  unfold inside, button_rect. cbn [left top width height]. intros Hk [Hx Hy].
  pose proof (Z.div_mod x 100 ltac:(lia)). pose proof (Z.mod_pos_bound x 100 ltac:(lia)).
  unfold App.handle_mouse_click, button_effect. z_cases; first [reflexivity | exfalso; lia].
Qed.

(** A click at [(105, 320)], on the right of the drawn EASY button,
    sets the HARD level. *)
Example easy_button_right_strip :
  inside (button_rect 0) 105 320 /\ App.handle_mouse_click init 105 320 = set_decision_level init 3.
Proof. split; [unfold inside; simpl; lia|reflexivity]. Qed.

(** The RESET image ends at [x = 310], past the 300-pixel window. *)
Example ttt_reset_button_past_window : left (button_rect 2) + width (button_rect 2) = 310.
Proof. reflexivity. Qed.

(** ** Witnesses *)

Lemma ttt_screen_shows_board_witness :
  blits_at (draw_game_board (fun _ => (0, 0)) init) (cell_rect 1 1) = opt_blit (piece_at (grid init)⟨1, 1⟩) (cell_rect 1 1) /\
  ((grid init)⟨1, 1⟩ = -1 \/ (grid init)⟨1, 1⟩ = 0 \/ (grid init)⟨1, 1⟩ = 1 ->
   read_cell (draw_game_board (fun _ => (0, 0)) init) 1 1 = (grid init)⟨1, 1⟩).
Proof. apply (ttt_screen_shows_board (fun _ => (0, 0)) init 1 1); lia. Defined.

Lemma button_click_regions_witness :
  App.handle_mouse_click init 105 320 =
    if (320 <? 350) && negb (105 mod 100 =? 0) then button_effect (105 / 100) init else init.
Proof. apply (button_click_regions init 0 105 320); [lia|unfold inside; simpl; lia]. Defined.

End TicTacToeDraw.

Module OthelloDraw.

Import Othello.

(** [BLACKIMG] for 1, [WHITEIMG] for -1. *)
Definition piece_at (v : Z) : option image :=
  if v =? 1 then Some BLACKIMG else if v =? -1 then Some WHITEIMG else None.

(** Cell [(j, i)] of the playing area, [1 <= i, j <= 8]. *)
Definition cell_rect (j i : Z) : rect := Rect (5 + (i - 1) * 50) (5 + (j - 1) * 50) 40 40.

(** The four buttons, from the left: EASY, MEDIUM, HARD, RESET. *)
Definition button_rect (k : Z) : rect := Rect (10 + k * 100) (400 + 10) 100 50.

(** [draw_game_board]: the small disc [IMGSIZE[0]/2] is [20.0], which
    [pygame.Rect] truncates to [20]. *)
Definition draw_game_board (text_size : string -> Z * Z) (s : state) : list blit :=
  [(GRIDIMG, Rect 0 0 400 400)] ++
  flat_map (fun '(j, i) => opt_blit (piece_at (grid s)⟨j, i⟩) (cell_rect j i)) (range2 1 9) ++
  [(EASYBTN, button_rect 0); (MEDIUMBTN, button_rect 1); (HARDBTN, button_rect 2); (RESETBTN, button_rect 3);
   make_text text_size (score_text (wins (result s)) (losses (result s)) (draws (result s))) 10 (400 + 60);
   make_text text_size ("You: " ++ str_Z (score s)) 250 (400 + 60);
   (BLACKIMG2, Rect 335 (400 + 60) 20 20)].

(** What a player reads on a cell: black is 1, white -1. *)
Definition read_cell (dl : list blit) (j i : Z) : Z :=
  match blits_at dl (cell_rect j i) with
  | [(BLACKIMG, _)] => 1
  | [(WHITEIMG, _)] => -1
  | _ => 0
  end.

(** ** Properties *)

(** C14: The Othello screen shows the 8 by 8 playing area: on the
    rectangle of cell [(j, i)], [1 <= i, j <= 8], [draw_game_board]
    blits exactly that cell's disc, so reading the screen gives back
    the grid's -1, 0 or 1. *)
Theorem othello_screen_shows_board (text_size : string -> Z * Z) (s : state) (j i : Z) :
  1 <= j < 9 -> 1 <= i < 9 ->
  blits_at (draw_game_board text_size s) (cell_rect j i) = opt_blit (piece_at (grid s)⟨j, i⟩) (cell_rect j i) /\
  ((grid s)⟨j, i⟩ = -1 \/ (grid s)⟨j, i⟩ = 0 \/ (grid s)⟨j, i⟩ = 1 ->
   read_cell (draw_game_board text_size s) j i = (grid s)⟨j, i⟩).
Proof.
  intros Hj Hi.
  assert (Hb : blits_at (draw_game_board text_size s) (cell_rect j i) = opt_blit (piece_at (grid s)⟨j, i⟩) (cell_rect j i)).
  { unfold draw_game_board. rewrite !blits_at_app, blits_at_cells.
    - unfold blits_at. rewrite !filter_cons, filter_nil.
      repeat (rewrite decide_False by (unfold cell_rect, button_rect, make_text; intros [=]; lia)). by rewrite app_nil_r.
    - apply range2_NoDup.
    - by apply range2_spec.
    - intros j' i' _ [=]. f_equal; lia. }
  split; [done|]. unfold read_cell. rewrite Hb. unfold piece_at.
  intros [-> | [-> | ->]]; done.
Qed.

(** The RESET image ends at [x = 410], past the 400-pixel window, and
    a click at [(315, 455)] on its lower strip does nothing. *)
Example othello_reset_button_past_window :
  left (button_rect 3) + width (button_rect 3) = 410 /\ inside (button_rect 3) 315 455 /\
  App.handle_mouse_click init 315 455 = init.
Proof. split_and!; [reflexivity|unfold inside; simpl; lia|reflexivity]. Qed.

(** ** Witnesses *)

Lemma othello_screen_shows_board_witness :
  blits_at (draw_game_board (fun _ => (0, 0)) init) (cell_rect 4 4) = opt_blit (piece_at (grid init)⟨4, 4⟩) (cell_rect 4 4) /\
  ((grid init)⟨4, 4⟩ = -1 \/ (grid init)⟨4, 4⟩ = 0 \/ (grid init)⟨4, 4⟩ = 1 ->
   read_cell (draw_game_board (fun _ => (0, 0)) init) 4 4 = (grid init)⟨4, 4⟩).
Proof. apply (othello_screen_shows_board (fun _ => (0, 0)) init 4 4); lia. Defined.

End OthelloDraw.
