(* ===== verification/Weather.v ===== *)
(** * The weather lookup: [src/weatherapp.py]

    [Module Weather] models the part of [WeatherFrontend] that turns a
    candidate city into the ID sent to the OpenWeather API:
    [fill_candidate_city_listbox] renders each candidate row as
    ["c2, c1, c0 (c3)"], and [get_weather] recovers the city ID from the
    selected line with [re.search(r"([0-9]+)", ...)].group(0)], the first
    maximal run of decimal digits.  [str] of the numeric column is
    [str_N] of [PyString].  The city frame ([city_frame]) is given by
    its column names and rows, since the CSV file is not in the
    repository; [get_candidates] selects the rows by the column named
    ["name"] and [get_cityid] renders them.  Reading the
    CSV file, the HTTP request and the widgets are not modelled; the
    report is in [WeatherReport]. *)

From stdpp Require Import base list strings.
From Stdlib Require Import Ascii String ZArith Lia.
From S2P Require Import Prelude PyString.

Module Weather.

Local Open Scope string_scope.

(** The longest prefix of digits. *)
Fixpoint take_digits (s : string) : string :=
  match s with
  | EmptyString => EmptyString
  | String c s' => if is_digit c then String c (take_digits s') else EmptyString
  end.

(** [re.search(r"([0-9]+)", s).group(0)]: the first maximal run of
    digits; [None] when there is none ([re.search] returns [None] and
    [.group] raises [AttributeError]). *)
Fixpoint first_number (s : string) : option string :=
  match s with
  | EmptyString => None
  | String c s' => if is_digit c then Some (take_digits s) else first_number s'
  end.

(** A row of [candidates.to_numpy()]: the three text columns and the
    numeric ID column the listbox shows. *)
Record candidate := Candidate { col0 : string; col1 : string; col2 : string; col3 : N }.

(** One line of [fill_candidate_city_listbox]. *)
Definition listbox_line (c : candidate) : string :=
  col2 c ++ ", " ++ col1 c ++ ", " ++ col0 c ++ " (" ++ str_N (col3 c) ++ ")".

(** [get_weather]: the city ID given to [set_city_id] for the selected
    line. *)
Definition selected_city_id (selected_city : string) : option string :=
  first_number selected_city.

(** No character of [s] is a digit. *)
Definition no_digit (s : string) : bool := forall_chars (fun c => negb (is_digit c)) s.

(** [WeatherBackend.get_weather]: the request URL. *)
Definition full_url (base_url city_id key : string) : string :=
  base_url ++ "id=" ++ city_id ++ "&appid=" ++ key.

(** [tk.Listbox.insert(i, name)]: [name] goes before the row at index
    [i], or at the end when [i] is past it. *)
Definition listbox_insert (i : nat) (name : string) (lb : list string) : list string :=
  take i lb ++ name :: drop i lb.

(** [fill_candidate_city_listbox]: [for i in range(candidates.shape[0]):
    self.citylist_listbox.insert(i, name)].  The listbox is not cleared
    first. *)
Definition fill_candidate_city_listbox (candidates : list candidate) (lb : list string)
    : list string :=
  foldl (fun lb i =>
           match (candidates !! i)%stdpp with
           | Some c => listbox_insert i (listbox_line c) lb
           | None => lb
           end) lb (seq 0 (List.length candidates)).

(** The state [get_weather] reads and writes: the listbox rows of the
    frontend and [WeatherBackend.city_id]. *)
Record weather_app := WeatherApp {
  citylist_listbox : list string;
  city_id : option string
}.

(** [WeatherBackend.set_city_id]. *)
Definition set_city_id (id : string) (a : weather_app) : weather_app :=
  WeatherApp (citylist_listbox a) (Some id).

(** [WeatherFrontend.get_weather] up to the request: the selected row
    ([selection_get], [None] = no selection, a [TclError]), its first
    digit run ([None] = [AttributeError] on [None.group]), [set_city_id],
    and the URL [WeatherBackend.get_weather] fetches with the backend's
    [base_url] and the key of the configuration. *)
Definition get_weather (base_url key : string) (sel : nat) (a : weather_app)
    : option (weather_app * string) :=
  selected_city ← (citylist_listbox a !! sel)%stdpp;
  id ← selected_city_id selected_city;
  let a' := set_city_id id a in
  Some (a', full_url base_url id key).

(** The name columns of a candidate hold no digit. *)
Definition names_digit_free (c : candidate) : bool :=
  no_digit (col0 c) && no_digit (col1 c) && no_digit (col2 c).

(** The city frame as [WeatherBackend.__init__] leaves it: its column
    names and its rows as [to_numpy()] gives them.  The CSV file is not
    in the repository, so the position of each named column is part of
    the frame and is not assumed: [get_candidates] reads the column
    named ["name"], [fill_candidate_city_listbox] the columns 0 to 3 by
    position. *)
Record city_frame := CityFrame { frame_columns : list string; frame_rows : list candidate }.

(** [row[idx] == s] for a cell of a row: a text cell compares its
    characters, the numeric cell never equals a string. *)
Definition cell_is (c : candidate) (idx : nat) (s : string) : bool :=
  match idx with
  | 0 => bool_decide (col0 c = s)
  | 1 => bool_decide (col1 c = s)
  | 2 => bool_decide (col2 c = s)
  | _ => false
  end.

(** [WeatherBackend.get_candidates(name)]:
    [df_city_list[df_city_list["name"] == name]], in the frame's order;
    [None] is the [KeyError] of a frame without a ["name"] column. *)
Definition get_candidates (df : city_frame) (name : string) : option (list candidate) :=
  match list_find (fun h => h = "name") (frame_columns df) with
  | Some (idx, _) => Some (filter (fun c => cell_is c idx name = true) (frame_rows df))
  | None => None
  end.

(** The text of the city entry when the window opens. *)
Definition city_choice_init : string := "Los Angeles".

(** [WeatherFrontend.get_cityid]: the candidates for the text of the
    entry, rendered into the listbox. *)
Definition get_cityid (df : city_frame) (city_choice : string) (a : weather_app) : option weather_app :=
  match get_candidates df city_choice with
  | Some cands => Some (WeatherApp (fill_candidate_city_listbox cands (citylist_listbox a)) (city_id a))
  | None => None
  end.

(** ** Lemmas *)

Lemma first_number_skip (s t : string) :
  no_digit s = true -> first_number (s ++ t) = first_number t.
Proof.
  induction s as [|c s IH]; [done|]. rewrite append_cons. unfold no_digit; simpl.
  intros [Hc Hs]%andb_true_iff. apply negb_true_iff in Hc. rewrite Hc. by apply IH.
Qed.

Lemma take_digits_app (s t : string) :
  forall_chars is_digit s = true -> take_digits (s ++ t) = s ++ take_digits t.
Proof.
  induction s as [|c s IH]; [done|]. rewrite !append_cons. simpl.
  intros [Hc Hs]%andb_true_iff. by rewrite Hc, IH.
Qed.

Lemma first_number_app_some (s t : string) :
  is_Some (first_number t) -> is_Some (first_number (s ++ t)).
Proof.
  induction s as [|c s IH]; [done|]. rewrite append_cons. simpl. intros Ht. destruct (is_digit c); [eauto|by apply IH].
Qed.

Lemma first_number_digits (c : ascii) (s t : string) :
  is_digit c = true -> forall_chars is_digit s = true ->
  first_number (String c s ++ String ")"%char t) = Some (String c s).
Proof.
  intros Hc Hs. rewrite append_cons. simpl. rewrite Hc. f_equal.
  by rewrite take_digits_app, append_empty_r.
Qed.

(** A rendered row holds the candidate's ID as its first digit run when
    the name columns are digit-free. *)
Lemma listbox_line_id (c : candidate) :
  names_digit_free c = true -> selected_city_id (listbox_line c) = Some (str_N (col3 c)).
Proof.
  unfold names_digit_free. intros [[H0 H1]%andb_true_iff H2]%andb_true_iff.
  unfold selected_city_id, listbox_line.
  rewrite !first_number_skip by done.
  destruct (str_N_digits (col3 c)) as (d & rest & -> & Hd & Hrest).
  by apply first_number_digits.
Qed.

(** Whatever the names, a rendered row has a digit run. *)
Lemma listbox_line_has_id (c : candidate) : is_Some (selected_city_id (listbox_line c)).
Proof.
  unfold selected_city_id, listbox_line. do 6 apply first_number_app_some.
  destruct (str_N_digits (col3 c)) as (d & rest & -> & Hd & Hrest).
  rewrite first_number_digits by done. eauto.
Qed.

Lemma fill_prefix (candidates : list candidate) (lb : list string) (k : nat) :
  (k <= List.length candidates)%nat ->
  foldl (fun lb i =>
           match (candidates !! i)%stdpp with
           | Some c => listbox_insert i (listbox_line c) lb
           | None => lb
           end) lb (seq 0 k) = (map listbox_line (take k candidates) ++ lb)%list.
Proof.
  induction k as [|k IH]; intros Hk; [done|].
  rewrite seq_S, foldl_app, IH by lia. simpl.
  destruct (lookup_lt_is_Some_2 candidates k) as [c Hc]; [lia|]. rewrite Hc.
  unfold listbox_insert.
  assert (Hlen : List.length (map listbox_line (take k candidates)) = k)
    by (rewrite length_map, length_take; lia).
  rewrite take_app_length' by done. rewrite drop_app_length' by done.
  rewrite (take_S_r _ _ c) by done. by rewrite map_app, <-app_assoc.
Qed.

Lemma fill_candidate_city_listbox_eq (candidates : list candidate) (lb : list string) :
  fill_candidate_city_listbox candidates lb = (map listbox_line candidates ++ lb)%list.
Proof.
  unfold fill_candidate_city_listbox. rewrite fill_prefix by lia. by rewrite take_ge by lia.
Qed.

Lemma fill_lookup (candidates : list candidate) (lb : list string) (k : nat) (c : candidate) :
  (candidates !! k)%stdpp = Some c ->
  (fill_candidate_city_listbox candidates lb !! k)%stdpp = Some (listbox_line c).
Proof.
  intros Hc. rewrite fill_candidate_city_listbox_eq, lookup_app_l.
  - by rewrite list_lookup_fmap, Hc.
  - rewrite length_map. by eapply lookup_lt_Some.
Qed.

(** ** Properties *)

(** C22: After [fill_candidate_city_listbox], selecting the row of a
    candidate whose name columns hold no digit makes [get_weather] set
    the backend's [city_id] to [str] of that candidate's ID and request
    the URL of that ID: rendering a row and reading its ID back is a
    round trip. *)
Theorem get_weather_selects_candidate (base_url key : string) (candidates : list candidate)
    (lb : list string) (id0 : option string) (k : nat) (c : candidate) :
  (candidates !! k)%stdpp = Some c -> names_digit_free c = true ->
  get_weather base_url key k (WeatherApp (fill_candidate_city_listbox candidates lb) id0) =
  Some (WeatherApp (fill_candidate_city_listbox candidates lb) (Some (str_N (col3 c))),
        full_url base_url (str_N (col3 c)) key).
Proof.
  intros Hc Hd. unfold get_weather. simpl. rewrite (fill_lookup _ _ _ c) by done. simpl.
  by rewrite listbox_line_id.
Qed.

(** Selecting any row that [fill_candidate_city_listbox] inserted never
    makes [get_weather] fail: [re.search] always finds a digit run, so
    [city_id.group(0)] does not raise, whatever the names hold. *)
Theorem get_weather_filled_row_total (base_url key : string) (candidates : list candidate)
    (lb : list string) (id0 : option string) (k : nat) :
  (k < List.length candidates)%nat ->
  is_Some (get_weather base_url key k (WeatherApp (fill_candidate_city_listbox candidates lb) id0)).
Proof.
  intros Hk. destruct (lookup_lt_is_Some_2 candidates k Hk) as [c Hc].
  unfold get_weather. simpl. rewrite (fill_lookup _ _ _ c) by done. simpl.
  destruct (listbox_line_has_id c) as [id ->]. simpl. eauto.
Qed.

(** A digit in a name column breaks the round trip: for the town
    ["Route 66"] with ID 4409896 the row is
    ["Route 66, MO, US (4409896)"], and [get_weather] sends the ID
    ["66"]. *)
Example digit_in_name_wrong_id :
  selected_city_id (listbox_line (Candidate "US" "MO" "Route 66" 4409896%N)) = Some "66".
Proof. vm_compute. reflexivity. Qed.

(** C23: [fill_candidate_city_listbox] does not clear the listbox: after
    a second search for other candidates, the rows of the first search
    stay below the new ones, and selecting one sends the ID of a city of
    the earlier search. *)
Theorem stale_row_selects_old_candidate (base_url key : string)
    (first second : list candidate) (lb : list string) (id0 : option string)
    (k : nat) (c : candidate) :
  (first !! k)%stdpp = Some c -> names_digit_free c = true ->
  get_weather base_url key (List.length second + k)
    (WeatherApp (fill_candidate_city_listbox second (fill_candidate_city_listbox first lb)) id0) =
  Some (WeatherApp (fill_candidate_city_listbox second (fill_candidate_city_listbox first lb))
          (Some (str_N (col3 c))),
        full_url base_url (str_N (col3 c)) key).
Proof.
  intros Hc Hd. unfold get_weather. simpl.
  rewrite fill_candidate_city_listbox_eq, lookup_app_r; rewrite length_map; [|lia].
  replace (List.length second + k - List.length second)%nat with k by lia.
  rewrite (fill_lookup _ _ _ c) by done. simpl. by rewrite listbox_line_id.
Qed.

(** C35: A search followed by a selection: after [get_cityid] for the name
    [nm], selecting the row [k] of the new rows makes [get_weather]
    request the ID of a row of the frame whose ["name"] cell is [nm],
    when that row's names hold no digit. *)
Theorem get_cityid_then_get_weather (base_url key nm : string) (df : city_frame)
    (a : weather_app) (k : nat) (cands : list candidate) (c : candidate) :
  get_candidates df nm = Some cands -> (cands !! k)%stdpp = Some c -> names_digit_free c = true ->
  c ∈ frame_rows df /\ (exists idx, (frame_columns df !! idx)%stdpp = Some "name" /\ cell_is c idx nm = true) /\
  exists a', get_cityid df nm a = Some a' /\
    get_weather base_url key k a' = Some (WeatherApp (citylist_listbox a') (Some (str_N (col3 c))),
                                          full_url base_url (str_N (col3 c)) key).
Proof.
  intros Hg Hc Hd. unfold get_cityid. rewrite Hg. unfold get_candidates in Hg.
  destruct (list_find _ _) as [[idx h]|] eqn:Hf; [|done]. injection Hg as <-.
  apply list_find_Some in Hf as (Hh & -> & _).
  pose proof (list_elem_of_lookup_2 _ _ _ Hc) as [Hn Hin]%list_elem_of_filter.
  split_and!; [done|eauto|]. eexists; split; [done|]. unfold get_weather. simpl.
  rewrite (fill_lookup _ _ _ _ Hc). simpl. by rewrite listbox_line_id.
Qed.

(** ** Witnesses *)

Lemma stale_row_selects_old_candidate_witness :
  get_weather "http://api.openweathermap.org/data/2.5/weather?" "KEY" 1
    (WeatherApp (fill_candidate_city_listbox [Candidate "CA" "ON" "London" 6058560%N]
                  (fill_candidate_city_listbox [Candidate "GB" "ENG" "London" 2643743%N] []))
       None) =
  Some (WeatherApp (fill_candidate_city_listbox [Candidate "CA" "ON" "London" 6058560%N]
                  (fill_candidate_city_listbox [Candidate "GB" "ENG" "London" 2643743%N] []))
          (Some (str_N 2643743%N)),
        full_url "http://api.openweathermap.org/data/2.5/weather?" (str_N 2643743%N) "KEY").
Proof.
  apply (stale_row_selects_old_candidate _ _ _ [Candidate "CA" "ON" "London" 6058560%N] _ _ 0
           (Candidate "GB" "ENG" "London" 2643743%N)); vm_compute; reflexivity.
Defined.

Lemma get_weather_selects_candidate_witness :
  get_weather "http://api.openweathermap.org/data/2.5/weather?" "KEY" 0
    (WeatherApp (fill_candidate_city_listbox [Candidate "GB" "ENG" "London" 2643743%N] []) None) =
  Some (WeatherApp (fill_candidate_city_listbox [Candidate "GB" "ENG" "London" 2643743%N] [])
          (Some (str_N 2643743%N)),
        full_url "http://api.openweathermap.org/data/2.5/weather?" (str_N 2643743%N) "KEY").
Proof.
  apply (get_weather_selects_candidate _ _ _ _ _ 0 (Candidate "GB" "ENG" "London" 2643743%N));
    vm_compute; reflexivity.
Defined.

Lemma get_weather_filled_row_total_witness :
  is_Some (get_weather "http://api.openweathermap.org/data/2.5/weather?" "KEY" 1
    (WeatherApp (fill_candidate_city_listbox
       [Candidate "US" "MO" "Route 66" 4409896%N; Candidate "GB" "ENG" "London" 2643743%N] [])
       None)).
Proof. apply get_weather_filled_row_total. vm_compute. lia. Defined.

Definition demo_frame : city_frame :=
  CityFrame ["country"; "state"; "name"; "id"]
    [Candidate "GB" "ENG" "London" 2643743%N; Candidate "CA" "ON" "London" 6058560%N].

Lemma get_cityid_then_get_weather_witness :
  Candidate "CA" "ON" "London" 6058560%N ∈ frame_rows demo_frame /\
  (exists idx, (frame_columns demo_frame !! idx)%stdpp = Some "name" /\
               cell_is (Candidate "CA" "ON" "London" 6058560%N) idx "London" = true) /\
  exists a', get_cityid demo_frame "London" (WeatherApp [] None) = Some a' /\
    get_weather "http://api.openweathermap.org/data/2.5/weather?" "KEY" 1 a' =
    Some (WeatherApp (citylist_listbox a') (Some (str_N 6058560%N)),
          full_url "http://api.openweathermap.org/data/2.5/weather?" (str_N 6058560%N) "KEY").
Proof.
  apply (get_cityid_then_get_weather _ _ _ _ _ 1 (filter (fun c => cell_is c 2 "London" = true) (frame_rows demo_frame)));
    vm_compute; reflexivity.
Defined.

End Weather.
