(* ===== verification/WeatherReport.v ===== *)
(** * The weather report: [src/weatherapp.py], [WeatherFrontend.get_weather]

    [Module WeatherReport] models the second half of
    [WeatherFrontend.get_weather]: the JSON answer of the OpenWeather
    API as a record of the fields the code reads ([None] for a field
    the answer lacks, which Python reports as [KeyError]), the check of
    ["cod"], the labels it fills (temperatures in Celsius rounded by
    [round(_, 2)], the humidity, the sunrise and sunset times as
    [%H:%M] in the city's time zone) and the weather image chosen from
    the weather code.  The request itself is the function [fetch] of
    the class [WeatherService], so that [get_weather_report] composes
    the city selection of [Weather] with the report.  Temperatures are
    exact rationals: [round] is modelled on the exact value (half to
    even), not on its binary float. *)

From stdpp Require Import base list strings.
From Stdlib Require Import Ascii String ZArith QArith Qround Lia.
From S2P Require Import Prelude PyString Weather.

Module WeatherReport.

(** ** The answer of the API *)

(** ["cod"]: an int on success and for some errors, the string ["404"]
    when the city is not found. *)
Inductive cod := CodInt (z : Z) | CodStr (s : string).

Record main_fields := MainFields { temp : Q; temp_max : Q; temp_min : Q; humidity : Z }.

Record response := Response {
  resp_cod : cod;
  resp_main : option main_fields;
  resp_timezone : option Z;
  (** [weather["sys"]]: sunrise and sunset, in seconds since the epoch *)
  resp_sys : option (Z * Z);
  (** [weather["weather"]]: the conditions, each an ["id"] and a ["main"] *)
  resp_weather : option (list (Z * string))
}.

Inductive error := KeyError (key : string) | IndexError.

(** ** The labels *)

(** [round(x, 2)] on the exact value, ties to even. *)
Definition round2 (x : Q) : Q :=
  let y := x * 100 in
  let f := Qfloor y in
  let d := y - inject_Z f in
  let n := if Qlt_le_dec d (1 # 2) then f
           else if Qeq_dec d (1 # 2) then (if Z.even f then f else f + 1)%Z
           else (f + 1)%Z in
  inject_Z n / 100.

(** [round(kelvin - 273.15, 2)] *)
Definition celsius (kelvin : Q) : Q := round2 (kelvin - (27315 # 100)).

(** [%H] or [%M]: two digits. *)
Definition two_digits (n : Z) : string :=
  String (digit_char (Z.to_N (n / 10))) (String (digit_char (Z.to_N (n mod 10))) EmptyString).

(** [(datetime.utcfromtimestamp(t) + timedelta(seconds=timezone)).strftime('%H:%M')]:
    the time of day of [t + timezone]. *)
Definition hhmm (t timezone : Z) : string :=
  let s := ((t + timezone) mod 86400)%Z in
  two_digits (s / 3600)%Z ++ ":" ++ two_digits ((s mod 3600) / 60)%Z.

(** The four pictures of the canvas. *)
Inductive picture := Rain | Snow | Cloud | Sun.

(** The [if]/[elif] chain on [y["id"] // 100] and, from 800 on, on
    [weather["weather"][0]["main"]]; [None] if no branch is taken. *)
Definition weather_image (id : Z) (main : string) : option picture :=
  if (id / 100 <=? 5)%Z then Some Rain
  else if (id / 100 =? 6)%Z then Some Snow
  else if (id / 100 =? 7)%Z then Some Cloud
  else if (8 <=? id / 100)%Z then Some (if String.eqb main "Clear" then Sun else Cloud)
  else None.

(** The labels and the canvas image [get_weather] updates. *)
Record labels := Labels {
  temp_value : option Q;
  humidity_value : string;
  max_temp_value : option Q;
  min_temp_value : option Q;
  sunrise_value : string;
  sunset_value : string;
  canvas_image : option picture
}.

(** The labels of a new window: empty texts, no image. *)
Definition init_labels : labels := Labels None "" None None "" "" None.

(** The body of [if weather["cod"] != "404":], statement by statement.
    Tk goes on after a callback raises, so the labels already updated
    stay: the result is the labels with the exception raised, if any. *)
Definition report_body (w : response) (l : labels) : labels * option error :=
  match resp_main w with
  | None => (l, Some (KeyError "main"))
  | Some y =>
      let l := Labels (Some (celsius (temp y))) (str_Z (humidity y) ++ "%")
                      (Some (celsius (temp_max y))) (Some (celsius (temp_min y)))
                      (sunrise_value l) (sunset_value l) (canvas_image l) in
      match resp_timezone w, resp_sys w with
      | None, _ => (l, Some (KeyError "timezone"))
      | _, None => (l, Some (KeyError "sys"))
      | Some timezone, Some (sunrise, sunset) =>
          let l := Labels (temp_value l) (humidity_value l) (max_temp_value l) (min_temp_value l)
                          (hhmm sunrise timezone) (hhmm sunset timezone) (canvas_image l) in
          match resp_weather w with
          | None => (l, Some (KeyError "weather"))
          | Some [] => (l, Some IndexError)
          | Some ((id, main) :: _) =>
              (Labels (temp_value l) (humidity_value l) (max_temp_value l) (min_temp_value l)
                      (sunrise_value l) (sunset_value l)
                      (match weather_image id main with Some p => Some p | None => canvas_image l end),
               None)
          end
      end
  end.

(** [if weather["cod"] != "404": ... else: print("City ID not found")]:
    an int never equals the string ["404"]. *)
Definition show_report (w : response) (l : labels) : labels * option error :=
  match resp_cod w with
  | CodStr s => if String.eqb s "404" then (l, None) else report_body w l
  | CodInt _ => report_body w l
  end.

(** ** The whole button *)

(** What the program relies on from the OpenWeather API: the answer to
    a request URL. *)
Class WeatherService := { fetch : string -> response }.

(** [WeatherFrontend.get_weather]: the city ID of the selected row
    ([Weather.get_weather]), the request, then the report.  [None] is
    an exception before the request (no selection, no digit in the
    row). *)
Definition get_weather_report `{WeatherService} (base_url key : string) (sel : nat)
    (a : Weather.weather_app) (l : labels) : option (Weather.weather_app * (labels * option error)) :=
  '(a', url) ← Weather.get_weather base_url key sel a;
  Some (a', show_report (fetch url) l).

(** ** Lemmas *)

(** The [elif] chain covers every weather code: a successful report
    always sets a picture. *)
Lemma weather_image_total (id : Z) (main : string) : is_Some (weather_image id main).
Proof.
  unfold weather_image.
  destruct (id / 100 <=? 5)%Z eqn:H5; [eauto|]. destruct (id / 100 =? 6)%Z eqn:H6; [eauto|].
  destruct (id / 100 =? 7)%Z eqn:H7; [eauto|].
  replace (8 <=? id / 100)%Z with true by (symmetry; apply Z.leb_le; lia). eauto.
Qed.

Lemma two_digits_digits (n : Z) : (0 <= n < 100)%Z ->
  exists c d, two_digits n = String c (String d EmptyString) /\ is_digit c = true /\ is_digit d = true /\
    (digit_value c * 10 + digit_value d)%N = Z.to_N n.
Proof.
  intros Hn. unfold two_digits. eexists _, _. split; [reflexivity|].
  assert (Hq : (0 <= n / 10 < 10)%Z) by (split; [apply Z.div_pos|apply Z.div_lt_upper_bound]; lia).
  assert (Hr : (0 <= n mod 10 < 10)%Z) by (apply Z.mod_pos_bound; lia).
  rewrite !digit_value_char by lia. split_and!; [apply digit_char_is_digit; lia..|].
  pose proof (Z.div_mod n 10 ltac:(lia)). lia.
Qed.

(** [%H:%M] of [t + timezone]: an hour below 24 and a minute below 60
    whose seconds, with those of the minute, make the time of day. *)
Lemma hhmm_spec (t timezone : Z) :
  exists h m, (0 <= h < 24)%Z /\ (0 <= m < 60)%Z /\
    hhmm t timezone = (two_digits h ++ ":" ++ two_digits m)%string /\
    (0 <= (t + timezone) mod 86400 - (3600 * h + 60 * m) < 60)%Z.
Proof.
  unfold hhmm. set (s := ((t + timezone) mod 86400)%Z).
  assert (Hs : (0 <= s < 86400)%Z) by (apply Z.mod_pos_bound; lia).
  exists (s / 3600)%Z, ((s mod 3600) / 60)%Z.
  pose proof (Z.div_mod s 3600 ltac:(lia)). pose proof (Z.mod_pos_bound s 3600 ltac:(lia)).
  pose proof (Z.div_mod (s mod 3600) 60 ltac:(lia)). pose proof (Z.mod_pos_bound (s mod 3600) 60 ltac:(lia)).
  split_and!; try reflexivity; lia.
Qed.

(** On an answer with every field the code reads, the report fills all
    the labels and sets a picture, without raising. *)
Lemma show_report_complete (w : response) (l : labels) (y : main_fields) (timezone sunrise sunset id : Z)
    (main : string) (rest : list (Z * string)) :
  resp_cod w <> CodStr "404" -> resp_main w = Some y -> resp_timezone w = Some timezone ->
  resp_sys w = Some (sunrise, sunset) -> resp_weather w = Some ((id, main) :: rest) ->
  exists p, weather_image id main = Some p /\
    show_report w l =
      (Labels (Some (celsius (temp y))) (str_Z (humidity y) ++ "%") (Some (celsius (temp_max y)))
              (Some (celsius (temp_min y))) (hhmm sunrise timezone) (hhmm sunset timezone) (Some p), None).
Proof.
  intros Hcod Hm Htz Hsys Hw. destruct (weather_image_total id main) as [p Hp].
  exists p. split; [done|].
  assert (Hb : report_body w l = show_report w l).
  { unfold show_report. destruct (resp_cod w) as [z|str]; [done|].
    destruct (String.eqb_spec str "404"); [subst; done|done]. }
  rewrite <-Hb. unfold report_body. by rewrite Hm, Htz, Hsys, Hw, Hp.
Qed.

(** An error answer whose ["cod"] is an int, such as the [401] of an
    invalid key, passes the test [!= "404"] and raises [KeyError] on
    ["main"]. *)
Lemma show_report_int_error (w : response) (l : labels) (z : Z) :
  resp_cod w = CodInt z -> resp_main w = None -> show_report w l = (l, Some (KeyError "main")).
Proof. intros Hc Hm. unfold show_report, report_body. by rewrite Hc, Hm. Qed.

End WeatherReport.
