(* ===== verification/SqlManager.v ===== *)
(** * The SQL table browser: [src/sqlmanager/sqlmanager.py]

    The script opens a SQLite database, lists its tables and runs an
    event loop over a PySimpleGUI window: ["Show"] loads the selected
    table into the table widget and titles its columns ([update_title]),
    ["Extract"] copies a selected row into the ten inputs of the data
    editor.  [Module SqlManager] models the state the loop changes (the
    globals [viewing_table] and [headers], the rows of the table widget,
    its ten column headings, and the keyed text elements ["-columnt<i>"]
    and ["-columnip<i>"] as a [gmap] from key to value) and the handlers
    as functions into [error + state], the Python exceptions being
    values of [error].  The database is reached through the class
    [SqlConnection]: what [cur.execute] answers to a query, with the
    law that every row has one value per column.  The database path
    dialog, the help window and the drawing are not modelled. *)

From stdpp Require Import base list strings gmap sets.
From Stdlib Require Import Ascii String NArith Lia.
From S2P Require Import Prelude PyString KeyGuess.

Module SqlManager.

Local Open Scope string_scope.

(** ** The database *)

(** A value of a row, as the table widget shows it. *)
Abbreviation value := string (only parsing).

(** The answer to [SELECT * FROM t]: the column names of
    [cur.description] and the rows of [cur.fetchall()]. *)
Record sql_table := SqlTable { columns : list string; rows : list (list value) }.

(** What the program relies on from [sqlite3]: [execute q] is the
    result of the query [q], [None] when SQLite raises
    [OperationalError]. *)
Class SqlConnection := {
  execute : string -> option sql_table;
  execute_width : forall q t, execute q = Some t ->
    Forall (fun r => List.length r = List.length (columns t)) (rows t)
}.

(** A database file as a list of named tables, answering [SELECT * FROM t;]
    for each of its tables whose rows have the width of its columns. *)
Definition table_ok (t : sql_table) : bool :=
  forallb (fun r => Nat.eqb (List.length r) (List.length (columns t))) (rows t).

Definition db_execute (db : list (string * sql_table)) (q : string) : option sql_table :=
  match List.find (fun '(n, _) => String.eqb q ("SELECT * FROM " ++ n ++ ";")) db with
  | Some (_, t) => if table_ok t then Some t else None
  | None => None
  end.

Lemma db_execute_width db q t : db_execute db q = Some t ->
  Forall (fun r => List.length r = List.length (columns t)) (rows t).
Proof.
  unfold db_execute. destruct (List.find _ _) as [[n t']|]; [|done].
  destruct (table_ok t') eqn:Hok; [|done]. intros [= <-].
  unfold table_ok in Hok. apply Forall_forall. intros r Hr%list_elem_of_In.
  eapply forallb_forall in Hok; [|done]. by apply Nat.eqb_eq.
Qed.

Definition db_connection (db : list (string * sql_table)) : SqlConnection :=
  {| execute := db_execute db; execute_width := db_execute_width db |}.

(** ** Errors and the state *)

Inductive error :=
| NameError (name : string)
| TypeError (key : string)
| IndexError
| OperationalError.

(** [default_headings = [str(i) for i in range(10)]]. *)
Definition default_headings : list string := map (fun i => str_N (N.of_nat i)) (seq 0 10).

(** The keys ["-columnt"+str(i)] and ["-columnip"+str(i)]. *)
Definition key_t (i : nat) : string := "-columnt" ++ str_N (N.of_nat i).
Definition key_ip (i : nat) : string := "-columnip" ++ str_N (N.of_nat i).

(** The keys of the elements the loop updates. *)
Definition element_keys : list string := map key_t (seq 0 10) ++ map key_ip (seq 0 10).

(** Every key of the window: the listbox, the buttons (whose key is their
    text), the table, the separator (given the automatic key [0]) and the
    twenty keyed texts and inputs. *)
Definition window_keys : list string :=
  ["-tablelistbox"; "Show"; "-tabledata"; "Extract"; "Delete"; "Help"; "Exit"; "0"] ++ element_keys.

(** [Window._find_closest_key(key)]. *)
Definition guess_key (key : string) : option string := KeyGuess.get_close_match key window_keys.

Record state := State {
  viewing_table : option string;
  (** [None] while the global [headers] is undefined. *)
  headers : option (list string);
  (** [window["-tabledata"].Values] *)
  table_values : list (list value);
  (** the heading texts of the ten columns of the table widget *)
  headings : list string;
  (** the values of the keyed text and input elements *)
  elements : gmap string string;
  (** the keys reported by a key-error popup, in order *)
  popups : list string
}.

(** The window as built at lines 93-125: the table holds one empty row,
    the headings are [default_headings], the labels read ["Column i"]
    and the inputs are empty. *)
Definition init : state := {|
  viewing_table := None;
  headers := None;
  table_values := [[]];
  headings := default_headings;
  elements := list_to_map
    (map (fun i => (key_t i, "Column " ++ str_N (N.of_nat i))) (seq 0 10) ++
     map (fun i => (key_ip i, "")) (seq 0 10));
  popups := []
|}.

(** The state with the element values [m]. *)
Definition with_elements (st : state) (m : gmap string string) : state :=
  State (viewing_table st) (headers st) (table_values st) (headings st) m (popups st).

(** The state after a key-error popup for [key]. *)
Definition with_popup (key : string) (st : state) : state :=
  State (viewing_table st) (headers st) (table_values st) (headings st) (elements st) (popups st ++ [key]).

(** [window[key].update(value=v)].  For a key the layout lacks,
    PySimpleGUI shows a key-error popup and returns the element of the
    key [difflib] finds closest ([guess_key]), whose value is then set;
    with no close key it returns an [ErrorElement] whose [update] does
    nothing, and an element without a [value] parameter (the table, the
    listbox, a button) raises [TypeError]. *)
Definition update_element (key v : string) (st : state) : error + state :=
  match elements st !! key with
  | Some _ => inr (with_elements st (<[key := v]> (elements st)))
  | None =>
      let st := with_popup key st in
      match guess_key key with
      | None => inr st
      | Some k =>
          match elements st !! k with
          | Some _ => inr (with_elements st (<[k := v]> (elements st)))
          | None => inl (TypeError k)
          end
      end
  end.

(** [table.heading(default_headings[i], text=v)]. *)
Definition set_heading (i : nat) (v : string) (st : state) : state :=
  State (viewing_table st) (headers st) (table_values st) (<[i := v]> (headings st)) (elements st) (popups st).

(** [update_title]: the first [min(10, len(new_headings))] columns take
    the new headings, the others their number. *)
Definition update_title (new_headings : list string) (st : state) : error + state :=
  let header_size := Nat.min (List.length default_headings) (List.length new_headings) in
  st ← fold_res (fun st '(i, (_, text)) =>
                   update_element (key_t i) text (set_heading i text st))
                st (zip (seq 0 (List.length default_headings)) (zip default_headings new_headings));
  fold_res (fun st i =>
              let text := str_N (N.of_nat i) in
              update_element (key_t i) text (set_heading i text st))
           st (seq header_size (10 - header_size)).

(** The ["Show"] branch of the event loop for the selection [sel] of the
    table list. *)
Definition show `{SqlConnection} (sel : list string) (st : state) : error + state :=
  match sel with
  | [] => inr st
  | viewing :: _ =>
      tbl ← match execute ("SELECT * FROM " ++ viewing ++ ";") with
            | Some t => inr t
            | None => inl OperationalError
            end;
      let st := State (Some viewing) (Some (columns tbl)) (rows tbl) (headings st) (elements st) (popups st) in
      st ← update_title (columns tbl) st;
      fold_res (fun st i => update_element (key_ip i) "" st) st (seq 0 10)
  end.

(** The ["Extract"] branch for the selected rows [sel] of the table. *)
Definition extract (sel : list nat) (st : state) : error + state :=
  match sel with
  | [] => inr st
  | row :: _ =>
      data ← from_option inr (inl IndexError) (table_values st !! row);
      hs ← from_option inr (inl (NameError "headers")) (headers st);
      fold_res (fun st i =>
                  v ← from_option inr (inl IndexError) (data !! i);
                  update_element (key_ip i) v st)
               st (seq 0 (List.length hs))
  end.

(** The events of the loop; [Closed] and [Exit] end it and ["Help"]
    opens a window of its own that leaves the state alone. *)
Inductive event :=
| Closed
| Exit
| Show (sel : list string)
| Extract (sel : list nat)
| Help.

(** One iteration of [while True]: [None] when the loop breaks. *)
Definition handle_event `{SqlConnection} (ev : event) (st : state) : error + option state :=
  match ev with
  | Closed | Exit => inr None
  | Show sel => Some <$> show sel st
  | Extract sel => Some <$> extract sel st
  | Help => inr (Some st)
  end.

(** States of the loop reached without an exception. *)
Inductive reachable `{SqlConnection} : state -> Prop :=
| reachable_init : reachable init
| reachable_step st ev st' :
    reachable st -> handle_event ev st = inr (Some st') -> reachable st'.

(** The text of column [i] after [update_title hs]. *)
Definition title_text (hs : list string) (i : nat) : string :=
  default (str_N (N.of_nat i)) (hs !! i).

Definition title_texts (hs : list string) : list string := map (title_text hs) (seq 0 10).

(** The window invariant: the keyed elements are exactly those of the
    layout; the table has ten headings; before the first ["Show"] the
    table is the initial one, and after it the headings and the labels
    ["-columnt<i>"] both show [title_texts headers] and every row has
    one value per header. *)
Definition sql_inv (st : state) : Prop :=
  (forall k, is_Some (elements st !! k) <-> k ∈ element_keys) /\
  match headers st with
  | None => table_values st = [[]] /\ headings st = default_headings /\
            forall i, (i < 10)%nat -> elements st !! key_t i = Some ("Column " ++ str_N (N.of_nat i))
  | Some hs => Forall (fun r => List.length r = List.length hs) (table_values st) /\
               headings st = title_texts hs /\
               forall i, (i < 10)%nat -> elements st !! key_t i = title_texts hs !! i
  end.

(** One step of the loops of [update_title], without the lookups. *)
Definition title_upd (hs : list string) (st : state) (i : nat) : state :=
  State (viewing_table st) (headers st) (table_values st)
        (<[i := title_text hs i]> (headings st)) (<[key_t i := title_text hs i]> (elements st)) (popups st).

(** The effect of [update_title hs] and of clearing the ten inputs. *)
Definition titled (hs : list string) (st : state) : state := foldl (title_upd hs) st (seq 0 10).

Definition cleared (st : state) : state :=
  with_elements st (foldl (fun m i => <[key_ip i := ""]> m) (elements st) (seq 0 10)).

(** The state after [show] has loaded the table [tbl] named [name]. *)
Definition shown (name : string) (tbl : sql_table) (st : state) : state :=
  cleared (titled (columns tbl) (State (Some name) (Some (columns tbl)) (rows tbl) (headings st) (elements st) (popups st))).

(** The input value [i] of an extracted row goes to: its own input for
    the first ten, the guessed one for the others. *)
Definition extract_target (i : nat) : option string :=
  if (i <? 10)%nat then Some (key_ip i) else guess_key (key_ip i).

(** The write of the value [v] of column [i]. *)
Definition write_target (i : nat) (v : string) (m : gmap string string) : gmap string string :=
  match extract_target i with Some k => <[k := v]> m | None => m end.

(** The state after [extract] has copied [data] under the headers [hs]:
    a popup for every column from the eleventh on. *)
Definition extracted (hs data : list string) (st : state) : state :=
  State (viewing_table st) (headers st) (table_values st) (headings st)
    (foldl (fun m i => write_target i (data !!! i) m) (elements st) (seq 0 (List.length hs)))
    (popups st ++ map key_ip (seq 10 (List.length hs - 10))).

(** The last column whose value goes to input [j], if any. *)
Definition last_write (n j : nat) : option nat :=
  foldl (fun acc i => if bool_decide (extract_target i = Some (key_ip j)) then Some i else acc) None (seq 0 n).

(** A database for the examples: a table of two columns and one of
    eleven, and the window after showing each. *)
Definition demo_db : list (string * sql_table) :=
  [("users", SqlTable ["id"; "name"] [["1"; "ann"]; ["2"; "bob"]]);
   ("wide", SqlTable (map (fun i => "c" ++ str_N (N.of_nat i)) (seq 0 11))
                     [map (fun i => str_N (N.of_nat i)) (seq 0 11)])].

Definition demo_connection : SqlConnection := db_connection demo_db.

Definition after_show (name : string) : state :=
  match show (H := demo_connection) [name] init with inr st => st | inl _ => init end.

(** ** Lemmas *)

(** *** Loops in the error monad *)

(** [for i, (_, text) in enumerate(zip(names, l))] runs over the indices
    below [min(len(names), len(l))]. *)
Lemma fold_res_enumerate_zip {A} (F : nat -> string -> A -> error + A) (d : nat -> string)
    (a : A) (s n : nat) (l : list string) :
  fold_res (fun a '(i, (_, text)) => F i text a) a (zip (seq s n) (zip (map d (seq s n)) l)) =
  fold_res (fun a i => F i (l !!! (i - s)) a) a (seq s (Nat.min n (List.length l))).
Proof.
  revert a s n. induction l as [|x l IH]; intros a s [|n]; simpl; [done..|].
  rewrite Nat.sub_diag. simpl. destruct (F s x a) as [e|a']; simpl; [done|]. rewrite IH.
  apply fold_res_ext. intros a'' i Hi%elem_of_seq.
  by replace (i - s)%nat with (S (i - S s)) by lia.
Qed.

(** *** The keys *)

Lemma key_t_inj (i j : nat) : (i < 10)%nat -> (j < 10)%nat -> key_t i = key_t j -> i = j.
Proof.
  unfold key_t. intros Hi Hj H%append_inv_l. rewrite !str_N_small in H by lia.
  injection H as H%digit_char_inj; lia.
Qed.

Lemma key_ip_inj (i j : nat) : (i < 10)%nat -> (j < 10)%nat -> key_ip i = key_ip j -> i = j.
Proof.
  unfold key_ip. intros Hi Hj H%append_inv_l. rewrite !str_N_small in H by lia.
  injection H as H%digit_char_inj; lia.
Qed.

Lemma key_t_ne_key_ip (i j : nat) : key_t i <> key_ip j.
Proof. unfold key_t, key_ip. rewrite !append_cons, !append_nil. by intros [=]. Qed.

Lemma key_ip_large_missing (i : nat) : (10 <= i)%nat -> key_ip i ∉ element_keys.
Proof.
  intros Hi. unfold element_keys. rewrite elem_of_app, !list_elem_of_fmap.
  assert (Hl : (11 <= String.length (key_ip i))%nat).
  { unfold key_ip. rewrite length_append. pose proof (str_N_large (N.of_nat i)). simpl. lia. }
  intros [(j & Hj & Hs%elem_of_seq) | (j & Hj & Hs%elem_of_seq)]; rewrite Hj in Hl.
  - unfold key_t in Hl. rewrite length_append, str_N_small in Hl by lia. simpl in Hl. lia.
  - unfold key_ip in Hl. rewrite length_append, str_N_small in Hl by lia. simpl in Hl. lia.
Qed.

(** *** Writes by index and by key *)

Lemma seq_split (n m : nat) : (m <= n)%nat -> seq 0 n = (seq 0 m ++ seq m (n - m))%list.
Proof. intros Hm. replace n with (m + (n - m))%nat at 1 by lia. by rewrite seq_app. Qed.

Lemma foldl_list_insert_seq {A} (t : nat -> A) (h : list A) (k : nat) :
  (k <= List.length h)%nat ->
  foldl (fun h i => <[i := t i]> h) h (seq 0 k) = (map t (seq 0 k) ++ drop k h)%list.
Proof.
  induction k as [|k IH]; intros Hk; [done|].
  rewrite seq_S, foldl_app, IH by lia. simpl.
  destruct (lookup_lt_is_Some_2 h k) as [x Hx]; [lia|].
  rewrite insert_app_r_alt by (rewrite length_map, length_seq; lia).
  rewrite length_map, length_seq, Nat.sub_diag, (drop_S _ x) by done. simpl.
  by rewrite map_app, <-app_assoc.
Qed.

Lemma lookup_foldl_insert_out (k : nat -> string) (v : nat -> string) (m : gmap string string)
    (xs : list nat) (key : string) :
  (forall i, i ∈ xs -> k i <> key) ->
  foldl (fun m i => <[k i := v i]> m) m xs !! key = m !! key.
Proof.
  revert m. induction xs as [|x xs IH]; intros m Hk; [done|]. simpl.
  rewrite IH by set_solver. apply lookup_insert_ne. apply Hk. set_solver.
Qed.

Lemma lookup_foldl_insert_in (k : nat -> string) (v : nat -> string) (m : gmap string string)
    (xs : list nat) (j : nat) :
  NoDup xs -> (forall i, i ∈ xs -> k i = k j -> i = j) -> j ∈ xs ->
  foldl (fun m i => <[k i := v i]> m) m xs !! k j = Some (v j).
Proof.
  revert m. induction xs as [|x xs IH]; intros m Hnd Hk Hj; [set_solver|]. simpl.
  apply NoDup_cons in Hnd as [Hx Hnd].
  destruct (decide (x = j)) as [->|Hne].
  - rewrite lookup_foldl_insert_out; [apply lookup_insert_eq|].
    intros i Hi Heq. apply Hx. rewrite (Hk i) in Hi; set_solver.
  - apply IH; [done| |set_solver]. intros. apply Hk; set_solver.
Qed.

Lemma foldl_insert_is_Some (k : nat -> string) (v : nat -> string) (m : gmap string string)
    (xs : list nat) (key : string) :
  is_Some (m !! key) -> is_Some (foldl (fun m i => <[k i := v i]> m) m xs !! key).
Proof.
  revert m. induction xs as [|x xs IH]; intros m Hm; [done|]. simpl. apply IH.
  destruct (decide (k x = key)) as [->|Hne]; [rewrite lookup_insert_eq; eauto|by rewrite lookup_insert_ne].
Qed.

Lemma foldl_insert_is_Some_inv (k : nat -> string) (v : nat -> string) (m : gmap string string)
    (xs : list nat) (key : string) :
  (forall i, i ∈ xs -> is_Some (m !! k i)) ->
  is_Some (foldl (fun m i => <[k i := v i]> m) m xs !! key) -> is_Some (m !! key).
Proof.
  revert m. induction xs as [|x xs IH]; intros m Hks Hm; [done|]. simpl in Hm.
  apply IH in Hm.
  - destruct (decide (k x = key)) as [<-|Hne]; [apply Hks; set_solver|by rewrite lookup_insert_ne in Hm].
  - intros i Hi. destruct (decide (k x = k i)) as [->|Hne]; [rewrite lookup_insert_eq; eauto|].
    rewrite lookup_insert_ne by done. apply Hks. set_solver.
Qed.

Lemma update_element_some (key v : string) (st : state) (w : string) :
  elements st !! key = Some w ->
  update_element key v st = inr (with_elements st (<[key := v]> (elements st))).
Proof. intros Hw. unfold update_element. by rewrite Hw. Qed.

(** A loop of [window[k(i)].update(value=v(i))] over elements that exist. *)
Lemma fold_update_elements (k v : nat -> string) (st : state) (xs : list nat) :
  (forall i, i ∈ xs -> is_Some (elements st !! k i)) ->
  fold_res (fun st i => update_element (k i) (v i) st) st xs =
  inr (with_elements st (foldl (fun m i => <[k i := v i]> m) (elements st) xs)).
Proof.
  revert st. induction xs as [|x xs IH]; intros st Hks; [by destruct st|]. simpl.
  destruct (Hks x) as [w Hw]; [set_solver|]. rewrite (update_element_some _ _ _ w Hw). simpl.
  rewrite IH; [done|]. intros i Hi. simpl. apply foldl_insert_is_Some with (xs := [x]). apply Hks. set_solver.
Qed.

(** *** [update_title] *)

Lemma update_title_loop (hs : list string) (st : state) :
  update_title hs st =
  fold_res (fun st i => update_element (key_t i) (title_text hs i) (set_heading i (title_text hs i) st))
           st (seq 0 10).
Proof.
  unfold update_title, default_headings. rewrite length_map, length_seq.
  rewrite fold_res_enumerate_zip.
  rewrite (seq_split 10 (Nat.min 10 (List.length hs))) by lia.
  rewrite fold_res_app. apply fold_res_bind_ext.
  - intros a i Hi%elem_of_seq. rewrite Nat.sub_0_r.
    unfold title_text. by rewrite list_lookup_lookup_total_lt by lia.
  - intros a. apply fold_res_ext.
    intros a' i Hi%elem_of_seq. unfold title_text. rewrite lookup_ge_None_2 by lia. done.
Qed.

Lemma foldl_title_upd (hs : list string) (st : state) (xs : list nat) :
  foldl (title_upd hs) st xs =
  State (viewing_table st) (headers st) (table_values st)
        (foldl (fun h i => <[i := title_text hs i]> h) (headings st) xs)
        (foldl (fun m i => <[key_t i := title_text hs i]> m) (elements st) xs) (popups st).
Proof. revert st. induction xs as [|x xs IH]; intros st; [by destruct st|]. simpl. by rewrite IH. Qed.

(** When the ten labels exist, [update_title] succeeds and writes
    [title_text hs i] to heading [i] and to label [i]. *)
Lemma update_title_eq (hs : list string) (st : state) :
  (forall i, (i < 10)%nat -> is_Some (elements st !! key_t i)) ->
  update_title hs st = inr (foldl (title_upd hs) st (seq 0 10)).
Proof.
  intros Hks. rewrite update_title_loop.
  apply (fold_res_inr (fun st => forall i, (i < 10)%nat -> is_Some (elements st !! key_t i))); [|done].
  intros a i Hi%elem_of_seq Ha. destruct (Ha i) as [w Hw]; [lia|].
  rewrite (update_element_some _ _ _ w) by done. split; [done|].
  intros j Hj. simpl. apply foldl_insert_is_Some with (xs := [i]) (k := key_t) (v := fun _ => title_text hs i).
  by apply Ha.
Qed.

Lemma title_texts_lookup (hs : list string) (i : nat) :
  (i < 10)%nat -> title_texts hs !! i = Some (title_text hs i).
Proof. intros Hi. unfold title_texts. rewrite list_lookup_fmap, lookup_seq_lt by done. done. Qed.

Lemma length_title_texts (hs : list string) : List.length (title_texts hs) = 10%nat.
Proof. unfold title_texts. by rewrite length_map, length_seq. Qed.

(** *** The element keys *)

Lemma key_t_elem (i : nat) : (i < 10)%nat -> key_t i ∈ element_keys.
Proof. intros Hi. unfold element_keys. apply elem_of_app. left. apply list_elem_of_fmap. exists i. split; [done|]. apply elem_of_seq. lia. Qed.

Lemma key_ip_elem (i : nat) : (i < 10)%nat -> key_ip i ∈ element_keys.
Proof. intros Hi. unfold element_keys. apply elem_of_app. right. apply list_elem_of_fmap. exists i. split; [done|]. apply elem_of_seq. lia. Qed.

(** Writing to keys of the layout keeps the keys of the layout. *)
Lemma foldl_insert_dom (k v : nat -> string) (m : gmap string string) (xs : list nat) :
  (forall key, is_Some (m !! key) <-> key ∈ element_keys) ->
  (forall i, i ∈ xs -> k i ∈ element_keys) ->
  forall key, is_Some (foldl (fun m i => <[k i := v i]> m) m xs !! key) <-> key ∈ element_keys.
Proof.
  intros Hdom Hks key. split.
  - intros H. apply Hdom. eapply foldl_insert_is_Some_inv; [|done]. intros i Hi. apply Hdom. by apply Hks.
  - intros H. apply foldl_insert_is_Some. by apply Hdom.
Qed.

Lemma init_dom (key : string) : is_Some (elements init !! key) <-> key ∈ element_keys.
Proof.
  unfold init, element_keys. cbn [elements]. rewrite <-elem_of_dom, dom_list_to_map_L, elem_of_list_to_set.
  rewrite fmap_app, <-!list_fmap_compose. done.
Qed.

Definition elements_dom (st : state) : Prop :=
  forall k, is_Some (elements st !! k) <-> k ∈ element_keys.

(** *** [show] and [extract] *)

Lemma show_eq `{SqlConnection} (name : string) (rest : list string) (st : state) (tbl : sql_table) :
  elements_dom st -> execute ("SELECT * FROM " ++ name ++ ";") = Some tbl ->
  show (name :: rest) st = inr (shown name tbl st).
Proof.
  intros Hdom Hq. unfold show. rewrite Hq. cbn [mbind sum_bind].
  rewrite update_title_eq by (intros i Hi; apply Hdom, key_t_elem; lia). cbn [mbind sum_bind].
  unfold shown, cleared, titled. apply fold_update_elements.
  intros i Hi%elem_of_seq. rewrite foldl_title_upd. cbn [elements].
  apply foldl_insert_is_Some, Hdom, key_ip_elem. lia.
Qed.

(** *** The key [difflib] guesses for a missing input *)

(** The characters of the keys ["-columnip<i>"]. *)
Definition ip_chars : list ascii := list_ascii_of_string "-columnip0123456789".

Lemma digit_ip_char (c : ascii) : is_digit c = true -> c ∈ ip_chars.
Proof.
  intros H. destruct c as [[] [] [] [] [] [] [] []]; try discriminate H;
    apply (bool_decide_unpack _); vm_compute; exact I.
Qed.

(** ["-columnip<i>"] extends ["-columnip<d>"], [d] the first digit of [i]. *)
Lemma key_ip_digits (i : nat) : exists d rest, (d < 10)%nat /\ key_ip i = key_ip d ++ rest.
Proof.
  destruct (str_N_digits (N.of_nat i)) as (c & rest & Hs & Hc & _).
  exists (N.to_nat (digit_value c)), rest. pose proof (digit_value_lt c Hc). split; [lia|].
  unfold key_ip. rewrite Hs, N2Nat.id, str_N_small, digit_char_value by done. done.
Qed.

Lemma key_ip_chars (i : nat) (c : ascii) : c ∈ list_ascii_of_string (key_ip i) -> c ∈ ip_chars.
Proof.
  destruct (str_N_digits (N.of_nat i)) as (d & rest & Hs & Hd & Hr%forall_chars_Forall).
  rewrite Forall_forall in Hr. unfold key_ip. rewrite Hs, KeyGuess.ascii_list_app. intros [Hc|Hc]%elem_of_app.
  - revert c Hc. apply Forall_forall, (bool_decide_unpack _). vm_compute. exact I.
  - apply elem_of_cons in Hc as [->|Hc]; [by apply digit_ip_char|by apply digit_ip_char, Hr].
Qed.

Definition other_keys : list string :=
  (["-tablelistbox"; "Show"; "-tabledata"; "Extract"; "Delete"; "Help"; "Exit"; "0"] ++ map key_t (seq 0 10))%list.

Lemma window_keys_split : window_keys = (other_keys ++ map key_ip (seq 0 10))%list.
Proof. unfold window_keys, other_keys, element_keys. by rewrite <-!app_assoc. Qed.

(** No other key has more than nine characters of the inputs' keys. *)
Lemma other_keys_count :
  Forall (fun x => (KeyGuess.count_in (list_ascii_of_string x) ip_chars <= 9)%nat) other_keys.
Proof. apply (bool_decide_unpack _). vm_compute. exact I. Qed.

Lemma guess_key_spec (key k : string) :
  key <> EmptyString -> guess_key key = Some k ->
  k ∈ window_keys /\ KeyGuess.cutoff_ok (KeyGuess.ratio k key) = true /\
  forall y, y ∈ window_keys -> KeyGuess.cutoff_ok (KeyGuess.ratio y key) = true ->
            ~ KeyGuess.score_lt (KeyGuess.ratio k key) (KeyGuess.ratio y key).
Proof. apply KeyGuess.get_close_match_spec. Qed.

Lemma guess_score_arith (sk sip lk w ck ck' : nat) :
  (sk <= 2 * ck -> ck <= lk -> ck <= ck' -> ck' <= 9 -> 20 <= sip -> 1 <= w ->
  sk * (10 + w) < sip * (lk + w))%nat.
Proof. intros. nia. Qed.

(** For a missing input ["-columnip<i>"], the closest key is an input:
    the one of the first digit of [i] shares its ten characters, which
    no other key of the window matches. *)
Lemma guess_key_ip (i : nat) (k : string) :
  guess_key (key_ip i) = Some k -> exists d, (d < 10)%nat /\ k = key_ip d.
Proof.
  intros Hg. apply guess_key_spec in Hg as (Hk & Hc & Hmax); [|by unfold key_ip].
  rewrite window_keys_split, elem_of_app in Hk.
  destruct Hk as [Hk|(d & -> & Hd%elem_of_seq)%list_elem_of_fmap]; [exfalso|exists d; split; [lia|done]].
  destruct (key_ip_digits i) as (d & rest & Hd & Hw).
  assert (Hlen : String.length (key_ip d) = 10%nat) by (unfold key_ip; rewrite str_N_small by lia; done).
  pose proof (KeyGuess.ratio_prefix (key_ip d) rest ltac:(by unfold key_ip)) as Hip.
  rewrite <-Hw, Hlen in Hip.
  pose proof (KeyGuess.ratio_le_count k (key_ip i)) as Hk1.
  pose proof (KeyGuess.count_in_le (list_ascii_of_string k) (list_ascii_of_string (key_ip i))) as Hk2.
  pose proof (KeyGuess.count_in_sub (list_ascii_of_string k) _ _ (key_ip_chars i)) as Hk3.
  eapply Forall_forall in Hk; [|exact other_keys_count]. cbn beta in Hk.
  rewrite KeyGuess.ascii_list_length in Hk2.
  assert (Hwl : (1 <= String.length (key_ip i))%nat) by (unfold key_ip; simpl; lia).
  assert (Hlt : KeyGuess.score_lt (KeyGuess.ratio k (key_ip i)) (KeyGuess.ratio (key_ip d) (key_ip i))).
  { unfold KeyGuess.score_lt. rewrite !KeyGuess.ratio_snd, Hlen. eapply guess_score_arith; eauto; lia. }
  apply (Hmax (key_ip d)); [|apply (KeyGuess.cutoff_ok_lt (KeyGuess.ratio k (key_ip i))); [apply KeyGuess.ratio_total_pos; by unfold key_ip|exact Hc|exact Hlt]|exact Hlt].
  rewrite window_keys_split. apply elem_of_app. right. apply list_elem_of_fmap. exists d. split; [done|].
  apply elem_of_seq. lia.
Qed.

(** *** [extract] *)

Lemma extract_target_ip (i : nat) (k : string) : extract_target i = Some k -> exists d, (d < 10)%nat /\ k = key_ip d.
Proof.
  unfold extract_target. case_match eqn:Hi; [intros [= <-]; exists i; split; [by apply Nat.ltb_lt|done]|].
  apply guess_key_ip.
Qed.

Lemma extract_target_lt (i : nat) : (i < 10)%nat -> extract_target i = Some (key_ip i).
Proof. intros Hi. unfold extract_target. by rewrite (proj2 (Nat.ltb_lt i 10)). Qed.

(** [window[key_ip(i)].update(value=v)] on a window with the elements of
    the layout: the value goes to [extract_target i], with a popup for
    an input the window lacks. *)
Lemma update_element_ip (i : nat) (v : string) (st : state) :
  elements_dom st ->
  update_element (key_ip i) v st =
  inr (State (viewing_table st) (headers st) (table_values st) (headings st)
         (write_target i v (elements st)) (popups st ++ if decide (10 <= i)%nat then [key_ip i] else [])).
Proof.
  intros Hdom. unfold update_element, write_target, extract_target.
  destruct (decide (10 <= i)%nat) as [Hi|Hi].
  - rewrite (proj2 (Nat.ltb_ge i 10) Hi).
    assert (Hn : elements st !! key_ip i = None).
    { apply eq_None_not_Some. intros Hs%Hdom. by apply (key_ip_large_missing i). }
    rewrite Hn. destruct (guess_key (key_ip i)) as [k|] eqn:Hg; [|done].
    destruct (guess_key_ip i k Hg) as (d & Hd & ->).
    destruct (proj2 (Hdom (key_ip d)) (key_ip_elem d Hd)) as [w Hw]. cbn [elements with_popup]. by rewrite Hw.
  - rewrite (proj2 (Nat.ltb_lt i 10)) by lia.
    destruct (proj2 (Hdom (key_ip i)) (key_ip_elem i ltac:(lia))) as [w Hw]. rewrite Hw.
    unfold with_elements. by rewrite app_nil_r.
Qed.

(** The writes of [extract] keep the keys of the layout and the labels. *)
Lemma write_target_dom (i : nat) (v : string) (m : gmap string string) :
  (forall key, is_Some (m !! key) <-> key ∈ element_keys) ->
  forall key, is_Some (write_target i v m !! key) <-> key ∈ element_keys.
Proof.
  intros Hdom key. unfold write_target. destruct (extract_target i) as [k|] eqn:Hx; [|done].
  destruct (extract_target_ip i k Hx) as (d & Hd & ->). rewrite <-Hdom.
  destruct (decide (key_ip d = key)) as [<-|Hne]; [rewrite lookup_insert_eq|by rewrite lookup_insert_ne].
  split; [intros _; apply Hdom, key_ip_elem, Hd|eauto].
Qed.

Lemma foldl_write_dom (data : list string) (m : gmap string string) (xs : list nat) :
  (forall key, is_Some (m !! key) <-> key ∈ element_keys) ->
  forall key, is_Some (foldl (fun m i => write_target i (data !!! i) m) m xs !! key) <-> key ∈ element_keys.
Proof. revert m. induction xs as [|x xs IH]; intros m Hdom; [done|]. by apply IH, write_target_dom. Qed.

Lemma foldl_write_key_t (data : list string) (m : gmap string string) (xs : list nat) (j : nat) :
  foldl (fun m i => write_target i (data !!! i) m) m xs !! key_t j = m !! key_t j.
Proof.
  revert m. induction xs as [|x xs IH]; intros m; [done|]. simpl. rewrite IH.
  unfold write_target. destruct (extract_target x) as [k|] eqn:Hx; [|done].
  destruct (extract_target_ip x k Hx) as (d & _ & ->). apply lookup_insert_ne, not_eq_sym, key_t_ne_key_ip.
Qed.

(** Input [j] holds the value of the last column written to it. *)
Lemma lookup_foldl_write (data : list string) (m0 : gmap string string) (j : nat) (xs : list nat) :
  forall m acc, m !! key_ip j = match acc with Some i => Some (data !!! i) | None => m0 !! key_ip j end ->
  foldl (fun m i => write_target i (data !!! i) m) m xs !! key_ip j =
  match foldl (fun acc i => if bool_decide (extract_target i = Some (key_ip j)) then Some i else acc) acc xs with
  | Some i => Some (data !!! i) | None => m0 !! key_ip j end.
Proof.
  induction xs as [|x xs IH]; intros m acc Hm; [done|]. simpl. apply IH.
  unfold write_target. case_bool_decide as Hx; [by rewrite Hx, lookup_insert_eq|].
  destruct (extract_target x) as [k|]; [|done]. rewrite lookup_insert_ne by congruence. done.
Qed.

Lemma last_write_lt (n j i : nat) : last_write n j = Some i -> (i < n)%nat.
Proof.
  unfold last_write. cut (forall acc xs, (forall i, acc = Some i -> i < n)%nat -> (forall i, i ∈ xs -> i < n)%nat ->
    forall i, foldl (fun acc i => if bool_decide (extract_target i = Some (key_ip j)) then Some i else acc) acc xs = Some i -> (i < n)%nat).
  { intros H. apply H; [done|]. intros i' Hi%elem_of_seq. lia. }
  intros acc xs. revert acc. induction xs as [|x xs IH]; intros acc Hacc Hxs; [done|]. simpl. apply IH; [|set_solver].
  case_bool_decide; [intros ? [= <-]; apply Hxs; set_solver|done].
Qed.

(** Up to ten columns, column [j] is the one written to input [j]. *)
Lemma last_write_narrow (n j : nat) : (n <= 10)%nat -> (j < 10)%nat -> last_write n j = if (j <? n)%nat then Some j else None.
Proof.
  intros Hn Hj10. unfold last_write.
  cut (forall s acc, (s + n <= 10)%nat -> (j < s)%nat \/ acc = None ->
    foldl (fun acc i => if bool_decide (extract_target i = Some (key_ip j)) then Some i else acc) acc (seq s n) =
    if bool_decide (s <= j < s + n)%nat then Some j else acc).
  { intros H. rewrite H; [|lia|by right]. destruct (j <? n)%nat eqn:Hj; [apply Nat.ltb_lt in Hj|apply Nat.ltb_ge in Hj]; case_bool_decide; try lia; done. }
  induction n as [|n IH]; intros s acc Hs Hacc; [rewrite bool_decide_false by lia; done|].
  cbn [seq foldl]. rewrite (extract_target_lt s) by lia.
  case_bool_decide as Hsj.
  - assert (s = j) as -> by (apply key_ip_inj; [lia|lia|congruence]). rewrite IH by lia.
    rewrite bool_decide_false, bool_decide_true by lia. done.
  - rewrite IH by (lia || (destruct Hacc; [left; lia|right; done])).
    destruct (decide (j = s)) as [->|Hne]; [done|].
    destruct Hacc as [Hj| ->]; repeat case_bool_decide; try lia; done.
Qed.

Lemma filter_seq_ge (s n : nat) :
  filter (fun i => 10 <= i)%nat (seq s n) = seq (Nat.max s 10) (s + n - Nat.max s 10).
Proof.
  revert s. induction n as [|n IH]; intros s.
  { cbn [seq]. by replace (s + 0 - Nat.max s 10)%nat with 0%nat by lia. }
  cbn [seq]. rewrite filter_cons, IH. case_decide.
  - rewrite Nat.max_l, Nat.max_l by lia. replace (s + S n - s)%nat with (S n) by lia. cbn [seq].
    do 2 f_equal. lia.
  - rewrite Nat.max_r, Nat.max_r by lia. f_equal. lia.
Qed.

Lemma fold_extract (data : list string) (st : state) (xs : list nat) :
  elements_dom st -> (forall i, i ∈ xs -> i < List.length data)%nat ->
  fold_res (fun st i => v ← from_option inr (inl IndexError) (data !! i); update_element (key_ip i) v st) st xs =
  inr (State (viewing_table st) (headers st) (table_values st) (headings st)
         (foldl (fun m i => write_target i (data !!! i) m) (elements st) xs)
         (popups st ++ map key_ip (filter (fun i => 10 <= i)%nat xs))).
Proof.
  revert st. induction xs as [|x xs IH]; intros st Hdom Hxs.
  { destruct st. simpl. by rewrite app_nil_r. }
  simpl. rewrite list_lookup_lookup_total_lt by (apply Hxs; set_solver). cbn [mbind sum_bind from_option].
  rewrite update_element_ip by done. simpl. rewrite IH; [|intros key; by apply write_target_dom|set_solver].
  cbn [viewing_table headers table_values headings elements popups]. rewrite filter_cons, <-app_assoc. by case_decide.
Qed.

Lemma extract_eq (row : nat) (rest : list nat) (st : state) (hs data : list string) :
  elements_dom st -> headers st = Some hs -> table_values st !! row = Some data ->
  List.length data = List.length hs -> extract (row :: rest) st = inr (extracted hs data st).
Proof.
  intros Hdom Hhs Hrow Hlen. unfold extract. rewrite Hrow, Hhs. cbn [mbind sum_bind from_option].
  rewrite fold_extract; [|done|intros i Hi%elem_of_seq; lia]. unfold extracted. by rewrite filter_seq_ge.
Qed.

Lemma extracted_key_ip (hs data : list string) (st : state) (j : nat) :
  elements (extracted hs data st) !! key_ip j =
  match last_write (List.length hs) j with Some i => Some (data !!! i) | None => elements st !! key_ip j end.
Proof. unfold extracted, last_write. cbn [elements]. by apply lookup_foldl_write. Qed.

(** *** The invariant *)

Lemma titled_headings (hs : list string) (st : state) :
  List.length (headings st) = 10%nat -> headings (titled hs st) = title_texts hs.
Proof.
  intros Hl. unfold titled. rewrite foldl_title_upd. cbn [headings].
  rewrite foldl_list_insert_seq by lia. by rewrite drop_ge, app_nil_r by lia.
Qed.

Lemma titled_key_t (hs : list string) (st : state) (i : nat) :
  (i < 10)%nat -> elements (titled hs st) !! key_t i = Some (title_text hs i).
Proof.
  intros Hi. unfold titled. rewrite foldl_title_upd. cbn [elements].
  apply lookup_foldl_insert_in; [apply NoDup_seq| |apply elem_of_seq; lia].
  intros j Hj%elem_of_seq. apply key_t_inj; lia.
Qed.

Lemma titled_dom (hs : list string) (st : state) : elements_dom st -> elements_dom (titled hs st).
Proof.
  intros Hdom. unfold titled, elements_dom. rewrite foldl_title_upd. cbn [elements].
  apply foldl_insert_dom; [done|]. intros i Hi%elem_of_seq. apply key_t_elem. lia.
Qed.

Lemma cleared_key_t (st : state) (i : nat) : elements (cleared st) !! key_t i = elements st !! key_t i.
Proof. unfold cleared. cbn [elements]. apply lookup_foldl_insert_out. intros j _. apply not_eq_sym, key_t_ne_key_ip. Qed.

Lemma cleared_key_ip (st : state) (i : nat) : (i < 10)%nat -> elements (cleared st) !! key_ip i = Some "".
Proof.
  intros Hi. unfold cleared. cbn [elements]. apply (lookup_foldl_insert_in key_ip (fun _ => ""));
    [apply NoDup_seq| |apply elem_of_seq; lia].
  intros j Hj%elem_of_seq. apply key_ip_inj; lia.
Qed.

Lemma cleared_dom (st : state) : elements_dom st -> elements_dom (cleared st).
Proof.
  intros Hdom. unfold cleared, elements_dom. cbn [elements].
  apply foldl_insert_dom; [done|]. intros i Hi%elem_of_seq. apply key_ip_elem. lia.
Qed.

Lemma sql_inv_headings (st : state) : sql_inv st -> List.length (headings st) = 10%nat.
Proof.
  intros [_ Hh]. destruct (headers st); destruct Hh as (_ & -> & _); [apply length_title_texts|done].
Qed.

Lemma shown_inv `{SqlConnection} (name : string) (tbl : sql_table) (st : state) :
  sql_inv st -> execute ("SELECT * FROM " ++ name ++ ";") = Some tbl -> sql_inv (shown name tbl st).
Proof.
  intros Hinv Hq. pose proof (sql_inv_headings st Hinv) as Hl. destruct Hinv as [Hdom _].
  split; [by apply cleared_dom, titled_dom|]. unfold shown.
  split_and!.
  - unfold cleared, titled. rewrite foldl_title_upd. by eapply execute_width.
  - unfold cleared. cbn [headings with_elements]. by apply titled_headings.
  - intros i Hi. rewrite cleared_key_t, titled_key_t by done. by rewrite title_texts_lookup.
Qed.

Lemma extracted_inv (hs data : list string) (st : state) :
  sql_inv st -> headers st = Some hs -> sql_inv (extracted hs data st).
Proof.
  intros [Hdom Hh] Hhs. split.
  - unfold extracted, elements_dom. cbn [elements]. by apply foldl_write_dom.
  - unfold extracted. cbn. rewrite Hhs in Hh |- *. destruct Hh as (Hw & Hhd & Hk).
    split_and!; [done|done|]. intros i Hi. rewrite foldl_write_key_t. by apply Hk.
Qed.

Lemma extract_inv (sel : list nat) (st st' : state) :
  sql_inv st -> extract sel st = inr st' -> sql_inv st'.
Proof.
  intros Hinv Hex. destruct sel as [|row rest]; [by injection Hex as <-|].
  pose proof Hinv as [Hdom Hh]. destruct (headers st) as [hs|] eqn:Hhs.
  - destruct Hh as (Hw & _ & _). destruct (table_values st !! row) as [data|] eqn:Hrow.
    + assert (Hlen : List.length data = List.length hs)
        by (eapply Forall_lookup_1 in Hw; [exact Hw|exact Hrow]).
      rewrite (extract_eq row rest st hs data) in Hex by done. injection Hex as <-.
      by apply extracted_inv.
    + unfold extract in Hex. by rewrite Hrow in Hex.
  - destruct Hh as (Htv & _ & _). unfold extract in Hex. rewrite Htv, Hhs in Hex.
    by destruct row as [|[|]].
Qed.

Lemma sql_init_inv : sql_inv init.
Proof.
  split; [exact init_dom|]. cbn [headers init]. split_and!; [done|done|].
  intros i Hi. unfold init. cbn [elements].
  apply elem_of_list_to_map_1.
  - rewrite fmap_app, <-!list_fmap_compose. apply NoDup_app. split_and!.
    + apply NoDup_fmap_2_strong; [|apply NoDup_seq]. intros a b Ha%elem_of_seq Hb%elem_of_seq.
      apply key_t_inj; lia.
    + intros k (a & -> & Ha%elem_of_seq)%list_elem_of_fmap (b & Hb & _)%list_elem_of_fmap.
      by apply (key_t_ne_key_ip a b).
    + apply NoDup_fmap_2_strong; [|apply NoDup_seq]. intros a b Ha%elem_of_seq Hb%elem_of_seq.
      apply key_ip_inj; lia.
  - apply elem_of_app. left. apply list_elem_of_fmap. exists i. split; [done|]. apply elem_of_seq. lia.
Qed.

Lemma reachable_sql_inv `{SqlConnection} (st : state) : reachable st -> sql_inv st.
Proof.
  induction 1 as [|st ev st' Hr IH Hev]; [exact sql_init_inv|].
  destruct ev as [| |sel|sel|]; simpl in Hev; try discriminate.
  - destruct sel as [|name rest]; [by injection Hev as <-|].
    destruct (execute ("SELECT * FROM " ++ name ++ ";")) as [tbl|] eqn:Hq.
    + rewrite (show_eq name rest st tbl) in Hev by (exact (proj1 IH) || done). injection Hev as <-.
      by apply shown_inv.
    + unfold show in Hev. by rewrite Hq in Hev.
  - destruct (extract sel st) as [e|st''] eqn:Hex; [done|]. injection Hev as <-.
    by eapply extract_inv.
  - by injection Hev as <-.
Qed.

Lemma shown_fields (name : string) (tbl : sql_table) (st : state) :
  viewing_table (shown name tbl st) = Some name /\ headers (shown name tbl st) = Some (columns tbl) /\
  table_values (shown name tbl st) = rows tbl.
Proof. unfold shown, cleared, titled. by rewrite foldl_title_upd. Qed.

Lemma shown_headings (name : string) (tbl : sql_table) (st : state) :
  List.length (headings st) = 10%nat -> headings (shown name tbl st) = title_texts (columns tbl).
Proof. intros Hl. unfold shown, cleared. cbn [with_elements headings]. by apply titled_headings. Qed.

Lemma shown_key_t (name : string) (tbl : sql_table) (st : state) (i : nat) :
  (i < 10)%nat -> elements (shown name tbl st) !! key_t i = Some (title_text (columns tbl) i).
Proof. intros Hi. unfold shown. rewrite cleared_key_t. by apply titled_key_t. Qed.

Lemma shown_key_ip (name : string) (tbl : sql_table) (st : state) (i : nat) :
  (i < 10)%nat -> elements (shown name tbl st) !! key_ip i = Some "".
Proof. intros Hi. unfold shown. by apply cleared_key_ip. Qed.

(** Every row of the table widget has one value per header. *)
Lemma row_width (st : state) (hs data : list string) (row : nat) :
  sql_inv st -> headers st = Some hs -> table_values st !! row = Some data ->
  List.length data = List.length hs.
Proof.
  intros [_ Hh] Hhs Hrow. rewrite Hhs in Hh. destruct Hh as (Hw & _ & _).
  by eapply Forall_lookup_1 in Hw; [|exact Hrow].
Qed.

(** ** Properties *)

(** C24: Every state the event loop reaches satisfies [sql_inv]: the
    window has exactly the keyed elements of its layout, and after a
    ["Show"] the table headings and the labels ["-columnt<i>"] both
    show the headers of the loaded table padded with column numbers,
    while every row has one value per header. *)
Theorem sql_reachable_inv `{SqlConnection} (st : state) : reachable st -> sql_inv st.
Proof. apply reachable_sql_inv. Qed.

(** C25: ["Show"] on a table the database can read loads it: the globals
    [viewing_table] and [headers] name it and its columns, the table
    widget holds its rows, column [i] of the heading and label
    ["-columnt<i>"] read its [i]-th column name (or [str(i)] past the
    last one), and the ten inputs are cleared. *)
Theorem show_spec `{SqlConnection} (st : state) (name : string) (rest : list string) (tbl : sql_table) :
  reachable st -> execute ("SELECT * FROM " ++ name ++ ";") = Some tbl ->
  exists st', show (name :: rest) st = inr st' /\
    viewing_table st' = Some name /\ headers st' = Some (columns tbl) /\
    table_values st' = rows tbl /\ headings st' = title_texts (columns tbl) /\
    forall i, (i < 10)%nat ->
      elements st' !! key_t i = Some (title_text (columns tbl) i) /\ elements st' !! key_ip i = Some "".
Proof.
  intros Hr Hq. pose proof (reachable_sql_inv st Hr) as Hinv.
  exists (shown name tbl st). split; [apply show_eq; [exact (proj1 Hinv)|done]|].
  destruct (shown_fields name tbl st) as (-> & -> & ->). split_and!; [done..| |].
  - apply shown_headings. by apply sql_inv_headings.
  - intros i Hi. split; [by apply shown_key_t|by apply shown_key_ip].
Qed.

(** C26: ["Extract"] of a row of a loaded table succeeds whatever its
    width.  Column [i] goes to input ["-columnip<i>"] for the first ten
    columns; each later column has no input of its own, so PySimpleGUI
    shows a key-error popup for it, in column order, and writes its
    value to the input whose key [difflib] finds closest.  Input [j]
    ends with the value of the last column written to it
    ([last_write]), which is column [j] when there are at most ten
    columns; the labels, headers, rows and headings are unchanged and
    the invariant holds. *)
Theorem extract_spec `{SqlConnection} (st : state) (hs data : list string) (row : nat) (rest : list nat) :
  reachable st -> headers st = Some hs -> table_values st !! row = Some data ->
  exists st', extract (row :: rest) st = inr st' /\ sql_inv st' /\
    popups st' = (popups st ++ map key_ip (seq 10 (List.length hs - 10)))%list /\
    (forall j, elements st' !! key_ip j =
       match last_write (List.length hs) j with Some i => data !! i | None => elements st !! key_ip j end) /\
    ((List.length hs <= 10)%nat -> forall j, (j < List.length hs)%nat -> elements st' !! key_ip j = data !! j) /\
    (forall j, elements st' !! key_t j = elements st !! key_t j) /\
    headers st' = headers st /\ table_values st' = table_values st /\ headings st' = headings st.
Proof.
  intros Hr Hhs Hrow. pose proof (reachable_sql_inv st Hr) as Hinv.
  pose proof (row_width st hs data row Hinv Hhs Hrow) as Hlen.
  exists (extracted hs data st). split; [by apply extract_eq; [exact (proj1 Hinv)|..]|].
  split; [by apply extracted_inv|]. split; [done|].
  assert (Hip : forall j, elements (extracted hs data st) !! key_ip j =
    match last_write (List.length hs) j with Some i => data !! i | None => elements st !! key_ip j end).
  { intros j. rewrite extracted_key_ip. destruct (last_write _ j) as [i|] eqn:Hi; [|done].
    apply last_write_lt in Hi. by rewrite list_lookup_lookup_total_lt by lia. }
  split_and!; [done| |intros j; apply foldl_write_key_t|done..].
  intros Hle j Hj. rewrite Hip, last_write_narrow by lia. by rewrite (proj2 (Nat.ltb_lt j _)) by done.
Qed.

(** C32: ["Extract"] before the first ["Show"] raises: the table holds one
    empty row, and selecting it reaches [range(len(headers))] while the
    global [headers] is still undefined ([NameError]); any other row
    index is out of range. *)
Theorem extract_before_show `{SqlConnection} (st : state) (row : nat) (rest : list nat) :
  reachable st -> headers st = None ->
  extract (row :: rest) st = inl (match row with O => NameError "headers" | S _ => IndexError end).
Proof.
  intros Hr Hhs. destruct (reachable_sql_inv st Hr) as [_ Hh]. rewrite Hhs in Hh.
  destruct Hh as (Htv & _ & _). unfold extract. rewrite Htv, Hhs. by destruct row as [|[|]].
Qed.

(** ** Witnesses *)

#[local] Existing Instance demo_connection.

Lemma sql_reachable_inv_witness : sql_inv (after_show "wide").
Proof.
  apply sql_reachable_inv. apply (reachable_step init (Show ["wide"])); [apply reachable_init|].
  vm_compute. reflexivity.
Defined.

Lemma show_spec_witness :
  exists st', show ["users"] init = inr st' /\
    viewing_table st' = Some "users" /\ headers st' = Some ["id"; "name"] /\
    table_values st' = [["1"; "ann"]; ["2"; "bob"]] /\ headings st' = title_texts ["id"; "name"] /\
    forall i, (i < 10)%nat ->
      elements st' !! key_t i = Some (title_text ["id"; "name"] i) /\ elements st' !! key_ip i = Some "".
Proof.
  apply (show_spec init "users" [] (SqlTable ["id"; "name"] [["1"; "ann"]; ["2"; "bob"]])).
  - apply reachable_init.
  - vm_compute. reflexivity.
Defined.

Lemma extract_spec_witness :
  exists st', extract [0] (after_show "wide") = inr st' /\ popups st' = ["-columnip10"] /\
    elements st' !! "-columnip1" = Some "10" /\ elements st' !! "-columnip0" = Some "0".
Proof.
  destruct (extract_spec (after_show "wide") (map (fun i => "c" ++ str_N (N.of_nat i)) (seq 0 11))
              (map (fun i => str_N (N.of_nat i)) (seq 0 11)) 0 [])
    as (st' & Hex & _ & Hp & Hip & _).
  - apply (reachable_step init (Show ["wide"])); [apply reachable_init|]. vm_compute. reflexivity.
  - vm_compute. reflexivity.
  - vm_compute. reflexivity.
  - exists st'. split_and!; [exact Hex| |exact (Hip 1%nat)|exact (Hip 0%nat)].
    rewrite Hp. vm_compute. reflexivity.
Defined.

Lemma extract_before_show_witness : extract [0] init = inl (NameError "headers").
Proof. apply (extract_before_show init 0 []); [apply reachable_init|reflexivity]. Defined.

End SqlManager.
