(* ===== verification/SqlSession.v ===== *)
(** * A session of the SQL table browser: [src/sqlmanager/sqlmanager.py]

    [Module SqlSession] models the script around the event loop of
    [SqlManager]: the dialog [get_database_path], the connection
    ([sqlite3.connect], then [conn.cursor()]), the query of
    [sqlite_master] that fills the table list, and the event loop run
    on a sequence of events until [Exit] or the window is closed.  The
    file system is the class [SqliteFiles]: the database a path opens,
    [None] when [sqlite3.connect] raises. *)

From stdpp Require Import base list strings gmap.
From Stdlib Require Import String.
From S2P Require Import Prelude PyString SqlManager.

Module SqlSession.

Import SqlManager.

Local Open Scope string_scope.

(** ** The path dialog *)

(** The events of [get_database_path]'s window: closing it, ["Exit"],
    and ["Create/Open"] with the values of the input ["-fileinput"] and
    of the browse button ["-fileBrowse"] (the file last chosen with it,
    [""] if none). *)
Inductive dialog_event :=
| DClosed
| DExit
| DCreateOpen (fileinput fileBrowse : string).

(** The exceptions of the script outside the loop. *)
Inductive session_error :=
| UnboundLocalError (name : string)
| AttributeError (name : string)
| LoopError (e : SqlManager.error).

(** [get_database_path]: the loop ends on the first event; only
    ["Create/Open"] assigns the local [database_path], so the other two
    reach [return database_path] with it unassigned. *)
Definition get_database_path (ev : dialog_event) : session_error + string :=
  match ev with
  | DClosed | DExit => inl (UnboundLocalError "database_path")
  | DCreateOpen _ browsed => inr browsed
  end.

(** ** The connection *)

(** What the script relies on from SQLite: the tables of the database a
    path opens ([None] when [sqlite3.connect] raises [Error]); the path
    [""] opens a new temporary database, with no table. *)
Class SqliteFiles := {
  connect : string -> option (list (string * sql_table));
  connect_empty : connect "" = Some []
}.

(** Lines 79-91: [conn] stays [None] when [connect] raises (the error
    is printed), and [conn.cursor()] then raises [AttributeError];
    [current_tables] are the names [sqlite_master] lists. *)
Definition open_database `{SqliteFiles} (path : string) :
    session_error + (list (string * sql_table) * list string) :=
  match connect path with
  | None => inl (AttributeError "cursor")
  | Some db => inr (db, map fst db)
  end.

(** ** The event loop *)

(** [while True: event, values = window.read() ...] over the events
    [evs]: the state when the loop breaks or the events run out. *)
Fixpoint run_loop `{SqlConnection} (evs : list event) (st : state) : SqlManager.error + state :=
  match evs with
  | [] => inr st
  | ev :: evs =>
      r ← handle_event ev st;
      match r with
      | None => inr st
      | Some st' => run_loop evs st'
      end
  end.

(** The script: the dialog, the connection, the window with the table
    list, and the loop on the database opened. *)
Definition session `{SqliteFiles} (dialog : dialog_event) (evs : list event) :
    session_error + (list string * state) :=
  path ← get_database_path dialog;
  '(db, current_tables) ← open_database path;
  match @run_loop (db_connection db) evs init with
  | inl e => inl (LoopError e)
  | inr st => inr (current_tables, st)
  end.

(** A file system with an empty temporary database and [demo.db]. *)
Definition demo_files : SqliteFiles :=
  {| connect := fun p => if String.eqb p "" then Some [] else if String.eqb p "demo.db" then Some demo_db else None;
     connect_empty := eq_refl |}.

(** ** Lemmas *)

(** The loop only passes through states [reachable] from its state. *)
Lemma run_loop_reachable `{SqlConnection} (evs : list event) (st st' : state) :
  reachable st -> run_loop evs st = inr st' -> reachable st'.
Proof.
  revert st. induction evs as [|ev evs IH]; intros st Hr; simpl; [by intros [= <-]|].
  destruct (handle_event ev st) as [e|[st''|]] eqn:Hev; simpl; [done| |by intros [= <-]].
  intros Hrun. eapply IH; [|exact Hrun]. by eapply reachable_step.
Qed.

(** A path typed into the input without the browse button opens the
    empty temporary database: the table list is empty. *)
Lemma session_typed_path `{SqliteFiles} (typed : string) (evs : list event) (tabs : list string) (st : state) :
  session (DCreateOpen typed "") evs = inr (tabs, st) -> tabs = [].
Proof.
  unfold session, open_database. simpl. rewrite connect_empty. simpl.
  destruct (@run_loop _ _ _); [done|]. by intros [= <- _].
Qed.

(** ** Properties *)

(** Closing the path dialog or pressing ["Exit"] makes the script
    raise [UnboundLocalError] on [database_path], whatever follows.  A
    session runs to its end only after ["Create/Open"] with a path that
    SQLite opens (the browsed one, not the text typed in the input): the
    table list then names the tables of that database, and the window
    keeps the invariant [sql_inv] of the event loop. *)
Theorem session_spec `{SqliteFiles} (dialog : dialog_event) (evs : list event) :
  (dialog = DClosed \/ dialog = DExit -> session dialog evs = inl (UnboundLocalError "database_path")) /\
  forall tabs st, session dialog evs = inr (tabs, st) ->
    exists typed browsed db, dialog = DCreateOpen typed browsed /\ connect browsed = Some db /\
      tabs = map fst db /\ sql_inv st.
Proof.
  split; [by intros [-> | ->]|]. intros tabs st. unfold session, open_database.
  destruct dialog as [| |typed browsed]; simpl; [done|done|].
  destruct (connect browsed) as [db|] eqn:Hc; simpl; [|done].
  destruct (@run_loop (db_connection db) evs init) as [e|st'] eqn:Hrun; [done|]. intros [= <- <-].
  exists typed, browsed, db. split_and!; [done|done|done|].
  apply (@reachable_sql_inv (db_connection db)). eapply run_loop_reachable; [apply reachable_init|exact Hrun].
Qed.

(** Opening [demo.db] lists its two tables; [Show] then loads ["users"]. *)
Example session_demo :
  exists st, @session demo_files (DCreateOpen "" "demo.db") [Show ["users"]; Exit] = inr (["users"; "wide"], st) /\
    viewing_table st = Some "users".
Proof. eexists. split; [vm_compute; reflexivity|reflexivity]. Qed.

(** ** Witnesses *)

Lemma session_spec_witness :
  (DClosed = DClosed \/ DClosed = DExit ->
   @session demo_files DClosed [Exit] = inl (UnboundLocalError "database_path")) /\
  forall tabs st, @session demo_files DClosed [Exit] = inr (tabs, st) ->
    exists typed browsed db, DClosed = DCreateOpen typed browsed /\ @connect demo_files browsed = Some db /\
      tabs = map fst db /\ sql_inv st.
Proof. apply (@session_spec demo_files DClosed [Exit]). Defined.

End SqlSession.
