(* ===== verification/QMatrix.v ===== *)
(** * Matrices of rationals

    The arrays of the numerical apps ([src/portfolio_management.py],
    [src/image_converter.py]) as lists of rows of exact rationals:
    [np.sum] and Python's [sum], [a[i][j]] and [a[i][j] = v], and
    [np.zeros((r, c))], with their lemmas up to [Qeq]. *)

From stdpp Require Import base list.
From Stdlib Require Import QArith Qfield Lqa Lia.

Local Open Scope Q_scope.

(** [np.sum] *)
Definition sumQ (xs : list Q) : Q := fold_right Qplus 0 xs.

(** The length of an array as a number. *)
Definition lenQ {A} (xs : list A) : Q := inject_Z (Z.of_nat (List.length xs)).

(** Python's [sum(xs)]: [0], then each value added from the left. *)
Definition py_sumQ (xs : list Q) : Q := fold_left Qplus xs 0.

(** [a[i][j]], [None] out of range. *)
Definition mat_get (m : list (list Q)) (i j : nat) : option Q := m !! i ≫= fun row => row !! j.

(** [a[i][j] = v] (or [a[i, j] = v]); nothing out of range. *)
Definition mat_set (m : list (list Q)) (i j : nat) (v : Q) : list (list Q) :=
  match m !! i with
  | Some row => <[i := <[j := v]> row]> m
  | None => m
  end.

(** [np.zeros((r, c))] *)
Definition zeros (r c : nat) : list (list Q) := replicate r (replicate c 0).

(** An array of shape [(r, c)]: [r] rows of [c] values. *)
Definition shape_ok (r c : nat) (g : list (list Q)) : bool :=
  Nat.eqb (List.length g) r && forallb (fun row => Nat.eqb (List.length row) c) g.

(** The double loop [for i in range(r): for j in range(c): a[i, j] = h(i, j)]. *)
Definition fill_loop (r c : nat) (h : nat -> nat -> Q) (m : list (list Q)) : list (list Q) :=
  foldl (fun m i => foldl (fun m j => mat_set m i j (h i j)) m (seq 0 c)) m (seq 0 r).

(** ** Lemmas *)

Lemma sumQ_app (xs ys : list Q) : sumQ (xs ++ ys) == sumQ xs + sumQ ys.
Proof. induction xs as [|x xs IH]; simpl; [ring|]. rewrite IH. ring. Qed.

Lemma sumQ_perm (xs ys : list Q) : Permutation xs ys -> sumQ xs == sumQ ys.
Proof.
  induction 1 as [|x xs ys _ IH|x y xs|xs ys zs _ IH1 _ IH2]; simpl.
  - reflexivity.
  - by rewrite IH.
  - ring.
  - by rewrite IH1, IH2.
Qed.

Lemma sumQ_map_ext (f g : Q -> Q) (xs : list Q) :
  (forall x, f x == g x) -> sumQ (map f xs) == sumQ (map g xs).
Proof. intros Hfg. induction xs as [|x xs IH]; simpl; [reflexivity|]. by rewrite Hfg, IH. Qed.

Lemma sumQ_nonneg (xs : list Q) : Forall (fun x => 0 <= x) xs -> 0 <= sumQ xs.
Proof. induction 1; simpl; lra. Qed.

Lemma py_sumQ_acc (xs : list Q) (a : Q) : fold_left Qplus xs a == a + sumQ xs.
Proof.
  revert a. induction xs as [|x xs IH]; intros a; simpl; [ring|]. rewrite IH. ring.
Qed.

Lemma py_sumQ_sumQ (xs : list Q) : py_sumQ xs == sumQ xs.
Proof. unfold py_sumQ. rewrite py_sumQ_acc. ring. Qed.

(** *** Writing one mat_get *)

Lemma mat_get_set_same (m : list (list Q)) (i j : nat) (v : Q) :
  is_Some (mat_get m i j) -> mat_get (mat_set m i j v) i j = Some v.
Proof.
  unfold mat_get, mat_set. destruct (m !! i) as [row|] eqn:Hi; simpl; [|by intros []].
  intros Hj. rewrite list_lookup_insert_eq by (by eapply lookup_lt_Some). simpl.
  apply list_lookup_insert_eq. destruct Hj as [? Hj]. by eapply lookup_lt_Some.
Qed.

Lemma mat_get_set_other (m : list (list Q)) (i j : nat) (v : Q) (a b : nat) :
  (a, b) <> (i, j) -> mat_get (mat_set m i j v) a b = mat_get m a b.
Proof.
  intros Hne. unfold mat_get, mat_set. destruct (m !! i) as [row|] eqn:Hi; [|done].
  destruct (decide (a = i)) as [->|Ha].
  - rewrite list_lookup_insert_eq by (by eapply lookup_lt_Some). rewrite Hi. simpl.
    apply list_lookup_insert_ne. congruence.
  - by rewrite list_lookup_insert_ne.
Qed.

Lemma mat_get_set_is_Some (m : list (list Q)) (i j : nat) (v : Q) (a b : nat) :
  is_Some (mat_get (mat_set m i j v) a b) <-> is_Some (mat_get m a b).
Proof.
  destruct (decide ((a, b) = (i, j))) as [[= -> ->]|Hne]; [|by rewrite mat_get_set_other].
  split; intros H.
  - unfold mat_get, mat_set in *. destruct (m !! i) as [row|] eqn:Hi; simpl in H |- *; [|rewrite Hi in H; by destruct H].
    rewrite list_lookup_insert_eq in H by (by eapply lookup_lt_Some). simpl in H.
    apply lookup_lt_is_Some_1 in H. rewrite length_insert in H. by apply lookup_lt_is_Some_2.
  - rewrite mat_get_set_same; eauto.
Qed.

Lemma mat_get_zeros (r c i j : nat) : (i < r)%nat -> (j < c)%nat -> mat_get (zeros r c) i j = Some 0.
Proof. intros Hi Hj. unfold mat_get, zeros. rewrite lookup_replicate_2 by done. simpl. by rewrite lookup_replicate_2. Qed.

Lemma shape_ok_spec (r c : nat) (g : list (list Q)) :
  shape_ok r c g = true <-> List.length g = r /\ Forall (fun row => List.length row = c) g.
Proof.
  unfold shape_ok. rewrite andb_true_iff, Nat.eqb_eq, forallb_forall, Forall_forall.
  setoid_rewrite Nat.eqb_eq. split; intros [H1 H2]; split; auto.
  - intros x Hx. apply H2. by apply list_elem_of_In.
  - intros x Hx. apply H2. by apply list_elem_of_In.
Qed.

Lemma shape_ok_mat_get (r c : nat) (g : list (list Q)) (i j : nat) :
  shape_ok r c g = true -> (i < r)%nat -> (j < c)%nat -> is_Some (mat_get g i j).
Proof.
  intros (Hl & Hrows)%shape_ok_spec Hi Hj. unfold mat_get.
  destruct (lookup_lt_is_Some_2 g i) as [row Hrow]; [lia|]. rewrite Hrow. simpl.
  apply lookup_lt_is_Some_2. rewrite (Forall_lookup_1 _ _ _ _ Hrows Hrow). lia.
Qed.

Lemma shape_ok_mat_get_None (r c : nat) (g : list (list Q)) (i j : nat) :
  shape_ok r c g = true -> (r <= i \/ c <= j)%nat -> mat_get g i j = None.
Proof.
  intros (Hl & Hrows)%shape_ok_spec Hij. unfold mat_get.
  destruct (g !! i) as [row|] eqn:Hrow; [|done]. simpl.
  pose proof (lookup_lt_Some _ _ _ Hrow). apply lookup_ge_None_2.
  rewrite (Forall_lookup_1 _ _ _ _ Hrows Hrow). lia.
Qed.

Lemma mat_set_shape (r c : nat) (m : list (list Q)) (i j : nat) (v : Q) :
  shape_ok r c m = true -> shape_ok r c (mat_set m i j v) = true.
Proof.
  intros (Hl & Hrows)%shape_ok_spec. apply shape_ok_spec. unfold mat_set.
  destruct (m !! i) as [row|] eqn:Hrow; [|done]. rewrite length_insert. split; [done|].
  apply Forall_insert; [done|]. rewrite length_insert. by apply (Forall_lookup_1 _ _ _ _ Hrows Hrow).
Qed.

Lemma zeros_shape (r c : nat) : shape_ok r c (zeros r c) = true.
Proof.
  apply shape_ok_spec. unfold zeros. rewrite length_replicate. split; [done|].
  apply Forall_replicate. apply length_replicate.
Qed.

Lemma take3_drop {A} (l : list A) (j : nat) (x y z : A) :
  l !! j = Some x -> l !! S j = Some y -> l !! S (S j) = Some z -> take 3 (drop j l) = [x; y; z].
Proof.
  revert l. induction j as [|j IH]; intros [|w l] Hx Hy Hz; try done.
  - destruct l as [|x' [|y' [|z' l]]]; simplify_eq/=; done.
  - simpl. by apply IH.
Qed.

(** After [fill_loop], entry [(a, b)] holds [h a b], and the shape is kept. *)
Lemma fill_loop_spec (r c : nat) (h : nat -> nat -> Q) (m : list (list Q)) :
  shape_ok r c m = true ->
  shape_ok r c (fill_loop r c h m) = true /\
  forall a b, (a < r)%nat -> (b < c)%nat -> mat_get (fill_loop r c h m) a b = Some (h a b).
Proof.
  intros Hm. unfold fill_loop.
  assert (Hinner : forall m i l, shape_ok r c m = true -> (i < r)%nat -> (l <= c)%nat ->
    shape_ok r c (foldl (fun m j => mat_set m i j (h i j)) m (seq 0 l)) = true /\
    forall a b, mat_get (foldl (fun m j => mat_set m i j (h i j)) m (seq 0 l)) a b =
                if bool_decide (a = i /\ (b < l)%nat) then Some (h a b) else mat_get m a b).
  { intros m' i l Hm' Hi. induction l as [|l IH]; intros Hl.
    - split; [done|]. intros a b. case_bool_decide; [lia|done].
    - rewrite seq_S, foldl_app. simpl. destruct IH as [Hsh Hget]; [lia|].
      split; [by apply mat_set_shape|]. intros a b.
      destruct (decide ((a, b) = (i, l))) as [[= -> ->]|Hne].
      + rewrite mat_get_set_same; [rewrite bool_decide_true by lia; done|].
        apply (shape_ok_mat_get r c); [done|done|lia].
      + rewrite mat_get_set_other, Hget by done.
        repeat case_bool_decide; try done; exfalso; (destruct (decide (b = l)); [subst; naive_solver|lia]). }
  assert (Houter : forall k, (k <= r)%nat ->
    shape_ok r c (foldl (fun m i => foldl (fun m j => mat_set m i j (h i j)) m (seq 0 c)) m (seq 0 k)) = true /\
    forall a b, (b < c)%nat ->
      mat_get (foldl (fun m i => foldl (fun m j => mat_set m i j (h i j)) m (seq 0 c)) m (seq 0 k)) a b =
      if bool_decide (a < k)%nat then Some (h a b) else mat_get m a b).
  { induction k as [|k IH]; intros Hk.
    - split; [done|]. intros a b _. by rewrite bool_decide_false by lia.
    - rewrite seq_S, foldl_app. simpl. destruct IH as [Hsh Hget]; [lia|].
      destruct (Hinner _ k c Hsh ltac:(lia) (le_n c)) as [Hsh' Hget'].
      split; [done|]. intros a b Hb. rewrite Hget', Hget by done.
      repeat case_bool_decide; try done; lia. }
  destruct (Houter r (le_n r)) as [Hsh Hget]. split; [done|].
  intros a b Ha Hb. rewrite Hget by done. by rewrite bool_decide_true.
Qed.
