(* ===== verification/Portfolio.v ===== *)
(** * The covariance matrix of the portfolio app: [src/portfolio_management.py]

    [Module Portfolio] models the numerical core of ["Display covariance"]
    in [main]: the daily log-return series of the chosen stocks
    ([df["Diff"]], whose first value is NaN), [fillna(0)], [np.hstack] of
    two series, [np.cov] of the resulting one-dimensional array (the
    sample variance, [ddof = 1]) and the nested loop that fills
    [covars].  Numbers are exact rationals ([Q]): floating-point rounding
    is not modelled, and neither are the download, the logarithm that
    makes the returns, the charts and the Monte-Carlo frontier. *)

From stdpp Require Import base list.
From Stdlib Require Import QArith Qfield Lqa Lia.
From S2P Require Import QMatrix.

Module Portfolio.

Local Open Scope Q_scope.

(** [np.mean] *)
Definition mean (xs : list Q) : Q := sumQ xs / lenQ xs.

(** [np.cov(x)] of a one-dimensional array [x]: the sample variance
    [sum((x - mean(x))**2) / (len(x) - 1)]. *)
Definition cov1 (xs : list Q) : Q :=
  sumQ (map (fun x => (x - mean xs) ^ 2) xs) / (lenQ xs - 1).

(** [series.fillna(0).to_numpy()]: a NaN ([None]) becomes 0. *)
Definition fillna (s : list (option Q)) : list Q := map (default 0) s.

(** [float(np.cov(np.hstack((series1, series2))) * 252)] for stocks [i]
    and [j]. *)
Definition covar (diffs : list (list (option Q))) (i j : nat) : Q :=
  cov1 (fillna (default [] (diffs !! i)) ++ fillna (default [] (diffs !! j))) * 252.

(** The loop of lines 157-165: [covars] starts as [n] rows of [n] ones,
    and iteration [(i, j)] writes the covariance of [i] and [j] to both
    [covars[i][j]] and [covars[j][i]]. *)
Definition covars (diffs : list (list (option Q))) (num_stocks : nat) : list (list Q) :=
  foldl (fun m i =>
           foldl (fun m j =>
                    let c := covar diffs i j in
                    mat_set (mat_set m i j c) j i c) m (seq 0 num_stocks))
        (replicate num_stocks (replicate num_stocks 1)) (seq 0 num_stocks).

(** What [np.cov(series1, series2)[0][1]] would be: the sample
    covariance of two series of equal length, for comparison. *)
Definition sample_cov (xs ys : list Q) : Q :=
  sumQ (zip_with (fun x y => (x - mean xs) * (y - mean ys)) xs ys) / (lenQ xs - 1).

(** [covars[a][b]] holds the value of iteration [(a, b)] or of [(b, a)]. *)
Definition cov_ok (diffs : list (list (option Q))) (m : list (list Q)) (a b : nat) : Prop :=
  mat_get m a b = Some (covar diffs a b) \/ mat_get m a b = Some (covar diffs b a).

(** The invariant of the loop: [m] is [n] by [n], and the entries
    selected by [S] are written. *)
Definition loop_inv (diffs : list (list (option Q))) (n : nat) (m : list (list Q))
    (S : nat -> nat -> Prop) : Prop :=
  (forall a b, (a < n)%nat -> (b < n)%nat -> is_Some (mat_get m a b)) /\
  (forall a b, (a < n)%nat -> (b < n)%nat -> S a b -> cov_ok diffs m a b).

(** ** Lemmas *)

(** *** Sums, means and variances up to [Qeq] *)

Lemma sq_nonneg (x : Q) : 0 <= x ^ 2.
Proof.
  simpl. destruct (Qlt_le_dec x 0) as [Hx|Hx].
  - setoid_replace (x * x) with ((- x) * (- x)) using relation Qeq by ring. apply Qmult_le_0_compat; lra.
  - by apply Qmult_le_0_compat.
Qed.

Lemma mean_perm (xs ys : list Q) : Permutation xs ys -> mean xs == mean ys.
Proof.
  intros Hp. unfold mean, lenQ. rewrite (sumQ_perm xs ys), (Permutation_length Hp) by done. reflexivity.
Qed.

(** [np.cov] of a one-dimensional array does not depend on the order of
    its values. *)
Lemma cov1_perm (xs ys : list Q) : Permutation xs ys -> cov1 xs == cov1 ys.
Proof.
  intros Hp. unfold cov1, lenQ. rewrite <-(Permutation_length Hp).
  rewrite (sumQ_map_ext _ (fun x => (x - mean ys) ^ 2)) by (intros x; by rewrite (mean_perm xs ys)).
  by rewrite (sumQ_perm _ (map (fun x => (x - mean ys) ^ 2) ys)) by (by apply Permutation_map).
Qed.

(** A sample variance is never negative ([x / 0] is [0] in [Q]). *)
Lemma cov1_nonneg (xs : list Q) : 0 <= cov1 xs.
Proof.
  unfold cov1. destruct xs as [|x xs]; [simpl; unfold Qdiv; rewrite Qmult_0_l; lra|].
  apply Qmult_le_0_compat.
  - apply sumQ_nonneg, Forall_forall. intros y Hy%list_elem_of_In.
    apply in_map_iff in Hy as (z & <- & _). apply sq_nonneg.
  - apply Qinv_le_0_compat. unfold lenQ.
    assert (H : (1 <= Z.of_nat (List.length (x :: xs)))%Z) by (simpl; lia).
    rewrite Zle_Qle in H. unfold inject_Z at 1 in H. lra.
Qed.

(** *** The loop *)

Lemma loop_inv_weaken (diffs : list (list (option Q))) (n : nat) (m : list (list Q)) (S S' : nat -> nat -> Prop) :
  (forall a b, (a < n)%nat -> (b < n)%nat -> S' a b -> S a b) -> loop_inv diffs n m S -> loop_inv diffs n m S'.
Proof. intros HS [Hsh Hok]. split; [done|]. intros a b Ha Hb HS'. apply Hok; auto. Qed.

Lemma loop_step (diffs : list (list (option Q))) (n : nat) (m : list (list Q)) (S : nat -> nat -> Prop) (i j : nat) :
  (i < n)%nat -> (j < n)%nat -> loop_inv diffs n m S ->
  loop_inv diffs n (mat_set (mat_set m i j (covar diffs i j)) j i (covar diffs i j))
    (fun a b => S a b \/ (a = i /\ b = j) \/ (a = j /\ b = i)).
Proof.
  intros Hi Hj [Hsh Hok]. split.
  - intros a b Ha Hb. rewrite !mat_get_set_is_Some. auto.
  - intros a b Ha Hb HS. unfold cov_ok.
    destruct (decide ((a, b) = (j, i))) as [[= -> ->]|Hji].
    { right. apply mat_get_set_same. rewrite mat_get_set_is_Some. auto. }
    rewrite mat_get_set_other by done.
    destruct (decide ((a, b) = (i, j))) as [[= -> ->]|Hij].
    { left. apply mat_get_set_same. auto. }
    rewrite mat_get_set_other by done.
    destruct HS as [HS|[[-> ->]|[-> ->]]]; [by apply Hok|done|done].
Qed.

Lemma inner_loop (diffs : list (list (option Q))) (n : nat) (m : list (list Q)) (S : nat -> nat -> Prop) (i l : nat) :
  (i < n)%nat -> (l <= n)%nat -> loop_inv diffs n m S ->
  loop_inv diffs n
    (foldl (fun m j => mat_set (mat_set m i j (covar diffs i j)) j i (covar diffs i j)) m (seq 0 l))
    (fun a b => S a b \/ (a = i /\ (b < l)%nat) \/ (b = i /\ (a < l)%nat)).
Proof.
  intros Hi. induction l as [|l IH]; intros Hl Hinv.
  - eapply loop_inv_weaken; [|exact Hinv]. intros a b _ _ [H|[[_ ?]|[_ ?]]]; [done|lia|lia].
  - rewrite seq_S, foldl_app. simpl. eapply loop_inv_weaken; [|apply loop_step; [done|lia|apply IH; [lia|done]]].
    intros a b _ _ [H|[[-> Hb]|[-> Ha]]]; [auto|..].
    + destruct (decide (b = l)) as [->|]; [auto|left; right; left; split; [done|lia]].
    + destruct (decide (a = l)) as [->|]; [auto|left; right; right; split; [done|lia]].
Qed.

Lemma outer_loop (diffs : list (list (option Q))) (n k : nat) :
  (k <= n)%nat ->
  loop_inv diffs n
    (foldl (fun m i =>
              foldl (fun m j =>
                       let c := covar diffs i j in
                       mat_set (mat_set m i j c) j i c) m (seq 0 n))
           (replicate n (replicate n 1)) (seq 0 k))
    (fun a b => (a < k)%nat \/ (b < k)%nat).
Proof.
  induction k as [|k IH]; intros Hk.
  - split; [|intros a b _ _ [?|?]; lia].
    intros a b Ha Hb. cbn [seq foldl]. unfold mat_get. rewrite lookup_replicate_2 by done. simpl.
    rewrite lookup_replicate_2 by done. eauto.
  - rewrite seq_S, foldl_app. simpl.
    eapply loop_inv_weaken; [|apply inner_loop; [lia|done|apply IH; lia]].
    intros a b Ha Hb [Hak|Hbk].
    + destruct (decide (a = k)) as [->|]; [right; left; split; [done|lia]|left; left; lia].
    + destruct (decide (b = k)) as [->|]; [right; right; split; [done|lia]|left; right; lia].
Qed.

Lemma covar_sym (diffs : list (list (option Q))) (i j : nat) : covar diffs i j == covar diffs j i.
Proof. unfold covar. by rewrite (cov1_perm _ _ (Permutation_app_comm _ _)). Qed.

Lemma covar_nonneg (diffs : list (list (option Q))) (i j : nat) : 0 <= covar diffs i j.
Proof. unfold covar. pose proof (cov1_nonneg (fillna (default [] (diffs !! i)) ++ fillna (default [] (diffs !! j)))). lra. Qed.

(** ** Properties *)

(** C27: Entry [(i, j)] of the matrix the app calls the covariance matrix
    is 252 times the sample variance of the two return series laid end
    to end ([np.hstack] makes one array, and [np.cov] of one array is its
    variance), not their covariance; so no mat_get is ever negative. *)
Theorem covars_pooled_variance (diffs : list (list (option Q))) (n i j : nat) :
  (i < n)%nat -> (j < n)%nat ->
  exists v, mat_get (covars diffs n) i j = Some v /\
    v == cov1 (fillna (default [] (diffs !! i)) ++ fillna (default [] (diffs !! j))) * 252 /\
    0 <= v.
Proof.
  intros Hi Hj. destruct (outer_loop diffs n n (le_n n)) as [Hsh Hok].
  destruct (Hok i j Hi Hj (or_introl Hi)) as [He|He]; eexists; split_and!; try exact He.
  - reflexivity.
  - apply covar_nonneg.
  - apply covar_sym.
  - apply covar_nonneg.
Qed.

(** Two series moving in opposite directions: their sample covariance
    is negative ([-252] once annualised), but the app shows [1008/5]. *)
Example covars_anticorrelated :
  (exists v, mat_get (covars [[None; Some 1; Some (-1)]; [None; Some (-1); Some 1]] 2) 0 1 = Some v /\
             v == 1008 # 5) /\
  sample_cov [0; 1; -1] [0; -1; 1] * 252 == -252.
Proof. split; [eexists; split|]; vm_compute; reflexivity. Qed.

(** ** Witnesses *)

Lemma covars_pooled_variance_witness :
  exists v, mat_get (covars [[None; Some 1; Some (-1)]; [None; Some (-1); Some 1]] 2) 0 1 = Some v /\
    v == cov1 (fillna [None; Some 1; Some (-1)] ++ fillna [None; Some (-1); Some 1]) * 252 /\
    0 <= v.
Proof. apply (covars_pooled_variance [[None; Some 1; Some (-1)]; [None; Some (-1); Some 1]] 2 0 1); lia. Defined.

End Portfolio.
