(* ===== verification/PortfolioApp.v ===== *)
(** * The portfolio page: [src/portfolio_management.py], [load_data] and [main]

    [Module PortfolioApp] models the computations of the Streamlit page
    around the covariance loop of [Portfolio]: the per-stock statistics
    of [load_data] (daily log returns, their mean and variance with
    pandas skipping NaN, the prices scaled by the first one), the
    fraction sliders of the sidebar, the cumulative return of
    ["Display current portfolio"] with numpy's in-place broadcasting,
    and the return, volatility and Monte-Carlo frontier of
    ["Display covariance"].  Numbers are exact rationals; [np.log] and
    [np.sqrt], which the rationals lack, are the variables [ln] and
    [sqrt] of [Section Page], so every theorem holds whatever functions
    they are.  The 5000 draws of [np.random.random] are an input list.
    The download, the charts and the text of the page are not modelled. *)

From stdpp Require Import base list.
From Stdlib Require Import QArith Qminmax Qfield Lqa Lia.
From S2P Require Import Prelude QMatrix Portfolio.

Module PortfolioApp.

Local Open Scope Q_scope.

(** The exceptions of the page: Streamlit's check of a slider's range,
    [iloc[0]] of an empty frame, and numpy's [ValueError] on shapes that
    do not broadcast (or [argmax] of an empty array). *)
Inductive error := StreamlitAPIException | IndexError | ValueError.

Section Page.

(** [np.log] and [np.sqrt] *)
Variable ln : Q -> Q.
Variable sqrt : Q -> Q.

(** ** [load_data] *)

(** [np.log(df["Adj Close"] / df["Adj Close"].shift(1))]: NaN first. *)
Definition diff_series (prices : list Q) : list (option Q) :=
  match prices with
  | [] => []
  | _ :: rest => None :: zip_with (fun prev cur => Some (ln (cur / prev))) prices rest
  end.

(** The values pandas keeps when it skips NaN. *)
Definition skipna (s : list (option Q)) : list Q := omap id s.

(** [df["Adj Close"] / df.iloc[0]["Adj Close"]] *)
Definition scaled (prices : list Q) : error + list Q :=
  match prices with
  | [] => inl IndexError
  | p0 :: _ => inr (map (fun p => p / p0) prices)
  end.

(** The two columns [load_data] adds to a frame. *)
Record stock := Stock { Diff : list (option Q); Scaled : list Q }.

(** [load_data]: each frame with its columns, [df["Diff"].mean() * 252]
    and [df["Diff"].var() * 252] ([ddof = 1]). *)
Definition load_data (prices : list (list Q)) : error + (list stock * list Q * list Q) :=
  dfs ← mapM (fun p => s ← scaled p; mret (Stock (diff_series p) s)) prices;
  mret (dfs, map (fun d => Portfolio.mean (skipna (Diff d)) * 252) dfs, map (fun d => Portfolio.cov1 (skipna (Diff d)) * 252) dfs).

(** ** The sidebar *)

(** [st.sidebar.slider(value=lo, min_value=lo, max_value=hi)]: the value
    the user sets, which Streamlit keeps within the range; the range
    must not be empty (the default value must lie in it). *)
Definition slider (lo hi v : Q) : error + Q :=
  if Qle_bool lo hi then inr (Qmax lo (Qmin hi v)) else inl StreamlitAPIException.

(** The loop of lines 87-91: each slider's maximum is [1.0 - total_ratio];
    the result is [stock_frac] and [total_ratio]. *)
Definition frac_sliders (picks : list Q) : error + (list Q * Q) :=
  fold_res (fun '(fr, total) v => x ← slider (1 # 100) (1 - total) v; inr (fr ++ [x], total + x))
           ([], 0) picks.

(** ** ["Display current portfolio"] *)

(** [cost += a]: numpy adds element-wise, broadcasts an array of one
    value, and raises [ValueError] on any other shape. *)
Definition iadd (acc a : list Q) : error + list Q :=
  if Nat.eqb (List.length a) (List.length acc) then inr (zip_with Qplus acc a)
  else match a with
       | [x] => inr (map (fun c => c + x) acc)
       | _ => inl ValueError
       end.

(** [cost = np.zeros(len(df_list[0].index))], then
    [cost += stock_frac[i] * df["Scaled"].to_numpy()] for each frame. *)
Definition cumulative_return (fracs : list Q) (dfs : list stock) : error + list Q :=
  match dfs with
  | [] => inl IndexError
  | d0 :: _ =>
      fold_res (fun acc '(f, d) => iadd acc (map (Qmult f) (Scaled d)))
               (replicate (List.length (Scaled d0)) 0) (zip fracs dfs)
  end.

(** ** ["Display covariance"] *)

(** [np.dot] of two vectors, and of a matrix and a vector. *)
Definition dot (xs ys : list Q) : Q := sumQ (zip_with Qmult xs ys).
Definition matvec (m : list (list Q)) (v : list Q) : list Q := map (fun row => dot row v) m.

(** [np.sum(np.array(avg_rnts) * weights)] *)
Definition portfolio_return (avg_rtns w : list Q) : Q := dot avg_rtns w.

(** [np.sqrt(np.dot(weights, np.dot(covars, weights)))] *)
Definition portfolio_volatility (covars : list (list Q)) (w : list Q) : Q := sqrt (dot w (matvec covars w)).

(** [weights / np.sum(weights)] *)
Definition normalize (w : list Q) : list Q := map (fun x => x / sumQ w) w.

(** One draw of the Monte-Carlo loop: the weights, [ret_arr[i]],
    [vol_arr[i]] and [sharpe_arr[i]]. *)
Definition frontier_draw (avg_rtns : list Q) (covars : list (list Q)) (raw : list Q) : list Q * Q * Q * Q :=
  let w := normalize raw in
  let r := portfolio_return avg_rtns w in
  let v := portfolio_volatility covars w in
  (w, r, v, r / v).

(** [np.argmax]: the first index of the largest value. *)
Fixpoint argmax_aux (i bi : nat) (b : Q) (xs : list Q) : nat :=
  match xs with
  | [] => bi
  | x :: xs => if Qlt_le_dec b x then argmax_aux (S i) i x xs else argmax_aux (S i) bi b xs
  end.

Definition argmax (xs : list Q) : option nat :=
  match xs with
  | [] => None
  | x :: xs => Some (argmax_aux 1 0 x xs)
  end.

(** Lines 187-204: the draws, [sharpe_max_idx], and the weights,
    [max_ret] and [max_vol] of the best draw. *)
Definition frontier (avg_rtns : list Q) (covars : list (list Q)) (draws : list (list Q)) :
    error + (list Q * Q * Q) :=
  let rows := map (frontier_draw avg_rtns covars) draws in
  match argmax (map (fun '(_, _, _, s) => s) rows) with
  | None => inl ValueError
  | Some k =>
      match rows !! k with
      | Some (w, r, v, _) => inr (w, r, v)
      | None => inl IndexError
      end
  end.

(** The block [if display_covariance:]: the matrix of [Portfolio], the
    user's return and volatility, and the best draw. *)
Definition display_covariance (dfs : list stock) (avg_rtns fracs : list Q) (draws : list (list Q)) :
    error + (list (list Q) * Q * Q * (list Q * Q * Q)) :=
  let c := Portfolio.covars (map Diff dfs) (List.length fracs) in
  best ← frontier avg_rtns c draws;
  mret (c, portfolio_return avg_rtns fracs, portfolio_volatility c fracs, best).

(** ** Lemmas *)

(** *** Sliders *)

Lemma slider_range (lo hi v x : Q) : slider lo hi v = inr x -> lo <= x <= hi.
Proof.
  unfold slider. destruct (Qle_bool lo hi) eqn:H; [intros [= <-]|done]. apply Qle_bool_iff in H.
  split; [apply Q.le_max_l|]. apply Q.max_lub; [done|apply Q.le_min_l].
Qed.

Lemma slider_error (lo hi v : Q) (e : error) : slider lo hi v = inl e -> e = StreamlitAPIException /\ hi < lo.
Proof.
  unfold slider. destruct (Qle_bool lo hi) eqn:H; [done|]. intros [= <-]. split; [done|].
  apply Qnot_le_lt. intros Hle%Qle_bool_iff. congruence.
Qed.

(** What the slider loop keeps: the total is the sum of the fractions,
    between 0 and 1, and every fraction is between 0.01 and 1. *)
Definition fracs_ok (st : list Q * Q) : Prop :=
  st.2 == sumQ st.1 /\ 0 <= st.2 <= 1 /\ Forall (fun x => 1 # 100 <= x <= 1) st.1.

Lemma frac_sliders_loop (picks fr : list Q) (total : Q) :
  fracs_ok (fr, total) ->
  match fold_res (fun '(fr, total) v => x ← slider (1 # 100) (1 - total) v; inr (fr ++ [x], total + x))
                 (fr, total) picks with
  | inr st => fracs_ok st /\ List.length st.1 = (List.length fr + List.length picks)%nat
  | inl e => e = StreamlitAPIException
  end.
Proof.
  revert fr total. induction picks as [|v picks IH]; intros fr total Hok; simpl; [split; [done|lia]|].
  destruct (slider (1 # 100) (1 - total) v) as [e|x] eqn:Hs; simpl; [by apply slider_error in Hs as [-> _]|].
  apply slider_range in Hs as [Hx1 Hx2]. destruct Hok as (Ht & [H0 H1] & Hall). simpl in Ht, H0, H1, Hall.
  assert (Hnext : fracs_ok (fr ++ [x], total + x)).
  { split_and!; simpl.
    - rewrite sumQ_app, <-Ht. simpl. ring.
    - lra.
    - lra.
    - apply Forall_app. split; [done|]. constructor; [lra|done]. }
  specialize (IH (fr ++ [x]) (total + x) Hnext).
  destruct (fold_res _ _ picks) as [e|st]; [done|]. destruct IH as [Hst Hlen]. split; [done|].
  rewrite Hlen, length_app. simpl. lia.
Qed.

(** *** The cumulative return *)

Lemma iadd_same_length (acc a : list Q) :
  List.length a = List.length acc -> iadd acc a = inr (zip_with Qplus acc a).
Proof. intros H. unfold iadd. by rewrite (proj2 (Nat.eqb_eq _ _) H). Qed.

(** The loop over frames of one length [n] adds, at every date [k],
    [stock_frac[i] * Scaled[k]] of each frame in turn. *)
Lemma cumulative_loop (ps : list (Q * stock)) (acc : list Q) (n : nat) :
  List.length acc = n -> Forall (fun '(_, d) => List.length (Scaled d) = n) ps ->
  exists cost, fold_res (fun acc '(f, d) => iadd acc (map (Qmult f) (Scaled d))) acc ps = inr cost /\
    List.length cost = n /\
    forall k a, acc !! k = Some a ->
      cost !! k = Some (fold_left Qplus (map (fun '(f, d) => f * nth k (Scaled d) 0) ps) a).
Proof.
  revert acc. induction ps as [|[f d] ps IH]; intros acc Hacc Hps; simpl.
  { eexists. split_and!; [done|done|]. by intros k a ->. }
  apply Forall_cons in Hps as [Hd Hps]. rewrite iadd_same_length by (rewrite length_map; lia). simpl.
  destruct (IH (zip_with Qplus acc (map (Qmult f) (Scaled d)))) as (cost & -> & Hlen & Hk);
    [rewrite length_zip_with, length_map; lia|done|].
  eexists. split_and!; [done|done|]. intros k a Ha. apply Hk.
  rewrite lookup_zip_with, Ha. simpl. rewrite list_lookup_fmap.
  destruct (Scaled d !! k) as [y|] eqn:Hy.
  - simpl. by rewrite (nth_lookup_Some _ _ _ _ Hy).
  - apply lookup_lt_Some in Ha. apply lookup_ge_None in Hy. lia.
Qed.

(** *** [np.argmax] *)

Lemma argmax_aux_spec (pre xs : list Q) (bi : nat) (b : Q) :
  pre !! bi = Some b -> (forall j y, pre !! j = Some y -> y <= b) ->
  (forall j y, (j < bi)%nat -> pre !! j = Some y -> y < b) ->
  exists m, (pre ++ xs) !! argmax_aux (List.length pre) bi b xs = Some m /\
    (forall j y, (pre ++ xs) !! j = Some y -> y <= m) /\
    (forall j y, (j < argmax_aux (List.length pre) bi b xs)%nat -> (pre ++ xs) !! j = Some y -> y < m).
Proof using.
  revert pre bi b. induction xs as [|x xs IH]; intros pre bi b Hb Hle Hlt; simpl.
  { rewrite app_nil_r. eauto. }
  replace (pre ++ x :: xs) with ((pre ++ [x]) ++ xs) by (by rewrite <-app_assoc).
  assert (Hlen : S (List.length pre) = List.length (pre ++ [x])) by (rewrite length_app; simpl; lia).
  assert (Hbl : (bi < List.length pre)%nat) by (by apply lookup_lt_Some in Hb).
  destruct (Qlt_le_dec b x) as [Hbx|Hxb]; rewrite Hlen; apply IH.
  - by rewrite lookup_app_r, Nat.sub_diag by lia.
  - intros j y [Hj|[_ Hj]]%lookup_app_Some; [pose proof (Hle j y Hj); lra|].
    apply list_lookup_singleton_Some in Hj as [_ ->]. lra.
  - intros j y Hj [Hy|[? _]]%lookup_app_Some; [pose proof (Hle j y Hy); lra|lia].
  - by rewrite lookup_app_l.
  - intros j y [Hj|[_ Hj]]%lookup_app_Some; [by apply (Hle j)|].
    by apply list_lookup_singleton_Some in Hj as [_ ->].
  - intros j y Hj [Hy|[? _]]%lookup_app_Some; [by apply (Hlt j)|lia].
Qed.

(** [np.argmax] returns the index of a largest value, and no earlier
    value is as large. *)
Lemma argmax_spec (xs : list Q) (k : nat) :
  argmax xs = Some k ->
  exists m, xs !! k = Some m /\ (forall j y, xs !! j = Some y -> y <= m) /\
    (forall j y, (j < k)%nat -> xs !! j = Some y -> y < m).
Proof using.
  destruct xs as [|x xs]; [done|]. intros [= <-].
  apply (argmax_aux_spec [x] xs 0 x); [done| |lia].
  intros j y [_ <-]%list_lookup_singleton_Some. apply Qle_refl.
Qed.

Lemma argmax_is_Some (xs : list Q) : xs <> [] -> is_Some (argmax xs).
Proof using. destruct xs; [done|]. eauto. Qed.

(** [weights / np.sum(weights)] sums to 1. *)
Lemma normalize_sum (w : list Q) : ~ sumQ w == 0 -> sumQ (normalize w) == 1.
Proof.
  intros Hw. unfold normalize.
  assert (H : forall l : list Q, sumQ (map (fun y => y / sumQ w) l) == sumQ l / sumQ w).
  { induction l as [|y l IHl]; simpl; [unfold Qdiv; ring|]. rewrite IHl. unfold Qdiv. ring. }
  rewrite H. by field.
Qed.

(** *** [load_data] *)

(** Each frame [load_data] returns is its price series with [Diff] and
    [Scaled]; a series without prices raises. *)
Lemma load_data_frames (prices : list (list Q)) (dfs : list stock) (avg_rtns avg_vols : list Q) :
  load_data prices = inr (dfs, avg_rtns, avg_vols) ->
  Forall2 (fun p d => Scaled d = map (fun q => q / nth 0 p 0) p /\ Diff d = diff_series p) prices dfs.
Proof.
  unfold load_data. destruct (mapM _ prices) as [e|l] eqn:Hm; [done|]. intros [= <- _ _].
  apply mapM_inr in Hm. eapply Forall2_impl; [exact Hm|]. intros [|q p] d; [done|]. by intros [= <-].
Qed.

Lemma scaled_terms (fracs : list Q) (prices : list (list Q)) (dfs : list stock) (n k : nat) :
  Forall2 (fun p d => Scaled d = map (fun q => q / nth 0 p 0) p /\ Diff d = diff_series p) prices dfs ->
  Forall (fun p => List.length p = n) prices -> (k < n)%nat ->
  map (fun '(f, d) => f * nth k (Scaled d) 0) (zip fracs dfs) =
  map (fun '(f, p) => f * (nth k p 0 / nth 0 p 0)) (zip fracs prices).
Proof.
  intros Hfr. revert fracs. induction Hfr as [|p d prices dfs [Hs _] _ IH]; intros [|f fracs] Hn Hk; [done..|].
  apply Forall_cons in Hn as [Hp Hn]. simpl. rewrite IH by done. f_equal. rewrite Hs.
  rewrite (nth_indep (map (fun q => q / nth 0 p 0) p) (n:=k) 0 (0 / nth 0 p 0)) by (rewrite length_map; lia).
  by rewrite (map_nth (fun q => q / nth 0 p 0) p 0 k).
Qed.

Lemma Forall_zip_snd {A B} (P : B -> Prop) (l1 : list A) (l2 : list B) :
  Forall P l2 -> Forall (fun '(_, b) => P b) (zip l1 l2).
Proof.
  revert l2. induction l1 as [|a l1 IH]; intros [|b l2] H; simpl; [constructor..|].
  apply Forall_cons in H as [Hb H]. constructor; [done|]. by apply IH.
Qed.

(** Two frames of different lengths (a stock listed after the start
    date) make [cost += ...] raise [ValueError]. *)
Lemma cumulative_return_shape_error (f0 f1 : Q) (d0 d1 : stock) :
  List.length (Scaled d1) <> List.length (Scaled d0) -> (2 <= List.length (Scaled d1))%nat ->
  cumulative_return [f0; f1] [d0; d1] = inl ValueError.
Proof.
  intros Hne H2. unfold cumulative_return. simpl.
  rewrite iadd_same_length by (rewrite length_map, length_replicate; lia). simpl. unfold iadd.
  rewrite length_zip_with, length_map, length_replicate, !length_map, Nat.min_id.
  replace (Nat.eqb (List.length (Scaled d1)) (List.length (Scaled d0))) with false
    by (symmetry; by apply Nat.eqb_neq).
  destruct (Scaled d1) as [|x [|y l]]; simpl in H2; [lia|lia|done].
Qed.

(** ** Properties *)

(** C28: The loop of fraction sliders either raises
    [StreamlitAPIException] (a slider whose range [0.01 .. 1 - total]
    is empty) or gives one fraction per stock, each between 0.01 and 1,
    whose total, [total_ratio], is their sum and at most 1. *)
Theorem frac_sliders_spec (picks : list Q) :
  match frac_sliders picks with
  | inr (fracs, total) =>
      List.length fracs = List.length picks /\ total == sumQ fracs /\ 0 <= total <= 1 /\
      Forall (fun x => 1 # 100 <= x <= 1) fracs
  | inl e => e = StreamlitAPIException
  end.
Proof.
  assert (H0 : fracs_ok ([], 0)) by (split_and!; simpl; [reflexivity|lra|lra|done]).
  pose proof (frac_sliders_loop picks [] 0 H0) as H. unfold frac_sliders.
  destruct (fold_res _ _ picks) as [e|[fr total]]; [done|].
  destruct H as [(Ht & [Hr0 Hr1] & Hall) Hlen]. simpl in *. by split_and!.
Qed.

(** C29: On price series of one length [n], ["Display current portfolio"]
    computes without raising a curve of [n] values whose value at date
    [k] is the sum of [stock_frac[i] * price_i[k] / price_i[0]]. *)
Theorem cumulative_return_spec (prices : list (list Q)) (fracs : list Q) (n : nat)
    (dfs : list stock) (avg_rtns avg_vols : list Q) :
  load_data prices = inr (dfs, avg_rtns, avg_vols) -> prices <> [] ->
  Forall (fun p => List.length p = n) prices ->
  exists cost, cumulative_return fracs dfs = inr cost /\ List.length cost = n /\
    forall k, (k < n)%nat ->
      cost !! k = Some (py_sumQ (map (fun '(f, p) => f * (nth k p 0 / nth 0 p 0)) (zip fracs prices))).
Proof.
  intros Hload Hne Hn. pose proof (load_data_frames _ _ _ _ Hload) as Hfr.
  assert (Hd : Forall (fun d => List.length (Scaled d) = n) dfs).
  { clear Hload Hne. induction Hfr as [|p d prices dfs [Hs _] _ IH]; [constructor|].
    apply Forall_cons in Hn as [Hp Hn]. constructor; [by rewrite Hs, length_map|by apply IH]. }
  destruct dfs as [|d0 dfs]; [by inversion Hfr; subst|]. unfold cumulative_return.
  destruct (cumulative_loop (zip fracs (d0 :: dfs)) (replicate (List.length (Scaled d0)) 0) n)
    as (cost & Hc & Hlen & Hk); [by rewrite length_replicate; apply Forall_inv in Hd|by apply Forall_zip_snd|].
  exists cost. split_and!; [done|done|]. intros k Hkn. rewrite <-(scaled_terms fracs prices (d0 :: dfs) n k) by done.
  apply Hk. apply lookup_replicate_2. apply Forall_inv in Hd. lia.
Qed.

(** C30: The Monte-Carlo frontier reports the draw of largest Sharpe
    ratio, the first such draw: its normalised weights, return and
    volatility, no draw having a larger ratio and every earlier draw a
    smaller one. *)
Theorem frontier_best (avg_rtns : list Q) (c : list (list Q)) (draws : list (list Q)) :
  draws <> [] ->
  exists k raw, draws !! k = Some raw /\
    frontier avg_rtns c draws =
      inr (normalize raw, portfolio_return avg_rtns (normalize raw), portfolio_volatility c (normalize raw)) /\
    forall j raw', draws !! j = Some raw' ->
      (frontier_draw avg_rtns c raw').2 <= (frontier_draw avg_rtns c raw).2 /\
      ((j < k)%nat -> (frontier_draw avg_rtns c raw').2 < (frontier_draw avg_rtns c raw).2).
Proof.
  intros Hne. unfold frontier.
  set (sel := fun r : list Q * Q * Q * Q => let '(_, _, _, s) := r in s).
  assert (Hsel : forall raw, sel (frontier_draw avg_rtns c raw) = (frontier_draw avg_rtns c raw).2) by done.
  destruct (argmax_is_Some (map sel (map (frontier_draw avg_rtns c) draws))) as [k Hk];
    [by destruct draws|].
  rewrite Hk. destruct (argmax_spec _ _ Hk) as (m & Hm & Hle & Hlt).
  rewrite !list_lookup_fmap in Hm. destruct (draws !! k) as [raw|] eqn:Hraw; [|done].
  simpl in Hm. injection Hm as <-. exists k, raw. split_and!; [done|by rewrite list_lookup_fmap, Hraw|].
  intros j raw' Hj. rewrite <-!Hsel. split.
  - apply (Hle j). by rewrite !list_lookup_fmap, Hj.
  - intros Hjk. apply (Hlt j); [done|]. by rewrite !list_lookup_fmap, Hj.
Qed.

End Page.

(** ** Examples and witnesses *)

(** A first fraction of 1.0 leaves the second slider the empty range
    [0.01 .. 0.0]: with two stocks the page raises. *)
Example frac_sliders_first_full : frac_sliders [1; 1] = inl StreamlitAPIException.
Proof. reflexivity. Qed.

(** The diagonal of [covars] is not the variance [load_data] reports:
    for the returns [NaN, 1, -1], [covars[0][0]] is [1008/5] and
    [avg_vols[0]] is [504]. *)
Example covars_diagonal_not_variance :
  (exists v, mat_get (Portfolio.covars [[None; Some 1; Some (-1)]] 1) 0 0 = Some v /\ v == 1008 # 5) /\
  Portfolio.cov1 (skipna [None; Some 1; Some (-1)]) * 252 == 504.
Proof. split; [eexists; split|]; vm_compute; reflexivity. Qed.

Definition sample_prices : list (list Q) := [[1; 2; 4]; [2; 1; 1]].

Definition sample_frames : list stock :=
  [Stock (diff_series (fun x => x) [1; 2; 4]) (map (fun q => q / 1) [1; 2; 4]);
   Stock (diff_series (fun x => x) [2; 1; 1]) (map (fun q => q / 2) [2; 1; 1])].

Lemma cumulative_return_spec_witness :
  exists cost, cumulative_return [1 # 4; 1 # 2] sample_frames = inr cost /\ List.length cost = 3%nat /\
    forall k, (k < 3)%nat ->
      cost !! k = Some (py_sumQ (map (fun '(f, p) => f * (nth k p 0 / nth 0 p 0)) (zip [1 # 4; 1 # 2] sample_prices))).
Proof.
  apply (cumulative_return_spec (fun x => x) sample_prices [1 # 4; 1 # 2] 3 sample_frames
           (map (fun d => Portfolio.mean (skipna (Diff d)) * 252) sample_frames)
           (map (fun d => Portfolio.cov1 (skipna (Diff d)) * 252) sample_frames)).
  - vm_compute. reflexivity.
  - discriminate.
  - repeat constructor.
Defined.

Lemma frontier_best_witness :
  exists k raw, [[1; 0]; [0; 1]; [1; 1]] !! k = Some raw /\
    frontier (fun x => x) [1; 2] [[1; 0]; [0; 1]] [[1; 0]; [0; 1]; [1; 1]] =
      inr (normalize raw, portfolio_return [1; 2] (normalize raw), portfolio_volatility (fun x => x) [[1; 0]; [0; 1]] (normalize raw)) /\
    forall j raw', [[1; 0]; [0; 1]; [1; 1]] !! j = Some raw' ->
      (frontier_draw (fun x => x) [1; 2] [[1; 0]; [0; 1]] raw').2 <= (frontier_draw (fun x => x) [1; 2] [[1; 0]; [0; 1]] raw).2 /\
      ((j < k)%nat -> (frontier_draw (fun x => x) [1; 2] [[1; 0]; [0; 1]] raw').2 < (frontier_draw (fun x => x) [1; 2] [[1; 0]; [0; 1]] raw).2).
Proof. apply (frontier_best (fun x => x) [1; 2] [[1; 0]; [0; 1]] [[1; 0]; [0; 1]; [1; 1]]). discriminate. Defined.

End PortfolioApp.
