(* ===== verification/ForexIndicators.v ===== *)
(** * The indicators of the forex viewer: [src/forex_hist.py], [ForexHist]

    [Module ForexIndicators] models the columns [ForexHist.get_data]
    adds to the downloaded frame: the exponential moving averages
    [Close.ewm(span=9).mean()] and [Close.ewm(span=20).mean()] and the
    Bollinger band of [Close.rolling(window=20)].  An [ewm] mean (pandas'
    default [adjust=True]) is given twice: [ewm_mean], the weighted
    average [sum (1-a)^(t-i) x_i / sum (1-a)^(t-i)] pandas documents, and
    [ewm_pandas], the one-pass update of [old_wt] and [weighted_avg]
    pandas runs.  A rolling statistic is NaN ([None]) until the window
    is full.  Prices are exact rationals without NaN; [np.sqrt] of the
    standard deviation is the variable [sqrt] of [Section Bands]. *)

From stdpp Require Import base list.
From Stdlib Require Import QArith Qfield Lqa Lia.
From S2P Require Import Prelude QMatrix Portfolio.

Module ForexIndicators.

Local Open Scope Q_scope.

(** ** Exponential moving averages *)

(** The decay [1 - alpha] of [ewm(span=s)], [alpha = 2 / (s + 1)]. *)
Definition decay (span : positive) : Q := 1 - 2 / (inject_Z (Z.pos span) + 1).

(** The weights of [n] values, oldest first: [w^(n-1), ..., w, 1]. *)
Fixpoint ewm_weights (w : Q) (n : nat) : list Q :=
  match n with
  | O => []
  | S n => map (Qmult w) (ewm_weights w n) ++ [1]
  end.

(** The mean of the values [xs] seen so far, weighted by [ewm_weights]. *)
Definition ewm_ref (w : Q) (xs : list Q) : Q :=
  sumQ (zip_with Qmult (ewm_weights w (List.length xs)) xs) / sumQ (ewm_weights w (List.length xs)).

(** [ewm(...).mean()] as documented: at date [t], [ewm_ref] of the
    first [t + 1] values. *)
Definition ewm_mean (w : Q) (xs : list Q) : list Q :=
  map (fun t => ewm_ref w (take t xs)) (seq 1 (List.length xs)).

(** pandas' loop: [old_wt *= 1 - alpha], then, unless the new value
    equals the average, [weighted_avg = (old_wt * weighted_avg + cur) /
    (old_wt + 1)], then [old_wt += 1]. *)
Fixpoint ewm_loop (w old_wt avg : Q) (xs : list Q) : list Q :=
  match xs with
  | [] => []
  | x :: xs =>
      let old_wt := old_wt * w in
      let avg := if Qeq_bool avg x then avg else (old_wt * avg + x) / (old_wt + 1) in
      avg :: ewm_loop w (old_wt + 1) avg xs
  end.

Definition ewm_pandas (w : Q) (xs : list Q) : list Q :=
  match xs with
  | [] => []
  | x :: xs => x :: ewm_loop w 1 x xs
  end.

(** ** Rolling windows *)

(** [rolling(window=win).f()]: NaN until [win] values are in the
    window, then [f] of the last [win] values. *)
Definition rolling (f : list Q -> Q) (win : nat) (xs : list Q) : list (option Q) :=
  map (fun t => if (t + 1 <? win)%nat then None else Some (f (take win (drop (t + 1 - win) xs))))
      (seq 0 (List.length xs)).

(** NaN propagates through [+] and [*]. *)
Definition nan_map2 (f : Q -> Q -> Q) (a b : list (option Q)) : list (option Q) :=
  zip_with (fun x y => x ≫= fun x => y ≫= fun y => Some (f x y)) a b.

(** The frame after [get_data]: the download and the added columns. *)
Record frame := Frame {
  Close : list Q;
  EMA9 : list Q;
  EMA20 : list Q;
  Mean : list (option Q);
  Std : list (option Q);
  Bol_Hi : list (option Q);
  Bol_Lo : list (option Q)
}.

Section Bands.

(** [np.sqrt], which the rationals lack *)
Variable sqrt : Q -> Q.

(** [Series.std()]: the square root of the sample variance. *)
Definition std (xs : list Q) : Q := sqrt (Portfolio.cov1 xs).

(** [get_EMA9], [get_EMA20], [get_Bollinger], run by [get_data] in
    that order on the downloaded closing prices. *)
Definition get_data (close : list Q) : frame :=
  let mean := rolling Portfolio.mean 20 close in
  let sd := rolling std 20 close in
  Frame close (ewm_pandas (decay 9) close) (ewm_pandas (decay 20) close) mean sd
        (nan_map2 (fun m s => m + s * 2) mean sd) (nan_map2 (fun m s => m - s * 2) mean sd).

End Bands.

(** ** Lemmas *)

(** *** Weighted sums *)

Lemma length_ewm_weights (w : Q) (n : nat) : List.length (ewm_weights w n) = n.
Proof. induction n as [|n IH]; [done|]. simpl. rewrite length_app, length_map, IH. simpl. lia. Qed.

Lemma sumQ_zip_scale (w : Q) (a b : list Q) :
  sumQ (zip_with Qmult (map (Qmult w) a) b) == w * sumQ (zip_with Qmult a b).
Proof. revert b. induction a as [|x a IH]; intros [|y b]; simpl; try ring. rewrite IH. ring. Qed.

Lemma sumQ_scale (w : Q) (a : list Q) : sumQ (map (Qmult w) a) == w * sumQ a.
Proof. induction a as [|x a IH]; simpl; [ring|]. rewrite IH. ring. Qed.

(** The two sums of [ewm_ref] after one more value: [num' = w num + x]
    and [den' = w den + 1]. *)
Lemma ewm_num_snoc (w x : Q) (p : list Q) :
  sumQ (zip_with Qmult (ewm_weights w (List.length (p ++ [x]))) (p ++ [x])) ==
  w * sumQ (zip_with Qmult (ewm_weights w (List.length p)) p) + x.
Proof.
  rewrite length_app, Nat.add_1_r. simpl. rewrite zip_with_app by (by rewrite length_map, length_ewm_weights).
  rewrite sumQ_app, sumQ_zip_scale. simpl. ring.
Qed.

Lemma ewm_den_snoc (w : Q) (n : nat) :
  sumQ (ewm_weights w (S n)) == w * sumQ (ewm_weights w n) + 1.
Proof. simpl. rewrite sumQ_app, sumQ_scale. simpl. ring. Qed.

Lemma ewm_weights_nonneg (w : Q) (n : nat) : 0 <= w -> Forall (fun v => 0 <= v) (ewm_weights w n).
Proof.
  intros Hw. induction n as [|n IH]; simpl; [constructor|]. apply Forall_app. split; [|repeat constructor; lra].
  apply Forall_fmap. eapply Forall_impl; [exact IH|]. intros v Hv. simpl. by apply Qmult_le_0_compat.
Qed.

(** The weights of a non-empty prefix add up to at least 1. *)
Lemma ewm_den_ge_1 (w : Q) (n : nat) : 0 <= w -> (1 <= n)%nat -> 1 <= sumQ (ewm_weights w n).
Proof.
  intros Hw Hn. destruct n as [|n]; [lia|]. rewrite ewm_den_snoc.
  assert (0 <= sumQ (ewm_weights w n)) by (apply sumQ_nonneg, ewm_weights_nonneg, Hw).
  pose proof (Qmult_le_0_compat _ _ Hw H). lra.
Qed.

Lemma decay_nonneg (span : positive) : 0 <= decay span.
Proof.
  unfold decay. assert (H : inject_Z 1 <= inject_Z (Z.pos span)) by (rewrite <-Zle_Qle; lia).
  change (inject_Z 1) with 1 in H.
  assert (2 / (inject_Z (Z.pos span) + 1) <= 1) by (apply Qle_shift_div_r; lra). lra.
Qed.

(** *** pandas' loop computes the weighted average *)

Lemma ewm_step (w old avg x : Q) (p : list Q) :
  0 <= w -> p <> [] -> old == sumQ (ewm_weights w (List.length p)) ->
  avg == ewm_ref w p ->
  (if Qeq_bool avg x then avg else (old * w * avg + x) / (old * w + 1)) == ewm_ref w (p ++ [x]) /\
  old * w + 1 == sumQ (ewm_weights w (List.length (p ++ [x]))).
Proof.
  intros Hw Hp Hold Havg. unfold ewm_ref in *. rewrite ewm_num_snoc.
  rewrite length_app, Nat.add_1_r, ewm_den_snoc. rewrite <-Hold.
  assert (HD : 1 <= old) by (rewrite Hold; apply ewm_den_ge_1; [done|destruct p; [done|simpl; lia]]).
  assert (HD' : 0 <= old * w) by (apply Qmult_le_0_compat; lra).
  set (N := sumQ (zip_with Qmult (ewm_weights w (List.length p)) p)) in *.
  rewrite <-Hold in Havg. split; [|ring].
  destruct (Qeq_bool avg x) eqn:Hx.
  - apply Qeq_bool_iff in Hx. rewrite <-Hx, Havg. field. split; lra.
  - rewrite Havg. field. split; lra.
Qed.

Lemma seq_take_shift (f : list Q -> Q) (p : list Q) (x : Q) (xs : list Q) :
  map (fun t => f (p ++ take t (x :: xs))) (seq 2 (List.length xs)) =
  map (fun t => f ((p ++ [x]) ++ take t xs)) (seq 1 (List.length xs)).
Proof.
  rewrite <-seq_shift, map_map. apply map_ext. intros t. simpl. by rewrite <-app_assoc.
Qed.

Lemma ewm_loop_ref (w : Q) (xs p : list Q) (old avg : Q) :
  0 <= w -> p <> [] -> old == sumQ (ewm_weights w (List.length p)) -> avg == ewm_ref w p ->
  Forall2 Qeq (ewm_loop w old avg xs) (map (fun t => ewm_ref w (p ++ take t xs)) (seq 1 (List.length xs))).
Proof.
  revert p old avg. induction xs as [|x xs IH]; intros p old avg Hw Hp Hold Havg; [constructor|].
  destruct (ewm_step w old avg x p Hw Hp Hold Havg) as [Hhead Hden]. simpl. constructor; [done|].
  rewrite (seq_take_shift (ewm_ref w) p x xs). apply IH; [done|by destruct p|done|done].
Qed.

(** *** Bounds of a weighted average *)

Lemma sumQ_zip_bounds (ws xs : list Q) (lo hi : Q) :
  Forall (fun v => 0 <= v) ws -> List.length ws = List.length xs -> Forall (fun x => lo <= x <= hi) xs ->
  lo * sumQ ws <= sumQ (zip_with Qmult ws xs) <= hi * sumQ ws.
Proof.
  revert xs. induction ws as [|v ws IH]; intros [|x xs] Hws Hlen Hxs; simpl in *; try lia; [lra|].
  apply Forall_cons in Hws as [Hv Hws]. apply Forall_cons in Hxs as [[Hlo Hhi] Hxs].
  destruct (IH xs Hws ltac:(lia) Hxs) as [IH1 IH2].
  assert (lo * v <= v * x) by (rewrite (Qmult_comm v x); by apply Qmult_le_compat_r).
  assert (v * x <= hi * v) by (rewrite (Qmult_comm v x); by apply Qmult_le_compat_r).
  split; lra.
Qed.

Lemma ewm_ref_bounds (w lo hi : Q) (xs : list Q) :
  0 <= w -> xs <> [] -> Forall (fun x => lo <= x <= hi) xs -> lo <= ewm_ref w xs <= hi.
Proof.
  intros Hw Hne Hxs. unfold ewm_ref.
  assert (HD : 1 <= sumQ (ewm_weights w (List.length xs))) by (apply ewm_den_ge_1; [done|destruct xs; [done|simpl; lia]]).
  destruct (sumQ_zip_bounds (ewm_weights w (List.length xs)) xs lo hi) as [H1 H2];
    [by apply ewm_weights_nonneg|by rewrite length_ewm_weights|done|].
  split; [apply Qle_shift_div_l|apply Qle_shift_div_r]; lra.
Qed.

(** *** Rolling windows and NaN *)

Lemma length_rolling (f : list Q -> Q) (win : nat) (xs : list Q) : List.length (rolling f win xs) = List.length xs.
Proof. unfold rolling. by rewrite length_map, length_seq. Qed.

Lemma lookup_rolling (f : list Q -> Q) (win : nat) (xs : list Q) (t : nat) :
  (t < List.length xs)%nat ->
  rolling f win xs !! t = Some (if (t + 1 <? win)%nat then None else Some (f (take win (drop (t + 1 - win) xs)))).
Proof. intros Ht. unfold rolling. rewrite list_lookup_fmap, lookup_seq_lt by done. done. Qed.

Lemma length_nan_map2 (f : Q -> Q -> Q) (a b : list (option Q)) :
  List.length (nan_map2 f a b) = Nat.min (List.length a) (List.length b).
Proof. apply length_zip_with. Qed.

Lemma lookup_nan_map2 (f : Q -> Q -> Q) (a b : list (option Q)) (t : nat) (x y : option Q) :
  a !! t = Some x -> b !! t = Some y -> nan_map2 f a b !! t = Some (x ≫= fun x => y ≫= fun y => Some (f x y)).
Proof. intros Ha Hb. unfold nan_map2. by rewrite lookup_zip_with, Ha, Hb. Qed.

(** A window of the rolling statistics holds [win] values of [xs]. *)
Lemma rolling_window (win : nat) (xs : list Q) (t : nat) :
  (t < List.length xs)%nat -> (win <= t + 1)%nat ->
  List.length (take win (drop (t + 1 - win) xs)) = win.
Proof. intros Ht Hw. rewrite length_take, length_drop. lia. Qed.

(** *** Bounds of pandas' loop *)

(** One update is a convex combination of the average and the new value. *)
Lemma ewm_update_bounds (c avg x lo hi : Q) :
  0 <= c -> lo <= avg <= hi -> lo <= x <= hi ->
  lo <= (if Qeq_bool avg x then avg else (c * avg + x) / (c + 1)) <= hi.
Proof.
  intros Hc [Ha1 Ha2] [Hx1 Hx2]. destruct (Qeq_bool avg x); [lra|].
  assert (c * lo <= c * avg) by (rewrite !(Qmult_comm c); by apply Qmult_le_compat_r).
  assert (c * avg <= c * hi) by (rewrite !(Qmult_comm c); by apply Qmult_le_compat_r).
  split; [apply Qle_shift_div_l|apply Qle_shift_div_r]; lra.
Qed.

Lemma ewm_loop_bounds (w old avg lo hi : Q) (xs : list Q) (t : nat) (y : Q) :
  0 <= w -> 0 <= old -> lo <= avg <= hi ->
  ewm_loop w old avg xs !! t = Some y -> Forall (fun x => lo <= x <= hi) (take (S t) xs) -> lo <= y <= hi.
Proof.
  revert old avg t. induction xs as [|x xs IH]; intros old avg t Hw Hold Havg Hy Hxs; [done|].
  cbn [take] in Hxs. apply Forall_cons in Hxs as [Hx Hxs].
  assert (Hc : 0 <= old * w) by (by apply Qmult_le_0_compat).
  pose proof (ewm_update_bounds (old * w) avg x lo hi Hc Havg Hx) as Hnext.
  destruct t as [|t]; simpl in Hy; [by injection Hy as <-|].
  eapply IH; [done| |exact Hnext|exact Hy|done]. lra.
Qed.

Lemma length_ewm_loop (w old avg : Q) (xs : list Q) : List.length (ewm_loop w old avg xs) = List.length xs.
Proof. revert old avg. induction xs as [|x xs IH]; intros old avg; simpl; [done|by rewrite IH]. Qed.

Lemma length_ewm_pandas (w : Q) (xs : list Q) : List.length (ewm_pandas w xs) = List.length xs.
Proof. destruct xs as [|x xs]; simpl; [done|by rewrite length_ewm_loop]. Qed.

(** A rolling cell is NaN exactly while the window is not full. *)
Lemma rolling_cell (f : list Q -> Q) (win : nat) (xs : list Q) (t : nat) :
  (t < List.length xs)%nat ->
  exists v, rolling f win xs !! t = Some v /\ (v = None <-> (t + 1 < win)%nat) /\
    (forall q, v = Some q -> q = f (take win (drop (t + 1 - win) xs))).
Proof.
  intros Ht. rewrite lookup_rolling by done. eexists. split; [done|].
  destruct (Nat.ltb_spec (t + 1) win); split; try done; [|naive_solver]. split; [done|lia].
Qed.

Lemma nan_map2_cell (f : Q -> Q -> Q) (a b : list (option Q)) (t : nat) (x y : option Q) :
  a !! t = Some x -> b !! t = Some y -> (x = None <-> y = None) ->
  exists v, nan_map2 f a b !! t = Some v /\ (v = None <-> x = None).
Proof.
  intros Ha Hb Hxy. rewrite (lookup_nan_map2 _ _ _ _ _ _ Ha Hb). eexists. split; [done|].
  destruct x, y; simpl; naive_solver.
Qed.

Lemma nan_map2_Some (f : Q -> Q -> Q) (a b : list (option Q)) (t : nat) (v : Q) :
  nan_map2 f a b !! t = Some (Some v) ->
  exists x y, a !! t = Some (Some x) /\ b !! t = Some (Some y) /\ v = f x y.
Proof.
  unfold nan_map2. intros (x & y & Hv & Ha & Hb)%lookup_zip_with_Some.
  destruct x as [x|], y as [y|]; simplify_eq/=. eauto.
Qed.

(** Where the band is drawn, the lower line is below the mean and the
    upper line above it. *)
Lemma bollinger_order (sqrt : Q -> Q) (close : list Q) (t : nat) (lo m hi : Q) :
  (forall q, 0 <= sqrt q) ->
  Bol_Lo (get_data sqrt close) !! t = Some (Some lo) -> Mean (get_data sqrt close) !! t = Some (Some m) ->
  Bol_Hi (get_data sqrt close) !! t = Some (Some hi) -> lo <= m <= hi.
Proof.
  simpl. intros Hsqrt (m1 & d1 & Hm1 & Hd1 & ->)%nan_map2_Some Hm (m2 & d2 & Hm2 & Hd2 & ->)%nan_map2_Some.
  rewrite Hm in Hm1, Hm2. simplify_eq.
  assert (Hd : 0 <= d1).
  { apply lookup_lt_Some in Hd1 as Ht. rewrite length_rolling in Ht.
    destruct (rolling_cell (std sqrt) 20 close t Ht) as (v & Hv & _ & Hq). rewrite Hd1 in Hv. simplify_eq.
    rewrite (Hq d1 eq_refl). apply Hsqrt. }
  split; lra.
Qed.

(** ** Properties *)

(** pandas' one-pass update computes the exponential moving average
    it documents: for every span and every price series, [ewm_pandas]
    is, date by date, the average of the prices so far weighted by
    [(1 - alpha)^(t - i)]. *)
Theorem ewm_equiv (span : positive) (xs : list Q) :
  Forall2 Qeq (ewm_pandas (decay span) xs) (ewm_mean (decay span) xs).
Proof.
  pose proof (decay_nonneg span) as Hw. destruct xs as [|x xs]; [constructor|].
  unfold ewm_pandas, ewm_mean. simpl List.length. rewrite <-cons_seq. simpl map. constructor.
  - unfold ewm_ref. simpl. field.
  - pose proof (seq_take_shift (ewm_ref (decay span)) [] x xs) as E. cbn [app] in E. rewrite E.
    apply (ewm_loop_ref (decay span) xs [x] 1 x); [done|done| |].
    + simpl. ring.
    + unfold ewm_ref. simpl. field.
Qed.

(** Every value of an exponential moving average lies between the
    smallest and the largest price seen up to its date. *)
Theorem ewm_bounds (span : positive) (xs : list Q) (t : nat) (y lo hi : Q) :
  ewm_pandas (decay span) xs !! t = Some y -> Forall (fun x => lo <= x <= hi) (take (S t) xs) ->
  lo <= y <= hi.
Proof.
  pose proof (decay_nonneg span) as Hw. destruct xs as [|x xs]; [done|].
  cbn [take]. intros Hy [Hx Hxs]%Forall_cons. destruct t as [|t]; simpl in Hy; [by injection Hy as <-|].
  eapply ewm_loop_bounds; [done| |exact Hx|exact Hy|done]. lra.
Qed.

(** C21: The frame [get_data] builds is well typed: every column has one
    cell per date, the two moving averages hold a number at every date,
    and the rolling mean and deviation and both Bollinger lines are NaN
    exactly at the first 19 dates (all dates when fewer than 20 prices
    were downloaded) and numbers afterwards. *)
Theorem get_data_columns (sqrt : Q -> Q) (close : list Q) :
  let fr := get_data sqrt close in
  List.length (EMA9 fr) = List.length close /\ List.length (EMA20 fr) = List.length close /\
  Forall (fun col => List.length col = List.length close) [Mean fr; Std fr; Bol_Hi fr; Bol_Lo fr] /\
  forall t, (t < List.length close)%nat ->
    Forall (fun col => exists v, col !! t = Some v /\ (v = None <-> (t < 19)%nat))
           [Mean fr; Std fr; Bol_Hi fr; Bol_Lo fr].
Proof.
  simpl. rewrite !length_ewm_pandas. split_and!; [done|done| |].
  - repeat constructor; rewrite ?length_nan_map2, !length_rolling; lia.
  - intros t Ht.
    destruct (rolling_cell Portfolio.mean 20 close t Ht) as (m & Hm & Hmn & _).
    destruct (rolling_cell (std sqrt) 20 close t Ht) as (d & Hd & Hdn & _).
    assert (Hmd : m = None <-> d = None) by (rewrite Hmn, Hdn; done).
    destruct (nan_map2_cell (fun m s => m + s * 2) _ _ t m d Hm Hd Hmd) as (hi & Hhi & Hhin).
    destruct (nan_map2_cell (fun m s => m - s * 2) _ _ t m d Hm Hd Hmd) as (lo & Hlo & Hlon).
    repeat constructor; eexists; (split; [eassumption|]); rewrite ?Hhin, ?Hlon, ?Hmn, ?Hdn; lia.
Qed.

(** [pd.Series([1, 2, 3]).ewm(span=9).mean()] is [1, 1.555556, 2.147541]. *)
Example ewm_span9_sample : Forall2 Qeq (ewm_pandas (decay 9) [1; 2; 3]) [1; 14 # 9; 131 # 61].
Proof. vm_compute. repeat constructor. Qed.

(** With 19 prices the Bollinger lines are NaN at every date: the
    button draws nothing. *)
Example bollinger_short_download :
  Forall (fun v => v = None) (Bol_Hi (get_data (fun q => q) (repeat 1 19))).
Proof. vm_compute. repeat constructor. Qed.

(** ** Witnesses *)

Lemma ewm_bounds_witness : 1 <= 9432000 # 4392000 <= 3.
Proof.
  apply (ewm_bounds 9 [1; 2; 3] 2 (9432000 # 4392000) 1 3).
  - vm_compute. reflexivity.
  - repeat constructor; vm_compute; discriminate.
Defined.

Lemma get_data_columns_witness :
  let fr := get_data (fun q => q) [1; 2; 3] in
  List.length (EMA9 fr) = List.length [1; 2; 3] /\ List.length (EMA20 fr) = List.length [1; 2; 3] /\
  Forall (fun col => List.length col = List.length [1; 2; 3]) [Mean fr; Std fr; Bol_Hi fr; Bol_Lo fr] /\
  forall t, (t < List.length [1; 2; 3])%nat ->
    Forall (fun col => exists v, col !! t = Some v /\ (v = None <-> (t < 19)%nat))
           [Mean fr; Std fr; Bol_Hi fr; Bol_Lo fr].
Proof. apply (get_data_columns (fun q => q) [1; 2; 3]). Defined.

End ForexIndicators.
