(* ===== verification/Image.v ===== *)
(** * The image filter demo: [src/image_converter.py]

    [Module Image] models the class [ImageConverter] (the picture read
    by [mplimg.imread], its shape, the four 3x3 filters, the channel
    extraction of the red, green and blue filters, the grey conversion
    and [filter_image], the zero-padded 3x3 window sum) over exact
    rationals, and [Module App] the callbacks of [ImageConverterApp]
    that change its state: the opened photo, the converter, the file
    [tmp.png] and the canvas.  A Tk callback that raises stops there,
    keeps what it already changed and leaves the main loop running, so
    a callback returns its new state with the exception it raised, if
    any.  Floating-point rounding, the file formats, the colour maps and
    the drawing are not modelled. *)

From stdpp Require Import base list strings.
From Stdlib Require Import QArith Qfield Lqa Lia String.
From S2P Require Import Prelude QMatrix.

Module Image.

Local Open Scope Q_scope.

(** One channel, a grey image or a filter: rows of values. *)
Abbreviation grid := (list (list Q)).

(** What [mplimg.imread] returns: rows of pixels, a pixel being the list
    of its channels. *)
Abbreviation picture := (list (list (list Q))).

Inductive error :=
| AttributeError (name : string)
| IndexError
| ValueError
| UnboundLocalError (name : string)
| TclError.

(** ** [ImageConverter] *)

Record converter := Converter { image : picture; image_row : nat; image_col : nat }.

(** [ImageConverter.__init__]: [image.shape[0]] and [image.shape[1]]. *)
Definition make_converter (img : picture) : converter :=
  Converter img (List.length img) (List.length (default [] (head img))).

Definition X_edge_filter : grid := [[1; 2; 1]; [0; 0; 0]; [-1; -2; -1]].
Definition Y_edge_filter : grid := [[1; 0; -1]; [2; 0; -2]; [1; 0; -1]].
(** [np.ones((3,3)) / 9] *)
Definition Blur_filter : grid := replicate 3 (replicate 3 (1 # 9)).
Definition Laplacian_filter : grid := [[0; 1; 0]; [1; -4; 1]; [0; 1; 0]].

(** The [if]/[elif] chain choosing [my_filter]; [None] when no branch is
    taken and [my_filter] stays unbound. *)
Definition select_filter (filter_choice : string) : option grid :=
  if String.eqb filter_choice "X_edge"%string then Some X_edge_filter
  else if String.eqb filter_choice "Y_edge"%string then Some Y_edge_filter
  else if String.eqb filter_choice "Blur"%string then Some Blur_filter
  else if String.eqb filter_choice "Laplacian"%string then Some Laplacian_filter
  else None.

(** [imgPadded = np.zeros((r+2, c+2))] and
    [imgPadded[1:r+1, 1:c+1] = image[:,:]]: the image framed by zeros;
    numpy raises [ValueError] when [image] is not [r] by [c] (the grey
    images the class passes always are). *)
Definition pad (r c : nat) (g : grid) : error + grid :=
  if shape_ok r c g
  then inr ([replicate (c + 2) 0] ++ map (fun row => 0 :: row ++ [0]) g ++ [replicate (c + 2) 0])
  else inl ValueError.

(** [imgPadded[i:i+3, j:j+3]] *)
Definition window (p : grid) (i j : nat) : grid :=
  map (fun row => take 3 (drop j row)) (take 3 (drop i p)).

(** [sum(np.reshape(my_filter[0:3,0:3] * imgPadded[i:i+3,j:j+3], (-1)))]:
    the products of the filter with the window, row by row, summed by
    Python's [sum]. *)
Definition window_sum (f p : grid) (i j : nat) : Q :=
  py_sumQ (List.concat (zip_with (zip_with Qmult) f (window p i j))).

(** [filter_image]: the window sum at every pixel, written into
    [np.zeros((r, c))] by the double loop.  [my_filter] is only read in
    the loop, so an unknown choice raises [UnboundLocalError] at the
    first pixel, and not at all on an empty image. *)
Definition filter_image (conv : converter) (img : grid) (filter_choice : string) : error + grid :=
  let r := image_row conv in
  let c := image_col conv in
  p ← pad r c img;
  match select_filter filter_choice with
  | Some f =>
      inr (fill_loop r c (window_sum f p) (zeros r c))
  | None => if Nat.eqb r 0 || Nat.eqb c 0 then inr (zeros r c) else inl (UnboundLocalError "my_filter"%string)
  end.

(** [self.image[:,:,k]]: numpy raises [IndexError] when a pixel has no
    channel [k]. *)
Definition channel (img : picture) (k : nat) : error + grid :=
  from_option inr (inl IndexError) (mapM (mapM (fun px => px !! k)) img).

(** [a * R] for a number [a] and an array [R]. *)
Definition scale (a : Q) (g : grid) : grid := map (map (Qmult a)) g.

(** [R + G] of two arrays of one shape. *)
Definition add (g h : grid) : grid := zip_with (zip_with Qplus) g h.

(** [imgGray = (0.2989 * R + 0.5870 * G + 0.1140 * B)]. *)
Definition gray (img : picture) : error + grid :=
  R ← channel img 0; G ← channel img 1; B ← channel img 2;
  inr (add (add (scale (2989 # 10000) R) (scale (5870 # 10000) G)) (scale (1140 # 10000) B)).

(** The colour maps given to [mplimg.imsave] ([None]: the default). *)
Inductive cmap := Reds | Greens | Blues | DefaultMap.

(** What [mplimg.imsave("tmp.png", ...)] writes. *)
Record saved := Saved { saved_data : grid; saved_cmap : cmap }.

(** The four buttons [apply_*_filter] of the class. *)
Inductive filter_kind := Red | Green | Blue | XEdge | YEdge | BlurK | LaplacianK.

(** [apply_red_filter], ..., [apply_laplacian_filter]: the image they
    save to [tmp.png]. *)
Definition apply_filter (k : filter_kind) (conv : converter) : error + saved :=
  match k with
  | Red => R ← channel (image conv) 0; inr (Saved R Reds)
  | Green => R ← channel (image conv) 1; inr (Saved R Greens)
  | Blue => R ← channel (image conv) 2; inr (Saved R Blues)
  | XEdge => g ← gray (image conv); out ← filter_image conv g "X_edge"%string; inr (Saved out DefaultMap)
  | YEdge => g ← gray (image conv); out ← filter_image conv g "Y_edge"%string; inr (Saved out DefaultMap)
  | BlurK => g ← gray (image conv); out ← filter_image conv g "Blur"%string; inr (Saved out DefaultMap)
  | LaplacianK => g ← gray (image conv); out ← filter_image conv g "Laplacian"%string; inr (Saved out DefaultMap)
  end.

(** ** The reference: correlation with a zero border *)

(** Pixel [(i, j)] of [g], [0] outside. *)
Definition zpix (g : grid) (i j : Z) : Q :=
  if (0 <=? i)%Z && (0 <=? j)%Z
  then default 0 (mat_get g (Z.to_nat i) (Z.to_nat j)) else 0.

(** [sum over a, b in 0..2 of f[a][b] * g[i+a-1][j+b-1]]. *)
Definition correlate (f g : grid) (i j : nat) : Q :=
  sumQ (map (fun a => sumQ (map (fun b =>
          default 0 (mat_get f a b) * zpix g (Z.of_nat i + Z.of_nat a - 1) (Z.of_nat j + Z.of_nat b - 1))
        (seq 0 3))) (seq 0 3)).

(** ** Lemmas *)

(** *** The padded image *)

Lemma zpix_neg_l (g : grid) (i j : Z) : (i < 0)%Z -> zpix g i j = 0.
Proof. intros Hi. unfold zpix. by replace (0 <=? i)%Z with false by lia. Qed.

Lemma zpix_neg_r (g : grid) (i j : Z) : (j < 0)%Z -> zpix g i j = 0.
Proof. intros Hj. unfold zpix. replace (0 <=? j)%Z with false by lia. by rewrite andb_false_r. Qed.

Lemma zpix_nat (g : grid) (a b : nat) : zpix g (Z.of_nat a) (Z.of_nat b) = default 0 (mat_get g a b).
Proof.
  unfold zpix. rewrite !Nat2Z.id.
  replace (0 <=? Z.of_nat a)%Z with true by (symmetry; apply Z.leb_le; lia).
  by replace (0 <=? Z.of_nat b)%Z with true by (symmetry; apply Z.leb_le; lia).
Qed.

Lemma pad_eq (r c : nat) (g : grid) :
  shape_ok r c g = true ->
  pad r c g = inr ([replicate (c + 2) 0] ++ map (fun row => 0 :: row ++ [0]) g ++ [replicate (c + 2) 0]).
Proof. intros Hg. unfold pad. by rewrite Hg. Qed.

(** Entry [(a, b)] of the padded image is pixel [(a - 1, b - 1)]. *)
Lemma padded_get (r c : nat) (g : grid) (a b : nat) :
  shape_ok r c g = true -> (a < r + 2)%nat -> (b < c + 2)%nat ->
  mat_get ([replicate (c + 2) 0] ++ map (fun row => 0 :: row ++ [0]) g ++ [replicate (c + 2) 0]) a b =
  Some (zpix g (Z.of_nat a - 1) (Z.of_nat b - 1)).
Proof.
  intros Hg Ha Hb. pose proof Hg as (Hl & Hrows)%shape_ok_spec. unfold mat_get.
  destruct a as [|a].
  - simpl. rewrite lookup_replicate_2 by done. by rewrite zpix_neg_l by lia.
  - change (([replicate (c + 2) 0] ++ ?l) !! S a) with (l !! a).
    destruct (decide (a < r)%nat) as [Har|Har].
    + rewrite lookup_app_l by (rewrite length_map; lia). rewrite list_lookup_fmap.
      destruct (lookup_lt_is_Some_2 g a) as [row Hrow]; [lia|]. rewrite Hrow. simpl.
      pose proof (Forall_lookup_1 _ _ _ _ Hrows Hrow) as Hrl. simpl in Hrl.
      replace (Z.of_nat (S a) - 1)%Z with (Z.of_nat a) by lia.
      destruct b as [|b].
      * simpl. by rewrite zpix_neg_r by lia.
      * replace (Z.of_nat (S b) - 1)%Z with (Z.of_nat b) by lia. rewrite zpix_nat.
        simpl. unfold mat_get. rewrite Hrow. simpl.
        destruct (decide (b < c)%nat) as [Hbc|Hbc].
        -- rewrite lookup_app_l by lia. destruct (lookup_lt_is_Some_2 row b) as [v ->]; [lia|]. done.
        -- rewrite lookup_app_r by lia. replace (b - List.length row)%nat with 0%nat by lia.
           rewrite (lookup_ge_None_2 row b) by lia. done.
    + rewrite lookup_app_r by (rewrite length_map; lia). rewrite length_map.
      replace (a - List.length g)%nat with 0%nat by lia. simpl. rewrite lookup_replicate_2 by done.
      replace (Z.of_nat (S a) - 1)%Z with (Z.of_nat a) by lia.
      unfold zpix. destruct ((0 <=? Z.of_nat a)%Z && (0 <=? Z.of_nat b - 1)%Z); [|done].
      rewrite Nat2Z.id, (shape_ok_mat_get_None r c) by (done || lia). done.
Qed.

(** *** The window sums *)

Lemma window_eq (p : grid) (i j : nat) (v : nat -> nat -> Q) :
  (forall a b, (a < 3)%nat -> (b < 3)%nat -> mat_get p (i + a) (j + b) = Some (v a b)) ->
  window p i j = [[v 0 0; v 0 1; v 0 2]; [v 1 0; v 1 1; v 1 2]; [v 2 0; v 2 1; v 2 2]]%nat.
Proof.
  intros H.
  assert (Hrow : forall a, (a < 3)%nat -> exists row, p !! (i + a)%nat = Some row /\
            forall b, (b < 3)%nat -> row !! (j + b)%nat = Some (v a b)).
  { intros a Ha. destruct (p !! (i + a)%nat) as [row|] eqn:E.
    - exists row. split; [done|]. intros b Hb. specialize (H a b Ha Hb). unfold mat_get in H. by rewrite E in H.
    - specialize (H a 0%nat Ha ltac:(lia)). unfold mat_get in H. by rewrite E in H. }
  assert (Htake : forall row a, (forall b, (b < 3)%nat -> row !! (j + b)%nat = Some (v a b)) ->
            take 3 (drop j row) = [v a 0; v a 1; v a 2]%nat).
  { intros row a Hb. apply take3_drop.
    - rewrite <-(Nat.add_0_r j). apply Hb. lia.
    - rewrite <-Nat.add_1_r. apply Hb. lia.
    - replace (S (S j)) with (j + 2)%nat by lia. apply Hb. lia. }
  destruct (Hrow 0%nat) as (r0 & E0 & H0); [lia|]. destruct (Hrow 1%nat) as (r1 & E1 & H1); [lia|].
  destruct (Hrow 2%nat) as (r2 & E2 & H2); [lia|].
  unfold window. rewrite (take3_drop p i r0 r1 r2).
  - simpl. by rewrite (Htake r0 0%nat), (Htake r1 1%nat), (Htake r2 2%nat).
  - by rewrite Nat.add_0_r in E0.
  - by rewrite Nat.add_1_r in E1.
  - by replace (S (S i)) with (i + 2)%nat by lia.
Qed.

(** The window sum on the padded image is the correlation with a zero
    border, for any 3x3 filter. *)
Lemma window_sum_correlate (r c : nat) (g : grid) (i j : nat) (f00 f01 f02 f10 f11 f12 f20 f21 f22 : Q) :
  shape_ok r c g = true -> (i < r)%nat -> (j < c)%nat ->
  window_sum [[f00; f01; f02]; [f10; f11; f12]; [f20; f21; f22]]
    ([replicate (c + 2) 0] ++ map (fun row => 0 :: row ++ [0]) g ++ [replicate (c + 2) 0]) i j ==
  correlate [[f00; f01; f02]; [f10; f11; f12]; [f20; f21; f22]] g i j.
Proof.
  intros Hg Hi Hj. unfold window_sum.
  rewrite (window_eq _ i j (fun a b => zpix g (Z.of_nat i + Z.of_nat a - 1) (Z.of_nat j + Z.of_nat b - 1))).
  - rewrite py_sumQ_sumQ. unfold correlate. simpl. ring.
  - intros a b Ha Hb. rewrite (padded_get r c) by (done || lia). by rewrite !Nat2Z.inj_add.
Qed.

(** *** Channels and the grey image *)

Lemma channel_shape (img : picture) (k c : nat) :
  Forall (fun row => List.length row = c) img ->
  Forall (Forall (fun px => (k < List.length px)%nat)) img ->
  exists R, channel img k = inr R /\ shape_ok (List.length img) c R = true.
Proof.
  intros Hrect Hch. unfold channel.
  destruct (mapM_is_Some_2 (mapM (fun px : list Q => px !! k)) img) as [R HR].
  { eapply Forall_impl; [exact Hch|]. intros row Hrow. apply mapM_is_Some_2.
    eapply Forall_impl; [exact Hrow|]. intros px Hpx. by apply lookup_lt_is_Some_2. }
  rewrite HR. exists R. split; [done|]. apply shape_ok_spec.
  pose proof (mapM_Some_1 _ _ _ HR) as H2. split; [by rewrite (length_mapM _ _ _ HR)|].
  apply Forall_lookup_2. intros a Ra HRa.
  destruct (Forall2_lookup_r _ _ _ _ _ H2 HRa) as (row & Hrow & Hm).
  rewrite <-(length_mapM _ _ _ Hm). by apply (Forall_lookup_1 _ _ _ _ Hrect Hrow).
Qed.

Lemma scale_shape (r c : nat) (a : Q) (g : grid) : shape_ok r c g = true -> shape_ok r c (scale a g) = true.
Proof.
  rewrite !shape_ok_spec. intros [Hl Hrows]. unfold scale. rewrite length_map. split; [done|].
  apply Forall_fmap. eapply Forall_impl; [exact Hrows|]. intros row Hrow. simpl. by rewrite length_map.
Qed.

Lemma add_shape (r c : nat) (g h : grid) :
  shape_ok r c g = true -> shape_ok r c h = true -> shape_ok r c (add g h) = true.
Proof.
  rewrite !shape_ok_spec. intros [Hg Hgr] [Hh Hhr]. unfold add. revert r h Hg Hh Hhr.
  induction g as [|x g IH]; intros r [|y h] Hg Hh Hhr; simpl in *; try (split; [lia|constructor]).
  apply Forall_cons in Hgr as [Hx Hgr]. apply Forall_cons in Hhr as [Hy Hhr].
  destruct (IH Hgr (List.length g) h ltac:(done) ltac:(lia) Hhr) as [Hl Hrows].
  split; [lia|]. constructor; [|done]. rewrite length_zip_with. lia.
Qed.

Lemma gray_shape (img : picture) (c : nat) :
  Forall (fun row => List.length row = c) img ->
  Forall (Forall (fun px => (3 <= List.length px)%nat)) img ->
  exists g, gray img = inr g /\ shape_ok (List.length img) c g = true.
Proof.
  intros Hrect Hch.
  assert (Hk : forall k, (k < 3)%nat -> exists R, channel img k = inr R /\ shape_ok (List.length img) c R = true).
  { intros k Hk. apply channel_shape; [done|]. eapply Forall_impl; [exact Hch|].
    intros row Hrow. eapply Forall_impl; [exact Hrow|]. simpl. lia. }
  destruct (Hk 0%nat) as (R & HR & HRs); [lia|]. destruct (Hk 1%nat) as (G & HG & HGs); [lia|].
  destruct (Hk 2%nat) as (B & HB & HBs); [lia|].
  unfold gray. rewrite HR, HG, HB. eexists. split; [reflexivity|].
  repeat apply add_shape; by apply scale_shape.
Qed.

(** *** [filter_image] *)

Lemma select_filter_3x3 (choice : string) (f : grid) :
  select_filter choice = Some f ->
  exists f00 f01 f02 f10 f11 f12 f20 f21 f22, f = [[f00; f01; f02]; [f10; f11; f12]; [f20; f21; f22]].
Proof.
  unfold select_filter. repeat destruct (String.eqb _ _); intros [= <-]; repeat eexists.
Qed.

Lemma filter_image_eq (conv : converter) (g : grid) (choice : string) (f : grid) :
  select_filter choice = Some f -> shape_ok (image_row conv) (image_col conv) g = true ->
  exists out, filter_image conv g choice = inr out /\
    shape_ok (image_row conv) (image_col conv) out = true /\
    forall i j, (i < image_row conv)%nat -> (j < image_col conv)%nat ->
      exists v, mat_get out i j = Some v /\ v == correlate f g i j.
Proof.
  intros Hsel Hg. unfold filter_image. rewrite pad_eq by done. cbn [mbind sum_bind]. rewrite Hsel.
  eexists. split; [reflexivity|].
  destruct (fill_loop_spec (image_row conv) (image_col conv) (window_sum f
      ([replicate (image_col conv + 2) 0] ++ map (fun row => 0 :: row ++ [0]) g ++
       [replicate (image_col conv + 2) 0])) _ (zeros_shape _ _)) as [Hsh Hget].
  split; [done|]. intros i j Hi Hj. eexists. split; [by apply Hget|].
  destruct (select_filter_3x3 choice f Hsel) as (f00 & f01 & f02 & f10 & f11 & f12 & f20 & f21 & f22 & ->).
  by apply (window_sum_correlate (image_row conv) (image_col conv)).
Qed.

(** The four filter buttons of the class name a filter [select_filter]
    knows. *)
Lemma apply_filter_gray (k : filter_kind) (conv : converter) :
  k = XEdge \/ k = YEdge \/ k = BlurK \/ k = LaplacianK ->
  exists choice f, select_filter choice = Some f /\
    apply_filter k conv = (g ← gray (image conv); out ← filter_image conv g choice; inr (Saved out DefaultMap)).
Proof. intros [-> | [-> | [-> | ->]]]; eexists _, _; (split; [|reflexivity]); reflexivity. Qed.

(** Every row as long as the first one, and every pixel with three
    channels at least: an RGB or RGBA picture. *)
Definition rgb_picture (img : picture) : Prop :=
  Forall (fun row => List.length row = List.length (default [] (head img))) img /\
  Forall (Forall (fun px => (3 <= List.length px)%nat)) img.

Lemma apply_filter_ok (k : filter_kind) (img : picture) :
  rgb_picture img -> exists s, apply_filter k (make_converter img) = inr s.
Proof.
  intros [Hrect Hch].
  assert (Hk : forall k, (k < 3)%nat -> exists R, channel img k = inr R).
  { intros k' Hk'. destruct (channel_shape img k' _ Hrect) as (R & HR & _); [|eauto].
    eapply Forall_impl; [exact Hch|]. intros row Hrow. eapply Forall_impl; [exact Hrow|]. simpl. lia. }
  destruct k; try (destruct (Hk 0%nat) as [R HR]; [lia|]); try (destruct (Hk 1%nat) as [G HG]; [lia|]);
    try (destruct (Hk 2%nat) as [B HB]; [lia|]); simpl; try (rewrite ?HR, ?HG, ?HB; eexists; reflexivity).
  all: destruct (gray_shape img _ Hrect Hch) as (g & Hg & Hgs); rewrite Hg; cbn [mbind sum_bind].
  all: match goal with |- context [filter_image _ _ ?ch] =>
         destruct (filter_image_eq (make_converter img) g ch _ eq_refl Hgs) as (out & -> & _) end.
  all: eexists; reflexivity.
Qed.

(** ** The application [ImageConverterApp] *)

Module App.

(** What the canvas shows: the photo of a file, or the filtered image
    read back from [tmp.png]. *)
Inductive canvas_item := OpenedPhoto (file : string) | FilteredPhoto (s : saved).

(** The attributes the callbacks change; [None] for an attribute not yet
    set ([self.image], [self.filtered_image]) or still [None]
    ([self.imageConverter]). *)
Record app := AppState {
  photo : option string;
  converter : option converter;
  tmp_png : option saved;
  filtered_image : option saved;
  canvas : list canvas_item
}.

(** [ImageConverterApp.__init__]: the widgets and [imageConverter = None]. *)
Definition init : app := AppState None None None None [].

(** [self.canvas.delete("all")] *)
Definition clear_canvas (st : app) : app :=
  AppState (photo st) (converter st) (tmp_png st) (filtered_image st) [].

(** The method of [ImageConverter] each filter button calls. *)
Definition method_name (k : filter_kind) : string :=
  match k with
  | Red => "apply_red_filter" | Green => "apply_green_filter" | Blue => "apply_blue_filter"
  | XEdge => "apply_xedge_filter" | YEdge => "apply_yedge_filter"
  | BlurK => "apply_blur_filter" | LaplacianK => "apply_laplacian_filter"
  end%string.

(** [open_file] for the file [fname] the dialog returns, whose content
    is [pic]; [tk.PhotoImage] raises [TclError] on a format Tk cannot
    read, before anything is set. *)
Definition open_file (fname : string) (tk_readable : bool) (pic : picture) (st : app) : app * option error :=
  if tk_readable
  then (AppState (Some fname) (Some (make_converter pic)) (tmp_png st) (filtered_image st) (canvas st), None)
  else (st, Some TclError).

(** [show_figure] *)
Definition show_figure (st : app) : app * option error :=
  let st := clear_canvas st in
  match photo st with
  | Some f => (AppState (photo st) (converter st) (tmp_png st) (filtered_image st) [OpenedPhoto f], None)
  | None => (st, Some (AttributeError "image"))
  end.

(** [red_filter], ..., [laplacian_filter]: clear the canvas, run the
    filter of the converter (which saves [tmp.png]), read [tmp.png] back
    and draw it. *)
Definition filter_button (k : filter_kind) (st : app) : app * option error :=
  let st := clear_canvas st in
  match converter st with
  | None => (st, Some (AttributeError (method_name k)))
  | Some conv =>
      match apply_filter k conv with
      | inl e => (st, Some e)
      | inr s => (AppState (photo st) (converter st) (Some s) (Some s) [FilteredPhoto s], None)
      end
  end.

(** [save_file]: after the dialog, [self.IC] does not exist. *)
Definition save_file (st : app) : app * option error := (st, Some (AttributeError "IC")).

Inductive event :=
| Open (fname : string) (tk_readable : bool) (pic : picture)
| ShowFigure
| Filter (k : filter_kind)
| Save
| About.

(** One callback of the main loop: the state after it and the exception
    it raised, which Tk reports before it goes on. *)
Definition handle (ev : event) (st : app) : app * option error :=
  match ev with
  | Open fname ok pic => open_file fname ok pic st
  | ShowFigure => show_figure st
  | Filter k => filter_button k st
  | Save => save_file st
  | About => (st, None)
  end.

Inductive reachable : app -> Prop :=
| reachable_init : reachable init
| reachable_step st ev : reachable st -> reachable (fst (handle ev st)).

Lemma reachable_unopened (st : app) : reachable st -> converter st = None -> photo st = None.
Proof.
  induction 1 as [|st ev Hr IH]; [done|].
  destruct ev as [fname [] pic| |k| |]; cbn [handle fst]; try exact IH.
  - done.
  - unfold show_figure, clear_canvas. cbn [photo converter].
    destruct (photo st) eqn:Hp; cbn; intros Hc; specialize (IH Hc); congruence.
  - unfold filter_button, clear_canvas. cbn [converter].
    destruct (converter st) eqn:Hc; [destruct (apply_filter k c)|]; cbn; intros Hc'; first [congruence | by apply IH].
Qed.

End App.

(** ** Properties *)

(** C31: [filter_image] with any of the four filters computes, at every
    pixel of an image of the converter's shape, the correlation of the
    filter with the image framed by zeros: the sum over [a], [b] in
    [0..2] of [f[a][b] * image[i+a-1][j+b-1]], a pixel outside the image
    counting 0; its result has the image's shape. *)
Theorem filter_image_correlation (conv : converter) (g : grid) (choice : string) (f : grid) :
  select_filter choice = Some f -> shape_ok (image_row conv) (image_col conv) g = true ->
  exists out, filter_image conv g choice = inr out /\
    shape_ok (image_row conv) (image_col conv) out = true /\
    forall i j, (i < image_row conv)%nat -> (j < image_col conv)%nat ->
      exists v, mat_get out i j = Some v /\ v == correlate f g i j.
Proof. apply filter_image_eq. Qed.

(** After a picture is opened whose rows have one length and whose
    pixels have three channels at least, each of the seven filter
    buttons succeeds: it saves the filtered image to [tmp.png], reads it
    back and the canvas shows it alone. *)
Theorem filter_after_open_succeeds (st : App.app) (fname : string) (pic : picture) (k : filter_kind) :
  rgb_picture pic ->
  exists s, App.filter_button k (fst (App.open_file fname true pic st)) =
    (App.AppState (Some fname) (Some (make_converter pic)) (Some s) (Some s) [App.FilteredPhoto s], None).
Proof.
  intros Hrgb. destruct (apply_filter_ok k pic Hrgb) as [s Hs].
  exists s. unfold App.filter_button. simpl. by rewrite Hs.
Qed.

(** The buttons have no guard.  Until a picture has been opened, a
    filter button empties the canvas and then raises [AttributeError]
    on [None.apply_..._filter], and Show empties it and raises
    [AttributeError] on [self.image]; Save raises [AttributeError] on
    [self.IC] in every state and changes nothing. *)
Theorem image_app_errors (st : App.app) :
  App.reachable st -> App.converter st = None ->
  (forall k, App.handle (App.Filter k) st = (App.clear_canvas st, Some (AttributeError (App.method_name k)))) /\
  App.handle App.ShowFigure st = (App.clear_canvas st, Some (AttributeError "image"%string)) /\
  (forall st', App.handle App.Save st' = (st', Some (AttributeError "IC"%string))).
Proof.
  intros Hr Hc. pose proof (App.reachable_unopened st Hr Hc) as Hp. split_and!.
  - intros k. simpl. unfold App.filter_button. simpl. by rewrite Hc.
  - simpl. unfold App.show_figure. simpl. by rewrite Hp.
  - done.
Qed.

(** [Blur] on a white 3x3 image: the zero frame darkens the corner to
    [4/9] of the white of the centre. *)
Example blur_darkens_corner :
  exists out, filter_image (Converter [] 3 3) (replicate 3 (replicate 3 1)) "Blur"%string = inr out /\
    Qred (default 0 (mat_get out 0 0)) = 4 # 9 /\ Qred (default 0 (mat_get out 1 1)) = 1.
Proof. eexists. split; [reflexivity|]. vm_compute. split; reflexivity. Qed.

(** The grey weights sum to [0.9999]: a white pixel becomes
    [9999/10000]. *)
Example gray_of_white : Qred <$> (gray [[[1; 1; 1]]] ≫= fun g => inr (default 0 (mat_get g 0 0))) = inr (9999 # 10000).
Proof. vm_compute. reflexivity. Qed.

(** ** Witnesses *)

Lemma filter_image_correlation_witness :
  exists out, filter_image (Converter [] 2 2) [[1; 2]; [3; 4]] "Laplacian"%string = inr out /\
    shape_ok 2 2 out = true /\
    forall i j, (i < 2)%nat -> (j < 2)%nat ->
      exists v, mat_get out i j = Some v /\ v == correlate Laplacian_filter [[1; 2]; [3; 4]] i j.
Proof.
  apply (filter_image_correlation (Converter [] 2 2) [[1; 2]; [3; 4]] "Laplacian"%string Laplacian_filter);
    reflexivity.
Defined.

Lemma filter_after_open_succeeds_witness :
  exists s, App.filter_button BlurK (fst (App.open_file "cat.png"%string true [[[1; 0; 0]; [0; 1; 0]]] App.init)) =
    (App.AppState (Some "cat.png"%string) (Some (make_converter [[[1; 0; 0]; [0; 1; 0]]])) (Some s) (Some s)
       [App.FilteredPhoto s], None).
Proof.
  apply filter_after_open_succeeds. split; repeat constructor; simpl; lia.
Defined.

Lemma image_app_errors_witness :
  (forall k, App.handle (App.Filter k) App.init =
             (App.clear_canvas App.init, Some (AttributeError (App.method_name k)))) /\
  App.handle App.ShowFigure App.init = (App.clear_canvas App.init, Some (AttributeError "image"%string)) /\
  (forall st', App.handle App.Save st' = (st', Some (AttributeError "IC"%string))).
Proof. apply image_app_errors; [apply App.reachable_init|reflexivity]. Defined.

End Image.
