(* ===== verification/SaintSaens.v ===== *)
(** * The composition query page: [src/saint_saens.py]

    [Module SaintSaens] models the Streamlit page [main]: the table
    [load_data] makes of the Wikipedia list ([R] with its empty cells
    filled by [fillna("0").astype(int)]), the genres [df["Genre"].unique()],
    the two query paths of the sidebar (a genre then a title, or an opus
    number parsed with [int()] from [PyString.py_int]) and the tables the
    page writes.  Streamlit runs the whole script again on every
    interaction, so one run is a function of the widget values; the
    value of [selectbox] is the option at the index the user picks
    ([None] when the options are empty), and a button is [True] only in
    the run its click triggers.  The download, the portrait and the text
    of the page are not modelled. *)

From stdpp Require Import base list sets strings.
From Stdlib Require Import Ascii String ZArith.
From S2P Require Import Prelude PyString.

Module SaintSaens.

(** ** The table *)

(** A row of the table [pd.read_html] reads, with the columns [main]
    uses; [w_r] is [None] for an empty ("NaN") cell of [R]. *)
Record wiki_row := WikiRow { w_genre : string; w_title : string; w_r : option Z }.

(** A row of [df]: ["Genre"], ["French title (original title)"], ["R"]. *)
Record row := Row { Genre : string; French_title : string; R : Z }.

(** [df["R"].fillna("0").astype(int)] on one row. *)
Definition load_row (w : wiki_row) : row := Row (w_genre w) (w_title w) (default 0%Z (w_r w)).

(** [load_data]: the columns ["Scoring"] and ["Opus"] dropped, [R]
    filled. *)
Definition load_data (t : list wiki_row) : list row := map load_row t.

(** [Series.unique()]: the values in the order they first appear. *)
Definition unique (l : list string) : list string :=
  foldl (fun acc g => if bool_decide (g ∈ acc) then acc else acc ++ [g]) [] l.

(** ** The widgets *)

(** [st.sidebar.selectbox(label, options, index=0)]: the option the
    user picked. *)
Definition selectbox (options : list string) (index : nat) : option string := options !! index.

(** The values of the sidebar widgets in one run of the script. *)
Record widgets := Widgets {
  use_title : bool;      (** the checkbox ["Select by title"] *)
  use_opus : bool;       (** the checkbox ["Select by opus number"] *)
  genre_index : nat;     (** the genre picked *)
  title_index : nat;     (** the title picked *)
  opus_text : string;    (** the text input, [value=1] *)
  title_button : bool;   (** ["Find details by title"] clicked *)
  opus_button : bool     (** ["Find details by opus"] clicked *)
}.

(** The first run: boxes unticked, the text input showing ["1"]. *)
Definition init_widgets : widgets := Widgets false false 0 0 "1" false false.

Inductive error := ValueError (s : string).

(** ** One run of [main] *)

(** [list(df[df["Genre"] == genre]["French title (original title)"])]
    ([== None] is false on every row). *)
Definition comp_list (df : list row) (genre : option string) : list string :=
  French_title <$> filter (fun x => Some (Genre x) = genre) df.

(** The block [if use_title:]: [display_title] and [title]. *)
Definition title_query (df : list row) (w : widgets) : bool * option string :=
  if use_title w then
    let genre := selectbox (unique (Genre <$> df)) (genre_index w) in
    (title_button w, selectbox (comp_list df genre) (title_index w))
  else (false, None).

(** [if display_title:]: the table of the rows with the chosen title. *)
Definition shown_by_title (df : list row) (w : widgets) : list (list row) :=
  let '(display_title, title) := title_query df w in
  if display_title then [filter (fun x => Some (French_title x) = title) df] else [].

(** [main]: the tables written, in order, and the exception of
    [int(opus_no)], if any. *)
Definition main (df : list row) (w : widgets) : list (list row) * option error :=
  let shown := shown_by_title df w in
  if use_opus w && opus_button w then
    match py_int (opus_text w) with
    | Some n => (shown ++ [filter (fun x => R x = n) df], None)
    | None => (shown, Some (ValueError (opus_text w)))
    end
  else (shown, None).

(** ** Lemmas *)

Lemma unique_acc_elem (acc l : list string) (x : string) :
  x ∈ foldl (fun acc g => if bool_decide (g ∈ acc) then acc else acc ++ [g]) acc l <-> x ∈ acc \/ x ∈ l.
Proof.
  revert acc. induction l as [|g l IH]; intros acc; simpl; [set_solver|].
  rewrite IH. case_bool_decide; set_solver.
Qed.

(** Every genre of [df] is offered, and only those. *)
Lemma unique_elem (l : list string) (x : string) : x ∈ unique l <-> x ∈ l.
Proof. unfold unique. rewrite unique_acc_elem. set_solver. Qed.

Lemma unique_acc_NoDup (acc l : list string) :
  NoDup acc -> NoDup (foldl (fun acc g => if bool_decide (g ∈ acc) then acc else acc ++ [g]) acc l).
Proof.
  revert acc. induction l as [|g l IH]; intros acc Hacc; simpl; [done|].
  apply IH. case_bool_decide; [done|]. apply NoDup_app. split_and!; [done| |by apply NoDup_singleton].
  set_solver.
Qed.

(** Each genre is offered once. *)
Lemma unique_NoDup (l : list string) : NoDup (unique l).
Proof. apply unique_acc_NoDup, NoDup_nil_2. Qed.

(** Filtering the loaded table is loading the filtered rows. *)
Lemma filter_load_data (P : row -> Prop) `{!forall x, Decision (P x)} (t : list wiki_row) :
  filter P (load_data t) = load_data (filter (fun w => P (load_row w)) t).
Proof.
  induction t as [|w t IH]; [done|]. unfold load_data in *. simpl.
  rewrite !filter_cons. case_decide; simpl; by rewrite IH.
Qed.

(** A title of [comp_list df genre] names a row of that genre. *)
Lemma comp_list_elem (df : list row) (genre : option string) (t : string) :
  t ∈ comp_list df genre <-> exists x, x ∈ df /\ Some (Genre x) = genre /\ French_title x = t.
Proof.
  unfold comp_list. rewrite list_elem_of_fmap. setoid_rewrite list_elem_of_filter. naive_solver.
Qed.

(** The title picked is a title of the genre picked, which is a genre of
    [df]. *)
Lemma title_query_picked (df : list row) (w : widgets) (t : string) :
  title_query df w = (true, Some t) ->
  exists x, x ∈ df /\ French_title x = t /\ selectbox (unique (Genre <$> df)) (genre_index w) = Some (Genre x).
Proof.
  unfold title_query. destruct (use_title w); [|done]. intros [= _ Ht].
  apply list_elem_of_lookup_2, comp_list_elem in Ht as (x & Hx & Hg & <-). eauto.
Qed.

(** ** Properties *)

(** A click on ["Find details by opus"] writes, after the table of
    the title query if any, the rows whose [R] equals [int(opus_no)];
    since empty cells of [R] were filled with 0, the number 0 lists
    every work without a catalogue number.  A text that is not an int
    raises [ValueError] and writes no such table. *)
Theorem opus_query (t : list wiki_row) (w : widgets) :
  use_opus w = true -> opus_button w = true ->
  main (load_data t) w =
    match py_int (opus_text w) with
    | Some n => (shown_by_title (load_data t) w ++ [load_data (filter (fun x => default 0%Z (w_r x) = n) t)], None)
    | None => (shown_by_title (load_data t) w, Some (ValueError (opus_text w)))
    end.
Proof.
  intros Hu Hb. unfold main. rewrite Hu, Hb. simpl.
  destruct (py_int (opus_text w)) as [n|]; [|done]. by rewrite filter_load_data.
Qed.

(** A click on ["Find details by title"] after picking a genre and
    one of its titles writes one table: every row with that title, of
    any genre, and at least one row of the genre picked. *)
Theorem title_query_spec (df : list row) (w : widgets) (g t : string) :
  use_title w = true -> title_button w = true ->
  unique (Genre <$> df) !! genre_index w = Some g -> comp_list df (Some g) !! title_index w = Some t ->
  shown_by_title df w = [filter (fun x => French_title x = t) df] /\
  exists x, x ∈ filter (fun x => French_title x = t) df /\ Genre x = g.
Proof.
  intros Hu Hb Hg Ht. unfold shown_by_title, title_query, selectbox. rewrite Hu, Hb, Hg, Ht. split.
  - do 2 f_equal. apply list_filter_iff. intros x. split; [by intros [=]|by intros ->].
  - apply list_elem_of_lookup_2, comp_list_elem in Ht as (x & Hx & [= Hgx] & Htx).
    exists x. rewrite list_elem_of_filter. auto.
Qed.

(** A sample table: two works of the same title in two genres, and a
    work without a catalogue number. *)
Definition sample : list wiki_row :=
  [WikiRow "Opera" "Work A" (Some 5%Z); WikiRow "Chamber" "Work A" (Some 7%Z);
   WikiRow "Chamber" "Work B" None].

(** Querying the opus number 0 lists the work without a catalogue number. *)
Example opus_zero_lists_uncatalogued :
  main (load_data sample) (Widgets false true 0 0 "0" false true) = ([[Row "Chamber" "Work B" 0]], None).
Proof. reflexivity. Qed.

(** ** Witnesses *)

Lemma opus_query_witness :
  main (load_data sample) (Widgets false true 0 0 "0" false true) =
    match py_int "0" with
    | Some n => (shown_by_title (load_data sample) (Widgets false true 0 0 "0" false true) ++
                 [load_data (filter (fun x => default 0%Z (w_r x) = n) sample)], None)
    | None => (shown_by_title (load_data sample) (Widgets false true 0 0 "0" false true), Some (ValueError "0"))
    end.
Proof. apply (opus_query sample (Widgets false true 0 0 "0" false true)); reflexivity. Defined.

Lemma title_query_spec_witness :
  shown_by_title (load_data sample) (Widgets true false 1 0 "1" true false) =
    [filter (fun x => French_title x = "Work A") (load_data sample)] /\
  exists x, x ∈ filter (fun x => French_title x = "Work A") (load_data sample) /\ Genre x = "Chamber".
Proof. apply (title_query_spec _ (Widgets true false 1 0 "1" true false)); reflexivity. Defined.

End SaintSaens.
